(* ===== verification/_CoqProject ===== *)
-Q . S2P
Prelude.v
PyStr.v
Config.v
Ports.v
Registry.v
RegistryOps.v
RegistryLock.v
RegistryConc.v
RegistrySer.v
RegistryCrash.v
ConfigLoad.v
Render.v
HostFs.v
Paths.v
Compose.v
Download.v
ModulesDownload.v
FridaDownload.v
KernelDownload.v
RootfsDownload.v
Snapshot.v
SnapshotOps.v
SnapshotArchive.v
SnapshotForce.v
Api.v
ApiInv.v
ApiOps.v
ApiPeers.v
ApiSpecs.v
ApiVerbs.v
ApiSample.v
RestoreSpecs.v
ApiRaces.v
Qemu.v
BootCache.v
VmBackend.v
Survey.v
Shell.v
Adb.v
AdbOps.v
Health.v
VmOps.v
Backends.v
CliBase.v
Cli.v
CliOps.v
CliVerbs.v
BuildBase.v
Bake.v
Build.v
BuildOps.v
BuildSpecs.v
BuildVerbs.v
BuildSample.v
Lint.v
LintOps.v
CacheKey.v
Settings.v
Console.v
Bench.v
BenchOps.v
AdbSample.v
CliSample.v
