(* ===== verification/Prelude.v ===== *)
(** * Beetroot: a verification library

    Beetroot ([src/src/beetroot]) manages rooted Android phones on a developer's
    machine.  An instance is a directory with a [beetroot.yaml]; a user-wide registry
    gives every instance a port index; an instance runs as a Docker container on the
    host's binder driver or inside a QEMU micro-VM.  This library models the parts
    that decide what happens — the configuration schema, the port allocator, the
    registry, the rendered files, snapshots, the verified downloads, the emulator
    process, its warm-start checkpoint, the micro-VM backend and the host survey — as executable definitions translated from
    the Python code, and proves what makes each of them correct.

    ** Files, in dependency order

    - [Prelude]: this file.  Fallible code ([result]), stateful code ([M], a state and
      error monad that keeps the state an exception leaves), ordered dictionaries
      ([Dict]), lemmas and automation.
    - [PyStr]: Python strings and integers as the code uses them: [split], [join],
      [partition], [strip], substring tests, [str] and [int], the two kinds of regular
      expression match.
    - [Config] ([config.py], schema): the configuration records, every validator, the
      size arithmetic in binary64, GApps and image selection, defaults.
    - [Ports] ([ports.py]): the stride allocator, the extra pool, collisions, the
      lowest free index.
    - [Registry], [RegistryOps] ([registry.py]): the JSON document, the open union of
      backend rows with salvage, every operation of the module; pydantic is the class
      [Pydantic] with the laws [PydanticLaws], instantiated concretely in
      [Registry.Sample].  [RegistryCrash]: [_write] as system calls.  [RegistryLock]:
      the same operations as the steps other processes can see ([prog]), and processes
      that interleave at the lock ([sys_step]); [RegistryConc]: the abstract table of
      rows ([table_op]) and what the steps of one operation may do; [RegistrySer]: every
      interleaving is a serial run on that table, and none hangs.
    - [ConfigLoad] ([config.py], [load_yaml]): version bumps, migrations, the notes
      printed once per path.
    - [Render] ([config.py], rendering): [.env], the compose override, the advisory of
      inert fields, with readers of both files.
    - [HostFs]: the host's directory trees: paths as component lists, a store of
      directories and files, the system calls the code makes, and the relations
      [outside] and [confined] that bound what a call may touch.
    - [Paths] ([paths.py]): the layout of an instance, discovery, per-user directories,
      atomic writes and bundled assets; platformdirs and package resources are the class
      [Layout].
    - [Compose] ([compose.py]): the docker compose calls and the status vocabulary; the
      docker binary is the class [Docker].
    - [Download]: what the four downloaders share — the network as the class [Web] (a
      response is a list of chunks with an optional failure after them), streaming,
      length check, cleaning of temporary files, checksum sidecars.  The state is
      [Download.net]: a tree, the number of requests, the notes.
      [ModulesDownload] ([modules_download.py]), [FridaDownload] ([frida_download.py],
      with the classes [FridaHost] and [Lzma]), [KernelDownload] ([kernel_download.py]),
      [RootfsDownload] ([rootfs_download.py], class [Zstd]).
    - [Snapshot] ([snapshot.py], and the steps of [api.py] it calls): collecting and
      packing an instance, the limits on extraction with sparse members, and
      [restore_local], the part of [restore] that commits, with its staging and rollback.
      The state is [Snapshot.host], a tree and a registry; the archive codec, what a
      removal cannot remove ([remains]) and the other outside code are the class
      [Externals].  [SnapshotOps]: the cases of a restore; [SnapshotArchive]: the round
      trip and the bounds; [SnapshotForce]: forced restores and concrete runs.
    - [Api] ([api.py], instances and manager): the constructors with their rollback, the
      verbs, the listings, over [Api.world]: the tree and the registry of
      [Snapshot.host], the caches of the bundled assets, the docker calls, the requests.
      [yaml.safe_dump] is the class [Dumper].  [ApiInv]: the invariant of the registry and
      the directories; [ApiOps]: what each verb may touch; [ApiPeers]: other instances are
      spared; [ApiSpecs]: creation and adoption; [ApiVerbs]: the other verbs;
      [ApiSample]: a machine on which all of it runs; [RestoreSpecs]: [restore] as a
      whole, the soft network stage after its commit included; [ApiRaces]: two creators
      at once.
    - [Qemu] ([vm/qemu.py]): accelerator, vCPUs, command line, [QemuProcess].  The
      operating system is the class [OS] with the laws [OSLaws].
    - [BootCache] ([vm/boot_cache.py]): identity, overlay, monitor conversation; the
      external tools are the class [Tools] with the laws [ToolsLaws].
    - [VmBackend] ([backends/vm.py]): [up], [down] and the waits, over the two previous
      files; the guest is the class [Guest].
    - [Survey] ([hostcheck.py], [capabilities.py]): binder probe, policy of [up],
      run-mode matrix.
    - [Shell]: [shlex.quote] and the shells between the host and a device, as the class
      [DeviceShell] with the laws [DeviceShellLaws] for the quoting the code uses.
    - [Adb], [AdbOps] ([backends/adb.py]): every operation of an adopted device as the adb
      calls it makes; the adb binary is the class [Adb], whose answers may depend on the
      calls made before.  The state is [Adb.aworld]: downloads, calls, notes.
    - [Health] ([api.py], health checks): the rows of the doctor; sockets are the class
      [Sockets].
    - [VmOps] ([backends/vm.py], beside the running machine): hydration, staging, [apply],
      [destroy] and the doctor rows of a micro-VM, over [VmOps.vdev].
    - [Backends] ([backends/__init__.py], [Manager]): the registry of backends with its entry
      points, and how a row becomes an object of one of the three backends or of a plug-in;
      installed plug-ins are the class [Plugins].
    - [CliBase], [Cli] ([cli.py]): every verb but [build] as it runs after its arguments were
      parsed, and [main].  [CliBase] has the state [cli] (the host, the registry of backends,
      the machine of every micro-VM, the calls of adb, the output, the user's answers), the
      exceptions with the classes the [except] clauses name, and the operations of a device
      of any kind; objects of plug-ins are the class [PluginOps].  [CliOps]: gates, questions,
      [--all], exit codes; [CliVerbs]: creating, adopting, listing, destroying.
    - [BuildBase], [Bake], [Build] ([builder.py], and the verb [build] of [cli.py]): the image
      builder.  [BuildBase] has its state [bstate] (the tree with its links and modes, the
      environment, the output, and the trace of external commands, each with the tree it
      found) and the file calls; what a command does is the class [BuildTools], and may depend
      on the commands before it.  [Bake] is [_RootfsConfig] and [_RootfsAssembly]; [Build] the
      base image, the kernel, the prebuilt fetches with their fall-backs, the preflights and
      the verb.  [BuildOps]: traces, checked downloads, the staging daemon; [BuildSpecs]:
      links, markers, applets; [BuildVerbs]: the base image build, preflights, exit codes;
      [BuildSample]: a host on which a bake goes through.
    - [Lint], [LintOps] ([src/scripts/lint_changelog.py]): the changelog linter; the command
      line it asks for help is the class [Help].  [CacheKey] ([src/scripts/vm_cache_key.py]):
      the key of a set of files.  [Settings] ([settings.py]): the overrides behind their lazy
      proxy; the validation of the environment is the class [Environment].
    - [Console] ([console.py]): the line helpers, the table and the progress context as
      calls of [rich] (the class [Rich], its laws [RichLaws], an instance of both).
      [Bench], [BenchOps] ([src/scripts/bench.py]): samples, means, ratios, regressions and
      the report in binary64; the runner is the class [BenchHost].
    - [AdbSample], [CliSample]: the devices, the micro-VM and the command line at work.

    ** How state and errors correspond

    A Python exception is the error of a [result]; its constructor is named after what
    raised it, with the Python class in a comment.  Code that changes something runs in
    [M] over a record of what it can change: [Registry.world] (the registry file and
    its backup, the notes), [ConfigLoad.load_state] (the once-per-path sets), [Qemu.host]
    (process table, pidfile, console log, clock, signals sent), [BootCache.vmw] (one
    instance directory, its host, the hash memo and a history of launches that only
    the theorems read).  Definitions keep the source's names; a dict is an association
    list where its order can be seen and a [gmap] elsewhere.  Integers of the code are
    unbounded, as Python's; where C integers matter ([os.kill]) the range is explicit.

    The process table is shared with every other process: the environment transforms
    it before each system call, so exit and PID reuse can happen between a check and
    the signal that follows, and nothing is assumed against it: [Qemu.terminate_spec] says
    what holds for every process table, and who is signalled only for one that does not
    give a PID away between two calls ([Qemu.no_rebind]); [Qemu.reused_pid_is_signalled] is a
    table that does.

    A removal of a directory may fail and leave some of it, and the error is then
    [NotRemoved]: what is left is decided by [Externals], for every directory and tree.

    ** What the theorems show

    - Configuration: a configuration is accepted exactly when it satisfies a declared
      invariant; sizes convert exactly and are ordered; images are told apart; legacy
      documents load like their migrated form, with the notes printed once.
    - Ports: resolution succeeds exactly when it can and is position by position; ports
      of different indices never meet and stay in range.
    - Registry: in every reachable state no two instances share an index; writing and
      reading are inverse; unknown rows and unreadable files survive; a new name gets
      the least free index and changes no other row; saving is atomic and durable.
    - Rendering: both files read back as the configuration that was rendered.
    - Emulator: the identity check accepts a launch for its own port and no other;
      termination ends, signals only the recorded PID, each time right after a call at
      which its process passed the check, and leaves neither a pidfile nor a process of ours
      that could be signalled; a failed start leaves no orphan.
    - Boot cache: the identity is a digest of a text that determines the launch; along
      every history a resume only restores the machine it is asked for; the monitor's
      reply decides however it is chunked.
    - Paths: discovery finds the nearest instance; a bundled asset is written atomically.
    - Downloads: what arrives at a destination is complete, has the digest asked for and
      stays under its ceiling; a failed download leaves the previous file and no
      temporary one; staging touches nothing but its target and its cache; downloads
      end whatever the server sends.
    - Snapshots: what is packed is what is extracted; extraction writes no more data than
      the caps allow and nothing outside its target, while the holes of sparse members
      are not counted; a restore changes nothing but its target and the download caches,
      and one that fails leaves the registry as it was and nothing of a new target, but
      for a full registry and for what cannot be removed.
    - API: in every state its commands lead to, one after the other, instances share neither
      an index nor a directory ([ApiRaces]: two creations at once can nest); a verb changes no row and no file of another instance; creation and
      adoption register completely or leave the rows and the directory as they were, with
      the exceptions their theorems name; destruction takes the row and the directory, or
      nothing, or the row and all of the directory that can be removed; a container starts
      only with its files rendered.
    - Devices: a batch install pushes only what was asked for and verified, accounts for
      every module and removes what it pushed; its commands survive both shells; the doctor
      ends in rows.
    - Command line: a verb that a backend does not support, and a question that is not
      answered with yes, change nothing; [--all] selects what it says; exit codes are bytes
      that tell success from failure; [destroy] ends with code 0 only when row and directory
      are gone, also for rows that do not resolve; plug-ins never take over a kind of the
      package.
    - Image builder: nothing that was downloaded is unpacked before its digest is the pinned
      one; the staging daemon is stopped in every outcome, after at most sixty probes; an
      image is packed only from a tree whose two markers name the image in it; the applets
      are busybox; a base image build is one sequence of commands under the lock of its
      clone; a preflight reports all that is missing, and a bake without it is refused.
    - Changelog linter: only the unreleased section is scanned, each source is anchored at
      its line, a clean run means that every cited invocation exists, and the help of a verb
      is asked for once.  Cache key: independent of the order of the files and of the memo.
      Settings: read once, never cached while malformed.
    - Registry under concurrency: every interleaving of any number of processes at the
      lock gives the answers and the file of a serial order, that of time, of their operations on the
      abstract table, no two rows of which share an index, and none waits for ever;
      on a broken file two readers race.
    - Terminal output: messages reach the terminal verbatim on the documented stream, a
      table leaves the console as it was, a progress bar is always taken down.  Benchmark:
      the samples file is only appended to, regressions are exactly the ratios that grew
      beyond the factor, and a report never fails for a slow result.
    - Survey: the matrix agrees with what the launch paths accept.
    - Defects: theorems that exhibit behaviour the code's own comments exclude (a second
      [up] that destroys the checkpoint, a lost VM after renaming the binary, rows that
      are dropped, files that are renamed under the wrong lock, inputs that escape the
      error contract) are stated next to the definitions they are about.

    ** Bounds and fuel

    [Ports.free_from] runs with one more unit than there are used indices and is proved
    to succeed.  [Qemu.poll_fuel] is 51: the grace window of 5000 ms holds at most 50
    sleeps of at least 100 ms; [Qemu.terminate_spec] shows it is never exhausted.
    [VmBackend.wait_fuel] is the budget in seconds plus two, one attempt a second, and
    [VmBackend.failed_wait_leaves_no_orphan] shows it is never exhausted;
    [VmBackend.boot_fuel] is 301: 900 s at 3 s a poll.  The walk of a tree into an
    archive takes the depth of the tree, which [SnapshotArchive.tar_add_complete]
    shows to be enough.  [FridaDownload.download] takes fuel for its decompression loop;
    [FridaDownload.download_terminates] shows that some amount is enough for every
    response; the verbs of [Api] take the same fuel and pass it on.  [ModulesDownload.unique_name] has one more unit than there are names in
    use and is proved fresh.  [BuildBase.follow] goes through at most forty links, as the
    kernel does, and fails with ELOOP beyond them; [_DOCKERD_READY_ATTEMPTS] is the sixty of
    the code.  Time is in integer milliseconds.

    ** What is not modelled

    The shell scripts and templates under [docker/] and [src/beetroot/templates/] run in the
    container or guest; what they read from [.env] is the output of [Render].

    Text is ASCII and its only line break the newline.  I/O errors other than those the
    code branches on are left out.  Pydantic's coercion, YAML and JSON syntax, SHA-256,
    [qemu-img], [adb] and docker are parameters.  In a snapshot, file modes and links that
    stay inside the destination are left out; links that leave it are refused, as the data
    filter does.  A response of the network is a finite list of chunks, so an endless one
    cannot be expressed, and depends on the number of requests made before it and not on
    the files.  Interrupts from the keyboard, other than
    at a prompt, are not modelled.  The
    pidfile, overlay and console log of a micro-VM are a store of their own beside the tree
    of the host.  Typer's parsing is left out, and the verbs do not run on
    [Console]: their output is a list of lines, and the text of an exception in it is the
    exception.  The processes of [RegistryLock] do not crash in the middle of a step and
    the cross-instance port scan is not among their operations; the grant of a lock does not
    look at the asking process itself, which holds none there: no operation nests the
    lock.  [shutil.copytree] copies the tree as it is when it begins, so a destination inside the
    source is outside the model.  In the builder a link is followed at the last component of
    a path only, the contents of a file are one string, and the working directories of the
    commands are taken as they are given. *)
From stdpp Require Import base list strings gmap sorting.
From Stdlib Require Import ZArith Lia.

(** ** Fallible code

    A Python function that may raise is a function into [result E A]: [Ok a] is
    the returned value, [Err e] the exception that left the function. *)

Inductive result (E A : Type) : Type :=
| Ok (a : A)
| Err (e : E).
Arguments Ok {E A} a.
Arguments Err {E A} e.

#[export] Instance result_ret {E} : MRet (result E) := fun _ a => Ok a.
#[export] Instance result_bind {E} : MBind (result E) := fun _ _ k m =>
  match m with Ok a => k a | Err e => Err e end.
#[export] Instance result_fmap {E} : FMap (result E) := fun _ _ f m =>
  match m with Ok a => Ok (f a) | Err e => Err e end.

#[export] Instance result_eq_dec {E A} `{EqDecision E, EqDecision A} :
  EqDecision (result E A).
Proof. solve_decision. Defined.

(** [if c: raise e], then fall through. *)
Definition raise_if {E} (c : bool) (e : E) : result E unit :=
  if c then Err e else Ok tt.

(** The [for x in xs: check(x)] loop: the first failing element raises. *)
Fixpoint each {E A} (f : A -> result E unit) (l : list A) : result E unit :=
  match l with
  | [] => Ok tt
  | x :: l' => f x ;; each f l'
  end.

Definition is_ok {E A} (r : result E A) : bool :=
  match r with Ok _ => true | Err _ => false end.

Section result_lemmas.
Context {E A B : Type}.
Implicit Types (m : result E A) (k : A -> result E B).

Lemma bind_ok m k b : (m ≫= k) = Ok b <-> exists a, m = Ok a /\ k a = Ok b.
Proof. destruct m; naive_solver. Qed.

Lemma bind_err m k e :
  (m ≫= k) = Err e <-> m = Err e \/ exists a, m = Ok a /\ k a = Err e.
Proof. destruct m; naive_solver. Qed.

Lemma raise_if_ok (c : bool) (e : E) u : raise_if c e = Ok u <-> c = false.
Proof. destruct c, u; naive_solver. Qed.

Lemma raise_if_err (c : bool) (e e' : E) :
  raise_if c e = Err e' <-> c = true /\ e = e'.
Proof. destruct c; naive_solver. Qed.

Lemma each_ok (f : A -> result E unit) l u :
  each f l = Ok u <-> Forall (fun x => f x = Ok tt) l.
Proof.
  destruct u. induction l as [|x l IH]; simpl; [split; auto|].
  rewrite Forall_cons, <- IH. destruct (f x) as [[]|]; naive_solver.
Qed.

Lemma is_ok_spec m : is_ok m = true <-> exists a, m = Ok a.
Proof. destruct m; naive_solver. Qed.
End result_lemmas.

(** Decompose every bind of a hypothesis about a [result]. *)
Ltac inv_result :=
  repeat match goal with
  | H : mbind _ _ = Ok _ |- _ => apply bind_ok in H as (? & ? & ?)
  | H : raise_if _ _ = Ok _ |- _ => apply raise_if_ok in H
  | H : raise_if _ _ = Err _ |- _ => apply raise_if_err in H as [? ?]
  | H : each _ _ = Ok _ |- _ => apply each_ok in H
  | H : Ok _ = Ok _ |- _ => injection H as H; try subst
  | H : Err _ = Err _ |- _ => injection H as H; try subst
  | H : Ok _ = Err _ |- _ => discriminate H
  | H : Err _ = Ok _ |- _ => discriminate H
  | H : mret _ = _ |- _ => unfold mret, result_ret in H
  end.

(** ** Ordered dictionaries

    A Python dict keeps insertion order, which some of the code observes (the
    first collision found, the order rows are written back).  It is an
    association list; assignment replaces in place or appends at the end. *)

Module Dict.
Section dict.
Context {K V : Type} `{EqDecision K}.
Implicit Types (d : list (K * V)).

Fixpoint get (k : K) d : option V :=
  match d with
  | [] => None
  | (k', v) :: d' => if decide (k = k') then Some v else get k d'
  end.

Fixpoint set (k : K) (v : V) d : list (K * V) :=
  match d with
  | [] => [(k, v)]
  | (k', v') :: d' =>
      if decide (k = k') then (k, v) :: d' else (k', v') :: set k v d'
  end.

Fixpoint pop (k : K) d : list (K * V) :=
  match d with
  | [] => []
  | (k', v') :: d' => if decide (k = k') then d' else (k', v') :: pop k d'
  end.

Definition keys d : list K := d.*1.
Definition mem (k : K) d : bool :=
  match get k d with Some _ => true | None => false end.
Definition wf d : Prop := NoDup (keys d).
#[export] Instance wf_dec d : Decision (wf d).
Proof. unfold wf. apply _. Defined.

Lemma get_set_eq k v d : get k (set k v d) = Some v.
Proof. induction d as [|[k' v'] d IH]; simpl; repeat (case_decide; simpl); congruence. Qed.

Lemma get_set_ne k k' v d : k <> k' -> get k' (set k v d) = get k' d.
Proof.
  intros. induction d as [|[k2 v2] d IH]; simpl; repeat (case_decide; simpl); congruence.
Qed.

Lemma get_None k d : get k d = None <-> k ∉ keys d.
Proof.
  induction d as [|[k' v'] d IH]; simpl; [set_solver|].
  case_decide; subst; set_solver.
Qed.

Lemma get_Some_elem k v d : get k d = Some v -> (k, v) ∈ d.
Proof.
  induction d as [|[k' v'] d IH]; simpl; [done|].
  case_decide; intros; simplify_eq; set_solver.
Qed.

Lemma elem_get k v d : wf d -> (k, v) ∈ d -> get k d = Some v.
Proof.
  unfold wf, keys. induction d as [|[k' v'] d IH]; simpl; [set_solver|].
  intros [Hn Hd]%NoDup_cons [?|Hin]%elem_of_cons; simplify_eq.
  - by rewrite decide_True.
  - rewrite decide_False; [auto|]. intros ->.
    apply Hn. by apply (list_elem_of_fmap_2 fst) in Hin.
Qed.

Lemma set_fresh k v d : get k d = None -> set k v d = d ++ [(k, v)].
Proof.
  induction d as [|[k' v'] d IH]; simpl; [done|].
  case_decide; [done|]. intros. by rewrite IH.
Qed.

Lemma keys_set_mem k v v0 d : get k d = Some v0 -> keys (set k v d) = keys d.
Proof.
  unfold keys. induction d as [|[k' v'] d IH]; simpl; [done|].
  case_decide; simpl; intros; [by subst|]. f_equal. by apply IH.
Qed.

Lemma wf_set k v d : wf d -> wf (set k v d).
Proof.
  intros Hd. unfold wf. destruct (get k d) as [v0|] eqn:Hg.
  - by rewrite (keys_set_mem _ _ _ _ Hg).
  - rewrite set_fresh by done. unfold wf, keys in *. rewrite fmap_app. simpl.
    apply NoDup_app. split_and!; [done| |apply NoDup_singleton].
    apply get_None in Hg. set_solver.
Qed.

Lemma pop_sublist k d : sublist (pop k d) d.
Proof.
  induction d as [|[k' v'] d IH]; simpl; [constructor|].
  case_decide; by constructor.
Qed.

Lemma wf_pop k d : wf d -> wf (pop k d).
Proof.
  unfold wf, keys. intros Hd. eapply sublist_NoDup; [exact Hd|].
  induction (pop_sublist k d); simpl; [constructor|constructor|constructor];
    apply NoDup_cons in Hd as [??]; auto.
Qed.

Lemma get_pop_eq k d : wf d -> get k (pop k d) = None.
Proof.
  unfold wf, keys. induction d as [|[k' v'] d IH]; simpl; [done|].
  intros [Hn Hd]%NoDup_cons. case_decide; subst.
  - by apply get_None.
  - simpl. rewrite decide_False by done. auto.
Qed.

Lemma get_pop_ne k k' d : k <> k' -> get k' (pop k d) = get k' d.
Proof.
  intros. induction d as [|[k2 v2] d IH]; simpl; repeat (case_decide; simpl); congruence.
Qed.

Lemma pop_fresh k d : get k d = None -> pop k d = d.
Proof.
  induction d as [|[k' v'] d IH]; simpl; [done|].
  case_decide; [done|]. intros. by rewrite IH.
Qed.

Lemma mem_spec k d : mem k d = true <-> k ∈ keys d.
Proof.
  unfold mem. destruct (get k d) eqn:Hg.
  - split; [|done]. intros _. apply get_Some_elem in Hg.
    by apply (list_elem_of_fmap_2 fst) in Hg.
  - apply get_None in Hg. split; [done|]. intros; contradiction.
Qed.
End dict.
End Dict.

Create HintDb beetroot.
#[export] Hint Resolve Dict.wf_set Dict.wf_pop : beetroot.
#[export] Hint Rewrite @Dict.get_set_eq : beetroot.

(** ** Stateful code

    Code that reads and writes a world [S] and may raise: the state reached is
    kept when an exception leaves the function, as in Python. *)

Definition M (S E A : Type) : Type := S -> result E A * S.

#[export] Instance M_ret {S E} : MRet (M S E) := fun _ a s => (Ok a, s).
#[export] Instance M_bind {S E} : MBind (M S E) := fun _ _ k m s =>
  match m s with
  | (Ok a, s') => k a s'
  | (Err e, s') => (Err e, s')
  end.

Definition gets {S E A} (f : S -> A) : M S E A := fun s => (Ok (f s), s).
Definition modify {S E} (f : S -> S) : M S E unit := fun s => (Ok tt, f s).
Definition raise {S E A} (e : E) : M S E A := fun s => (Err e, s).
Definition lift {S E A} (r : result E A) : M S E A := fun s => (r, s).

Lemma M_bind_ok {S E A B} (m : M S E A) (k : A -> M S E B) s a s' :
  m s = (Ok a, s') -> (m ≫= k) s = k a s'.
Proof. unfold mbind, M_bind. by intros ->. Qed.

Lemma M_bind_err {S E A B} (m : M S E A) (k : A -> M S E B) s e s' :
  m s = (Err e, s') -> (m ≫= k) s = (Err e, s').
Proof. unfold mbind, M_bind. by intros ->. Qed.

Lemma M_bind_inv {S E A B} (m : M S E A) (k : A -> M S E B) s r s' :
  (m ≫= k) s = (r, s') ->
  (exists a s1, m s = (Ok a, s1) /\ k a s1 = (r, s')) \/
  (exists e, m s = (Err e, s') /\ r = Err e).
Proof.
  unfold mbind, M_bind. destruct (m s) as [[a|e] s1]; intros; simplify_eq; eauto 6.
Qed.

(** A run that returned: the state and result of its first step. *)
Ltac run_bind H x s H1 :=
  apply M_bind_inv in H as [(x & s & H1 & H)|(? & _ & ?)]; [|done].

Lemma lift_ok_bind {S E A B} (a : A) (k : A -> M S E B) s : (lift (Ok a) ≫= k) s = k a s.
Proof. done. Qed.

Lemma lift_err_bind {S E A B} e (k : A -> M S E B) s :
  (lift (Err e) ≫= k) s = (Err e, s).
Proof. done. Qed.

Lemma Forall_sub {A} (Q : A -> Prop) l l' : sublist l l' -> Forall Q l' -> Forall Q l.
Proof. induction 1; intros Hf; try apply Forall_cons in Hf as [??]; auto. Qed.

(** What a computation does to the state on every path, exceptions included. *)
Definition preserves {S E A} (R : S -> S -> Prop) (m : M S E A) : Prop := forall s, R s (snd (m s)).

Section preserves.
Context {S E : Type} (R : S -> S -> Prop) `{!PreOrder R}.

Lemma preserves_bind {A B} (m : M S E A) (k : A -> M S E B) :
  preserves R m -> (forall a, preserves R (k a)) -> preserves R (m ≫= k).
Proof.
  intros Hm Hk s. specialize (Hm s). unfold mbind, M_bind.
  destruct (m s) as [[a|e] s1]; simpl in *; [|done]. etransitivity; [exact Hm|apply Hk].
Qed.

(** The continuation may rely on what [m] returned. *)
Lemma preserves_bind_post {A B} (Q : A -> Prop) (m : M S E A) (k : A -> M S E B) :
  preserves R m -> (forall s a, fst (m s) = Ok a -> Q a) ->
  (forall a, Q a -> preserves R (k a)) -> preserves R (m ≫= k).
Proof.
  intros Hm HQ Hk s. specialize (Hm s). unfold mbind, M_bind.
  destruct (m s) as [[a|e] s1] eqn:Heq; simpl in *; [|done].
  etransitivity; [exact Hm|]. apply Hk, (HQ s). by rewrite Heq.
Qed.

Lemma preserves_ret {A} (a : A) : preserves R (mret a : M S E A).
Proof. intros s. simpl. reflexivity. Qed.
Lemma preserves_raise {A} e : preserves R (raise e : M S E A).
Proof. intros s. simpl. reflexivity. Qed.
Lemma preserves_lift {A} (r : result E A) : preserves R (lift r).
Proof. intros s. simpl. reflexivity. Qed.
Lemma preserves_gets {A} (f : S -> A) : preserves R (gets f : M S E A).
Proof. intros s. simpl. reflexivity. Qed.

(** The same from states that satisfy an invariant the computation keeps. *)
Definition keeps {A} (I : S -> Prop) (m : M S E A) : Prop :=
  forall s, I s -> R s (snd (m s)) /\ I (snd (m s)).

Lemma keeps_bind_post {A B} I (Q : A -> Prop) (m : M S E A) (k : A -> M S E B) :
  keeps I m -> (forall s a, I s -> fst (m s) = Ok a -> Q a) ->
  (forall a, Q a -> keeps I (k a)) -> keeps I (m ≫= k).
Proof.
  intros Hm HQ Hk s Hs. destruct (Hm s Hs) as [HR HI]. specialize (HQ s).
  unfold mbind, M_bind. destruct (m s) as [[a|e] s1] eqn:Heq; simpl in *; [|done].
  destruct (Hk a (HQ a Hs eq_refl) s1 HI) as [HR' HI']. split; [|done].
  by etransitivity.
Qed.

Lemma keeps_then {A B} I (m : M S E A) (k : A -> M S E B) :
  keeps I m -> (forall a, keeps I (k a)) -> keeps I (m ≫= k).
Proof. intros Hm Hk. by apply (keeps_bind_post I (fun _ => True)). Qed.

Lemma keeps_read {A} I (m : M S E A) : (forall s, I s -> snd (m s) = s) -> keeps I m.
Proof. intros Hm s Hs. rewrite Hm by done. split; [reflexivity|done]. Qed.
End preserves.

#[export] Hint Resolve preserves_bind preserves_ret preserves_raise preserves_lift preserves_gets
  : beetroot.

(** [try: m except: h], where [h] receives the exception. *)
Definition catch {S E A} (m : M S E A) (h : E -> M S E A) : M S E A := fun s =>
  match m s with
  | (Ok a, s') => (Ok a, s')
  | (Err e, s') => h e s'
  end.

(** [m] on a part of the state, its exceptions renamed. *)
Definition zoom {S T E F A} (get : S -> T) (put : T -> S -> S) (err : E -> F)
    (m : M T E A) : M S F A := fun s =>
  match m (get s) with
  | (Ok a, t) => (Ok a, put t s)
  | (Err e, t) => (Err (err e), put t s)
  end.

(** ** Weakest preconditions

    [wp m Q R s]: run from [s], [m] returns into [Q] or raises into [R]. *)
Section wp.
Context {S E : Type}.

Definition wp {A} (m : M S E A) (Q : A -> S -> Prop) (R : E -> S -> Prop) (s : S) : Prop :=
  match m s with (Ok a, s') => Q a s' | (Err e, s') => R e s' end.

Lemma wp_run {A} (m : M S E A) Q R s :
  wp m Q R s <-> (forall a s', m s = (Ok a, s') -> Q a s') /\ (forall e s', m s = (Err e, s') -> R e s').
Proof. unfold wp. destruct (m s) as [[a|e] s1]; naive_solver. Qed.

Lemma wp_bind {A B} (m : M S E A) (k : A -> M S E B) Q R s :
  wp m (fun a => wp (k a) Q R) R s -> wp (m ≫= k) Q R s.
Proof. unfold wp, mbind, M_bind. by destruct (m s) as [[a|e] s1]. Qed.

Lemma wp_mono {A} (m : M S E A) (Q Q' : A -> S -> Prop) (R R' : E -> S -> Prop) s :
  wp m Q R s -> (forall a s', Q a s' -> Q' a s') -> (forall e s', R e s' -> R' e s') -> wp m Q' R' s.
Proof. unfold wp. destruct (m s) as [[a|e] s1]; auto. Qed.

Lemma wp_and {A} (m : M S E A) (Q Q' : A -> S -> Prop) (R R' : E -> S -> Prop) s :
  wp m Q R s -> wp m Q' R' s ->
  wp m (fun a s' => Q a s' /\ Q' a s') (fun e s' => R e s' /\ R' e s') s.
Proof. unfold wp. destruct (m s) as [[a|e] s1]; auto. Qed.

Lemma wp_catch {A} (m : M S E A) (h : E -> M S E A) Q R s :
  wp m Q (fun e => wp (h e) Q R) s -> wp (catch m h) Q R s.
Proof. unfold wp, catch. by destruct (m s) as [[a|e] s1]. Qed.

Lemma wp_ret {A} (a : A) (Q : A -> S -> Prop) R s : Q a s -> wp (mret a) Q R s.
Proof. done. Qed.
Lemma wp_raise {A} e (Q : A -> S -> Prop) (R : E -> S -> Prop) s : R e s -> wp (raise e) Q R s.
Proof. done. Qed.
Lemma wp_gets {A} (f : S -> A) (Q : A -> S -> Prop) R s : Q (f s) s -> wp (gets f) Q R s.
Proof. done. Qed.
Lemma wp_modify f (Q : unit -> S -> Prop) R s : Q tt (f s) -> wp (modify f) Q R s.
Proof. done. Qed.
Lemma wp_lift {A} (r : result E A) (Q : A -> S -> Prop) (R : E -> S -> Prop) s :
  (forall a, r = Ok a -> Q a s) -> (forall e, r = Err e -> R e s) -> wp (lift r) Q R s.
Proof. unfold wp, lift. destruct r; auto. Qed.

Lemma wp_true {A} (m : M S E A) s : wp m (fun _ _ => True) (fun _ _ => True) s.
Proof. unfold wp. by destruct (m s) as [[] ?]. Qed.

Lemma wp_zoom {T F A} (get : S -> T) (put : T -> S -> S) (err : F -> E) (m : M T F A)
    (Q : A -> S -> Prop) (R : E -> S -> Prop) s :
  (match m (get s) with
   | (Ok a, t) => Q a (put t s) | (Err e, t) => R (err e) (put t s)
   end) -> wp (zoom get put err m) Q R s.
Proof. unfold wp, zoom. by destruct (m (get s)) as [[a|e] t]. Qed.
End wp.

(** A state predicate that is carried along, whatever happens. *)
Definition carries {S} (J : S -> Prop) (a b : S) : Prop := J a -> J b.

#[export] Instance carries_preorder {S} (J : S -> Prop) : PreOrder (carries J).
Proof. split; [by intros a Ha|]. intros a b c H1 H2 Ha. by apply H2, H1. Qed.

Section preserves_more.
Context {S E : Type} (R : S -> S -> Prop) `{!PreOrder R}.

Lemma preserves_catch {A} (m : M S E A) (h : E -> M S E A) :
  preserves R m -> (forall e, preserves R (h e)) -> preserves R (catch m h).
Proof.
  intros Hm Hh s. specialize (Hm s). unfold catch. destruct (m s) as [[a|e] s1]; simpl in *; [done|].
  etransitivity; [exact Hm|apply Hh].
Qed.

Lemma preserves_zoom {T F A} (R' : T -> T -> Prop) (get : S -> T) (put : T -> S -> S) (err : F -> E)
    (m : M T F A) :
  preserves R' m -> (forall s t, R' (get s) t -> R s (put t s)) -> preserves R (zoom get put err m).
Proof.
  intros Hm Hp s. specialize (Hm (get s)). unfold zoom. destruct (m (get s)) as [[a|e] t]; by apply Hp.
Qed.

Lemma preserves_wp {A} (m : M S E A) :
  preserves R m <-> forall s, wp m (fun _ s' => R s s') (fun _ s' => R s s') s.
Proof. split; intros H s; specialize (H s); unfold wp in *; by destruct (m s) as [[] ?]. Qed.
End preserves_more.

(** What is carried through [m] holds after it. *)
Lemma wp_carries {S E A} (J : S -> Prop) (m : M S E A) s :
  preserves (carries J) m -> J s -> wp m (fun _ s' => J s') (fun _ s' => J s') s.
Proof. intros H Hs. specialize (H s Hs). unfold wp. by destruct (m s) as [[] ?]. Qed.

(** One step of a computation in [wp]; branches are left to the caller. *)
Ltac wp_step :=
  match goal with
  | |- wp (mbind _ _) _ _ _ => apply wp_bind
  | |- wp (mret _) _ _ _ => apply wp_ret
  | |- wp (raise _) _ _ _ => apply wp_raise
  | |- wp (gets _) _ _ _ => apply wp_gets
  | |- wp (modify _) _ _ _ => apply wp_modify
  | |- wp (catch _ _) _ _ _ => apply wp_catch
  end; cbv beta.
Ltac wp_steps := repeat wp_step.
