(* ===== verification/PyStr.v ===== *)
(** * Python strings and integers as the source uses them

    A Python [str] is modelled as a [string] of ASCII characters: [str(int)] and
    [int(str)], [split] on one character, [join], [strip], [lower], prefix,
    suffix and substring tests, and the two shapes of regular expression the
    configuration schema compiles.  [re.match] of a pattern that ends in [$]
    also accepts one trailing newline; [re.fullmatch] does not. *)
From stdpp Require Import base list strings gmap.
From Stdlib Require Import ZArith Lia Ascii DecimalString DecimalZ.
From S2P Require Import Prelude.
Local Open Scope stdpp_scope.

(** ** Characters *)

Definition chars (s : string) : list ascii := String.list_ascii_of_string s.
Definition of_chars (l : list ascii) : string := String.string_of_list_ascii l.

Definition code (c : ascii) : nat := nat_of_ascii c.
Definition in_range (lo hi : ascii) (c : ascii) : bool :=
  (code lo <=? code c)%nat && (code c <=? code hi)%nat.

Definition is_digit (c : ascii) : bool := in_range "0"%char "9"%char c.
Definition is_lower (c : ascii) : bool := in_range "a"%char "z"%char c.
Definition is_upper (c : ascii) : bool := in_range "A"%char "Z"%char c.
Definition is_alnum (c : ascii) : bool := is_digit c || is_lower c || is_upper c.
Definition is_hex (c : ascii) : bool :=
  is_digit c || in_range "a"%char "f"%char c || in_range "A"%char "F"%char c.

Definition newline : ascii := Ascii.ascii_of_nat 10.

(** The ASCII characters [str.strip] removes. *)
Definition is_space (c : ascii) : bool :=
  let n := code c in
  ((9 <=? n)%nat && (n <=? 13)%nat) || ((28 <=? n)%nat && (n <=? 32)%nat).

Definition lower_char (c : ascii) : ascii :=
  if is_upper c then ascii_of_nat (code c + 32) else c.
Fixpoint lower (s : string) : string :=
  match s with
  | EmptyString => EmptyString
  | String c s' => String (lower_char c) (lower s')
  end.

Definition all_chars (p : ascii -> bool) (s : string) : bool := forallb p (chars s).

(** ** [repr] *)

Definition hex_digit (n : nat) : ascii :=
  ascii_of_nat (if (n <? 10)%nat then 48 + n else 87 + n).

(** One character of [repr(s)], between the quotes [q]. *)
Definition repr_char (q c : ascii) : string :=
  let n := code c in
  if Ascii.eqb c q || (n =? 92)%nat then String "\"%char (String c "")
  else if (n =? 9)%nat then "\t"
  else if (n =? 10)%nat then "\n"
  else if (n =? 13)%nat then "\r"
  else if (n <? 32)%nat || (126 <? n)%nat
  then "\x" +:+ String (hex_digit (n / 16)) (String (hex_digit (n mod 16)) "")
  else String c "".

(** [repr(s)]: in single quotes, unless there are single quotes and no double ones in it. *)
Definition py_repr (s : string) : string :=
  let single := ascii_of_nat 39 in
  let double := ascii_of_nat 34 in
  let has c := existsb (Ascii.eqb c) (chars s) in
  let q := if has single && negb (has double) then double else single in
  String q (String.concat "" (map (repr_char q) (chars s)) +:+ String q "").

Example repr_plain : py_repr "8G" = "'8G'".
Proof. reflexivity. Qed.
Example repr_quoted : chars (py_repr "a'b\") = map ascii_of_nat [34; 97; 39; 98; 92; 92; 34]%nat.
Proof. reflexivity. Qed.
Example repr_control : py_repr (String newline (String (ascii_of_nat 27) "")) = "'\n\x1b'".
Proof. reflexivity. Qed.

(** ** Regular expressions *)

(** [[p]+] matched against the whole string. *)
Definition plus_full (p : ascii -> bool) (s : string) : bool :=
  negb (String.eqb s "") && all_chars p s.

(** Drop one trailing newline: what [$] tolerates and [\Z] does not. *)
Definition chop_newline (s : string) : string :=
  match rev (chars s) with
  | c :: r => if ascii_dec c newline then of_chars (rev r) else s
  | [] => s
  end.

(** [re.match(r"^...$", s)] from the whole-string matcher of the body. *)
Definition match_dollar (full : string -> bool) (s : string) : bool :=
  full s || full (chop_newline s).

(** ** Splitting and joining *)

Fixpoint split_on (c : ascii) (s : string) : list string :=
  match s with
  | EmptyString => [EmptyString]
  | String d s' =>
      if ascii_dec d c then EmptyString :: split_on c s'
      else match split_on c s' with
           | w :: ws => String d w :: ws
           | [] => [String d EmptyString]
           end
  end.

(** [str.splitlines] on text whose only line break is the newline. *)
Definition splitlines (s : string) : list string :=
  match rev (split_on newline s) with
  | "" :: r => rev r
  | _ => split_on newline s
  end.

Fixpoint join (sep : string) (l : list string) : string :=
  match l with
  | [] => ""
  | [w] => w
  | w :: l' => w +:+ sep +:+ join sep l'
  end.

(** [s.partition(":")]: what precedes the first [c], and what follows it. *)
Fixpoint partition_on (c : ascii) (s : string) : string * option string :=
  match s with
  | EmptyString => (EmptyString, None)
  | String d s' =>
      if ascii_dec d c then (EmptyString, Some s')
      else let '(h, t) := partition_on c s' in (String d h, t)
  end.

Fixpoint lstrip_chars (l : list ascii) : list ascii :=
  match l with
  | c :: l' => if is_space c then lstrip_chars l' else l
  | [] => []
  end.
Definition strip (s : string) : string :=
  of_chars (rev (lstrip_chars (rev (lstrip_chars (chars s))))).

Definition starts_with (p s : string) : bool := String.prefix p s.
Fixpoint contains (needle s : string) : bool :=
  String.prefix needle s ||
  match s with
  | EmptyString => false
  | String _ s' => contains needle s'
  end.

(** ** Integers *)

(** [str(z)]. *)
Definition str_of_Z (z : Z) : string := NilZero.string_of_int (Z.to_int z).

Definition digit_value (c : ascii) : Z := Z.of_nat (code c) - 48.

Fixpoint digits_acc (acc : Z) (l : list ascii) : option Z :=
  match l with
  | [] => Some acc
  | c :: l' => if is_digit c then digits_acc (10 * acc + digit_value c)%Z l' else None
  end.

(** A non-empty run of decimal digits. *)
Definition Z_of_digits (s : string) : option Z :=
  match chars s with
  | [] => None
  | l => digits_acc 0 l
  end.

(** ** Lemmas *)

Lemma chars_app s t : chars (s +:+ t) = chars s ++ chars t.
Proof. unfold chars. induction s; simpl; [done|]. by f_equal. Qed.

Lemma app_empty_str s : "" +:+ s = s.
Proof. done. Qed.

Lemma app_cons_str c s t : String c s +:+ t = String c (s +:+ t).
Proof. done. Qed.

Lemma length_app_str s t : String.length (s +:+ t) = (String.length s + String.length t)%nat.
Proof. induction s as [|c s IH]; [done|]. simpl. by rewrite IH. Qed.

Lemma of_chars_chars s : of_chars (chars s) = s.
Proof. apply String.string_of_list_ascii_of_string. Qed.

Lemma chars_of_chars l : chars (of_chars l) = l.
Proof. apply String.list_ascii_of_string_of_list_ascii. Qed.

Lemma chars_inj s t : chars s = chars t -> s = t.
Proof. intros H. by rewrite <- (of_chars_chars s), H, of_chars_chars. Qed.

Lemma app_nil_r_str s : s +:+ "" = s.
Proof. apply chars_inj. by rewrite chars_app, app_nil_r. Qed.

Lemma app_assoc_str s t u : (s +:+ t) +:+ u = s +:+ (t +:+ u).
Proof. apply chars_inj. rewrite !chars_app. by rewrite app_assoc. Qed.

Lemma app_inv_head s t u : s +:+ t = s +:+ u -> t = u.
Proof. intros H. by apply (inj (String.app s)) in H. Qed.

Lemma all_chars_app p s t : all_chars p (s +:+ t) = all_chars p s && all_chars p t.
Proof. unfold all_chars. by rewrite chars_app, forallb_app. Qed.

Lemma all_chars_impl (p q : ascii -> bool) s :
  (forall c, p c = true -> q c = true) -> all_chars p s = true -> all_chars q s = true.
Proof.
  unfold all_chars. intros H. rewrite !forallb_forall. eauto.
Qed.

(** A separator absent from both heads splits two concatenations alike. *)
Lemma app_sep_inj (c : ascii) s1 s2 t1 t2 :
  c ∉ chars s1 -> c ∉ chars s2 ->
  s1 +:+ String c t1 = s2 +:+ String c t2 -> s1 = s2 /\ t1 = t2.
Proof.
  revert s2. induction s1 as [|d s1 IH]; intros [|d2 s2]; cbn; intros H1 H2 H;
    simplify_eq/=; [done|set_solver..|].
  destruct (IH s2) as [-> ->]; [set_solver..|done|done].
Qed.

(** *** Splitting *)

Lemma split_on_nonempty c s : split_on c s <> [].
Proof. destruct s; simpl; [done|]. case_match; [done|]. by case_match. Qed.

Lemma split_on_free c s : c ∉ chars s -> split_on c s = [s].
Proof.
  induction s as [|d s IH]; cbn; [done|]. intros H.
  destruct (ascii_dec d c) as [->|]; [set_solver|].
  rewrite IH by set_solver. done.
Qed.

Lemma split_on_app c s t :
  c ∉ chars s -> split_on c (s +:+ String c t) = s :: split_on c t.
Proof.
  induction s as [|d s IH]; intros H.
  - rewrite app_empty_str. simpl. by destruct (ascii_dec c c).
  - rewrite app_cons_str. cbn in H |- *. destruct (ascii_dec d c) as [->|]; [set_solver|].
    rewrite IH by set_solver. done.
Qed.

(** [",".join(l).split(",")] gives [l] back when no item holds the separator. *)
Lemma split_join c l :
  l <> [] -> Forall (fun w => c ∉ chars w) l ->
  split_on c (join (String c "") l) = l.
Proof.
  intros Hne Hl. induction Hl as [|w l Hw Hl IH]; [done|].
  destruct l as [|w' l]; [by apply split_on_free|].
  change (join (String c "") (w :: w' :: l))
    with (w +:+ String c (join (String c "") (w' :: l))).
  rewrite split_on_app by done. f_equal. by apply IH.
Qed.

Lemma join_split c s : join (String c "") (split_on c s) = s.
Proof.
  induction s as [|d s IH]; [done|]. simpl. destruct (ascii_dec d c) as [->|].
  - pose proof (split_on_nonempty c s). destruct (split_on c s) as [|w ws]; [done|].
    change (join (String c "") ("" :: w :: ws))
      with (String c (join (String c "") (w :: ws))). by rewrite IH.
  - pose proof (split_on_nonempty c s). destruct (split_on c s) as [|w [|w' ws]]; [done|..].
    + simpl in *. by subst.
    + rewrite <- IH. done.
Qed.

Lemma split_on_items_free c s : Forall (fun w => c ∉ chars w) (split_on c s).
Proof.
  induction s as [|d s IH]; cbn; [repeat constructor; set_solver|].
  destruct (ascii_dec d c); [constructor; [cbn; set_solver|done]|].
  destruct (split_on c s) as [|w ws]; [repeat constructor; cbn; set_solver|].
  apply Forall_cons in IH as [? ?]. constructor; [cbn; set_solver|done].
Qed.

(** *** [re.match] against [re.fullmatch] *)

Lemma chop_newline_app s : chop_newline (s +:+ String newline "") = s.
Proof.
  unfold chop_newline. rewrite chars_app, rev_app_distr. simpl.
  destruct (ascii_dec newline newline); [|done].
  by rewrite rev_involutive, of_chars_chars.
Qed.

Lemma chop_newline_cases s :
  chop_newline s = s \/ s = chop_newline s +:+ String newline "".
Proof.
  unfold chop_newline. destruct (rev (chars s)) as [|c r] eqn:Hr; [by left|].
  destruct (ascii_dec c newline) as [->|]; [right|by left].
  apply (f_equal (@rev _)) in Hr. rewrite rev_involutive in Hr.
  apply chars_inj. rewrite chars_app, chars_of_chars, Hr. done.
Qed.

Lemma match_dollar_spec full s :
  match_dollar full s = true <->
  full s = true \/ exists t, s = t +:+ String newline "" /\ full t = true.
Proof.
  unfold match_dollar. rewrite orb_true_iff. split.
  - intros [?|H]; [by left|]. destruct (chop_newline_cases s) as [Hs|Hs].
    + left. by rewrite Hs in H.
    + right. eauto.
  - intros [?|(t & -> & H)]; [by left|]. right. by rewrite chop_newline_app.
Qed.

Lemma plus_full_spec p s : plus_full p s = true <-> s <> "" /\ all_chars p s = true.
Proof.
  unfold plus_full. rewrite andb_true_iff, negb_true_iff.
  rewrite (String.eqb_neq s ""). done.
Qed.

(** *** Decimal integers *)

Lemma str_of_Z_inj : Inj (=) (=) str_of_Z.
Proof.
  intros x y H. unfold str_of_Z in H.
  assert (forall z, Z.to_int z <> Decimal.Pos Decimal.Nil /\
                    Z.to_int z <> Decimal.Neg Decimal.Nil) as Hne.
  { intros z. split; intros Hz; pose proof (DecimalZ.of_to z) as Ho; rewrite Hz in Ho;
      cbn in Ho; subst; discriminate. }
  apply (f_equal NilZero.int_of_string) in H.
  rewrite !NilZero.isi in H by apply Hne. simplify_eq. by apply DecimalZ.to_int_inj.
Qed.

Fixpoint uint_value (acc : Z) (d : Decimal.uint) : Z :=
  match d with
  | Decimal.Nil => acc
  | Decimal.D0 d => uint_value (10 * acc) d
  | Decimal.D1 d => uint_value (10 * acc + 1) d
  | Decimal.D2 d => uint_value (10 * acc + 2) d
  | Decimal.D3 d => uint_value (10 * acc + 3) d
  | Decimal.D4 d => uint_value (10 * acc + 4) d
  | Decimal.D5 d => uint_value (10 * acc + 5) d
  | Decimal.D6 d => uint_value (10 * acc + 6) d
  | Decimal.D7 d => uint_value (10 * acc + 7) d
  | Decimal.D8 d => uint_value (10 * acc + 8) d
  | Decimal.D9 d => uint_value (10 * acc + 9) d
  end%Z.

Lemma digits_acc_uint d acc :
  digits_acc acc (chars (NilEmpty.string_of_uint d)) = Some (uint_value acc d).
Proof.
  revert acc. induction d; intros acc; [done|..]; cbn -[Z.mul Z.add];
    rewrite ?Z.add_0_r; apply IHd.
Qed.

Lemma all_digits_uint d : all_chars is_digit (NilEmpty.string_of_uint d) = true.
Proof. induction d; [done|..]; cbn; apply IHd. Qed.

Lemma uint_value_of_acc d p :
  uint_value (Z.pos p) d = Z.pos (Pos.of_uint_acc d p).
Proof.
  revert p. induction d; intros p; simpl; rewrite <- ?IHd; try done; f_equal; lia.
Qed.

Lemma uint_value_of d : uint_value 0 d = Z.of_N (Pos.of_uint d).
Proof.
  induction d; simpl; try done; apply uint_value_of_acc.
Qed.

(** [str] of a non-negative integer is a non-empty run of digits ... *)
Lemma str_of_Z_uint z : (0 <= z)%Z ->
  exists d, str_of_Z z = NilEmpty.string_of_uint d /\ d <> Decimal.Nil /\
            uint_value 0 d = z.
Proof.
  intros Hz. unfold str_of_Z. pose proof (DecimalZ.of_to z) as Ho.
  destruct z as [|p|p]; [|cbn|lia].
  - exists (Decimal.D0 Decimal.Nil). done.
  - cbn in Ho. exists (Pos.to_uint p).
    assert (Pos.to_uint p <> Decimal.Nil) as Hne.
    { intros Hn. by rewrite Hn in Ho. }
    cbn in Ho. split_and!; [by destruct (Pos.to_uint p)|done|].
    rewrite uint_value_of. exact Ho.
Qed.

Lemma str_of_Z_digits z : (0 <= z)%Z -> all_chars is_digit (str_of_Z z) = true.
Proof. intros (d & -> & _)%str_of_Z_uint. apply all_digits_uint. Qed.

Lemma str_of_Z_nonempty z : (0 <= z)%Z -> str_of_Z z <> "".
Proof. intros (d & -> & Hd & _)%str_of_Z_uint. by destruct d. Qed.

(** ... that reads back as the integer. *)
Lemma Z_of_digits_str z : (0 <= z)%Z -> Z_of_digits (str_of_Z z) = Some z.
Proof.
  intros Hz. destruct (str_of_Z_uint z Hz) as (d & Hs & Hd & Hv).
  unfold Z_of_digits. pose proof (str_of_Z_nonempty z Hz) as Hne.
  destruct (chars (str_of_Z z)) eqn:Hc; [exfalso; apply Hne; by apply chars_inj|].
  rewrite <- Hc, Hs, digits_acc_uint, Hv. done.
Qed.

(** A character that is not a digit does not occur in [str] of a natural. *)
Lemma str_of_Z_free z c : (0 <= z)%Z -> is_digit c = false -> c ∉ chars (str_of_Z z).
Proof.
  intros Hz Hc Hin. apply str_of_Z_digits in Hz. unfold all_chars in Hz.
  rewrite forallb_forall in Hz. apply list_elem_of_In, Hz in Hin. congruence.
Qed.

(** ** Substring tests *)

Lemma prefix_cons c d p s : String.prefix (String c p) (String d s) = true <-> c = d /\ String.prefix p s = true.
Proof. simpl. destruct (ascii_dec c d); naive_solver. Qed.

Lemma prefix_spec p s : String.prefix p s = true <-> exists r, s = p +:+ r.
Proof.
  revert s. induction p as [|c p IH]; intros [|d s].
  - split; [by exists ""|done].
  - split; [by exists (String d s)|done].
  - split; [done|]. by intros [r ?].
  - rewrite prefix_cons, IH. split.
    + intros [-> [r ->]]. by exists r.
    + intros [r [= -> ->]]. eauto.
Qed.

Lemma contains_spec n s : contains n s = true <-> exists a b, s = a +:+ n +:+ b.
Proof.
  split.
  - induction s as [|d s IH]; cbn [contains]; rewrite orb_true_iff, prefix_spec.
    + intros [[r H]|[=]]. exists "", r. done.
    + intros [[r H]|H]; [by exists "", r|].
      destruct (IH H) as (a & b & ->). by exists (String d a), b.
  - intros (a & b & ->). induction a as [|d a IH].
    + rewrite app_empty_str. assert (String.prefix n (n +:+ b) = true) as Hp.
      { apply prefix_spec. by exists b. }
      destruct (n +:+ b); cbn [contains]; by rewrite Hp.
    + rewrite app_cons_str. cbn [contains]. by rewrite IH, orb_true_r.
Qed.

Lemma contains_app_l n s t : contains n s = true -> contains n (s +:+ t) = true.
Proof.
  rewrite !contains_spec. intros (a & b & ->). exists a, (b +:+ t). by rewrite !app_assoc_str.
Qed.

Lemma contains_app_r n s t : contains n t = true -> contains n (s +:+ t) = true.
Proof.
  rewrite !contains_spec. intros (a & b & ->). exists (s +:+ a), b. by rewrite !app_assoc_str.
Qed.

(** A longer needle is found only where each of its parts is. *)
Lemma contains_part p n q s : contains (p +:+ n +:+ q) s = true -> contains n s = true.
Proof.
  rewrite !contains_spec. intros (a & b & ->). exists (a +:+ p), (q +:+ b).
  by rewrite !app_assoc_str.
Qed.

(** Text without the first character of the needle can be skipped. *)
Lemma contains_skip c n a b :
  c ∉ chars a -> contains (String c n) (a +:+ b) = contains (String c n) b.
Proof.
  induction a as [|d a IH]; intros H; [done|].
  rewrite app_cons_str. cbn [contains String.prefix].
  change (chars (String d a)) with (d :: chars a) in H.
  destruct (ascii_dec c d) as [->|]; [set_solver|]. by rewrite IH by set_solver.
Qed.

Lemma contains_free c n s : c ∉ chars s -> contains (String c n) s = false.
Proof. intros H. rewrite <- (app_nil_r_str s), contains_skip by done. done. Qed.

Lemma prefix_sep c n a b :
  c ∉ chars n -> String.prefix n (a +:+ String c b) = String.prefix n a.
Proof.
  revert a. induction n as [|d n IH]; intros [|e a] H; try done.
  - change (chars (String d n)) with (d :: chars n) in H. simpl.
    destruct (ascii_dec d c); [set_solver|done].
  - rewrite app_cons_str. change (chars (String d n)) with (d :: chars n) in H. simpl.
    destruct (ascii_dec d e); [|done]. apply IH. set_solver.
Qed.

(** A needle does not straddle a character it does not have. *)
Lemma contains_sep c n a b :
  c ∉ chars n -> n <> "" ->
  contains n (a +:+ String c b) = contains n a || contains n b.
Proof.
  intros Hc Hn. induction a as [|d a IH].
  - rewrite app_empty_str. destruct n as [|d n]; [done|]. cbn [contains String.prefix].
    change (chars (String d n)) with (d :: chars n) in Hc.
    destruct (ascii_dec d c); [set_solver|done].
  - rewrite app_cons_str. cbn [contains]. rewrite IH, <- app_cons_str, prefix_sep by done.
    by rewrite orb_assoc.
Qed.

(** ** Length of [str] *)

Lemma little_double_digits d :
  (Decimal.nb_digits (Decimal.Little.double d) <= S (Decimal.nb_digits d))%nat /\
  (Decimal.nb_digits (Decimal.Little.succ_double d) <= S (Decimal.nb_digits d))%nat.
Proof. induction d; simpl; try destruct IHd; split; try lia. Qed.

Lemma revapp_digits d d' :
  Decimal.nb_digits (Decimal.revapp d d') = (Decimal.nb_digits d + Decimal.nb_digits d')%nat.
Proof. revert d'. induction d; intros d'; [done|..]; simpl; rewrite IHd; simpl; lia. Qed.

Lemma length_string_of_uint d : String.length (NilEmpty.string_of_uint d) = Decimal.nb_digits d.
Proof. induction d; simpl; auto. Qed.

Lemma little_uint_digits p : (Decimal.nb_digits (Pos.to_little_uint p) <= Pos.size_nat p)%nat.
Proof.
  induction p as [p IH|p IH|]; cbn [Pos.to_little_uint Pos.size_nat]; [..|simpl; lia];
    destruct (little_double_digits (Pos.to_little_uint p)); lia.
Qed.

(** [str] is no longer than the number's binary form. *)
Lemma str_of_Z_length p : (String.length (str_of_Z (Z.pos p)) <= Pos.size_nat p)%nat.
Proof.
  unfold str_of_Z. cbn [Z.to_int NilZero.string_of_int].
  assert (NilZero.string_of_uint (Pos.to_uint p) = NilEmpty.string_of_uint (Pos.to_uint p)) as ->.
  { destruct (str_of_Z_uint (Z.pos p)) as (d & Hd & Hne & _); [lia|].
    unfold NilZero.string_of_uint. destruct (Pos.to_uint p) eqn:He; try done.
    exfalso. pose proof (DecimalZ.of_to (Z.pos p)) as Ho. cbn in Ho. by rewrite He in Ho. }
  rewrite length_string_of_uint. unfold Pos.to_uint, Decimal.rev. rewrite revapp_digits.
  pose proof (little_uint_digits p). simpl. lia.
Qed.

Lemma lstrip_none l : forallb (fun c => negb (is_space c)) l = true -> lstrip_chars l = l.
Proof. destruct l as [|c l]; [done|]. simpl. by destruct (is_space c). Qed.

(** Text without whitespace strips to itself. *)
Lemma strip_none s : all_chars (fun c => negb (is_space c)) s = true -> strip s = s.
Proof.
  unfold all_chars, strip. intros H. rewrite (lstrip_none (chars s)) by done.
  rewrite lstrip_none, rev_involutive; [apply of_chars_chars|].
  rewrite forallb_forall in *. intros c Hc%in_rev. by apply H.
Qed.
