(* ===== verification/Config.v ===== *)
(** * [src/src/beetroot/config.py]: the [beetroot.yaml] schema

    The sections of the schema as records, their field and model validators, and
    the pure functions on a validated configuration.  The fields carry the types
    pydantic gives them; a validator is a function into [result cfg_error], one
    constructor of [cfg_error] per [raise] statement.  Pydantic gathers the line
    errors of a [ValidationError]; the model keeps the first. *)
From stdpp Require Import base list strings gmap.
From Stdlib Require Import ZArith QArith Lia Ascii.
From S2P Require Import Prelude PyStr.
Local Open Scope stdpp_scope.
Local Open Scope Z_scope.

Definition SUPPORTED_API_VERSION : Z := 8.
Definition _VALID_ANDROID_VERSIONS : list Z := [11; 12; 13; 14].
Definition DEFAULT_ANDROID_VERSION : Z := 14.
Definition _MIN_PORT : Z := 1.
Definition _MAX_PORT : Z := 65535.
Definition FRIDA_AUTO : string := "auto".
Definition FRIDA_LATEST : string := "latest".
Definition _MEMSWAP_UNLIMITED : string := "-1".
Definition _MIN_SMP : Z := 1.
Definition _MIN_MEMORY_MIB : Z := 256.

(** ** Errors *)

Inductive cfg_error : Type :=
| AndroidVersionUnsupported (v : Z)
| NotPositive (field : string)
| BadSha256 (field v : string)
| BadDockerSize (field v : string)
| NotAFloat (v : string)                  (* [float()] on a string it cannot read *)
| FloatOverflow (v : string)              (* [int(inf)]: an [OverflowError] *)
| ReservationAboveMem (reservation mem : string)
| MemswapBelowMem (memswap mem : string)
| BadFridaVersion (v : string)
| Sha256WithSymbolicVersion (v : string)
| ModuleNoSource
| ModuleTwoSources
| ModuleUrlScheme (url : string)
| BadDenylistEntry (entry : string)
| VendorWithNone
| GuestPortRange (v : Z)
| HostPortRange (v : Z)
| SmpTooSmall (v : Z)
| MemoryTooSmall (v : Z)
| DuplicateService
| DuplicateGuest
| DuplicateHost
| NonCanonicalGuest (service : string) (guest : Z)
| MissingAdb
| MissingFrida
| MissingFridaControl
| UnsupportedApiVersion (v : Z).

#[export] Instance cfg_error_eq_dec : EqDecision cfg_error.
Proof. solve_decision. Defined.

(** ** Data *)

Inductive Rendering := gpu | software | rendering_auto.
Inductive GappsIntent := gapps_none | minimal | full.
Inductive GappsVendor := litegapps | opengapps | mindthegapps.
Inductive Accel := accel_auto | accel_kvm | accel_tcg.
Inductive Smp := smp_auto | smp_count (n : Z).
Inductive Lifecycle := ephemeral | durable.
Inductive Binder := binder_auto | binder_host | binder_vm.

#[export] Instance Rendering_eq_dec : EqDecision Rendering.
Proof. solve_decision. Defined.
#[export] Instance GappsIntent_eq_dec : EqDecision GappsIntent.
Proof. solve_decision. Defined.
#[export] Instance GappsVendor_eq_dec : EqDecision GappsVendor.
Proof. solve_decision. Defined.
#[export] Instance Accel_eq_dec : EqDecision Accel.
Proof. solve_decision. Defined.
#[export] Instance Smp_eq_dec : EqDecision Smp.
Proof. solve_decision. Defined.
#[export] Instance Binder_eq_dec : EqDecision Binder.
Proof. solve_decision. Defined.

Record Display := mkDisplay {
  width : Z; height : Z; fps : Z; rendering : Rendering }.
Record Resources := mkResources {
  mem : string; cpus : Q; shared_mem : string;
  mem_reservation : option string; memswap_limit : option string;
  pids_limit : Z }.
Record Frida := mkFrida { frida_version : string; frida_sha256 : option string }.
Record Module_ := mkModule {
  url : option string; path : option string; module_sha256 : option string }.
Record Magisk := mkMagisk { denylist : list string }.
Record Android := mkAndroid {
  android_version : Z; gapps : GappsIntent; gapps_vendor : option GappsVendor }.
Record PortMapping := mkPortMapping {
  service : option string; guest : Z; host : option Z }.
Record Vm := mkVm {
  kernel : option string; rootfs : option string; accel : Accel; smp : Smp;
  memory_mib : Z; boot_cache : bool }.
Record InstanceConfig := mkInstanceConfig {
  api_version : Z; lifecycle : Lifecycle; android : Android; display : Display;
  resources : Resources; frida : option Frida; modules : list Module_;
  magisk : Magisk; ports : list PortMapping; binder : Binder; vm : Vm }.

#[export] Instance Display_eq_dec : EqDecision Display.
Proof. solve_decision. Defined.
#[export] Instance PortMapping_eq_dec : EqDecision PortMapping.
Proof. solve_decision. Defined.

(** ** Scalars *)

Definition validate_android_version (v : Z) : result cfg_error Z :=
  if decide (v ∈ _VALID_ANDROID_VERSIONS) then Ok v
  else Err (AndroidVersionUnsupported v).

(** [_SHA256_RE.fullmatch]. *)
Definition sha256_full (s : string) : bool :=
  Nat.eqb (String.length s) 64 && all_chars is_hex s.

Definition _check_sha256_shape (field_name : string) (v : option string)
  : result cfg_error (option string) :=
  match v with
  | None => Ok None
  | Some s => if sha256_full s then Ok v else Err (BadSha256 field_name s)
  end.

(** [_FRIDA_VERSION_RE.match]. *)
Definition frida_version_full (s : string) : bool :=
  match split_on "."%char s with
  | [a; b; c] => plus_full is_digit a && plus_full is_digit b && plus_full is_digit c
  | _ => false
  end.
Definition is_pinned_frida_version (v : string) : bool :=
  match_dollar frida_version_full v.
Definition frida_symbolic (v : string) : bool :=
  String.eqb v FRIDA_AUTO || String.eqb v FRIDA_LATEST.

(** [_DENYLIST_PKG_RE.match]. *)
Definition is_pkg_char (c : ascii) : bool :=
  is_alnum c || Ascii.eqb c "." || Ascii.eqb c "_".
Definition denylist_pkg_full (s : string) : bool :=
  match split_on "/"%char s with
  | [p] => plus_full is_pkg_char p
  | [p; q] => plus_full is_pkg_char p && plus_full is_pkg_char q
  | _ => false
  end.
Definition denylist_pkg_match (s : string) : bool := match_dollar denylist_pkg_full s.

(** *** Docker sizes *)

(** The exponent [k] of the suffix's multiplier [2^k], any case. *)
Definition size_suffix (c : ascii) : option Z :=
  match lower_char c with
  | "b"%char => Some 0
  | "k"%char => Some 10
  | "m"%char => Some 20
  | "g"%char => Some 30
  | "t"%char => Some 40
  | _ => None
  end.

(** [s[:-1]] and [s[-1]]. *)
Definition split_last (s : string) : option (string * ascii) :=
  match rev (chars s) with
  | c :: r => Some (of_chars (rev r), c)
  | [] => None
  end.

Definition decimal_full (s : string) : bool :=
  match split_on "."%char s with
  | [a] => plus_full is_digit a
  | [a; b] => plus_full is_digit a && plus_full is_digit b
  | _ => false
  end.

(** [_DOCKER_SIZE_RE.match]. *)
Definition docker_size_full (s : string) : bool :=
  match split_last s with
  | Some (body, c) =>
      match size_suffix c with Some _ => decimal_full body | None => decimal_full s end
  | None => false
  end.

Definition _check_docker_size (field_name v : string) : result cfg_error string :=
  if match_dollar docker_size_full v then Ok v else Err (BadDockerSize field_name v).

(** [float(s)] of a decimal, as the pair [(m, e)] of the double [m * 2^e]: the
    quotient [n / 10^d] rounded to 53 bits, ties to even. *)
Definition round_half_even (num den : Z) : Z :=
  let q := num / den in
  let r := num mod den in
  if 2 * r <? den then q
  else if den <? 2 * r then q + 1
  else if Z.even q then q else q + 1.

(** [num / den / 2^e] as a fraction of integers. *)
Definition scale (num den e : Z) : Z * Z :=
  if 0 <=? e then (num, den * 2 ^ e) else (num * 2 ^ (- e), den).

Definition binary64 (num den : Z) : Z * Z :=
  if num =? 0 then (0, 0)
  else
    let e0 := Z.log2 num - Z.log2 den - 53 in
    let '(a, b) := scale num den e0 in
    let e := Z.max (if 2 ^ 53 <=? a / b then e0 + 1 else e0) (-1074) in
    let '(a, b) := scale num den e in
    (round_half_even a b, e).

Definition py_float (s : string) : option (Z * Z) :=
  match split_on "."%char (strip s) with
  | [a] => n ← Z_of_digits a; Some (binary64 n 1)
  | [a; b] =>
      n ← Z_of_digits (a +:+ b);
      if plus_full is_digit a && plus_full is_digit b
      then Some (binary64 n (10 ^ Z.of_nat (String.length b))) else None
  | _ => None
  end.

(** [int(x * 2^k)] for the double [x = m * 2^e]. *)
Definition int_of_scaled (v : string) (x : Z * Z) (k : Z) : result cfg_error Z :=
  let '(m, e) := x in
  if 2 ^ 1024 <=? Z.shiftl m (e + k) then Err (FloatOverflow v)
  else Ok (Z.shiftl m (e + k)).

Definition _docker_size_to_bytes (v : string) : result cfg_error Z :=
  match split_last v with
  | Some (body, c) =>
      match size_suffix c with
      | Some k =>
          match py_float body with
          | Some x => int_of_scaled v x k
          | None => Err (NotAFloat v)
          end
      | None =>
          match py_float v with
          | Some x => int_of_scaled v x 0
          | None => Err (NotAFloat v)
          end
      end
  | None => Err (NotAFloat v)
  end.

(** ** Sections *)

(** [BaseModel.__init__] of each section: field validators in field order, then
    the [mode="after"] validators in definition order. *)

Definition Display_validate (d : Display) : result cfg_error Display :=
  raise_if (width d <=? 0) (NotPositive "width") ;;
  raise_if (height d <=? 0) (NotPositive "height") ;;
  raise_if (fps d <=? 0) (NotPositive "fps") ;;
  Ok d.

Definition _check_size_optional (field_name : string) (v : option string)
  : result cfg_error (option string) :=
  match v with
  | None => Ok None
  | Some s =>
      if String.eqb field_name "memswap_limit" && String.eqb s _MEMSWAP_UNLIMITED
      then Ok v
      else _check_docker_size ("resources." +:+ field_name) s ;; Ok v
  end.

Definition _check_memory_ordering (r : Resources) : result cfg_error Resources :=
  mem_bytes ← _docker_size_to_bytes (mem r);
  match mem_reservation r with
  | None => Ok tt
  | Some s =>
      b ← _docker_size_to_bytes s;
      raise_if (mem_bytes <? b) (ReservationAboveMem s (mem r))
  end ;;
  match memswap_limit r with
  | None => Ok tt
  | Some s =>
      if String.eqb s _MEMSWAP_UNLIMITED then Ok tt
      else
        b ← _docker_size_to_bytes s;
        raise_if (b <? mem_bytes) (MemswapBelowMem s (mem r))
  end ;;
  Ok r.

Definition Resources_validate (r : Resources) : result cfg_error Resources :=
  _check_docker_size "resources.mem" (mem r) ;;
  raise_if (Qle_bool (cpus r) 0) (NotPositive "cpus") ;;
  _check_docker_size "resources.shared_mem" (shared_mem r) ;;
  _check_size_optional "mem_reservation" (mem_reservation r) ;;
  _check_size_optional "memswap_limit" (memswap_limit r) ;;
  raise_if (pids_limit r <? 1) (NotPositive "pids_limit") ;;
  _check_memory_ordering r.

Definition _check_version_shape (v : string) : result cfg_error string :=
  if frida_symbolic v || is_pinned_frida_version v then Ok v
  else Err (BadFridaVersion v).

Definition _reject_sha256_with_symbolic_version (f : Frida) : result cfg_error Frida :=
  raise_if (bool_decide (is_Some (frida_sha256 f)) && frida_symbolic (frida_version f))
    (Sha256WithSymbolicVersion (frida_version f)) ;;
  Ok f.

Definition Frida_validate (f : Frida) : result cfg_error Frida :=
  _check_version_shape (frida_version f) ;;
  _check_sha256_shape "frida.sha256" (frida_sha256 f) ;;
  _reject_sha256_with_symbolic_version f.

(** Truth value of an optional string: [None] and the empty string are false. *)
Definition truthy (s : option string) : bool :=
  match s with Some t => negb (String.eqb t "") | None => false end.

Definition Module_post_init (m : Module_) : result cfg_error unit :=
  raise_if (negb (truthy (url m)) && negb (truthy (path m))) ModuleNoSource ;;
  raise_if (truthy (url m) && truthy (path m)) ModuleTwoSources ;;
  match url m with
  | Some u =>
      raise_if (truthy (url m) &&
                negb (starts_with "http://" u || starts_with "https://" u))
        (ModuleUrlScheme u)
  | None => Ok tt
  end.

Definition Module_validate (m : Module_) : result cfg_error Module_ :=
  _check_sha256_shape "module.sha256" (module_sha256 m) ;;
  Module_post_init m ;;
  Ok m.

Definition _DEFAULT_DENYLIST : list string :=
  ["com.google.android.gms";
   "com.google.android.gms/com.google.android.gms.unstable"].

Definition _check_packages (value : list string) : result cfg_error (list string) :=
  each (fun entry => raise_if (negb (denylist_pkg_match entry)) (BadDenylistEntry entry))
    value ;;
  Ok value.

Definition _reject_vendor_with_none (a : Android) : result cfg_error Android :=
  raise_if (bool_decide (gapps a = gapps_none) && bool_decide (is_Some (gapps_vendor a)))
    VendorWithNone ;;
  Ok a.

Definition Android_validate (a : Android) : result cfg_error Android :=
  validate_android_version (android_version a) ;;
  _reject_vendor_with_none a.

Definition port_in_range (v : Z) : bool := (_MIN_PORT <=? v) && (v <=? _MAX_PORT).

Definition _check_guest_range (v : Z) : result cfg_error Z :=
  raise_if (negb (port_in_range v)) (GuestPortRange v) ;; Ok v.

Definition _check_host_range (v : option Z) : result cfg_error (option Z) :=
  match v with
  | None => Ok None
  | Some p => raise_if (negb (port_in_range p)) (HostPortRange p) ;; Ok v
  end.

Definition PortMapping_validate (m : PortMapping) : result cfg_error PortMapping :=
  _check_guest_range (guest m) ;; _check_host_range (host m) ;; Ok m.

Definition _validate_smp (value : Smp) : result cfg_error Smp :=
  match value with
  | smp_auto => Ok value
  | smp_count n => raise_if (n <? _MIN_SMP) (SmpTooSmall n) ;; Ok value
  end.

Definition Vm_validate (v : Vm) : result cfg_error Vm :=
  _validate_smp (smp v) ;;
  raise_if (memory_mib v <? _MIN_MEMORY_MIB) (MemoryTooSmall (memory_mib v)) ;;
  Ok v.

(** ** Services and the top-level validators *)

Definition WELL_KNOWN_SERVICES : list (string * Z) :=
  [("adb", 5555); ("frida", 27042); ("frida_control", 27043)].

Definition well_known_guest (s : option string) : option Z :=
  s ← s; Dict.get s WELL_KNOWN_SERVICES.

Definition _default_port_mappings : list PortMapping :=
  map (fun '(s, g) => mkPortMapping (Some s) g None) WELL_KNOWN_SERVICES.

(** [[m.service for m in ports if m.service is not None]] and its siblings. *)
Definition port_services (l : list PortMapping) : list string := omap service l.
Definition port_guests (l : list PortMapping) : list Z := map guest l.
Definition port_hosts (l : list PortMapping) : list Z := omap host l.

Definition has_dupes {A} `{EqDecision A} (l : list A) : bool :=
  negb (bool_decide (NoDup l)).

Definition _check_ports_distinct (l : list PortMapping) : result cfg_error unit :=
  raise_if (has_dupes (port_services l)) DuplicateService ;;
  raise_if (has_dupes (port_guests l)) DuplicateGuest ;;
  raise_if (has_dupes (port_hosts l)) DuplicateHost.

Definition canonical_guest (m : PortMapping) : result cfg_error unit :=
  match service m, well_known_guest (service m) with
  | Some s, Some g => raise_if (negb (guest m =? g)) (NonCanonicalGuest s (guest m))
  | _, _ => Ok tt
  end.

Definition _check_required_addressing_services (frida_on : bool) (l : list PortMapping)
  : result cfg_error unit :=
  each canonical_guest l ;;
  raise_if (bool_decide ("adb" ∉ port_services l)) MissingAdb ;;
  raise_if (frida_on && bool_decide ("frida" ∉ port_services l)) MissingFrida ;;
  raise_if (frida_on && bool_decide ("frida_control" ∉ port_services l))
    MissingFridaControl.

Definition _check_api_version (v : Z) : result cfg_error unit :=
  raise_if (negb (v =? SUPPORTED_API_VERSION)) (UnsupportedApiVersion v).

(** [InstanceConfig.model_validate] once the fields are typed. *)
Definition InstanceConfig_validate (c : InstanceConfig) : result cfg_error InstanceConfig :=
  Android_validate (android c) ;;
  Display_validate (display c) ;;
  Resources_validate (resources c) ;;
  match frida c with None => Ok tt | Some f => Frida_validate f ;; Ok tt end ;;
  each (fun m => Module_validate m ;; Ok tt) (modules c) ;;
  _check_packages (denylist (magisk c)) ;;
  each (fun m => PortMapping_validate m ;; Ok tt) (ports c) ;;
  Vm_validate (vm c) ;;
  _check_ports_distinct (ports c) ;;
  _check_required_addressing_services (bool_decide (is_Some (frida c))) (ports c) ;;
  _check_api_version (api_version c) ;;
  Ok c.

(** ** Defaults *)

Definition Display_default : Display := mkDisplay 540 960 3 rendering_auto.
Definition Resources_default : Resources := mkResources "3g" 2 "256m" None None 4096.
Definition Android_default : Android := mkAndroid DEFAULT_ANDROID_VERSION minimal None.
Definition Magisk_default : Magisk := mkMagisk _DEFAULT_DENYLIST.
Definition Vm_default : Vm := mkVm None None accel_auto smp_auto 8192 false.
Definition InstanceConfig_default : InstanceConfig :=
  mkInstanceConfig SUPPORTED_API_VERSION durable Android_default Display_default
    Resources_default None [] Magisk_default _default_port_mappings binder_auto Vm_default.

(** ** Derived values *)

Definition _INTENT_DEFAULT_VENDOR (i : GappsIntent) : option GappsVendor :=
  match i with
  | gapps_none => None
  | minimal => Some litegapps
  | full => Some opengapps
  end.

Definition resolve_gapps_vendor (a : Android) : option GappsVendor :=
  match gapps_vendor a with
  | Some v => Some v
  | None =>
      if decide (gapps a = gapps_none) then None else _INTENT_DEFAULT_VENDOR (gapps a)
  end.

Definition _VENDOR_SLUG (v : GappsVendor) : string :=
  match v with
  | litegapps => "_litegapps"
  | opengapps => "_gapps"
  | mindthegapps => "_mindthegapps"
  end.

Definition base_image_tag (a : Android) : string :=
  let slug := match resolve_gapps_vendor a with None => "" | Some v => _VENDOR_SLUG v end in
  "redroid/redroid:" +:+ str_of_Z (android_version a) +:+ ".0.0" +:+ slug
    +:+ "_houdini_magisk".

Definition vm_redroid_image (version : Z) : string :=
  "redroid/redroid:" +:+ str_of_Z version +:+ ".0.0-latest".

(** [has_node] is the answer of [_host_has_render_node()], which globs
    [/dev/dri] for render nodes. *)
Definition resolve_rendering (has_node : bool) (r : Rendering) : string :=
  match r with
  | gpu => "host"
  | software => "guest"
  | rendering_auto => if has_node then "host" else "guest"
  end.

(** ** The port list: what the validators promise *)

(** The declarative reading of the two port validators. *)
Record ports_wf (frida_on : bool) (l : list PortMapping) : Prop := {
  pw_services : NoDup (port_services l);
  pw_guests : NoDup (port_guests l);
  pw_hosts : NoDup (port_hosts l);
  pw_canonical : forall m s g, m ∈ l -> service m = Some s ->
    Dict.get s WELL_KNOWN_SERVICES = Some g -> guest m = g;
  pw_adb : "adb" ∈ port_services l;
  pw_frida : frida_on = true ->
    "frida" ∈ port_services l /\ "frida_control" ∈ port_services l }.

Definition port_mapping_wf (m : PortMapping) : Prop :=
  1 <= guest m <= 65535 /\ forall h, host m = Some h -> 1 <= h <= 65535.

Lemma has_dupes_false {A} `{EqDecision A} (l : list A) : has_dupes l = false <-> NoDup l.
Proof.
  unfold has_dupes. rewrite negb_false_iff. apply bool_decide_eq_true.
Qed.

Lemma check_ports_distinct_ok l :
  _check_ports_distinct l = Ok tt <->
  NoDup (port_services l) /\ NoDup (port_guests l) /\ NoDup (port_hosts l).
Proof.
  unfold _check_ports_distinct, raise_if. rewrite <- !has_dupes_false.
  repeat case_match; simpl; naive_solver.
Qed.

Lemma canonical_guest_ok m :
  canonical_guest m = Ok tt <->
  (forall s g, service m = Some s -> Dict.get s WELL_KNOWN_SERVICES = Some g ->
               guest m = g).
Proof.
  unfold canonical_guest, well_known_guest, raise_if.
  destruct (service m) as [s|]; [|done].
  change (Some s ≫= fun s => Dict.get s WELL_KNOWN_SERVICES)
    with (Dict.get s WELL_KNOWN_SERVICES).
  destruct (Dict.get s WELL_KNOWN_SERVICES) as [g|] eqn:Hg.
  - destruct (Z.eqb_spec (guest m) g); cbn [negb].
    + split; [|done]. intros _ s' g' [= <-] ?. congruence.
    + split; [done|]. intros H. exfalso. eauto.
  - split; [|done]. intros _ s' g' [= <-] ?. congruence.
Qed.

Lemma check_required_ok frida_on l :
  _check_required_addressing_services frida_on l = Ok tt <->
  Forall (fun m => canonical_guest m = Ok tt) l /\ "adb" ∈ port_services l /\
  (frida_on = true -> "frida" ∈ port_services l /\ "frida_control" ∈ port_services l).
Proof.
  unfold _check_required_addressing_services.
  rewrite <- (each_ok canonical_guest l tt).
  destruct (each canonical_guest l) as [[]|]; [|naive_solver]. simpl.
  unfold raise_if. repeat case_bool_decide; destruct frida_on; simpl; naive_solver.
Qed.

Lemma PortMapping_validate_ok m m' :
  PortMapping_validate m = Ok m' <-> m' = m /\ port_mapping_wf m.
Proof.
  unfold PortMapping_validate, _check_guest_range, _check_host_range, port_mapping_wf,
    port_in_range, raise_if, _MIN_PORT, _MAX_PORT.
  destruct (host m) as [h|]; simpl;
    repeat match goal with |- context [?a <=? ?b] => destruct (Z.leb_spec a b) end;
    simpl; split; naive_solver lia.
Qed.

Lemma ports_validators_wf frida_on l :
  (_check_ports_distinct l ;; _check_required_addressing_services frida_on l) = Ok tt <->
  ports_wf frida_on l.
Proof.
  rewrite bind_ok. split.
  - intros ([] & (H1 & H2 & H3)%check_ports_distinct_ok & (H4 & H5 & H6)%check_required_ok).
    split; try done. intros m s g Hm. rewrite Forall_forall in H4.
    by apply canonical_guest_ok, H4.
  - intros [H1 H2 H3 H4 H5 H6]. exists tt. split; [by apply check_ports_distinct_ok|].
    apply check_required_ok. split_and!; [|done..].
    apply Forall_forall. intros m Hm. apply canonical_guest_ok. eauto.
Qed.

Lemma Android_validate_ok a a' :
  Android_validate a = Ok a' <->
  a' = a /\ android_version a ∈ _VALID_ANDROID_VERSIONS /\
  (gapps a = gapps_none -> gapps_vendor a = None).
Proof.
  unfold Android_validate, validate_android_version, _reject_vendor_with_none, raise_if.
  case_decide; simpl; [|naive_solver].
  destruct a as [v i [w|]]; simpl; repeat case_bool_decide; simpl; naive_solver.
Qed.

Lemma Display_validate_ok d d' :
  Display_validate d = Ok d' <-> d' = d /\ 0 < width d /\ 0 < height d /\ 0 < fps d.
Proof.
  unfold Display_validate, raise_if.
  repeat match goal with |- context [(?a <=? ?b)%Z] => destruct (Z.leb_spec a b); simpl end;
    naive_solver lia.
Qed.

Lemma check_packages_ok l l' :
  _check_packages l = Ok l' <-> l' = l /\ Forall (fun e => denylist_pkg_match e = true) l.
Proof.
  unfold _check_packages. rewrite bind_ok. split.
  - intros (u & Hu & [= <-]). apply each_ok in Hu. split; [done|].
    eapply Forall_impl; [exact Hu|]. intros e He. apply raise_if_ok in He.
    by apply negb_false_iff in He.
  - intros [-> H]. exists tt. split; [|done]. apply each_ok.
    eapply Forall_impl; [exact H|]. intros e He. simpl. by rewrite He.
Qed.

Lemma validate_all_ok {E A} (f : A -> result E A) (W : A -> Prop) l :
  (forall x y, f x = Ok y <-> y = x /\ W x) ->
  each (fun x => f x ;; Ok tt) l = Ok tt <-> Forall W l.
Proof.
  intros Hf. rewrite each_ok. apply Forall_iff. intros x. specialize (Hf x).
  destruct (f x); simpl; naive_solver.
Qed.

Lemma optional_ok {E A} (f : A -> result E A) (W : A -> Prop) (o : option A) :
  (forall x y, f x = Ok y <-> y = x /\ W x) ->
  (match o with None => Ok tt | Some x => f x ;; Ok tt end) = Ok tt <->
  (forall x, o = Some x -> W x).
Proof.
  intros Hf. destruct o as [x|]; [|done]. specialize (Hf x). destruct (f x); simpl; naive_solver.
Qed.

Lemma port_mappings_ok l :
  each (fun m => PortMapping_validate m ;; Ok tt) l = Ok tt <-> Forall port_mapping_wf l.
Proof. apply validate_all_ok, PortMapping_validate_ok. Qed.

Lemma bind_unit {E B} (m : result E unit) (k : result E B) b :
  (m ;; k) = Ok b <-> m = Ok tt /\ k = Ok b.
Proof. destruct m as [[]|]; naive_solver. Qed.

(** ** What the validators promise, section by section *)

(** A non-empty text over an alphabet; a text with at most one newline after it. *)
Definition made_of (alphabet s : string) : Prop :=
  s <> "" /\ Forall (fun c => c ∈ chars alphabet) (chars s).
Definition or_newline (T : string -> Prop) (s : string) : Prop :=
  T s \/ exists t, s = t +:+ String newline "" /\ T t.

Definition DIGITS : string := "0123456789".
Definition HEX_DIGITS : string := "0123456789abcdefABCDEF".
Definition PACKAGE_CHARS : string :=
  "0123456789abcdefghijklmnopqrstuvwxyzABCDEFGHIJKLMNOPQRSTUVWXYZ._".

Definition hex64 (s : string) : Prop := String.length s = 64%nat /\ made_of HEX_DIGITS s.
Definition dotted_version (s : string) : Prop := exists a b c,
  made_of DIGITS a /\ made_of DIGITS b /\ made_of DIGITS c /\
  s = a +:+ String "." (b +:+ String "." c).
Definition package_entry (s : string) : Prop :=
  made_of PACKAGE_CHARS s \/
  exists p q, made_of PACKAGE_CHARS p /\ made_of PACKAGE_CHARS q /\ s = p +:+ String "/" q.
Definition decimal (s : string) : Prop :=
  made_of DIGITS s \/ exists a b, made_of DIGITS a /\ made_of DIGITS b /\ s = a +:+ String "." b.
Definition docker_size (s : string) : Prop :=
  decimal s \/ exists body c, decimal body /\ c ∈ chars "bkmgtBKMGT" /\ s = body +:+ String c "".

Lemma made_of_plus p alphabet s :
  (forall c, p c = bool_decide (c ∈ chars alphabet)) -> plus_full p s = true <-> made_of alphabet s.
Proof.
  intros Hp. rewrite plus_full_spec. unfold made_of, all_chars.
  rewrite forallb_forall, Forall_forall. split; intros [Hne H]; (split; [done|]); intros c Hc.
  - apply list_elem_of_In, H in Hc. rewrite Hp in Hc. by apply bool_decide_eq_true in Hc.
  - rewrite Hp. apply bool_decide_eq_true, H. by apply list_elem_of_In.
Qed.

Ltac each_char := intros c; destruct c as [[][][][][][][][]]; vm_compute; reflexivity.

Lemma digits_made s : plus_full is_digit s = true <-> made_of DIGITS s.
Proof. apply made_of_plus. each_char. Qed.
Lemma package_made s : plus_full is_pkg_char s = true <-> made_of PACKAGE_CHARS s.
Proof. apply made_of_plus. each_char. Qed.

Lemma sha256_full_spec s : sha256_full s = true <-> hex64 s.
Proof.
  unfold sha256_full, hex64. rewrite <- (made_of_plus is_hex) by each_char.
  rewrite andb_true_iff, Nat.eqb_eq, plus_full_spec. split; [|tauto].
  intros [Hl Ha]. split_and!; [done| |done]. by intros ->.
Qed.

(** A text is its parts at a separator; the parts have none of it. *)
Lemma split_parts c s l : split_on c s = l -> s = join (String c "") l.
Proof. intros <-. by rewrite join_split. Qed.

Lemma made_of_free alphabet c s : made_of alphabet s -> c ∉ chars alphabet -> c ∉ chars s.
Proof. intros [_ H] Hc Hin. rewrite Forall_forall in H. by apply Hc, H. Qed.

Ltac free := eapply made_of_free; [eassumption|by apply (bool_decide_unpack _)].

Lemma frida_version_full_spec s : frida_version_full s = true <-> dotted_version s.
Proof.
  unfold frida_version_full, dotted_version. split.
  - destruct (split_on "." s) as [|a [|b [|c [|]]]] eqn:Hs; try done.
    rewrite !andb_true_iff, !digits_made. intros [[Ha Hb] Hc]. apply split_parts in Hs. eauto 10.
  - intros (a & b & c & Ha & Hb & Hc & ->).
    rewrite !split_on_app, split_on_free by free. by rewrite !(proj2 (digits_made _)).
Qed.

Lemma denylist_pkg_text s : denylist_pkg_full s = true <-> package_entry s.
Proof.
  unfold denylist_pkg_full, package_entry. split.
  - destruct (split_on "/" s) as [|p [|q [|]]] eqn:Hs; try done; apply split_parts in Hs.
    + rewrite package_made. subst. by left.
    + rewrite andb_true_iff, !package_made. intros [? ?]. right. eauto.
  - intros [H|(p & q & Hp & Hq & ->)].
    + rewrite split_on_free by free. by apply package_made.
    + rewrite split_on_app, split_on_free by free. by rewrite !(proj2 (package_made _)).
Qed.

Lemma decimal_full_spec s : decimal_full s = true <-> decimal s.
Proof.
  unfold decimal_full, decimal. split.
  - destruct (split_on "." s) as [|p [|q [|]]] eqn:Hs; try done; apply split_parts in Hs.
    + rewrite digits_made. subst. by left.
    + rewrite andb_true_iff, !digits_made. intros [? ?]. right. eauto.
  - intros [H|(p & q & Hp & Hq & ->)].
    + rewrite split_on_free by free. by apply digits_made.
    + rewrite split_on_app, split_on_free by free. by rewrite !(proj2 (digits_made _)).
Qed.

Lemma split_last_app s c : split_last (s +:+ String c "") = Some (s, c).
Proof.
  unfold split_last. rewrite chars_app, rev_app_distr. simpl. by rewrite rev_involutive, of_chars_chars.
Qed.

Lemma split_last_Some s body c : split_last s = Some (body, c) <-> s = body +:+ String c "".
Proof.
  split; [|intros ->; apply split_last_app]. unfold split_last.
  destruct (rev (chars s)) as [|d r] eqn:Hr; [done|]. intros [= <- <-].
  apply (f_equal (@rev ascii)) in Hr. rewrite rev_involutive in Hr. simpl in Hr.
  apply (f_equal of_chars) in Hr. rewrite of_chars_chars in Hr. subst s.
  by induction (rev r) as [|x l IH]; [|simpl; rewrite IH].
Qed.

Lemma suffix_chars c : is_Some (size_suffix c) <-> c ∈ chars "bkmgtBKMGT".
Proof.
  rewrite <- (bool_decide_eq_true (is_Some _)), <- (bool_decide_eq_true (c ∈ _)).
  assert (bool_decide (is_Some (size_suffix c)) = bool_decide (c ∈ chars "bkmgtBKMGT")) as ->; [|done].
  revert c. each_char.
Qed.

Lemma decimal_no_suffix body c : decimal (body +:+ String c "") -> size_suffix c = None.
Proof.
  intros H. assert (c ∈ chars (String "." DIGITS)) as Hc.
  { assert (c ∈ chars (body +:+ String c "")) as Hin by (rewrite chars_app; set_solver).
    destruct H as [[_ H]|(a & b & [_ Ha] & [_ Hb] & Heq)].
    - rewrite Forall_forall in H. by right; apply H.
    - rewrite Heq, chars_app in Hin. rewrite Forall_forall in Ha, Hb.
      apply elem_of_app in Hin as [Hin|Hin]; [by right; apply Ha|].
      simpl in Hin. apply elem_of_cons in Hin as [->|Hin]; [by left|]. right. by apply Hb. }
  clear H. revert Hc. rewrite <- (bool_decide_eq_true (c ∈ _)).
  destruct c as [[][][][][][][][]]; vm_compute; done.
Qed.

Lemma docker_size_full_spec s : docker_size_full s = true <-> docker_size s.
Proof.
  unfold docker_size_full, docker_size. split.
  - destruct (split_last s) as [[body c]|] eqn:Hs; [|done]. apply split_last_Some in Hs.
    destruct (size_suffix c) eqn:Hc; rewrite decimal_full_spec; intros H; [right|by left].
    exists body, c. split_and!; [done| |done]. apply suffix_chars. by eexists.
  - intros [H|(body & c & Hb & Hc%suffix_chars & ->)].
    + destruct (split_last s) as [[body c]|] eqn:Hs.
      * apply split_last_Some in Hs as Heq. rewrite Heq in H.
        rewrite (decimal_no_suffix _ _ H), <- Heq in *. by apply decimal_full_spec.
      * exfalso. unfold split_last in Hs. destruct (rev (chars s)) eqn:Hr; [|done].
        assert (s = "") as ->.
        { apply (f_equal (@rev ascii)) in Hr. rewrite rev_involutive in Hr. by destruct s. }
        destruct H as [[? _]|(a & b & _ & _ & Heq)]; [done|by destruct a].
    + rewrite split_last_app. destruct Hc as [k ->]. by apply decimal_full_spec.
Qed.

Lemma match_dollar_text full (T : string -> Prop) s :
  (forall t, full t = true <-> T t) -> match_dollar full s = true <-> or_newline T s.
Proof. intros H. rewrite match_dollar_spec. unfold or_newline. by setoid_rewrite H. Qed.

(** ** What every accepted configuration satisfies *)

(** The bytes of the configured sizes are ordered: reservation, memory, memory and swap. *)
Definition sizes_ordered (r : Resources) : Prop := exists m,
  _docker_size_to_bytes (mem r) = Ok m /\
  (forall s, mem_reservation r = Some s -> exists b, _docker_size_to_bytes s = Ok b /\ b <= m) /\
  (forall s, memswap_limit r = Some s -> s = "-1" \/ exists b, _docker_size_to_bytes s = Ok b /\ m <= b).

Record resources_wf (r : Resources) : Prop := {
  rw_mem : or_newline docker_size (mem r);
  rw_cpus : (0 < cpus r)%Q;
  rw_shared : or_newline docker_size (shared_mem r);
  rw_reservation : forall s, mem_reservation r = Some s -> or_newline docker_size s;
  rw_memswap : forall s, memswap_limit r = Some s -> s = "-1" \/ or_newline docker_size s;
  rw_pids : 1 <= pids_limit r;
  rw_ordered : sizes_ordered r }.

Record frida_wf (f : Frida) : Prop := {
  fw_version : frida_version f ∈ ["auto"; "latest"] \/ or_newline dotted_version (frida_version f);
  fw_sha256 : forall s, frida_sha256 f = Some s -> hex64 s;
  fw_pinned : is_Some (frida_sha256 f) -> frida_version f ∉ ["auto"; "latest"] }.

(** An optional text that is there and not empty. *)
Definition given (s : option string) : Prop := exists t, s = Some t /\ t <> "".

Record module_wf (m : Module_) : Prop := {
  mw_sha256 : forall s, module_sha256 m = Some s -> hex64 s;
  mw_source : given (url m) /\ ~ given (path m) \/ ~ given (url m) /\ given (path m);
  mw_scheme : forall u, url m = Some u -> u <> "" ->
    exists rest, u = "http://" +:+ rest \/ u = "https://" +:+ rest }.

Definition vm_wf (v : Vm) : Prop :=
  (forall n, smp v = smp_count n -> 1 <= n) /\ 256 <= memory_mib v.

Lemma check_docker_size_ok field s t :
  _check_docker_size field s = Ok t <-> t = s /\ or_newline docker_size s.
Proof.
  unfold _check_docker_size. rewrite <- (match_dollar_text _ _ _ docker_size_full_spec).
  destruct (match_dollar docker_size_full s); naive_solver.
Qed.

Lemma check_size_optional_ok field v w :
  _check_size_optional field v = Ok w <-> w = v /\ forall s, v = Some s -> (field = "memswap_limit" /\ s = "-1") \/ or_newline docker_size s.
Proof.
  destruct v as [s|]; simpl; [|naive_solver]. unfold _MEMSWAP_UNLIMITED.
  destruct (String.eqb_spec field "memswap_limit"), (String.eqb_spec s "-1"); simpl;
    try (rewrite bind_ok; setoid_rewrite check_docker_size_ok); naive_solver.
Qed.

Lemma check_sha256_ok field v w :
  _check_sha256_shape field v = Ok w <-> w = v /\ forall s, v = Some s -> hex64 s.
Proof.
  destruct v as [s|]; simpl; [|naive_solver]. pose proof (sha256_full_spec s).
  destruct (sha256_full s); naive_solver.
Qed.

Lemma check_memory_ordering_ok r r' :
  _check_memory_ordering r = Ok r' <-> r' = r /\ sizes_ordered r.
Proof.
  unfold _check_memory_ordering, sizes_ordered, _MEMSWAP_UNLIMITED. rewrite bind_ok. split.
  - intros (m & Hm & H). inv_result. split; [done|]. exists m. split; [done|]. split.
    + intros s Hs. rewrite Hs in *. inv_result. rewrite Z.ltb_ge in *. eauto.
    + intros s Hs. rewrite Hs in *. destruct (String.eqb_spec s "-1"); [by left|]. right.
      inv_result. rewrite Z.ltb_ge in *. eauto.
  - intros (-> & m & Hm & Hr & Hs). exists m. split; [done|].
    apply bind_ok. exists tt. split.
    + destruct (mem_reservation r) as [s|]; [|done]. destruct (Hr s eq_refl) as (b & -> & Hb).
      apply raise_if_ok, Z.ltb_ge. lia.
    + apply bind_ok. exists tt. split; [|done]. destruct (memswap_limit r) as [s|]; [|done].
      destruct (String.eqb_spec s "-1"); [done|]. destruct (Hs s eq_refl) as [|(b & -> & Hb)]; [done|].
      apply raise_if_ok, Z.ltb_ge. lia.
Qed.

Lemma then_ok {E A B} (m : result E A) (k : result E B) b :
  (m ;; k) = Ok b <-> (exists a, m = Ok a) /\ k = Ok b.
Proof. rewrite bind_ok. naive_solver. Qed.

Lemma ok_exists {E A} (m : result E A) a (Q : Prop) :
  (forall b, m = Ok b <-> b = a /\ Q) -> (exists b, m = Ok b) <-> Q.
Proof. intros H. setoid_rewrite H. naive_solver. Qed.

Lemma unit_exists {E} (m : result E unit) : (exists u, m = Ok u) <-> m = Ok tt.
Proof. split; [by intros [[] ?]|eauto]. Qed.

Lemma Resources_validate_ok r r' : Resources_validate r = Ok r' <-> r' = r /\ resources_wf r.
Proof.
  assert (Qle_bool (cpus r) 0 = false <-> (0 < cpus r)%Q) as Hq.
  { rewrite <- not_true_iff_false, Qle_bool_iff. split; [apply Qnot_le_lt|apply Qlt_not_le]. }
  unfold Resources_validate. rewrite !then_ok, check_memory_ordering_ok.
  rewrite !(ok_exists (_check_docker_size _ _) _ _ (check_docker_size_ok _ _)),
    !(ok_exists (_check_size_optional _ _) _ _ (check_size_optional_ok _ _)).
  assert (forall b (e : cfg_error), (exists u, raise_if b e = Ok u) <-> b = false) as Hr.
  { intros b e. unfold raise_if. destruct b; naive_solver. }
  rewrite !Hr, Hq, Z.ltb_ge. split.
  - intros H. destruct_and?. split; [done|]. split; naive_solver.
  - intros [-> []]. split_and!; naive_solver.
Qed.

Lemma frida_symbolic_spec v : frida_symbolic v = true <-> v ∈ ["auto"; "latest"].
Proof.
  unfold frida_symbolic, FRIDA_AUTO, FRIDA_LATEST. rewrite orb_true_iff, !String.eqb_eq. set_solver.
Qed.

Lemma check_version_shape_ok v w : _check_version_shape v = Ok w <->
  w = v /\ (v ∈ ["auto"; "latest"] \/ or_newline dotted_version v).
Proof.
  unfold _check_version_shape, is_pinned_frida_version.
  rewrite <- frida_symbolic_spec, <- (match_dollar_text _ _ v frida_version_full_spec), <- orb_true_iff.
  destruct (_ || _); naive_solver.
Qed.

Lemma reject_symbolic_ok f f' : _reject_sha256_with_symbolic_version f = Ok f' <->
  f' = f /\ (is_Some (frida_sha256 f) -> frida_version f ∉ ["auto"; "latest"]).
Proof.
  unfold _reject_sha256_with_symbolic_version, raise_if. rewrite <- frida_symbolic_spec.
  case_bool_decide; destruct (frida_symbolic (frida_version f)); simpl; naive_solver.
Qed.

Lemma Frida_validate_ok f f' : Frida_validate f = Ok f' <-> f' = f /\ frida_wf f.
Proof.
  unfold Frida_validate. rewrite !then_ok, reject_symbolic_ok.
  rewrite (ok_exists (_check_version_shape _) _ _ (check_version_shape_ok _)),
    (ok_exists (_check_sha256_shape _ _) _ _ (check_sha256_ok _ _)).
  split; [intros (? & ? & ? & ?); by split|intros [-> []]; by split_and!].
Qed.

Lemma truthy_given s : truthy s = true <-> given s.
Proof.
  unfold given. destruct s as [s|]; simpl; [|naive_solver]. rewrite negb_true_iff, String.eqb_neq. naive_solver.
Qed.

Lemma module_scheme_ok (m : Module_) :
  match url m with
  | Some u => raise_if (truthy (url m) && negb (starts_with "http://" u || starts_with "https://" u)) (ModuleUrlScheme u)
  | None => Ok tt
  end = Ok tt <->
  forall u, url m = Some u -> u <> "" -> exists rest, u = "http://" +:+ rest \/ u = "https://" +:+ rest.
Proof.
  destruct (url m) as [u|]; [|naive_solver]. rewrite raise_if_ok. unfold starts_with. cbn [truthy].
  rewrite andb_false_iff, !negb_false_iff, String.eqb_eq, orb_true_iff, !prefix_spec.
  destruct (decide (u = "")); naive_solver.
Qed.

Lemma module_post_init_ok (m : Module_) u : Module_post_init m = Ok u <-> u = tt /\
  ((given (url m) /\ ~ given (path m) \/ ~ given (url m) /\ given (path m)) /\
   forall w, url m = Some w -> w <> "" -> exists rest, w = "http://" +:+ rest \/ w = "https://" +:+ rest).
Proof.
  destruct u. unfold Module_post_init.
  rewrite !bind_unit, module_scheme_ok, !raise_if_ok, <- (truthy_given (url m)), <- (truthy_given (path m)).
  destruct (truthy (url m)), (truthy (path m)); simpl; naive_solver.
Qed.

Lemma Module_validate_ok m m' : Module_validate m = Ok m' <-> m' = m /\ module_wf m.
Proof.
  unfold Module_validate. rewrite !then_ok.
  rewrite (ok_exists (_check_sha256_shape _ _) _ _ (check_sha256_ok _ _)),
    (ok_exists (Module_post_init _) _ _ (module_post_init_ok _)).
  split; [intros (? & [? ?] & [= ->]); by split|intros [-> []]; by split_and!].
Qed.

Lemma validate_smp_ok s t : _validate_smp s = Ok t <-> t = s /\ (forall n, s = smp_count n -> 1 <= n).
Proof.
  unfold _validate_smp, raise_if, _MIN_SMP. destruct s as [|n]; [naive_solver|].
  destruct (Z.ltb_spec n 1) as [Hn|Hn]; simpl.
  - split; [done|]. intros [_ H]. specialize (H n eq_refl). lia.
  - split; [|by intros [-> _]]. intros [= <-]. split; [done|]. by intros ? [= <-].
Qed.

Lemma Vm_validate_ok v v' : Vm_validate v = Ok v' <-> v' = v /\ vm_wf v.
Proof.
  unfold Vm_validate, vm_wf. rewrite !then_ok, (ok_exists (_validate_smp _) _ _ (validate_smp_ok _)).
  unfold raise_if, _MIN_MEMORY_MIB. destruct (Z.ltb_spec (memory_mib v) 256); simpl.
  - split; [by intros (_ & [? ?] & _)|intros (_ & _ & ?); lia].
  - split; [intros (? & _ & [= ->]); by split_and!|intros (-> & ? & _)]. split_and!; [done| |done]. by eexists.
Qed.

Record config_wf (c : InstanceConfig) : Prop := {
  cw_ports : ports_wf (bool_decide (is_Some (frida c))) (ports c);
  cw_port_range : Forall port_mapping_wf (ports c);
  cw_denylist : Forall (or_newline package_entry) (denylist (magisk c));
  cw_android : android_version (android c) ∈ [11; 12; 13; 14];
  cw_vendor : gapps (android c) = gapps_none -> gapps_vendor (android c) = None;
  cw_api : api_version c = 8;
  cw_display : 0 < width (display c) /\ 0 < height (display c) /\ 0 < fps (display c);
  cw_resources : resources_wf (resources c);
  cw_frida : forall f, frida c = Some f -> frida_wf f;
  cw_modules : Forall module_wf (modules c);
  cw_vm : vm_wf (vm c) }.

Lemma denylist_match_text s : denylist_pkg_match s = true <-> or_newline package_entry s.
Proof. apply match_dollar_text, denylist_pkg_text. Qed.

Lemma InstanceConfig_validate_exact c c' :
  InstanceConfig_validate c = Ok c' <-> c' = c /\ config_wf c.
Proof.
  unfold InstanceConfig_validate. rewrite !then_ok.
  rewrite (ok_exists (Android_validate _) _ _ (Android_validate_ok _)),
    (ok_exists (Display_validate _) _ _ (Display_validate_ok _)),
    (ok_exists (Resources_validate _) _ _ (Resources_validate_ok _)),
    (ok_exists (_check_packages _) _ _ (check_packages_ok _)),
    (ok_exists (Vm_validate _) _ _ (Vm_validate_ok _)), !unit_exists.
  rewrite (optional_ok _ _ _ Frida_validate_ok), (validate_all_ok _ _ _ Module_validate_ok), port_mappings_ok.
  unfold _check_api_version. rewrite raise_if_ok, negb_false_iff, Z.eqb_eq.
  pose proof (ports_validators_wf (bool_decide (is_Some (frida c))) (ports c)) as Hp.
  rewrite bind_unit in Hp.
  rewrite (Forall_iff _ _ _ denylist_match_text). split.
  - intros H. destruct_and?. simplify_eq. split; [done|]. split; try done. by apply Hp.
  - intros [-> []]. destruct Hp as [_ Hp]. destruct (Hp cw_ports0).
    split_and!; naive_solver.
Qed.

(** C30. Schema validation is exact: a typed configuration is accepted, unchanged,
    if and only if it satisfies [config_wf] — distinct services, guest ports and
    pinned host ports, every port within 1..65535, the well-known services on
    their canonical guest ports, [adb] always mapped and both Frida channels
    mapped when a [frida:] block is present; and, section by section, without reference
    to the validators: sizes that read as a decimal with a unit, the reservation at most
    and the swap limit at least the memory, a positive share of CPUs; a Frida version that
    is symbolic or three numbers and a digest only beside a pinned one; one source per
    module, of a known scheme, and digests of 64 hexadecimal digits; package entries of
    the denylist; a supported Android version; a vendor only with GApps; enough CPUs and
    memory for the micro-VM. *)
Theorem InstanceConfig_validate_iff c c' :
  InstanceConfig_validate c = Ok c' <-> c' = c /\ config_wf c.
Proof. exact (InstanceConfig_validate_exact c c'). Qed.

(** ** Memory sizes *)

Lemma size_suffix_not_digit c k : size_suffix c = Some k -> is_digit c = false.
Proof.
  unfold size_suffix, is_digit, in_range. destruct c as [[][][][][][][][]]; done.
Qed.

Lemma strip_digits s : all_chars is_digit s = true -> strip s = s.
Proof.
  assert (forall l, forallb is_digit l = true -> lstrip_chars l = l) as Hl.
  { intros [|c l]; [done|]. simpl. rewrite andb_true_iff. intros [Hc _].
    replace (is_space c) with false; [done|]. revert Hc.
    unfold is_digit, is_space, in_range. by destruct c as [[][][][][][][][]]. }
  unfold all_chars, strip. intros H. rewrite (Hl (chars s)) by done.
  rewrite Hl, rev_involutive, of_chars_chars; [done|].
  rewrite forallb_forall in H |- *. intros x Hx. apply H. by apply in_rev in Hx.
Qed.

Lemma digits_free s c : all_chars is_digit s = true -> is_digit c = false -> c ∉ chars s.
Proof.
  unfold all_chars. rewrite forallb_forall. intros H Hc Hin%list_elem_of_In.
  apply H in Hin. congruence.
Qed.

Lemma py_float_digits s n :
  all_chars is_digit s = true -> Z_of_digits s = Some n -> py_float s = Some (binary64 n 1).
Proof.
  intros Hd Hn. unfold py_float. rewrite strip_digits by done.
  rewrite split_on_free by (by apply digits_free). by rewrite Hn.
Qed.

Lemma round_half_even_1 a : round_half_even a 1 = a.
Proof. unfold round_half_even. by rewrite Z.mod_1_r, Z.div_1_r. Qed.

(** A number of at most 53 bits converts to a double exactly. *)
Lemma binary64_exact n k :
  0 <= n < 2 ^ 53 -> 0 <= k ->
  let '(m, e) := binary64 n 1 in Z.shiftl m (e + k) = n * 2 ^ k.
Proof.
  intros Hn Hk. unfold binary64. destruct (Z.eqb_spec n 0) as [->|Hn0].
  { by rewrite Z.shiftl_0_l. }
  pose proof (Z.log2_spec n ltac:(lia)) as [Hlo Hhi].
  set (L := Z.log2 n) in *. assert (0 <= L < 53) as HL.
  { split; [apply Z.log2_nonneg|]. apply Z.log2_lt_pow2; lia. }
  change (Z.log2 1) with 0. replace (L - 0 - 53) with (L - 53) by lia.
  unfold scale at 1. destruct (Z.leb_spec 0 (L - 53)) as [?|_]; [lia|].
  rewrite Z.div_1_r. replace (- (L - 53)) with (53 - L) by lia.
  destruct (Z.leb_spec (2 ^ 53) (n * 2 ^ (53 - L))) as [_|Hlt].
  2: { exfalso. enough (2 ^ L * 2 ^ (53 - L) <= n * 2 ^ (53 - L)) as H.
       { rewrite <- Z.pow_add_r in H by lia. replace (L + (53 - L)) with 53 in H; lia. }
       apply Z.mul_le_mono_nonneg_r; [apply Z.pow_nonneg; lia|lia]. }
  replace (L - 53 + 1) with (L - 52) by lia. rewrite Z.max_l by lia.
  unfold scale. destruct (Z.leb_spec 0 (L - 52)) as [HL52|HL52].
  - assert (L = 52) as -> by lia. simpl (52 - 52).
    rewrite round_half_even_1, Z.shiftl_mul_pow2; [f_equal; lia|lia].
  - rewrite round_half_even_1.
    destruct (Z.leb_spec 0 (L - 52 + k)).
    + rewrite Z.shiftl_mul_pow2 by done. rewrite <- Z.mul_assoc, <- Z.pow_add_r by lia.
      f_equal. f_equal. lia.
    + rewrite Z.shiftl_div_pow2 by lia.
      replace (- (L - 52)) with (k + - (L - 52 + k)) by lia.
      rewrite Z.pow_add_r by lia. rewrite Z.mul_assoc.
      apply Z.div_mul. apply Z.pow_nonzero; lia.
Qed.

Lemma size_suffix_range c k : size_suffix c = Some k -> 0 <= k <= 40.
Proof. unfold size_suffix. repeat case_match; intros; simplify_eq; lia. Qed.

Lemma docker_size_full_int n c k :
  0 <= n -> size_suffix c = Some k -> docker_size_full (str_of_Z n +:+ String c "") = true.
Proof.
  intros Hn Hc. unfold docker_size_full. rewrite split_last_app, Hc.
  unfold decimal_full. rewrite split_on_free by (by apply str_of_Z_free).
  apply plus_full_spec. split; [by apply str_of_Z_nonempty|by apply str_of_Z_digits].
Qed.

(** Size conversion is exact on whole numbers: for every [n] below 2^53 and
    every suffix letter (either case), ["<n><suffix>"] passes the size check and
    converts to [n * 2^k] bytes, with no error from the detour through [float]. *)
Theorem docker_size_to_bytes_exact field n c k :
  0 <= n < 2 ^ 53 -> size_suffix c = Some k ->
  let v := str_of_Z n +:+ String c "" in
  _check_docker_size field v = Ok v /\ _docker_size_to_bytes v = Ok (n * 2 ^ k).
Proof.
  intros Hn Hc. split.
  - unfold _check_docker_size, match_dollar. by rewrite (docker_size_full_int n c k) by (done || lia).
  - unfold _docker_size_to_bytes. rewrite split_last_app, Hc.
    rewrite (py_float_digits _ n) by (try apply str_of_Z_digits; try apply Z_of_digits_str; lia).
    pose proof (size_suffix_range _ _ Hc) as Hk. unfold int_of_scaled.
    pose proof (binary64_exact n k Hn ltac:(lia)) as He.
    destruct (binary64 n 1) as [m e]. rewrite He.
    destruct (Z.leb_spec (2 ^ 1024) (n * 2 ^ k)) as [Hbig|]; [exfalso|done].
    assert (n * 2 ^ k <= 2 ^ 53 * 2 ^ 40); [|lia].
    apply Z.mul_le_mono_nonneg; [lia|lia|apply Z.pow_nonneg; lia|].
    apply Z.pow_le_mono_r; lia.
Qed.

Lemma docker_size_to_bytes_exact_witness :
  0 <= 1536 < 2 ^ 53 /\ size_suffix "M"%char = Some 20 /\
  _check_docker_size "resources.mem" "1536M" = Ok "1536M" /\
  _docker_size_to_bytes "1536M" = Ok 1610612736.
Proof.
  split; [lia|]. split; [reflexivity|].
  apply (docker_size_to_bytes_exact "resources.mem" 1536 "M"%char 20); [lia|reflexivity].
Defined.

(** The memory caps of an accepted [resources:] section are ordered: the soft
    floor does not exceed the hard limit, and the memory+swap cap is unlimited
    ([-1]) or not below it. *)
Theorem Resources_validate_ordered r r' :
  Resources_validate r = Ok r' ->
  exists m, _docker_size_to_bytes (mem r) = Ok m /\
    (forall s, mem_reservation r = Some s ->
       exists b, _docker_size_to_bytes s = Ok b /\ b <= m) /\
    (forall s, memswap_limit r = Some s ->
       s = _MEMSWAP_UNLIMITED \/ exists b, _docker_size_to_bytes s = Ok b /\ m <= b).
Proof.
  unfold Resources_validate, _check_memory_ordering. intros H. inv_result.
  eexists. split_and!; [eassumption|..]; intros s Hs;
    match goal with H : match ?f with _ => _ end = _ |- _ => rewrite Hs in H end.
  - inv_result. eexists. split; [eassumption|]. lia.
  - destruct (String.eqb_spec s _MEMSWAP_UNLIMITED); [by left|right].
    inv_result. eexists. split; [eassumption|]. lia.
Qed.

Lemma Resources_validate_ordered_witness :
  exists r, Resources_validate r = Ok r /\ mem_reservation r = Some "512m" /\
  exists m, _docker_size_to_bytes (mem r) = Ok m /\
    (forall s, mem_reservation r = Some s ->
       exists b, _docker_size_to_bytes s = Ok b /\ b <= m) /\
    (forall s, memswap_limit r = Some s ->
       s = _MEMSWAP_UNLIMITED \/ exists b, _docker_size_to_bytes s = Ok b /\ m <= b).
Proof.
  exists (mkResources "3g" 2 "256m" (Some "512m") (Some "4g") 4096).
  split; [vm_compute; reflexivity|]. split; [reflexivity|].
  apply (Resources_validate_ordered _ (mkResources "3g" 2 "256m" (Some "512m") (Some "4g") 4096)).
  vm_compute. reflexivity.
Defined.

(** ** Denylist entries and base images *)

Lemma denylist_pkg_full_spec s :
  denylist_pkg_full s = true <->
  plus_full is_pkg_char s = true \/
  exists p q, s = p +:+ String "/" q /\
    plus_full is_pkg_char p = true /\ plus_full is_pkg_char q = true.
Proof.
  assert (forall w, plus_full is_pkg_char w = true -> "/"%char ∉ chars w) as Hfree.
  { intros w [_ Hw]%plus_full_spec Hin%list_elem_of_In. unfold all_chars in Hw.
    rewrite forallb_forall in Hw. by apply Hw in Hin. }
  unfold denylist_pkg_full. split.
  - pose proof (join_split "/"%char s) as Hj. intros H.
    destruct (split_on "/"%char s) as [|p [|q [|]]]; try done; simpl in Hj.
    + left. by subst.
    + right. apply andb_true_iff in H as [Hp Hq]. by exists p, q.
  - intros [H|(p & q & -> & Hp & Hq)].
    + rewrite split_on_free by auto. done.
    + rewrite split_on_app, split_on_free by auto. by rewrite Hp, Hq.
Qed.

(** The denylist grammar is exact: an entry is accepted if and only if, up to
    one trailing newline, it is a package id or a package and a process id
    separated by one slash, each a non-empty run of [[a-zA-Z0-9._]] — so an
    accepted entry holds no quote, comma, space or semicolon for the boot script's
    SQL insert. *)
Theorem denylist_pkg_match_spec s :
  denylist_pkg_match s = true <->
  exists body, (s = body \/ s = body +:+ String newline "") /\
    (plus_full is_pkg_char body = true \/
     exists p q, body = p +:+ String "/" q /\
       plus_full is_pkg_char p = true /\ plus_full is_pkg_char q = true).
Proof.
  unfold denylist_pkg_match. rewrite match_dollar_spec. split.
  - intros [H%denylist_pkg_full_spec|(t & -> & H%denylist_pkg_full_spec)]; eauto.
  - intros (body & [-> | ->] & H%denylist_pkg_full_spec); eauto.
Qed.

Lemma resolve_gapps_vendor_none a :
  (gapps a = gapps_none -> gapps_vendor a = None) ->
  resolve_gapps_vendor a = None <-> gapps a = gapps_none.
Proof.
  intros H. unfold resolve_gapps_vendor.
  destruct (gapps_vendor a); [split; [done|]; intros Hn; by apply H in Hn|].
  case_decide; [done|]. split; [|done]. by destruct (gapps a).
Qed.

Lemma slug_inj v w :
  match v with None => "" | Some v => _VENDOR_SLUG v end +:+ "_houdini_magisk" =
  match w with None => "" | Some v => _VENDOR_SLUG v end +:+ "_houdini_magisk" -> v = w.
Proof. destruct v as [[]|], w as [[]|]; done. Qed.

(** The base-image tag determines what was asked for: two accepted [android:]
    sections name the same image exactly when they have the same version and
    resolve to the same vendor, and no vendor is resolved exactly when the intent
    is [none]. *)
Theorem base_image_tag_faithful a b a' b' :
  Android_validate a = Ok a' -> Android_validate b = Ok b' ->
  (base_image_tag a = base_image_tag b <->
   android_version a = android_version b /\ resolve_gapps_vendor a = resolve_gapps_vendor b)
  /\ (resolve_gapps_vendor a = None <-> gapps a = gapps_none).
Proof.
  intros (_ & Hva & Hna)%Android_validate_ok (_ & Hvb & _)%Android_validate_ok.
  split; [|by apply resolve_gapps_vendor_none].
  unfold base_image_tag. split; [|by intros [-> ->]].
  assert (forall v, v ∈ _VALID_ANDROID_VERSIONS -> 0 <= v) as Hpos.
  { unfold _VALID_ANDROID_VERSIONS. intros v. set_unfold. lia. }
  intros H%app_inv_head. apply (app_sep_inj "."%char) in H as [Hv H];
    [|by apply str_of_Z_free; auto..].
  apply str_of_Z_inj in Hv. split; [done|]. apply slug_inj.
  by simplify_eq/=.
Qed.

Lemma base_image_tag_faithful_witness :
  let a := mkAndroid 14 minimal None in
  let b := mkAndroid 14 full (Some litegapps) in
  Android_validate a = Ok a /\ Android_validate b = Ok b /\
  base_image_tag a = base_image_tag b /\
  (resolve_gapps_vendor a = None <-> gapps a = gapps_none).
Proof.
  simpl. split; [vm_compute; reflexivity|]. split; [vm_compute; reflexivity|].
  pose proof (base_image_tag_faithful (mkAndroid 14 minimal None)
    (mkAndroid 14 full (Some litegapps)) (mkAndroid 14 minimal None)
    (mkAndroid 14 full (Some litegapps)) ltac:(vm_compute; reflexivity)
    ltac:(vm_compute; reflexivity)) as [H1 H2].
  split; [apply H1; split; reflexivity|exact H2].
Defined.
