(* ===== verification/Ports.v ===== *)
(** * [src/src/beetroot/ports.py]: host-port allocation

    The stride-of-10 scheme: an instance index determines the host ports of the
    three well-known services and of a window of ten extra-pool slots.  A function
    that can print an advisory returns the notes beside its result. *)
From stdpp Require Import base list strings gmap sorting.
From Stdlib Require Import ZArith Lia.
From S2P Require Import Prelude PyStr Config.
Local Open Scope stdpp_scope.
Local Open Scope Z_scope.

Definition ADB_BASE : Z := 5555.
Definition FRIDA_BASE : Z := 27042.
Definition FRIDA_CONTROL_BASE : Z := 27043.
Definition STRIDE : Z := 10.
Definition _PRIVILEGED_PORT_CEILING : Z := 1024.

Definition _WELL_KNOWN_BASE : list (string * Z) :=
  [("adb", ADB_BASE); ("frida", FRIDA_BASE); ("frida_control", FRIDA_CONTROL_BASE)].

Definition EXTRA_POOL_BASE : Z := 40000.

(** [max(_WELL_KNOWN_BASE.values())]. *)
Definition highest_base : Z := foldr Z.max 0 (map snd _WELL_KNOWN_BASE).

Definition _MAX_PORT_INDEX : Z :=
  Z.min ((EXTRA_POOL_BASE - 1 - highest_base) / STRIDE)
        ((_MAX_PORT - EXTRA_POOL_BASE - STRIDE) / STRIDE).

Record ResolvedPort := mkResolvedPort {
  rp_service : option string; rp_guest : Z; rp_host : Z }.

#[export] Instance ResolvedPort_eq_dec : EqDecision ResolvedPort.
Proof. solve_decision. Defined.

Inductive port_error : Type :=
| NegativeIndex (index : Z)                          (* ValueError *)
| IndexTooLarge (index : Z)                          (* ValueError *)
| ExtraPoolSpill (index slot : Z)                    (* PortCollisionError *)
| HostsCollide (dupes : list (Z * list string)).     (* PortCollisionError *)

#[export] Instance port_error_eq_dec : EqDecision port_error.
Proof. solve_decision. Defined.

(** The advisory of [resolve_ports]. *)
Inductive port_note : Type := PrivilegedPorts (hosts : list Z).

Definition _check_index (index : Z) : result port_error unit :=
  raise_if (index <? 0) (NegativeIndex index) ;;
  raise_if (_MAX_PORT_INDEX <? index) (IndexTooLarge index).

Definition ports_for_index (index : Z) : result port_error (list (string * Z)) :=
  _check_index index ;;
  Ok (map (fun '(s, base) => (s, base + index * STRIDE)) _WELL_KNOWN_BASE).

(** The stride base of a mapping's service, if it names a well-known one. *)
Definition stride_base (m : PortMapping) : option Z :=
  s ← service m; Dict.get s _WELL_KNOWN_BASE.

(** The [for mapping in ports] loop; [extra_slot] is the loop's counter. *)
Fixpoint resolve_loop (index extra_slot : Z) (l : list PortMapping)
  : result port_error (list ResolvedPort) :=
  match l with
  | [] => Ok []
  | m :: l' =>
      match host m, stride_base m with
      | Some h, _ =>
          rest ← resolve_loop index extra_slot l';
          Ok (mkResolvedPort (service m) (guest m) h :: rest)
      | None, Some base =>
          rest ← resolve_loop index extra_slot l';
          Ok (mkResolvedPort (service m) (guest m) (base + index * STRIDE) :: rest)
      | None, None =>
          raise_if (STRIDE <=? extra_slot) (ExtraPoolSpill index extra_slot) ;;
          rest ← resolve_loop index (extra_slot + 1) l';
          Ok (mkResolvedPort (service m) (guest m)
                (EXTRA_POOL_BASE + index * STRIDE + extra_slot) :: rest)
      end
  end.

(** [str(rp.service)]. *)
Definition service_label (s : option string) : string :=
  match s with Some t => t | None => "None" end.

Definition occurrences (h : Z) (l : list ResolvedPort) : list ResolvedPort :=
  filter (fun rp => rp_host rp = h) l.

(** Keep the first occurrence of each element: the key order of a [Counter]. *)
Fixpoint uniq (l : list Z) : list Z :=
  match l with
  | [] => []
  | x :: l' => x :: filter (fun y => y <> x) (uniq l')
  end.

Definition dupes (l : list ResolvedPort) : list (Z * list string) :=
  map (fun h => (h, merge_sort String.le
                      (map (fun rp => service_label (rp_service rp)) (occurrences h l))))
    (filter (fun h => (1 < length (occurrences h l))%nat) (uniq (map rp_host l))).

Definition privileged (l : list ResolvedPort) : list Z :=
  merge_sort Z.le
    (remove_dups (filter (fun h => h < _PRIVILEGED_PORT_CEILING) (map rp_host l))).

Definition resolve_ports (index : Z) (l : list PortMapping) (quiet : bool)
  : result port_error (list ResolvedPort) * list port_note :=
  match
    _check_index index ;;
    resolved ← resolve_loop index 0 l;
    raise_if (bool_decide (dupes resolved <> [])) (HostsCollide (dupes resolved)) ;;
    Ok resolved
  with
  | Err e => (Err e, [])
  | Ok resolved =>
      (Ok resolved,
       if bool_decide (privileged resolved <> []) && negb quiet
       then [PrivilegedPorts (privileged resolved)] else [])
  end.

(** A dict comprehension: later entries for a service overwrite earlier ones. *)
Definition well_known (resolved : list ResolvedPort) : list (string * Z) :=
  fold_left
    (fun d rp =>
       match rp_service rp with
       | Some s => if Dict.mem s WELL_KNOWN_SERVICES then Dict.set s (rp_host rp) d else d
       | None => d
       end)
    resolved [].

(** [while i in used: i += 1]; [None] is out of fuel. *)
Fixpoint free_from (fuel : nat) (i : Z) (used : gset Z) : option Z :=
  match fuel with
  | O => None
  | S fuel' => if decide (i ∈ used) then free_from fuel' (i + 1) used else Some i
  end.

Definition lowest_free_index (used : gset Z) : option Z :=
  free_from (S (size used)) 0 used.

(** ** The allocation loop *)

Lemma free_from_spec fuel i used j :
  free_from fuel i used = Some j ->
  i <= j /\ j ∉ used /\ (forall k, i <= k < j -> k ∈ used).
Proof.
  revert i. induction fuel as [|fuel IH]; intros i; simpl; [done|].
  case_decide; [|intros [= ->]; split_and!; [lia|done|lia]].
  intros (Hij & Hj & Hk)%IH. split_and!; [lia|done|].
  intros k ?. destruct (decide (k = i)) as [->|]; [done|]. apply Hk. lia.
Qed.

Lemma free_from_full fuel i used :
  free_from fuel i used = None -> forall k, i <= k < i + Z.of_nat fuel -> k ∈ used.
Proof.
  revert i. induction fuel as [|fuel IH]; intros i; simpl; [lia|].
  case_decide; [|done]. intros HN k ?.
  destruct (decide (k = i)) as [->|]; [done|]. apply (IH (i + 1)); [done|lia].
Qed.

Lemma seqZ_subset_size (n : nat) (used : gset Z) :
  (forall k, 0 <= k < Z.of_nat n -> k ∈ used) -> (n <= size used)%nat.
Proof.
  intros H. assert (list_to_set (seqZ 0 (Z.of_nat n)) ⊆ used) as Hsub.
  { intros k [Hk]%elem_of_list_to_set%elem_of_seqZ. apply H. lia. }
  apply subseteq_size in Hsub. rewrite size_list_to_set in Hsub by apply NoDup_seqZ.
  rewrite length_seqZ in Hsub. lia.
Qed.

(** Index allocation always returns, and returns the least free slot: the
    result is not in use, everything below it is, and it is at most the number of
    indices in use. *)
Theorem lowest_free_index_least used :
  exists i, lowest_free_index used = Some i /\ 0 <= i <= Z.of_nat (size used) /\
    i ∉ used /\ (forall j, 0 <= j < i -> j ∈ used).
Proof.
  unfold lowest_free_index. destruct (free_from _ 0 used) as [i|] eqn:Hf.
  - exists i. destruct (free_from_spec _ _ _ _ Hf) as (Hi & Hn & Hb).
    split_and!; [done|lia| |done|done].
    pose proof (seqZ_subset_size (Z.to_nat i) used) as Hs. rewrite Z2Nat.id in Hs by lia.
    specialize (Hs Hb). lia.
  - exfalso. pose proof (free_from_full _ _ _ Hf) as Hfull.
    pose proof (seqZ_subset_size (S (size used)) used) as Hs.
    assert (S (size used) <= size used)%nat; [|lia]. apply Hs. intros k Hk. apply Hfull. lia.
Qed.

(** ** Resolution against its specification *)

(** A mapping that draws from the extra pool. *)
Definition is_auto (m : PortMapping) : bool :=
  match host m, stride_base m with None, None => true | _, _ => false end.

(** The host port of mapping [m] when [slot] pool mappings precede it. *)
Definition assigned_host (index slot : Z) (m : PortMapping) : Z :=
  match host m, stride_base m with
  | Some h, _ => h
  | None, Some base => base + index * STRIDE
  | None, None => EXTRA_POOL_BASE + index * STRIDE + slot
  end.

Definition autos (l : list PortMapping) : list PortMapping :=
  filter (fun m => is_auto m = true) l.

(** The specification: position by position, no errors. *)
Definition assigned (index slot : Z) (l : list PortMapping) : list ResolvedPort :=
  imap (fun k m => mkResolvedPort (service m) (guest m)
                     (assigned_host index (slot + Z.of_nat (length (autos (take k l)))) m)) l.

Lemma assigned_cons index slot m l :
  assigned index slot (m :: l) =
  mkResolvedPort (service m) (guest m) (assigned_host index slot m)
    :: assigned index (if is_auto m then slot + 1 else slot) l.
Proof.
  unfold assigned. rewrite imap_cons. f_equal; [by rewrite take_0, Z.add_0_r|].
  apply imap_ext. intros k x _. unfold compose. simpl. unfold autos.
  rewrite filter_cons. destruct (is_auto m); simpl; do 2 f_equal; lia.
Qed.

Lemma resolve_loop_spec index l slot r :
  slot <= STRIDE ->
  resolve_loop index slot l = Ok r <->
  slot + Z.of_nat (length (autos l)) <= STRIDE /\ r = assigned index slot l.
Proof.
  revert slot r. induction l as [|m l IH]; intros slot r Hs.
  { simpl. unfold assigned, autos. simpl. rewrite Z.add_0_r. naive_solver. }
  rewrite assigned_cons. unfold autos. rewrite filter_cons. fold (autos l). simpl.
  unfold is_auto, assigned_host, raise_if. destruct (host m) as [h|], (stride_base m) as [b|]; simpl;
    try (rewrite bind_ok; setoid_rewrite IH; [|done]; naive_solver).
  destruct (Z.leb_spec STRIDE slot); simpl.
  - split; [done|]. intros [? _]. lia.
  - rewrite bind_ok. setoid_rewrite IH; [|lia]. split.
    + intros (a & [? ->] & [= <-]). split; [lia|done].
    + intros [? ->]. eexists. split; [split; [lia|done]|done].
Qed.

Lemma occurrences_NoDup l :
  NoDup (map rp_host l) <-> forall h, (length (occurrences h l) <= 1)%nat.
Proof.
  unfold occurrences. induction l as [|rp l IH]; simpl.
  { split; [simpl; lia|constructor]. }
  rewrite NoDup_cons, IH. split.
  - intros [Hn H] h. rewrite filter_cons. case_decide; [|done]. simpl.
    destruct (filter _ l) as [|x xs] eqn:Hf; [simpl; lia|]. exfalso. apply Hn.
    assert (x ∈ filter (fun rp => rp_host rp = h) l) as [Hx Hin]%list_elem_of_filter
      by (rewrite Hf; set_solver).
    apply list_elem_of_In, in_map_iff. exists x. rewrite <- list_elem_of_In. split; [congruence|done].
  - intros H. split.
    + intros (x & Hx & Hin)%list_elem_of_In%in_map_iff. specialize (H (rp_host rp)).
      rewrite filter_cons_True in H by done. simpl in H.
      apply list_elem_of_In in Hin.
      assert (x ∈ filter (fun rp' => rp_host rp' = rp_host rp) l) as Hf
        by (by apply list_elem_of_filter).
      destruct (filter _ l); [by apply not_elem_of_nil in Hf|simpl in H; lia].
    + intros h. specialize (H h). rewrite filter_cons in H. case_decide; simpl in H; lia.
Qed.

Lemma elem_of_uniq x l : x ∈ uniq l <-> x ∈ l.
Proof.
  induction l as [|y l IH]; simpl; [done|].
  rewrite !elem_of_cons, list_elem_of_filter, IH. destruct (decide (x = y)); naive_solver.
Qed.

Lemma dupes_nil l : dupes l = [] <-> NoDup (map rp_host l).
Proof.
  rewrite occurrences_NoDup. unfold dupes. split.
  - intros H%map_eq_nil h. destruct (decide (1 < length (occurrences h l))%nat); [|lia].
    exfalso. apply (not_elem_of_nil h). rewrite <- H. apply list_elem_of_filter.
    split; [done|]. apply elem_of_uniq.
    destruct (occurrences h l) as [|x xs] eqn:Ho; [simpl in *; lia|].
    assert (x ∈ occurrences h l) as [<- Hx]%list_elem_of_filter by (rewrite Ho; set_solver).
    apply list_elem_of_In, in_map_iff. exists x. by rewrite <- list_elem_of_In.
  - intros H. replace (filter _ (uniq (map rp_host l))) with (@nil Z); [done|].
    symmetry. apply elem_of_nil_inv. intros h [Hh _]%list_elem_of_filter.
    specialize (H h). lia.
Qed.

Lemma _check_index_ok index :
  _check_index index = Ok tt <-> 0 <= index <= _MAX_PORT_INDEX.
Proof.
  unfold _check_index, raise_if.
  destruct (Z.ltb_spec index 0), (Z.ltb_spec _MAX_PORT_INDEX index); simpl;
    split; intros; try done; lia.
Qed.

Lemma resolve_ports_iff index l quiet r :
  fst (resolve_ports index l quiet) = Ok r <->
  0 <= index <= _MAX_PORT_INDEX /\ Z.of_nat (length (autos l)) <= STRIDE /\
  r = assigned index 0 l /\ NoDup (map rp_host r).
Proof.
  rewrite <- _check_index_ok, <- dupes_nil. unfold resolve_ports.
  pose proof (resolve_loop_spec index l 0) as Hl.
  destruct (_check_index index) as [[]|]; simpl; [|naive_solver].
  destruct (resolve_loop index 0 l) as [r'|e] eqn:Hr.
  - destruct (proj1 (Hl r' ltac:(done)) eq_refl) as [Hle ->]. simpl.
    case_bool_decide; simpl; naive_solver.
  - simpl. split; [done|]. intros (_ & Hle & Hr' & _).
    by assert (Err e = Ok r) by (by apply (Hl r)).
Qed.

(** C17. Port resolution meets its specification on every input: it returns a list
    if and only if the index is within the supported range, at most ten mappings
    draw from the extra pool, and the assigned host ports are distinct; the list
    is then, position by position, the pinned host, else the service's stride
    base, else the next extra-pool slot. *)
Theorem resolve_ports_spec index l quiet r :
  fst (resolve_ports index l quiet) = Ok r <->
  0 <= index <= _MAX_PORT_INDEX /\ Z.of_nat (length (autos l)) <= STRIDE /\
  r = assigned index 0 l /\ NoDup (map rp_host r).
Proof. exact (resolve_ports_iff index l quiet r). Qed.

(** ** Bands *)

Lemma max_index_value : _MAX_PORT_INDEX = 1295.
Proof. reflexivity. Qed.

Lemma stride_base_cases m b :
  stride_base m = Some b -> b = 5555 \/ b = 27042 \/ b = 27043.
Proof.
  unfold stride_base. destruct (service m) as [s|]; [|done]. simpl.
  repeat case_decide; intros; simplify_eq; auto.
Qed.

Lemma assigned_lookup index slot l k rp :
  assigned index slot l !! k = Some rp ->
  exists m, l !! k = Some m /\ rp_service rp = service m /\ rp_guest rp = guest m /\
    rp_host rp = assigned_host index (slot + Z.of_nat (length (autos (take k l)))) m.
Proof.
  unfold assigned. rewrite list_lookup_imap. destruct (l !! k) as [m|]; [|done].
  simpl. intros [= <-]. eauto.
Qed.

Lemma autos_lookup l k m :
  l !! k = Some m -> is_auto m = true ->
  (length (autos (take k l)) < length (autos l))%nat.
Proof.
  intros Hm Ha. rewrite <- (take_drop_middle l k m Hm) at 2. unfold autos.
  rewrite filter_app, length_app, filter_cons_True by done. simpl. lia.
Qed.

(** The band an unpinned mapping of index [i] is placed in. *)
Definition in_band (i h : Z) : Prop :=
  h = 5555 + i * 10 \/ h = 27042 + i * 10 \/ h = 27043 + i * 10 \/
  40000 + i * 10 <= h < 40000 + i * 10 + 10.

Lemma unpinned_in_band index l quiet r notes k m rp :
  resolve_ports index l quiet = (Ok r, notes) ->
  l !! k = Some m -> r !! k = Some rp -> host m = None ->
  0 <= index <= 1295 /\ in_band index (rp_host rp).
Proof.
  intros Hr Hm Hrp Hh. pose proof (proj1 (resolve_ports_iff index l quiet r)) as Hs.
  rewrite Hr in Hs. destruct (Hs eq_refl) as (Hi & Ha & -> & _). clear Hs.
  rewrite max_index_value in Hi. split; [done|].
  apply assigned_lookup in Hrp as (m' & Hm' & _ & _ & ->). simplify_eq.
  unfold assigned_host. rewrite Hh. destruct (stride_base m) as [b|] eqn:Hb.
  - unfold in_band, STRIDE. apply stride_base_cases in Hb. lia.
  - assert (is_auto m = true) as Hau by (unfold is_auto; by rewrite Hh, Hb).
    pose proof (autos_lookup _ _ _ Hm Hau). unfold in_band, EXTRA_POOL_BASE, STRIDE in *. lia.
Qed.

(** Auto-allocated host ports never collide across instances: whatever the two
    port lists are, ports assigned (not pinned) to instances with different
    indices are different. *)
Theorem auto_ports_disjoint i1 i2 l1 l2 q1 q2 r1 r2 n1 n2 k1 k2 m1 m2 rp1 rp2 :
  resolve_ports i1 l1 q1 = (Ok r1, n1) -> resolve_ports i2 l2 q2 = (Ok r2, n2) ->
  i1 <> i2 ->
  l1 !! k1 = Some m1 -> r1 !! k1 = Some rp1 -> host m1 = None ->
  l2 !! k2 = Some m2 -> r2 !! k2 = Some rp2 -> host m2 = None ->
  rp_host rp1 <> rp_host rp2.
Proof.
  intros H1 H2 Hi Hm1 Hr1 Hh1 Hm2 Hr2 Hh2.
  destruct (unpinned_in_band _ _ _ _ _ _ _ _ H1 Hm1 Hr1 Hh1) as [? Hb1].
  destruct (unpinned_in_band _ _ _ _ _ _ _ _ H2 Hm2 Hr2 Hh2) as [? Hb2].
  unfold in_band in *. lia.
Qed.

Lemma auto_ports_disjoint_witness :
  exists r1 r2 rp1 rp2,
  resolve_ports 3 _default_port_mappings true = (Ok r1, []) /\
  resolve_ports 4 [mkPortMapping None 8080 None] false = (Ok r2, []) /\
  r1 !! 1%nat = Some rp1 /\ r2 !! 0%nat = Some rp2 /\ rp_host rp1 <> rp_host rp2.
Proof.
  do 4 eexists. split; [vm_compute; reflexivity|]. split; [vm_compute; reflexivity|].
  split; [reflexivity|]. split; [reflexivity|].
  eapply (auto_ports_disjoint 3 4 _default_port_mappings [mkPortMapping None 8080 None]
    true false _ _ _ _ 1 0); [vm_compute; reflexivity|vm_compute; reflexivity|lia| | | | | |];
    reflexivity.
Defined.

(** Every host port resolved for a valid port list is a TCP port: between 1
    and 65535, pinned or assigned. *)
Theorem resolve_ports_in_range index l quiet r notes :
  resolve_ports index l quiet = (Ok r, notes) -> Forall port_mapping_wf l ->
  Forall (fun rp => 1 <= rp_host rp <= 65535) r.
Proof.
  intros Hr Hl. apply Forall_lookup. intros k rp Hk.
  pose proof (proj1 (resolve_ports_iff index l quiet r)) as Hs.
  rewrite Hr in Hs. destruct (Hs eq_refl) as (_ & _ & Hra & _).
  pose proof Hk as Hk'. rewrite Hra in Hk'.
  apply assigned_lookup in Hk' as (m & Hm & _ & _ & Hhost).
  destruct (host m) as [h|] eqn:Hh.
  - rewrite Forall_lookup in Hl. destruct (Hl k m Hm) as [_ Hp].
    rewrite Hhost. unfold assigned_host. rewrite Hh. by apply Hp.
  - destruct (unpinned_in_band _ _ _ _ _ _ _ _ Hr Hm Hk Hh) as [? Hb].
    unfold in_band in Hb. lia.
Qed.

Lemma resolve_ports_in_range_witness :
  exists r, resolve_ports 1295 _default_port_mappings true = (Ok r, []) /\
  Forall port_mapping_wf _default_port_mappings /\
  Forall (fun rp => 1 <= rp_host rp <= 65535) r.
Proof.
  assert (Forall port_mapping_wf _default_port_mappings) as Hw.
  { repeat constructor; simpl; try lia; discriminate. }
  eexists. split; [vm_compute; reflexivity|]. split; [exact Hw|].
  eapply (resolve_ports_in_range 1295 _default_port_mappings true);
    [vm_compute; reflexivity|exact Hw].
Defined.

(** ** The advisory and the address map *)

(** The advisory is decoration: [quiet] never changes the resolved list, no
    note is printed when quiet or when the call fails, and otherwise one note is
    printed exactly when some resolved host port is below 1024, naming those
    ports. *)
Theorem resolve_ports_notes index l :
  fst (resolve_ports index l true) = fst (resolve_ports index l false) /\
  snd (resolve_ports index l true) = [] /\
  match resolve_ports index l false with
  | (Err _, notes) => notes = []
  | (Ok r, notes) =>
      (notes = [] /\ Forall (fun rp => 1024 <= rp_host rp) r) \/
      exists hs, notes = [PrivilegedPorts hs] /\ hs <> [] /\
        forall h, h ∈ hs <-> h < 1024 /\ h ∈ map rp_host r
  end.
Proof.
  unfold resolve_ports. destruct (mbind _ _) as [r|e]; [|done]. simpl.
  rewrite andb_false_r, andb_true_r. split_and!; [done..|].
  assert (forall h, h ∈ privileged r <-> h < 1024 /\ h ∈ map rp_host r) as Hp.
  { intros h. unfold privileged. rewrite merge_sort_Permutation, elem_of_remove_dups.
    by rewrite list_elem_of_filter. }
  case_bool_decide as Hb; [right; eauto|left]. split; [done|].
  apply Forall_forall. intros rp Hrp. destruct (Z_lt_le_dec (rp_host rp) 1024); [|done].
  exfalso. apply (not_elem_of_nil (rp_host rp)). rewrite <- Hb.
  apply Hp. split; [done|]. apply list_elem_of_In, in_map. by apply list_elem_of_In.
Qed.

Lemma well_known_fold r s d0 :
  Dict.get s (fold_left
    (fun d rp =>
       match rp_service rp with
       | Some s => if Dict.mem s WELL_KNOWN_SERVICES then Dict.set s (rp_host rp) d else d
       | None => d
       end) r d0) =
  match find (fun rp => bool_decide (rp_service rp = Some s)) (rev r) with
  | Some rp => if Dict.mem s WELL_KNOWN_SERVICES then Some (rp_host rp) else Dict.get s d0
  | None => Dict.get s d0
  end.
Proof.
  revert d0. induction r as [|rp r IH] using rev_ind; intros d0; [done|].
  rewrite fold_left_app, rev_app_distr. cbn [fold_left rev app find].
  case_bool_decide as Hs.
  - rewrite Hs. destruct (Dict.mem s WELL_KNOWN_SERVICES) eqn:Hm.
    + by rewrite Dict.get_set_eq.
    + rewrite IH. by destruct (find _ _).
  - rewrite <- IH. destruct (rp_service rp) as [t|]; [|done].
    destruct (Dict.mem t WELL_KNOWN_SERVICES); [|done].
    rewrite Dict.get_set_ne; [done|congruence].
Qed.

Lemma find_service_unique r s rp :
  NoDup (omap rp_service r) -> rp ∈ r -> rp_service rp = Some s ->
  find (fun rp => bool_decide (rp_service rp = Some s)) (rev r) = Some rp.
Proof.
  induction r as [|x r IH] using rev_ind; intros Hd Hin Hs; [set_solver|].
  rewrite rev_app_distr. cbn [rev app find]. rewrite omap_app in Hd.
  apply NoDup_app in Hd as (Hd & Hdis & _). apply elem_of_app in Hin as [Hin|Hin].
  - case_bool_decide as Hx; [exfalso|by apply IH].
    apply (Hdis s); [apply list_elem_of_omap; eauto|].
    apply list_elem_of_omap. exists x. split; [set_solver|done].
  - apply list_elem_of_singleton in Hin as ->. by rewrite bool_decide_eq_true_2.
Qed.

Lemma assigned_services index slot l :
  omap rp_service (assigned index slot l) = port_services l.
Proof.
  revert slot. induction l as [|m l IH]; intros slot; [done|].
  rewrite assigned_cons. unfold port_services. cbn. rewrite IH. done.
Qed.

(** Address lookup: for a port list the schema accepts, [well_known] holds for
    every well-known service of the list exactly the host port its own mapping
    resolved to — in particular [adb] always has an address. *)
Theorem well_known_addresses frida_on index l quiet r notes k m s :
  ports_wf frida_on l -> resolve_ports index l quiet = (Ok r, notes) ->
  l !! k = Some m -> service m = Some s -> s ∈ Dict.keys WELL_KNOWN_SERVICES ->
  exists rp, r !! k = Some rp /\ rp_guest rp = guest m /\
    Dict.get s (well_known r) = Some (rp_host rp) /\
    is_Some (Dict.get "adb" (well_known r)).
Proof.
  intros Hw Hr Hm Hs Hwk. pose proof (proj1 (resolve_ports_iff index l quiet r)) as Hsp.
  rewrite Hr in Hsp. destruct (Hsp eq_refl) as (_ & _ & Hra & _).
  assert (NoDup (omap rp_service r)) as Hnd.
  { rewrite Hra, assigned_services. apply Hw. }
  assert (forall k m s, l !! k = Some m -> service m = Some s ->
    s ∈ Dict.keys WELL_KNOWN_SERVICES ->
    exists rp, r !! k = Some rp /\ rp_guest rp = guest m /\
      Dict.get s (well_known r) = Some (rp_host rp)) as Hget.
  { clear k m s Hm Hs Hwk. intros k m s Hm Hs Hwk.
    assert (is_Some (r !! k)) as [rp Hrp].
    { rewrite Hra. unfold assigned. rewrite list_lookup_imap, Hm. done. }
    exists rp. split; [done|]. pose proof Hrp as Hrp'. rewrite Hra in Hrp'.
    apply assigned_lookup in Hrp' as (m' & Hm' & Hsv & Hg & _).
    rewrite Hm in Hm'. injection Hm' as <-. split; [done|]. unfold well_known.
    rewrite well_known_fold, (find_service_unique r s rp); [|done| |congruence].
    - apply Dict.mem_spec in Hwk. by rewrite Hwk.
    - apply list_elem_of_lookup. eauto. }
  destruct (Hget k m s) as (rp & ? & ? & ?); [done..|].
  exists rp. split_and!; [done..|].
  pose proof (pw_adb _ _ Hw) as Hadb. unfold port_services in Hadb.
  apply list_elem_of_omap in Hadb as (ma & Hin & Hsa).
  apply list_elem_of_lookup in Hin as [ka Hka].
  destruct (Hget ka ma "adb") as (rpa & _ & _ & ->); [done|done| |done].
  cbn. set_solver.
Qed.

Lemma well_known_addresses_witness :
  exists r, ports_wf true _default_port_mappings /\
  resolve_ports 7 _default_port_mappings false = (Ok r, []) /\
  exists rp, r !! 1%nat = Some rp /\ rp_guest rp = 27042 /\
    Dict.get "frida" (well_known r) = Some (rp_host rp) /\
    is_Some (Dict.get "adb" (well_known r)).
Proof.
  assert (ports_wf true _default_port_mappings) as Hw
    by (apply ports_validators_wf; vm_compute; reflexivity).
  eexists. split; [exact Hw|]. split; [vm_compute; reflexivity|].
  eapply (well_known_addresses true 7 _default_port_mappings false _ [] 1
    (mkPortMapping (Some "frida") 27042 None)); [exact Hw| |reflexivity|reflexivity|].
  - vm_compute. reflexivity.
  - cbn. set_solver.
Defined.
