(* ===== verification/Registry.v ===== *)
(** * [src/src/beetroot/registry.py]: the instance registry

    The user-global [instances.json], with one definition per function of the
    file.  File contents are modelled after [json.loads]: a document, text that is
    not JSON, or bytes that are not UTF-8.  A Python dict is an ordered association
    list.  Pydantic's validation of a backend payload and of a row's [index] and
    [created_at] is a parameter (the class [Pydantic]), with the round trip the
    code relies on as its laws ([PydanticLaws]). *)
From stdpp Require Import base list strings gmap sorting.
From Stdlib Require Import ZArith QArith Lia.
From S2P Require Import Prelude PyStr Config Ports.
Local Open Scope stdpp_scope.
Local Open Scope Z_scope.

Definition SCHEMA_VERSION : Z := 3.

(** ** JSON *)

Inductive json : Type :=
| JNull
| JBool (b : bool)
| JInt (z : Z)
| JFloat (q : Q)
| JNonFinite                       (* NaN and the infinities *)
| JStr (s : string)
| JList (l : list json)
| JObj (d : list (string * json)).

Notation jdict := (list (string * json)).

(** A file as [path.read_text()] and [json.loads] see it. *)
Inductive content : Type :=
| NotUtf8                          (* [read_text] raises UnicodeDecodeError *)
| NotJson (empty : bool)           (* [json.loads] raises JSONDecodeError *)
| Doc (j : json).

Definition size_positive (c : content) : bool :=
  match c with NotJson true => false | _ => true end.

(** [v == 3] on a loaded value. *)
Definition eq_schema_version (v : option json) : bool :=
  match v with
  | Some (JInt z) => z =? SCHEMA_VERSION
  | Some (JFloat q) => Qeq_bool q (inject_Z SCHEMA_VERSION)
  | _ => false
  end.

(** [raw.get("version") if isinstance(raw, dict) else None]. *)
Definition version_of (raw : json) : option json :=
  match raw with JObj d => Dict.get "version" d | _ => None end.

(** ** Backend configs *)

(** A registered class: the three of this file, or a third party's. *)
Inductive backend_class : Type := RedroidCls | AdbCls | VmCls | ThirdPartyCls (name : string).

#[export] Instance backend_class_eq_dec : EqDecision backend_class.
Proof. solve_decision. Defined.

Inductive BackendConfig : Type :=
| RedroidBackendConfig (absolute_path : string) (stealth_paths : list (string * string))
| AdbBackendConfig (serial : string)
| VmBackendConfig (absolute_path : string)
| ThirdPartyBackendConfig (cls kind : string) (fields : jdict)
| UnresolvedBackendConfig (kind : string) (raw : jdict).

(** [_BACKEND_CONFIG_REGISTRY]: kind to class. *)
Definition class_registry : Type := list (string * backend_class).
Definition in_tree_classes : class_registry :=
  [("redroid", RedroidCls); ("adb", AdbCls); ("vm", VmCls)].

Definition backend_kind (b : BackendConfig) : string :=
  match b with
  | RedroidBackendConfig _ _ => "redroid"
  | AdbBackendConfig _ => "adb"
  | VmBackendConfig _ => "vm"
  | ThirdPartyBackendConfig _ k _ => k
  | UnresolvedBackendConfig k _ => k
  end.

Definition class_of (b : BackendConfig) : option backend_class :=
  match b with
  | RedroidBackendConfig _ _ => Some RedroidCls
  | AdbBackendConfig _ => Some AdbCls
  | VmBackendConfig _ => Some VmCls
  | ThirdPartyBackendConfig c _ _ => Some (ThirdPartyCls c)
  | UnresolvedBackendConfig _ _ => None
  end.

(** [_dump_backend_config]: the raw dict of an opaque row, [model_dump()] of the
    others. *)
Definition _dump_backend_config (b : BackendConfig) : jdict :=
  match b with
  | RedroidBackendConfig p sp =>
      [("kind", JStr "redroid"); ("absolute_path", JStr p);
       ("stealth_paths", JObj (map (fun '(k, v) => (k, JStr v)) sp))]
  | AdbBackendConfig s => [("kind", JStr "adb"); ("serial", JStr s)]
  | VmBackendConfig p => [("kind", JStr "vm"); ("absolute_path", JStr p)]
  | ThirdPartyBackendConfig _ k fields => ("kind", JStr k) :: fields
  | UnresolvedBackendConfig _ raw => raw
  end.

(** [raw.get("kind", "")] when it is a string, else the empty string. *)
Definition kind_of (raw : jdict) : string :=
  match Dict.get "kind" raw with Some (JStr k) => k | _ => "" end.

Definition _opaque_backend (raw : jdict) : BackendConfig :=
  UnresolvedBackendConfig (kind_of raw) raw.

Inductive register_error : Type :=
| NoKindDefault
| KindTaken (kind : string) (by_ : backend_class).

(** [register_backend_config(cls)]; [kind_default] is the [kind] field's default. *)
Definition register_backend_config (reg : class_registry) (cls : backend_class)
    (kind_default : option string) : result register_error class_registry :=
  match kind_default with
  | None => Err NoKindDefault
  | Some kind =>
      match Dict.get kind reg with
      | Some existing =>
          raise_if (bool_decide (existing <> cls)) (KindTaken kind existing) ;;
          Ok (Dict.set kind cls reg)
      | None => Ok (Dict.set kind cls reg)
      end
  end.

(** ** Pydantic and the clock *)

Class Pydantic := {
  datetime : Type;
  isoformat : datetime -> string;
  (** [cls.model_validate(raw)]. *)
  model_validate : backend_class -> jdict -> option BackendConfig;
  (** [InstanceMeta.model_validate]: the row without its [backend] key, which is
      already a model instance. *)
  validate_meta : jdict -> option (Z * datetime);
  (** The kinds registered in this process. *)
  classes : class_registry }.

(** What the code relies on: validation yields an instance of its class, whose
    [kind] is the Literal the class is registered under, and accepts the dump of
    what it has validated or of an in-tree config built directly; the in-tree kinds
    are registered. *)
Class PydanticLaws (P : Pydantic) : Prop := {
  validate_class : forall c raw b, model_validate c raw = Some b -> class_of b = Some c;
  validate_kind : forall c raw b k, Dict.get k classes = Some c ->
    model_validate c raw = Some b -> backend_kind b = k;
  validate_dump : forall c raw b, model_validate c raw = Some b ->
    model_validate c (_dump_backend_config b) = Some b;
  validate_built : forall c b, class_of b = Some c -> c ∈ [RedroidCls; AdbCls; VmCls] ->
    model_validate c (_dump_backend_config b) = Some b;
  validate_meta_dump : forall i t,
    validate_meta [("index", JInt i); ("created_at", JStr (isoformat t))] = Some (i, t);
  classes_in_tree : forall k c, Dict.get k in_tree_classes = Some c ->
    Dict.get k classes = Some c }.

(** ** The registry file *)

Section registry.
Context `{P : Pydantic}.

Record InstanceMeta := mkInstanceMeta {
  backend : BackendConfig; index : Z; created_at : datetime }.

(** [RegistryFile.instances]; the version field is the constant 3. *)
Abbreviation RegistryFile := (list (string * InstanceMeta)).

Definition _parse_backend_config (raw : jdict) : option BackendConfig :=
  match Dict.get (kind_of raw) classes with
  | None => Some (_opaque_backend raw)
  | Some cls => model_validate cls raw
  end.

(** [InstanceMeta.model_validate({**meta_dict, "backend": backend})]. *)
Definition validate_row (meta_dict : jdict) (b : BackendConfig) : option InstanceMeta :=
  '(i, t) ← validate_meta (Dict.pop "backend" meta_dict);
  Some (mkInstanceMeta b i t).

(** [None] is [RegistryRowError]. *)
Definition _parse_row (meta_dict backend_raw : jdict) : option InstanceMeta :=
  match (b ← _parse_backend_config backend_raw; validate_row meta_dict b) with
  | Some m => Some m
  | None => validate_row meta_dict (_opaque_backend backend_raw)
  end.

(** The row loop of [_read]: [Err name] is the first unsalvageable row.  Assigning
    [instances[name]] appends: the keys of a loaded dict are distinct. *)
Fixpoint read_rows (rows : jdict) (acc : RegistryFile) : result string RegistryFile :=
  match rows with
  | [] => Ok acc
  | (name, JObj meta_dict) :: rows' =>
      match Dict.get "backend" meta_dict with
      | Some (JObj backend_raw) =>
          match _parse_row meta_dict backend_raw with
          | Some m => read_rows rows' (Dict.set name m acc)
          | None => Err name
          end
      | _ => read_rows rows' acc
      end
  | (_, _) :: rows' => read_rows rows' acc
  end.

(** [raw.get("instances", {})], replaced by [{}] when it is not a dict. *)
Definition raw_instances (raw : json) : jdict :=
  match raw with
  | JObj d => match Dict.get "instances" d with Some (JObj i) => i | _ => [] end
  | _ => []
  end.

Definition row_json (m : InstanceMeta) : json :=
  JObj [("backend", JObj (_dump_backend_config (backend m)));
        ("index", JInt (index m)); ("created_at", JStr (isoformat (created_at m)))].

Definition _registry_to_json (data : RegistryFile) : json :=
  JObj [("version", JInt SCHEMA_VERSION);
        ("instances", JObj (map (fun '(n, m) => (n, row_json m)) data))].

(** ** World *)

Inductive note : Type :=
| LegacyNote (reason : string)
| V02Note.

Record world := mkWorld {
  reg : option content;            (* instances.json *)
  bak : option content;            (* instances.json.bak *)
  cwd_json : option content;       (* $PWD/instances.json, when a regular file *)
  v02_hint : bool;                 (* _V02_HINT_PRINTED *)
  legacy_hint : bool;              (* _LEGACY_HINT_PRINTED *)
  notes : list note }.

Inductive reg_error : Type :=
| UnicodeDecode                                   (* not caught by the code *)
| AlreadyRegistered (name : string)               (* ValueError *)
| NeitherPathNorBackend                           (* ValueError *)
| BadIndex (e : port_error)                       (* ValueError *)
| UnknownInstance (name : string)                 (* RegistryError *)
| NotRedroid (name kind : string)                 (* RegistryError *)
| NotDirectoryBacked (name kind : string)         (* RegistryError *)
| SiblingConfig (name : string)                   (* load_yaml raised *)
| PortCollides (port : Z) (other service : string) (* ValueError *)
| OutOfFuel.

Definition set_reg (c : option content) (w : world) : world :=
  mkWorld c (bak w) (cwd_json w) (v02_hint w) (legacy_hint w) (notes w).

Abbreviation RM := (M world reg_error).

(** [_check_v02_registry_at_cwd]: the candidate is a flat dict. *)
Definition v02_shape (j : json) : bool :=
  match j with
  | JObj d => negb (Dict.mem "version" d) && negb (Dict.mem "instances" d)
  | _ => false
  end.

Definition _check_v02_registry_at_cwd : RM unit := fun w =>
  if v02_hint w then (Ok tt, w)
  else match cwd_json w with
  | None => (Ok tt, w)
  | Some c =>
      if match reg w with Some r => size_positive r | None => false end then (Ok tt, w)
      else match c with
      | NotUtf8 => (Err UnicodeDecode, w)
      | NotJson _ => (Ok tt, w)
      | Doc j =>
          if v02_shape j
          then (Ok tt, mkWorld (reg w) (bak w) (cwd_json w) true (legacy_hint w)
                         (notes w ++ [V02Note]))
          else (Ok tt, w)
      end
  end.

(** [_backup_and_warn]: the rename replaces an older backup; a source that is gone
    counts as already migrated. *)
Definition _backup_and_warn (reason : string) : RM RegistryFile := fun w =>
  match reg w with
  | None => (Ok [], w)
  | Some c =>
      (Ok [], mkWorld None (Some c) (cwd_json w) (v02_hint w) true
                (if legacy_hint w then notes w else notes w ++ [LegacyNote reason]))
  end.

Definition _needs_legacy_migration (w : world) : bool :=
  match reg w with
  | None => false
  | Some (NotUtf8 | NotJson _) => true
  | Some (Doc raw) => negb (eq_schema_version (version_of raw))
  end.

Definition _read : RM RegistryFile :=
  _check_v02_registry_at_cwd ;;
  c ← gets reg;
  match c with
  | None => mret []
  | Some NotUtf8 => raise UnicodeDecode
  | Some (NotJson _) => _backup_and_warn "could not be parsed as JSON"
  | Some (Doc raw) =>
      if negb (eq_schema_version (version_of raw)) then _backup_and_warn "was schema v"
      else match read_rows (raw_instances raw) [] with
           | Ok data => mret data
           | Err name => _backup_and_warn ("has an unsalvageable row " +:+ name)
           end
  end.

Definition _write (data : RegistryFile) : RM unit :=
  modify (set_reg (Some (Doc (_registry_to_json data)))).

(** [_locked(path)], sequentially: exclusive mode creates the file if missing. *)
Definition _locked_exclusive : RM unit := fun w =>
  match reg w with
  | None => (Ok tt, set_reg (Some (Doc (_registry_to_json []))) w)
  | Some _ => (Ok tt, w)
  end.

Definition list_instances : RM RegistryFile := fun w =>
  match reg w with
  | None => (_check_v02_registry_at_cwd ;; mret []) w
  | Some _ => if _needs_legacy_migration w then (_locked_exclusive ;; _read) w else _read w
  end.

(** ** Operations *)

Definition get (name : string) : RM (option InstanceMeta) :=
  data ← list_instances; mret (Dict.get name data).

Definition indices_of (data : RegistryFile) : gset Z :=
  list_to_set (map (fun '(_, m) => index m) data).

Definition used_indices : RM (gset Z) :=
  data ← list_instances; mret (indices_of data).

Definition requested_backend (absolute_path : option string) (b : option BackendConfig)
  : result reg_error BackendConfig :=
  match b, absolute_path with
  | Some b, _ => Ok b
  | None, Some p => Ok (RedroidBackendConfig p [])
  | None, None => Err NeitherPathNorBackend
  end.

Definition lift_port {A} (r : result port_error A) : result reg_error A :=
  match r with Ok a => Ok a | Err e => Err (BadIndex e) end.

(** [add_allocating]; [now] is the clock reading stored in [created_at]. *)
Definition add_allocating (name : string) (absolute_path : option string)
    (b : option BackendConfig) (now : datetime) : RM Z :=
  b ← lift (requested_backend absolute_path b);
  _locked_exclusive ;;
  data ← _read;
  lift (raise_if (Dict.mem name data) (AlreadyRegistered name)) ;;
  idx ← lift (match lowest_free_index (indices_of data) with
              | Some i => Ok i | None => Err OutOfFuel end);
  lift (lift_port (_check_index idx)) ;;
  _write (Dict.set name (mkInstanceMeta b idx now) data) ;;
  mret idx.

Definition remove (name : string) : RM unit :=
  _locked_exclusive ;;
  data ← _read;
  _write (Dict.pop name data).

Definition set_stealth_paths (name : string) (sp : list (string * string)) : RM unit :=
  _locked_exclusive ;;
  data ← _read;
  match Dict.get name data with
  | None => raise (UnknownInstance name)
  | Some m =>
      match backend m with
      | RedroidBackendConfig p _ =>
          _write (Dict.set name
            (mkInstanceMeta (RedroidBackendConfig p sp) (index m) (created_at m)) data)
      | b => raise (NotRedroid name (backend_kind b))
      end
  end.

Definition reconcile_backend_kind (name binder : string) : RM bool :=
  let want_vm := String.eqb binder "vm" in
  _locked_exclusive ;;
  data ← _read;
  match Dict.get name data with
  | None => mret false
  | Some m =>
      match backend m with
      | RedroidBackendConfig p _ =>
          if want_vm
          then _write (Dict.set name
                 (mkInstanceMeta (VmBackendConfig p) (index m) (created_at m)) data) ;;
               mret true
          else mret false
      | VmBackendConfig p =>
          if want_vm then mret false
          else _write (Dict.set name
                 (mkInstanceMeta (RedroidBackendConfig p []) (index m) (created_at m)) data) ;;
               mret true
      | _ => mret false
      end
  end.

Definition instance_path (name : string) : RM string :=
  m ← get name;
  match m with
  | None => raise (UnknownInstance name)
  | Some m =>
      match backend m with
      | RedroidBackendConfig p _ | VmBackendConfig p => mret p
      | b => raise (NotDirectoryBacked name (backend_kind b))
      end
  end.

(** ** Cross-instance ports *)

(** What [load_yaml] of an instance directory does. *)
Inductive yaml_load : Type :=
| YamlMissing                      (* FileNotFoundError *)
| YamlInvalid                      (* any other exception *)
| YamlOk (cfg : InstanceConfig).

(** The host ports of one directory-backed row, with the fallback of a row whose
    port list no longer resolves. *)
Definition row_host_ports (idx : Z) (cfg : InstanceConfig) : result reg_error (gset Z) :=
  match fst (resolve_ports idx (ports cfg) true) with
  | Ok resolved => Ok (list_to_set (map rp_host resolved))
  | Err _ =>
      dflt ← lift_port (ports_for_index idx);
      Ok (list_to_set (port_hosts (ports cfg)) ∪ list_to_set (map snd dflt))
  end.

Definition _resolved_host_ports_from (load : string -> yaml_load) :=
  fix go (l : RegistryFile) : result reg_error (list (string * gset Z)) :=
    match l with
    | [] => Ok []
    | (name, m) :: l' =>
        match backend m with
        | RedroidBackendConfig p _ | VmBackendConfig p =>
            match load p with
            | YamlMissing => go l'
            | YamlInvalid => Err (SiblingConfig name)
            | YamlOk cfg =>
                hosts ← row_host_ports (index m) cfg;
                rest ← go l';
                Ok ((name, hosts) :: rest)
            end
        | _ =>
            dflt ← lift_port (ports_for_index (index m));
            rest ← go l';
            Ok ((name, list_to_set (map snd dflt)) :: rest)
        end
    end.

Definition all_resolved_host_ports (load : string -> yaml_load)
  : RM (list (string * gset Z)) :=
  data ← list_instances; lift (_resolved_host_ports_from load data).

(** First collision in list order, then in the order of [others]. *)
Fixpoint find_port_collision (new_ports : list ResolvedPort)
    (others : list (string * gset Z)) : option (Z * string * string) :=
  match new_ports with
  | [] => None
  | rp :: rest =>
      match find (fun '(_, ps) => bool_decide (rp_host rp ∈ ps)) others with
      | Some (other, _) => Some (rp_host rp, other, service_label (rp_service rp))
      | None => find_port_collision rest others
      end
  end.

Definition assert_no_port_collision (load : string -> yaml_load) (name : string)
    (new_ports : list ResolvedPort) : RM unit :=
  _locked_exclusive ;;
  data ← _read;
  siblings ← lift (_resolved_host_ports_from load data);
  let others := filter (fun '(n, _) => n <> name) siblings in
  match find_port_collision new_ports others with
  | None => mret tt
  | Some (port, other, kind) => raise (PortCollides port other kind)
  end.
End registry.

(** ** Reading back what was written *)

Section reading.
Context `{P : Pydantic} `{L : !PydanticLaws P}.
Abbreviation RegistryFile := (list (string * InstanceMeta)).
Implicit Types (data : RegistryFile) (w : world).

(** A backend that is what parsing its own dump yields. *)
Definition backend_ok (b : BackendConfig) : Prop :=
  match b with
  | UnresolvedBackendConfig k raw =>
      k = kind_of raw /\
      (_parse_backend_config raw = None \/ Dict.get (kind_of raw) classes = None)
  | _ => _parse_backend_config (_dump_backend_config b) = Some b
  end.

Definition file_wf data : Prop :=
  Dict.wf data /\ Forall (fun '(_, m) => backend_ok (backend m)) data.

Lemma kind_of_dump b : (forall k raw, b <> UnresolvedBackendConfig k raw) ->
  kind_of (_dump_backend_config b) = backend_kind b.
Proof. destruct b; try done. intros H. by destruct (H kind raw). Qed.

Lemma class_not_unresolved b c k raw :
  class_of b = Some c -> b <> UnresolvedBackendConfig k raw.
Proof. by intros ? ->. Qed.

Lemma registered_ok b c :
  class_of b = Some c -> Dict.get (backend_kind b) classes = Some c ->
  model_validate c (_dump_backend_config b) = Some b -> backend_ok b.
Proof.
  intros Hc Hk Hv. assert (_parse_backend_config (_dump_backend_config b) = Some b) as Hp.
  { unfold _parse_backend_config. rewrite kind_of_dump by (eauto using class_not_unresolved).
    by rewrite Hk. }
  by destruct b.
Qed.

Lemma in_tree_ok b c :
  class_of b = Some c -> Dict.get (backend_kind b) in_tree_classes = Some c -> backend_ok b.
Proof.
  intros Hc Hk. eapply registered_ok; [done|by apply classes_in_tree|].
  apply validate_built; [done|]. apply Dict.get_Some_elem in Hk.
  unfold in_tree_classes in Hk. set_solver.
Qed.

Lemma redroid_ok p sp : backend_ok (RedroidBackendConfig p sp).
Proof. by eapply in_tree_ok. Qed.
Lemma adb_ok s : backend_ok (AdbBackendConfig s).
Proof. by eapply in_tree_ok. Qed.
Lemma vm_ok p : backend_ok (VmBackendConfig p).
Proof. by eapply in_tree_ok. Qed.

Lemma parsed_ok raw b : _parse_backend_config raw = Some b -> backend_ok b.
Proof.
  intros Hp. unfold _parse_backend_config in Hp.
  destruct (Dict.get (kind_of raw) classes) as [c|] eqn:Hc.
  - eapply registered_ok; [by eapply validate_class| |by eapply validate_dump].
    by rewrite (validate_kind _ _ _ _ Hc Hp).
  - injection Hp as <-. split; [done|by right].
Qed.

Lemma parse_row_ok md raw m :
  _parse_row md raw = Some m ->
  backend_ok (backend m) /\
  validate_meta (Dict.pop "backend" md) = Some (index m, created_at m) /\
  (_parse_backend_config raw = Some (backend m) \/
   _parse_backend_config raw = None /\ backend m = _opaque_backend raw).
Proof.
  unfold _parse_row, validate_row.
  destruct (validate_meta (Dict.pop "backend" md)) as [[i t]|]; simpl;
    destruct (_parse_backend_config raw) as [b|] eqn:Hb; simpl; intros; simplify_eq/=.
  - split; [by eapply parsed_ok|]. split; [done|by left].
  - split; [split; [done|by left]|]. split; [done|by right].
Qed.

(** [_parse_row] fails only on the row's own [index] or [created_at]. *)
Lemma parse_row_none md raw :
  _parse_row md raw = None <-> validate_meta (Dict.pop "backend" md) = None.
Proof.
  unfold _parse_row, validate_row.
  destruct (validate_meta (Dict.pop "backend" md)) as [[i t]|]; simpl;
    by destruct (_parse_backend_config raw).
Qed.

Lemma parse_own_dump b md i t :
  backend_ok b -> validate_meta (Dict.pop "backend" md) = Some (i, t) ->
  _parse_row md (_dump_backend_config b) = Some (mkInstanceMeta b i t).
Proof.
  intros Hb Hm. unfold _parse_row, validate_row. rewrite Hm. simpl.
  destruct b as [| | | |k raw]; simpl in *; try by rewrite Hb.
  destruct Hb as [-> [Hn|Hn]].
  - by rewrite Hn.
  - unfold _parse_backend_config. by rewrite Hn.
Qed.

Lemma parse_written_row m :
  backend_ok (backend m) ->
  exists md, row_json m = JObj md /\
    Dict.get "backend" md = Some (JObj (_dump_backend_config (backend m))) /\
    _parse_row md (_dump_backend_config (backend m)) = Some m.
Proof.
  intros Hb. eexists. split_and!; [done|done|].
  destruct m as [b i t]. apply parse_own_dump; [done|]. apply validate_meta_dump.
Qed.

Lemma read_rows_row n m rows acc :
  backend_ok (backend m) ->
  read_rows ((n, row_json m) :: rows) acc = read_rows rows (Dict.set n m acc).
Proof.
  intros Hm. destruct (parse_written_row m Hm) as (md & Hj & Hg & Hp).
  cbn [read_rows]. by rewrite Hj, Hg, Hp.
Qed.

Lemma read_written_rows data acc :
  Dict.wf (acc ++ data) -> Forall (fun '(_, m) => backend_ok (backend m)) data ->
  read_rows (map (fun '(n, m) => (n, row_json m)) data) acc = Ok (acc ++ data).
Proof.
  revert acc. induction data as [|[n m] data IH]; intros acc Hwf Hok.
  { simpl. by rewrite app_nil_r. }
  cbn [map]. rewrite read_rows_row by (by apply Forall_cons in Hok as [? _]).
  apply Forall_cons in Hok as [Hm Hok]. rewrite Dict.set_fresh.
  - rewrite IH; [by rewrite <- app_assoc|by rewrite <- app_assoc|done].
  - apply Dict.get_None. unfold Dict.wf, Dict.keys in *. rewrite fmap_app in Hwf.
    apply NoDup_app in Hwf as (_ & Hd & _). intros Hin. apply (Hd n Hin). set_solver.
Qed.

Lemma read_rows_wf rows acc data :
  read_rows rows acc = Ok data -> file_wf acc -> file_wf data.
Proof.
  revert acc. induction rows as [|[n j] rows IH]; intros acc; simpl; [by intros [= <-]|].
  destruct j; try apply IH. destruct (Dict.get "backend" d) as [[]|]; try apply IH.
  destruct (_parse_row d d0) as [m|] eqn:Hp; [|done].
  intros Hr [Hwf Hok]. apply (IH _ Hr). split; [by apply Dict.wf_set|].
  apply parse_row_ok in Hp as [Hm _]. clear -Hok Hm.
  induction acc as [|[n' m'] acc IH]; simpl; [by repeat constructor|].
  apply Forall_cons in Hok as [H1 H2]. case_decide; constructor; auto.
Qed.

Lemma read_rows_keep rows acc data n x :
  read_rows rows acc = Ok data -> n ∉ Dict.keys rows ->
  Dict.get n acc = Some x -> Dict.get n data = Some x.
Proof.
  revert acc. induction rows as [|[n' j] rows IH]; intros acc; cbn [read_rows];
    [by intros [= <-]|].
  intros Hr Hn Hg. assert (n' <> n /\ n ∉ Dict.keys rows) as [Hne Hn'] by set_solver.
  destruct j; try by eapply IH. destruct (Dict.get "backend" d) as [[]|]; try by eapply IH.
  destruct (_parse_row d d0); [|done]. eapply IH; [done..|]. by rewrite Dict.get_set_ne.
Qed.

Lemma read_rows_lookup rows acc data n md raw :
  read_rows rows acc = Ok data -> Dict.wf rows -> (n, JObj md) ∈ rows ->
  Dict.get "backend" md = Some (JObj raw) ->
  exists m, Dict.get n data = Some m /\ _parse_row md raw = Some m.
Proof.
  revert acc. induction rows as [|[n' j] rows IH]; intros acc Hr Hnd Hin Hb; [set_solver|].
  apply NoDup_cons in Hnd as [Hn Hnd]. cbn [read_rows] in Hr.
  apply elem_of_cons in Hin as [[= <- <-]|Hin].
  - rewrite Hb in Hr. destruct (_parse_row md raw) as [m|]; [|done].
    exists m. split; [|done]. eapply read_rows_keep; [done|done|]. by rewrite Dict.get_set_eq.
  - destruct j; try by eapply IH. destruct (Dict.get "backend" d) as [[]|];
      try by eapply IH. destruct (_parse_row d d0); [|done]. by eapply IH.
Qed.

Lemma read_doc_rows w j :
  reg w = Some (Doc j) -> eq_schema_version (version_of j) = true ->
  _read w =
  match read_rows (raw_instances j) [] with
  | Ok data => (Ok data, w)
  | Err name => _backup_and_warn ("has an unsalvageable row " +:+ name) w
  end.
Proof.
  intros Hr Hv. unfold _read. rewrite (M_bind_ok _ _ w tt w).
  - unfold mbind, M_bind, gets. simpl. rewrite Hr, Hv. simpl. by destruct (read_rows _ _).
  - unfold _check_v02_registry_at_cwd. rewrite Hr. simpl.
    destruct (v02_hint w); [done|]. by destruct (cwd_json w).
Qed.

Lemma read_written w data :
  reg w = Some (Doc (_registry_to_json data)) -> file_wf data -> _read w = (Ok data, w).
Proof.
  intros Hr [Hwf Hok]. rewrite (read_doc_rows _ _ Hr) by reflexivity.
  change (raw_instances (_registry_to_json data))
    with (map (fun '(n, m) => (n, row_json m)) data).
  by rewrite (read_written_rows data []).
Qed.

Lemma read_wf w data w' : _read w = (Ok data, w') -> file_wf data.
Proof.
  assert (file_wf []) as Hnil by (split; [apply NoDup_nil_2|constructor]).
  assert (forall r v, _backup_and_warn r v = (Ok data, w') -> file_wf data) as Hb.
  { intros r v. unfold _backup_and_warn. destruct (reg v); intros; by simplify_eq. }
  unfold _read. intros [(u & w1 & _ & H)|(e & _ & ?)]%M_bind_inv; [|done].
  apply M_bind_inv in H as [(c & w2 & Hc & H)|(e & _ & ?)]; [|done].
  destruct c as [[|b|j]|]; [done|by eapply Hb| |].
  - destruct (negb _); [by eapply Hb|].
    destruct (read_rows (raw_instances j) []) as [d|] eqn:Hrr; [|by eapply Hb].
    injection H as <- <-. by eapply read_rows_wf.
  - by injection H as <- <-.
Qed.

(** C28. Persistence round trip: whatever [_read] returned can be written and read
    back unchanged — opaque rows of unknown or rejected kinds included, byte for
    byte — and the read leaves the file alone. *)
Theorem read_write_roundtrip w data w1 :
  _read w = (Ok data, w1) ->
  forall w2, let w3 := set_reg (Some (Doc (_registry_to_json data))) w2 in
    (_write data ;; _read) w2 = (Ok data, w3).
Proof.
  intros Hr%read_wf w2. unfold mbind, M_bind, _write, modify. by apply read_written.
Qed.

(** No row with a usable [index] and [created_at] is lost when the registry is
    read: each row of the document whose [backend] is an object is kept under its
    name with that index reserved, and when its kind is unknown or its payload is
    rejected the backend dumps back to exactly the object read. *)
Theorem read_keeps_rows w j data w' name md raw :
  reg w = Some (Doc j) -> eq_schema_version (version_of j) = true ->
  Dict.wf (raw_instances j) -> _read w = (Ok data, w') -> reg w' <> None ->
  (name, JObj md) ∈ raw_instances j -> Dict.get "backend" md = Some (JObj raw) ->
  exists m, Dict.get name data = Some m /\
    validate_meta (Dict.pop "backend" md) = Some (index m, created_at m) /\
    (_parse_backend_config raw = Some (backend m) \/
     _parse_backend_config raw = None /\ _dump_backend_config (backend m) = raw).
Proof.
  intros Hr Hv Hnd Hread Hkept Hin Hb. rewrite (read_doc_rows _ _ Hr Hv) in Hread.
  destruct (read_rows (raw_instances j) []) as [d|n] eqn:Hrr.
  2: { unfold _backup_and_warn in Hread. rewrite Hr in Hread. by simplify_eq. }
  injection Hread as <- _.
  destruct (read_rows_lookup _ _ _ _ _ _ Hrr Hnd Hin Hb) as (m & Hg & Hp).
  exists m. split; [done|]. apply parse_row_ok in Hp as (_ & Hm & [H|[H ->]]); eauto.
Qed.
End reading.

(** ** An implementation of the interface

    A validator for the in-tree classes (required and optional fields, no extras),
    with times kept as ISO strings: [PydanticLaws] holds of it, so the theorems
    proved from the laws are not vacuous.  It also evaluates examples. *)
Module Sample.

Definition string_items (d : jdict) : option (list (string * string)) :=
  mapM (fun '(k, v) => match v with JStr s => Some (k, s) | _ => None end) d.

Definition only_keys (allowed : list string) (d : jdict) : bool :=
  forallb (fun k => bool_decide (k ∈ allowed)) (Dict.keys d).

Definition validate (c : backend_class) (raw : jdict) : option BackendConfig :=
  match c with
  | RedroidCls =>
      if only_keys ["kind"; "absolute_path"; "stealth_paths"] raw then
        match Dict.get "kind" raw, Dict.get "absolute_path" raw,
              Dict.get "stealth_paths" raw with
        | Some (JStr "redroid"), Some (JStr p), None => Some (RedroidBackendConfig p [])
        | Some (JStr "redroid"), Some (JStr p), Some (JObj d) =>
            sp ← string_items d; Some (RedroidBackendConfig p sp)
        | _, _, _ => None
        end
      else None
  | AdbCls =>
      if only_keys ["kind"; "serial"] raw then
        match Dict.get "kind" raw, Dict.get "serial" raw with
        | Some (JStr "adb"), Some (JStr s) => Some (AdbBackendConfig s)
        | _, _ => None
        end
      else None
  | VmCls =>
      if only_keys ["kind"; "absolute_path"] raw then
        match Dict.get "kind" raw, Dict.get "absolute_path" raw with
        | Some (JStr "vm"), Some (JStr p) => Some (VmBackendConfig p)
        | _, _ => None
        end
      else None
  | ThirdPartyCls _ => None
  end.

Definition validate_row_meta (d : jdict) : option (Z * string) :=
  if only_keys ["index"; "created_at"] d then
    match Dict.get "index" d, Dict.get "created_at" d with
    | Some (JInt i), Some (JStr t) => Some (i, t)
    | _, _ => None
    end
  else None.

#[export] Instance sample : Pydantic := {|
  datetime := string; isoformat := fun t => t; model_validate := validate;
  validate_meta := validate_row_meta; classes := in_tree_classes |}.

Lemma string_items_dump sp :
  string_items (map (fun '(k, v) => (k, JStr v)) sp) = Some sp.
Proof.
  unfold string_items. induction sp as [|[k v] sp IH]; [done|].
  cbn [map mapM]. by rewrite IH.
Qed.

Lemma validate_inv c raw b :
  validate c raw = Some b -> class_of b = Some c /\ Dict.get (backend_kind b) in_tree_classes = Some c.
Proof.
  destruct c; simpl; intros Hv; repeat (case_match; simplify_eq/=; try done).
  all: try (destruct (string_items _); simplify_eq/=; done).
Qed.

Lemma validate_dump_built c b :
  class_of b = Some c -> c ∈ [RedroidCls; AdbCls; VmCls] ->
  validate c (_dump_backend_config b) = Some b.
Proof.
  intros Hc Hin. destruct b as [p sp|s|p|k' k f|k raw]; simplify_eq/=;
    [|reflexivity|reflexivity|set_solver].
  rewrite string_items_dump. reflexivity.
Qed.

#[export] Instance sample_laws : PydanticLaws sample.
Proof.
  split; simpl.
  - by intros c raw b [? _]%validate_inv.
  - intros c raw b k Hk [_ Hb]%validate_inv. clear raw.
    revert Hk Hb. unfold in_tree_classes. simpl.
    repeat case_decide; intros; by simplify_eq.
  - intros c raw b Hv. pose proof (validate_inv _ _ _ Hv) as [Hc _].
    apply validate_dump_built; [done|]. destruct c; [set_solver..|]. by simpl in Hv.
  - exact validate_dump_built.
  - done.
  - done.
Qed.

Definition stamp (t : string) : @datetime sample := t.

(** A registry with a redroid row pydantic rejects (a stray field) and a row of a
    kind nobody registered. *)
Definition alpha_backend : jdict :=
  [("kind", JStr "redroid"); ("absolute_path", JStr "/a"); ("stray", JInt 1)].
Definition alpha_row : jdict :=
  [("backend", JObj alpha_backend); ("index", JInt 0); ("created_at", JStr "t0")].
Definition beta_row : jdict :=
  [("backend", JObj [("kind", JStr "cloud"); ("zone", JStr "eu")]);
   ("index", JInt 1); ("created_at", JStr "t1")].
Definition sample_doc : json :=
  JObj [("version", JInt 3);
        ("instances", JObj [("alpha", JObj alpha_row); ("beta", JObj beta_row)])].

Definition world_of (c : option content) : world := mkWorld c None None false false [].
Definition sample_rows : list (string * InstanceMeta) :=
  [("alpha", mkInstanceMeta (_opaque_backend alpha_backend) 0 "t0");
   ("beta", mkInstanceMeta
      (_opaque_backend [("kind", JStr "cloud"); ("zone", JStr "eu")]) 1 "t1")].

Lemma read_sample :
  _read (world_of (Some (Doc sample_doc))) = (Ok sample_rows, world_of (Some (Doc sample_doc))).
Proof. vm_compute. reflexivity. Qed.
End Sample.

Section witnesses.
Import Sample.

Lemma read_write_roundtrip_witness :
  let w := world_of (Some (Doc sample_doc)) in
  _read w = (Ok sample_rows, w) /\
  (_write sample_rows ;; _read) w =
    (Ok sample_rows, set_reg (Some (Doc (_registry_to_json sample_rows))) w).
Proof.
  simpl. split; [vm_compute; reflexivity|].
  apply (read_write_roundtrip (world_of (Some (Doc sample_doc))) sample_rows
           (world_of (Some (Doc sample_doc)))).
  vm_compute. reflexivity.
Defined.

Lemma read_keeps_rows_witness :
  exists m, Dict.get "alpha" sample_rows = Some m /\
    validate_meta (Dict.pop "backend" alpha_row) = Some (index m, created_at m) /\
    (_parse_backend_config alpha_backend = Some (backend m) \/
     _parse_backend_config alpha_backend = None /\
     _dump_backend_config (backend m) = alpha_backend).
Proof.
  apply (read_keeps_rows (world_of (Some (Doc sample_doc))) sample_doc sample_rows
           (world_of (Some (Doc sample_doc))) "alpha" alpha_row alpha_backend);
    try (vm_compute; reflexivity).
  - apply (bool_decide_unpack (Dict.wf _)). vm_compute. exact I.
  - discriminate.
  - left.
Defined.
End witnesses.
