(* ===== verification/RegistryOps.v ===== *)
(** * The registry's operations: what each does on every branch

    Functional specifications of the operations of [Registry], the invariant the
    file keeps under any sequence of them, and the behaviours of damaged files. *)
From stdpp Require Import base list strings gmap sorting relations.
From Stdlib Require Import ZArith QArith Lia.
From S2P Require Import Prelude PyStr Config Ports Registry.
Local Open Scope stdpp_scope.
Local Open Scope Z_scope.

Section ops.
Context `{P : Pydantic} `{L : !PydanticLaws P}.
Abbreviation RegistryFile := (list (string * InstanceMeta)).
Implicit Types (data : RegistryFile) (w : world).

(** What every locked operation starts with. *)
Definition opened w : result reg_error RegistryFile * world :=
  (_locked_exclusive ;; _read) w.

Definition stored data w : world := set_reg (Some (Doc (_registry_to_json data))) w.

Lemma locked_then {A} (k : RegistryFile -> M world reg_error A) w :
  (_locked_exclusive ;; data ← _read; k data) w =
  match opened w with
  | (Ok data, w1) => k data w1
  | (Err e, w1) => (Err e, w1)
  end.
Proof.
  unfold opened. unfold mbind, M_bind.
  destruct (_locked_exclusive w) as [[[]|e] w1]; [|done].
  by destruct (_read w1) as [[d|e] w2].
Qed.

Lemma opened_written w data :
  reg w = Some (Doc (_registry_to_json data)) -> file_wf data -> opened w = (Ok data, w).
Proof.
  intros Hr Hd. unfold opened, mbind, M_bind, _locked_exclusive. rewrite Hr.
  by apply read_written.
Qed.

Lemma opened_missing w : reg w = None -> opened w = (Ok [], stored [] w).
Proof.
  intros Hr. unfold opened, mbind, M_bind, _locked_exclusive. rewrite Hr.
  apply (read_written (stored [] w) []); [done|].
  split; [apply NoDup_nil_2|constructor].
Qed.

Lemma opened_wf w data w1 : opened w = (Ok data, w1) -> file_wf data.
Proof.
  intros H. unfold opened in H.
  apply M_bind_inv in H as [(u & w2 & _ & H)|(e & _ & ?)]; [|done].
  by eapply read_wf.
Qed.

(** ** [add_allocating] *)

Lemma elem_indices_of data i :
  i ∈ indices_of data <-> exists n m, (n, m) ∈ data /\ index m = i.
Proof.
  unfold indices_of. rewrite elem_of_list_to_set, list_elem_of_In, in_map_iff. split.
  - intros ([n m] & <- & Hin). exists n, m. by rewrite list_elem_of_In.
  - intros (n & m & Hin & <-). exists (n, m). by rewrite <- list_elem_of_In.
Qed.

Lemma add_allocating_cases name path b now w data w1 :
  opened w = (Ok data, w1) ->
  match requested_backend path b with
  | Err e => add_allocating name path b now w = (Err e, w)
  | Ok bk =>
      if Dict.mem name data
      then add_allocating name path b now w = (Err (AlreadyRegistered name), w1)
      else exists i, 0 <= i /\ i ∉ indices_of data /\
        (forall j, 0 <= j < i -> j ∈ indices_of data) /\
        add_allocating name path b now w =
          if decide (i <= _MAX_PORT_INDEX)
          then (Ok i, stored (data ++ [(name, mkInstanceMeta bk i now)]) w1)
          else (Err (BadIndex (IndexTooLarge i)), w1)
  end.
Proof.
  intros Ho. unfold add_allocating.
  destruct (requested_backend path b) as [bk|e]; [|done].
  rewrite lift_ok_bind, locked_then, Ho.
  destruct (Dict.mem name data) eqn:Hm; [done|].
  destruct (lowest_free_index_least (indices_of data)) as (i & Hi & [H0 _] & Hn & Hb).
  exists i. split_and!; [done..|].
  unfold mbind, M_bind, lift. rewrite Hi. unfold _check_index, raise_if.
  destruct (Z.ltb_spec i 0); [lia|]. simpl.
  case_decide as Hmax.
  - destruct (Z.ltb_spec _MAX_PORT_INDEX i); [lia|]. unfold stored. simpl.
    rewrite Dict.set_fresh; [done|]. unfold Dict.mem in Hm. by destruct (Dict.get name data).
  - by destruct (Z.ltb_spec _MAX_PORT_INDEX i); [|lia].
Qed.

(** [add_allocating] on every branch, from the registry [data] it reads: with
    neither a path nor a backend it raises before touching the file; a name already
    present is refused; otherwise the least free index is taken, and if that is
    within the port range exactly one row is appended under the name, everything
    else unchanged — if not, the call raises and the file stays as it was read. *)
Theorem add_allocating_spec name path b now w data w1 :
  opened w = (Ok data, w1) ->
  match requested_backend path b with
  | Err e => add_allocating name path b now w = (Err e, w)
  | Ok bk =>
      if Dict.mem name data
      then add_allocating name path b now w = (Err (AlreadyRegistered name), w1)
      else exists i, 0 <= i /\ i ∉ indices_of data /\
        (forall j, 0 <= j < i -> j ∈ indices_of data) /\
        add_allocating name path b now w =
          if decide (i <= _MAX_PORT_INDEX)
          then (Ok i, stored (data ++ [(name, mkInstanceMeta bk i now)]) w1)
          else (Err (BadIndex (IndexTooLarge i)), w1)
  end.
Proof. exact (add_allocating_cases name path b now w data w1). Qed.

(** ** The invariant *)

Definition row_indices data : list Z := map (fun '(_, m) => index m) data.

(** Well-formed rows, distinct indices, every index one the port code accepts. *)
Record data_inv data : Prop := {
  di_wf : file_wf data;
  di_distinct : NoDup (row_indices data);
  di_range : Forall (fun i => 0 <= i <= _MAX_PORT_INDEX) (row_indices data) }.

(** The file is missing or holds the document of an invariant registry. *)
Definition reg_inv w : Prop :=
  reg w = None \/ exists data, reg w = Some (Doc (_registry_to_json data)) /\ data_inv data.

Lemma data_inv_nil : data_inv [].
Proof. split; [split; [apply NoDup_nil_2|constructor]|constructor|constructor]. Qed.

Lemma opened_inv w : reg_inv w ->
  exists data w1, opened w = (Ok data, w1) /\ data_inv data /\
    reg w1 = Some (Doc (_registry_to_json data)).
Proof.
  intros [Hn|(data & Hr & Hd)].
  - exists [], (stored [] w). split; [by apply opened_missing|].
    split; [apply data_inv_nil|done].
  - exists data, w. split; [apply opened_written; [done|apply Hd]|done].
Qed.

Lemma stored_inv data w : data_inv data -> reg_inv (stored data w).
Proof. intros. right. by exists data. Qed.

Lemma data_inv_add data name m :
  data_inv data -> Dict.get name data = None -> backend_ok (backend m) ->
  index m ∉ indices_of data -> 0 <= index m <= _MAX_PORT_INDEX ->
  data_inv (data ++ [(name, m)]).
Proof.
  intros [[Hwf Hok] Hd Hr] Hg Hb Hi Hrange. split; [split|..].
  - rewrite <- (Dict.set_fresh name m) by done. by apply Dict.wf_set.
  - apply Forall_app. split; [done|]. by constructor.
  - unfold row_indices in *. rewrite map_app. apply NoDup_app.
    split_and!; [done| |apply NoDup_singleton].
    intros i Hin Hm. apply list_elem_of_singleton in Hm as ->. apply Hi.
    unfold indices_of. by apply elem_of_list_to_set.
  - unfold row_indices in *. rewrite map_app. apply Forall_app. split; [done|].
    by constructor.
Qed.

Lemma row_indices_set data name m m' :
  Dict.get name data = Some m -> index m' = index m ->
  row_indices (Dict.set name m' data) = row_indices data.
Proof.
  unfold row_indices. intros Hg Hi. induction data as [|[n x] data IH]; [done|].
  simpl in *. case_decide; simplify_eq/=; [by rewrite Hi|]. f_equal. auto.
Qed.

Lemma Forall_set (Q : InstanceMeta -> Prop) data name m :
  Forall (fun '(_, m) => Q m) data -> Q m -> Forall (fun '(_, m) => Q m) (Dict.set name m data).
Proof.
  induction data as [|[n x] data IH]; simpl; [by repeat constructor|].
  intros [??]%Forall_cons ?. case_decide; constructor; auto.
Qed.

(** Replacing a row's backend keeps the invariant. *)
Lemma data_inv_set data name m b :
  data_inv data -> Dict.get name data = Some m -> backend_ok b ->
  data_inv (Dict.set name (mkInstanceMeta b (index m) (created_at m)) data).
Proof.
  intros [[Hwf Hok] Hd Hr] Hg Hb. split; [split|..].
  - by apply Dict.wf_set.
  - by apply (Forall_set (fun m => backend_ok (backend m))).
  - by erewrite row_indices_set.
  - by erewrite row_indices_set.
Qed.

Lemma data_inv_pop data name : data_inv data -> data_inv (Dict.pop name data).
Proof.
  intros [[Hwf Hok] Hd Hr]. pose proof (Dict.pop_sublist name data) as Hs.
  assert (row_indices (Dict.pop name data) `sublist_of` row_indices data) as Hs'.
  { unfold row_indices. clear -Hs. induction Hs; simpl; by constructor. }
  split; [split|..].
  - by apply Dict.wf_pop.
  - by eapply Forall_sub.
  - by eapply sublist_NoDup.
  - by eapply Forall_sub.
Qed.

(** ** The operations keep the invariant *)

Inductive reg_op : Type :=
| OpAdd (name : string) (path : option string) (b : option BackendConfig) (now : datetime)
| OpRemove (name : string)
| OpStealth (name : string) (sp : list (string * string))
| OpReconcile (name binder : string)
| OpList.

Definition run_op (op : reg_op) w : world :=
  match op with
  | OpAdd n p b t => snd (add_allocating n p b t w)
  | OpRemove n => snd (remove n w)
  | OpStealth n sp => snd (set_stealth_paths n sp w)
  | OpReconcile n b => snd (reconcile_backend_kind n b w)
  | OpList => snd (list_instances w)
  end.

(** A backend handed to [add_allocating] was validated or built by its class. *)
Definition op_ok (op : reg_op) : Prop :=
  match op with OpAdd _ _ (Some b) _ => backend_ok b | _ => True end.

Inductive reg_step : world -> world -> Prop :=
| do_op op w : op_ok op -> reg_step w (run_op op w).

Lemma add_inv name path b now w :
  op_ok (OpAdd name path b now) -> reg_inv w -> reg_inv (snd (add_allocating name path b now w)).
Proof.
  intros Hb Hw. destruct (opened_inv w Hw) as (data & w1 & Ho & Hd & Hr1).
  assert (reg_inv w1) as Hw1 by (right; eauto).
  pose proof (add_allocating_cases name path b now w data w1 Ho) as Hs.
  destruct (requested_backend path b) as [bk|e] eqn:Hbk; [|by rewrite Hs].
  assert (backend_ok bk) as Hok.
  { destruct b as [b|]; [by simplify_eq/=|]. destruct path as [p|]; simplify_eq/=. apply (redroid_ok p []). }
  destruct (Dict.mem name data) eqn:Hm; [by rewrite Hs|].
  destruct Hs as (i & Hi & Hn & _ & ->). case_decide; [|done]. simpl.
  apply stored_inv, data_inv_add; simpl; [done| |done..].
  unfold Dict.mem in Hm. by destruct (Dict.get name data).
Qed.

Lemma list_instances_inv w : reg_inv w -> reg_inv (snd (list_instances w)).
Proof.
  unfold list_instances. intros [Hn|(data & Hr & Hd)].
  - rewrite Hn. left. unfold mbind, M_bind, _check_v02_registry_at_cwd.
    rewrite Hn. destruct (v02_hint w); [done|].
    destruct (cwd_json w) as [[| |j]|]; try done. by destruct (v02_shape j).
  - right. exists data. rewrite Hr. unfold _needs_legacy_migration. rewrite Hr. simpl.
    by rewrite (read_written w data Hr) by apply Hd.
Qed.

Lemma reg_step_inv w w' : reg_step w w' -> reg_inv w -> reg_inv w'.
Proof.
  intros [op ? Hop] Hw. destruct (opened_inv _ Hw) as (data & w1 & Ho & Hd & Hr1).
  assert (reg_inv w1) as Hw1 by (right; eauto).
  destruct op as [n p b t|n|n sp|n bd|]; simpl.
  - by apply add_inv.
  - unfold remove. rewrite locked_then, Ho. by apply stored_inv, data_inv_pop.
  - unfold set_stealth_paths. rewrite locked_then, Ho.
    destruct (Dict.get n data) as [m|] eqn:Hg; [|done].
    destruct (backend m) as [p' sp'|s'|p'|c' k' f'|k' raw']; try done.
    by apply stored_inv, data_inv_set, redroid_ok.
  - unfold reconcile_backend_kind. rewrite locked_then, Ho.
    destruct (Dict.get n data) as [m|] eqn:Hg; [|done].
    destruct (backend m); try done; destruct (String.eqb bd "vm"); try done;
      apply stored_inv, data_inv_set; auto using vm_ok, redroid_ok.
  - by apply list_instances_inv.
Qed.

(** Rows of an invariant registry with one index are one row. *)
Lemma indices_distinct data n1 n2 m1 m2 :
  data_inv data -> (n1, m1) ∈ data -> (n2, m2) ∈ data -> index m1 = index m2 -> n1 = n2.
Proof.
  intros Hd [k1 H1]%list_elem_of_lookup [k2 H2]%list_elem_of_lookup Heq.
  assert (k1 = k2) as ->; [|congruence].
  eapply NoDup_lookup; [exact (di_distinct _ Hd)| |]; unfold row_indices;
    rewrite list_lookup_fmap, ?H1, ?H2; simpl; by rewrite ?Heq.
Qed.

Lemma index_in_range data n m : data_inv data -> (n, m) ∈ data -> 0 <= index m <= _MAX_PORT_INDEX.
Proof.
  intros Hd Hin. pose proof (di_range _ Hd) as Hr. rewrite Forall_forall in Hr. apply Hr.
  unfold row_indices. apply list_elem_of_In, in_map_iff. exists (n, m). by rewrite <- list_elem_of_In.
Qed.

(** C15. Port indices are never shared: starting without a registry file, after any
    sequence of [add_allocating], [remove], [set_stealth_paths],
    [reconcile_backend_kind] and [list_instances], every registered instance is
    listed under one name with an index within the port range, no two instances
    have the same index, and reading the file back gives exactly these rows. *)
Theorem indices_never_shared w0 w :
  reg w0 = None -> rtc reg_step w0 w -> reg w <> None ->
  exists data, _read w = (Ok data, w) /\ Dict.wf data /\
    (forall n1 n2 m1 m2, Dict.get n1 data = Some m1 -> Dict.get n2 data = Some m2 ->
       index m1 = index m2 -> n1 = n2) /\
    (forall n m, Dict.get n data = Some m -> 0 <= index m <= _MAX_PORT_INDEX).
Proof.
  intros H0 Hsteps Hne. assert (reg_inv w) as Hinv.
  { assert (reg_inv w0) as Hi by (by left). clear H0 Hne.
    induction Hsteps; eauto using reg_step_inv. }
  destruct Hinv as [?|(data & Hr & Hd)]; [done|]. pose proof (di_wf _ Hd) as Hwf.
  exists data. split; [by apply read_written|]. split; [apply Hwf|]. split.
  - intros n1 n2 m1 m2 H1%Dict.get_Some_elem H2%Dict.get_Some_elem. by apply (indices_distinct data).
  - intros n m Hg%Dict.get_Some_elem. by apply (index_in_range data n).
Qed.

(** ** [reconcile_backend_kind] *)

Definition directory_of (b : BackendConfig) : option string :=
  match b with
  | RedroidBackendConfig p _ | VmBackendConfig p => Some p
  | _ => None
  end.

Definition is_vm_row (b : BackendConfig) : bool :=
  match b with VmBackendConfig _ => true | _ => false end.

Lemma reconcile_cases name binder w data w1 :
  opened w = (Ok data, w1) ->
  match Dict.get name data with
  | None => reconcile_backend_kind name binder w = (Ok false, w1)
  | Some m =>
      match directory_of (backend m) with
      | None => reconcile_backend_kind name binder w = (Ok false, w1)
      | Some p =>
          if Bool.eqb (is_vm_row (backend m)) (String.eqb binder "vm")
          then reconcile_backend_kind name binder w = (Ok false, w1)
          else exists m' data',
            reconcile_backend_kind name binder w = (Ok true, stored data' w1) /\
            Dict.get name data' = Some m' /\
            is_vm_row (backend m') = String.eqb binder "vm" /\
            directory_of (backend m') = Some p /\
            index m' = index m /\ created_at m' = created_at m /\
            (forall n, n <> name -> Dict.get n data' = Dict.get n data)
      end
  end.
Proof.
  intros Ho. unfold reconcile_backend_kind. rewrite locked_then, Ho.
  destruct (Dict.get name data) as [m|] eqn:Hg; [|done].
  destruct (backend m) as [p sp|s|p|c k f|k raw]; try done; simpl;
    destruct (String.eqb binder "vm"); simpl; try done.
  all: do 2 eexists; split; [reflexivity|]; split; [apply Dict.get_set_eq|].
  all: split_and!; try done; intros n Hn; by rewrite Dict.get_set_ne.
Qed.

(** [reconcile_backend_kind]: an unknown name, and a backend without a
    directory, are left alone and report [false]; a directory-backed row ends up a
    micro-VM row exactly when [binder] is [vm], on the same path, index and
    creation time, with every other row untouched, and the call reports whether the
    kind changed. *)
Theorem reconcile_backend_kind_spec name binder w data w1 :
  opened w = (Ok data, w1) ->
  match Dict.get name data with
  | None => reconcile_backend_kind name binder w = (Ok false, w1)
  | Some m =>
      match directory_of (backend m) with
      | None => reconcile_backend_kind name binder w = (Ok false, w1)
      | Some p =>
          if Bool.eqb (is_vm_row (backend m)) (String.eqb binder "vm")
          then reconcile_backend_kind name binder w = (Ok false, w1)
          else exists m' data',
            reconcile_backend_kind name binder w = (Ok true, stored data' w1) /\
            Dict.get name data' = Some m' /\
            is_vm_row (backend m') = String.eqb binder "vm" /\
            directory_of (backend m') = Some p /\
            index m' = index m /\ created_at m' = created_at m /\
            (forall n, n <> name -> Dict.get n data' = Dict.get n data)
      end
  end.
Proof. apply reconcile_cases. Qed.

(** ** Damaged files *)

Lemma check_v02_ok w :
  cwd_json w <> Some NotUtf8 ->
  exists w1, _check_v02_registry_at_cwd w = (Ok tt, w1) /\ reg w1 = reg w /\
    (forall c, reg w = Some c -> size_positive c = true -> w1 = w).
Proof.
  unfold _check_v02_registry_at_cwd. intros Hc.
  destruct (v02_hint w); [by exists w|]. destruct (cwd_json w) as [[|b|j]|]; [done|..].
  - exists w. split; [by destruct (match reg w with Some r => _ | None => _ end)|done].
  - destruct (reg w) as [c|] eqn:Hr.
    + destruct (size_positive c) eqn:Hs; [by exists w|].
      destruct (v02_shape j); eexists; (split; [done|]); (split; [done|]);
        intros; congruence.
    + destruct (v02_shape j); eexists; (split; [done|]); (split; [done|]); done.
  - by exists w.
Qed.

Lemma backup_moves w reason c :
  reg w = Some c ->
  exists w', _backup_and_warn reason w = (Ok [], w') /\ reg w' = None /\ bak w' = Some c.
Proof. intros Hr. unfold _backup_and_warn. rewrite Hr. eauto. Qed.

(** The old content is in the backup and the registry's path is free. *)
Definition moved_to_backup (c : content) (w : world) : Prop := reg w = None /\ bak w = Some c.

(** Reading never destroys the file's content: unless bytes are not UTF-8,
    [_read] of an existing registry either returns rows and changes nothing, or
    returns no rows with the old content moved unchanged to the backup. *)
Theorem read_preserves_content w c :
  reg w = Some c -> c <> NotUtf8 -> cwd_json w <> Some NotUtf8 ->
  (exists data, _read w = (Ok data, w)) \/
  (exists w', _read w = (Ok [], w') /\ moved_to_backup c w').
Proof.
  intros Hr Hc Hcwd. destruct (check_v02_ok w Hcwd) as (w1 & Hv & Hr1 & Hsame).
  unfold _read. rewrite (M_bind_ok _ _ _ _ _ Hv). unfold mbind, M_bind, gets. simpl.
  rewrite Hr in *. rewrite Hr1.
  destruct c as [|b|j]; [done|right; by apply backup_moves|].
  rewrite (Hsame _ eq_refl eq_refl) in *.
  destruct (negb _); [right; by apply backup_moves|].
  destruct (read_rows _ _) as [d|n]; [left; by exists d|right; by apply backup_moves].
Qed.

(** A registry that is not valid UTF-8 is reported as needing the migration,
    yet the migration never happens: listing raises [UnicodeDecodeError] and the
    file stays in place, so every later command raises again. *)
Theorem undecodable_registry_raises w :
  reg w = Some NotUtf8 ->
  _needs_legacy_migration w = true /\ list_instances w = (Err UnicodeDecode, w).
Proof.
  intros Hr. split; [unfold _needs_legacy_migration; by rewrite Hr|].
  assert (_check_v02_registry_at_cwd w = (Ok tt, w)) as Hv.
  { unfold _check_v02_registry_at_cwd. rewrite Hr. destruct (v02_hint w); [done|].
    by destruct (cwd_json w). }
  unfold list_instances, _needs_legacy_migration. rewrite Hr.
  unfold mbind, M_bind, _locked_exclusive. rewrite Hr.
  unfold _read. rewrite (M_bind_ok _ _ _ _ _ Hv). unfold mbind, M_bind, gets. simpl.
  by rewrite Hr.
Qed.

(** The detect-then-escalate test of the shared-lock reader misses one of
    [_read]'s renames: for a version-3 document with a row whose [index] or
    [created_at] is unusable, [_needs_legacy_migration] is false, so
    [list_instances] stays on the shared-lock path, and that read moves the
    registry file to the backup. *)
Theorem shared_lock_rename w j name md raw :
  reg w = Some (Doc j) -> eq_schema_version (version_of j) = true ->
  Dict.wf (raw_instances j) -> (name, JObj md) ∈ raw_instances j ->
  Dict.get "backend" md = Some (JObj raw) ->
  validate_meta (Dict.pop "backend" md) = None ->
  _needs_legacy_migration w = false /\
  exists w', list_instances w = (Ok [], w') /\ reg w' = None /\ bak w' = Some (Doc j).
Proof.
  intros Hr Hv Hwf Hin Hb Hm.
  assert (_needs_legacy_migration w = false) as Hneeds.
  { unfold _needs_legacy_migration. by rewrite Hr, Hv. }
  split; [done|]. unfold list_instances. rewrite Hr, Hneeds, (read_doc_rows _ _ Hr Hv).
  destruct (read_rows (raw_instances j) []) as [d|n] eqn:Hrr; [|by apply backup_moves].
  destruct (read_rows_lookup _ _ _ _ _ _ Hrr Hwf Hin Hb) as (m & _ & Hp).
  apply parse_row_none with (raw := raw) in Hm. congruence.
Qed.

(** A row whose [backend] is not an object is dropped without a backup: its
    index is handed to the next instance and the next write deletes it. *)
Theorem nondict_backend_row_is_lost w name md new p now :
  reg w = Some (Doc (JObj [("version", JInt 3);
                           ("instances", JObj [(name, JObj md)])])) ->
  (forall raw, Dict.get "backend" md <> Some (JObj raw)) ->
  add_allocating new (Some p) None now w =
    (Ok 0, stored [(new, mkInstanceMeta (RedroidBackendConfig p []) 0 now)] w).
Proof.
  intros Hr Hb. assert (opened w = (Ok [], w)) as Ho.
  { unfold opened, mbind, M_bind, _locked_exclusive. rewrite Hr.
    rewrite (read_doc_rows _ _ Hr eq_refl). cbn [raw_instances Dict.get].
    rewrite decide_False by done. rewrite decide_True by done. cbn [read_rows].
    destruct (Dict.get "backend" md) as [[]|]; try done. by destruct (Hb d). }
  pose proof (add_allocating_cases new (Some p) None now w [] w Ho) as Hs. simpl in Hs.
  destruct Hs as (i & Hi & _ & Hb0 & ->).
  assert (i = 0) as ->.
  { destruct (decide (i = 0)); [done|]. exfalso.
    specialize (Hb0 0 ltac:(lia)). apply elem_indices_of in Hb0 as (? & ? & Hin & _).
    by apply not_elem_of_nil in Hin. }
  by rewrite decide_True.
Qed.

(** ** Cross-instance collisions *)

Lemma find_port_collision_none new others :
  find_port_collision new others = None <->
  forall rp, rp ∈ new -> forall n ps, (n, ps) ∈ others -> rp_host rp ∉ ps.
Proof.
  induction new as [|rp new IH]; simpl; [split; [set_solver|done]|].
  destruct (find _ others) as [[n ps]|] eqn:Hf.
  - apply find_some in Hf as [Hin Hp%bool_decide_eq_true]. split; [done|].
    intros H. exfalso. apply (H rp ltac:(set_solver) n ps); [|done]. by apply list_elem_of_In.
  - rewrite IH. split.
    + intros H rp' [->|Hrp']%elem_of_cons n ps Hin; [|by eapply H].
      apply list_elem_of_In in Hin. pose proof (find_none _ _ Hf _ Hin) as Hn.
      by apply bool_decide_eq_false in Hn.
    + intros H rp' Hrp' n ps Hin. by apply (H rp' ltac:(set_solver) n ps).
Qed.

Lemma find_port_collision_some new others port other kind :
  find_port_collision new others = Some (port, other, kind) ->
  exists rp ps, rp ∈ new /\ rp_host rp = port /\ service_label (rp_service rp) = kind /\
    (other, ps) ∈ others /\ port ∈ ps.
Proof.
  induction new as [|rp new IH]; simpl; [done|].
  destruct (find _ others) as [[n ps]|] eqn:Hf.
  - intros [= <- <- <-]. apply find_some in Hf as [Hin Hp%bool_decide_eq_true].
    exists rp, ps. split_and!; [by left|done|done|by apply list_elem_of_In|done].
  - intros (rp' & ps & Hin & ?)%IH. exists rp', ps. split; [by right|done].
Qed.

(** The cross-instance check is exact: with the siblings' ports resolved, it
    passes if and only if no new host port is among the ports of another instance,
    and a failure names a port of the new list together with another instance that
    really holds it. *)
Theorem assert_no_port_collision_spec load name new w data w1 siblings :
  opened w = (Ok data, w1) -> _resolved_host_ports_from load data = Ok siblings ->
  (assert_no_port_collision load name new w = (Ok tt, w1) <->
   forall rp n ps, rp ∈ new -> (n, ps) ∈ siblings -> n <> name -> rp_host rp ∉ ps) /\
  (forall port other kind,
   assert_no_port_collision load name new w = (Err (PortCollides port other kind), w1) ->
   other <> name /\ exists rp ps, rp ∈ new /\ rp_host rp = port /\
     service_label (rp_service rp) = kind /\ (other, ps) ∈ siblings /\ port ∈ ps).
Proof.
  intros Ho Hs. unfold assert_no_port_collision. rewrite locked_then, Ho, Hs, lift_ok_bind.
  set (others := filter (fun '(n, _) => n <> name) siblings).
  assert (forall n ps, (n, ps) ∈ others <-> n <> name /\ (n, ps) ∈ siblings) as Hoth.
  { intros n ps. unfold others. by rewrite list_elem_of_filter. }
  pose proof (find_port_collision_none new others) as Hnone.
  destruct (find_port_collision new others) as [[[port other] kind]|] eqn:Hf.
  - split.
    + split; [done|]. intros H. exfalso.
      enough (Some (port, other, kind) = None) by done. apply Hnone.
      intros rp Hrp n ps [? ?]%Hoth. eauto.
    + intros ? ? ? [= <- <- <-].
      apply find_port_collision_some in Hf as (rp & ps & ? & ? & ? & [? ?]%Hoth & ?).
      split; [done|]. by exists rp, ps.
  - split; [|done]. split; [|done]. intros _ rp n ps Hrp Hin Hne.
    apply (proj1 Hnone eq_refl rp Hrp n ps). by apply Hoth.
Qed.

(** One row can still stop the whole scan: a directory-backed row whose index
    is over the port cap makes both the resolution and its fallback raise, so the
    scan of any registry holding it raises instead of falling back. *)
Theorem overcap_row_stops_scan load data1 name m data2 p cfg :
  (backend m = VmBackendConfig p \/ exists sp, backend m = RedroidBackendConfig p sp) ->
  load p = YamlOk cfg -> _MAX_PORT_INDEX < index m ->
  is_ok (_resolved_host_ports_from load (data1 ++ (name, m) :: data2)) = false.
Proof.
  intros Hb Hl Hi. induction data1 as [|[n x] data1 IH].
  - assert (_check_index (index m) = Err (IndexTooLarge (index m))) as Hc.
    { unfold _check_index, raise_if. pose proof max_index_value.
      destruct (Z.ltb_spec (index m) 0); [lia|].
      by destruct (Z.ltb_spec _MAX_PORT_INDEX (index m)); [|lia]. }
    assert (row_host_ports (index m) cfg = Err (BadIndex (IndexTooLarge (index m)))) as Hr.
    { unfold row_host_ports, resolve_ports, ports_for_index. by rewrite Hc. }
    cbn [app _resolved_host_ports_from].
    destruct Hb as [->|[sp ->]]; rewrite Hl, Hr; reflexivity.
  - cbn [app _resolved_host_ports_from].
    destruct (_resolved_host_ports_from load (data1 ++ (name, m) :: data2)); [done|].
    destruct (backend x) as [q sp|q|q|q k f|q raw];
      try match goal with |- context [load q] => destruct (load q) as [| |cx] end; try done;
      first [destruct (row_host_ports (index x) cx) | destruct (ports_for_index (index x))];
      reflexivity.
Qed.

End ops.

Section witnesses.
Import Sample.

Lemma add_allocating_spec_witness :
  let w := world_of None in
  opened w = (Ok [], stored [] w) /\
  exists i, 0 <= i /\ i ∉ indices_of [] /\ (forall j, 0 <= j < i -> j ∈ indices_of []) /\
    add_allocating "alpha" (Some "/a") None (stamp "t") w =
      if decide (i <= _MAX_PORT_INDEX)
      then (Ok i, stored ([] ++ [("alpha",
             mkInstanceMeta (RedroidBackendConfig "/a" []) i (stamp "t"))]) (stored [] w))
      else (Err (BadIndex (IndexTooLarge i)), stored [] w).
Proof.
  simpl. split; [vm_compute; reflexivity|].
  apply (add_allocating_spec "alpha" (Some "/a") None (stamp "t") (world_of None) []
           (stored [] (world_of None))).
  vm_compute. reflexivity.
Defined.

(** Three steps from an empty home: two additions, then a removal. *)
Definition sample_ops : list reg_op :=
  [OpAdd "alpha" (Some "/a") None (stamp "t0"); OpAdd "beta" None (Some (AdbBackendConfig "s1")) (stamp "t1");
   OpRemove "alpha"].

Lemma indices_never_shared_witness :
  let w := fold_left (fun w op => run_op op w) sample_ops (world_of None) in
  rtc reg_step (world_of None) w /\ reg w <> None /\
  exists data, _read w = (Ok data, w) /\ Dict.wf data /\
    (forall n1 n2 m1 m2, Dict.get n1 data = Some m1 -> Dict.get n2 data = Some m2 ->
       index m1 = index m2 -> n1 = n2) /\
    (forall n m, Dict.get n data = Some m -> 0 <= index m <= _MAX_PORT_INDEX).
Proof.
  assert (rtc reg_step (world_of None)
            (fold_left (fun w op => run_op op w) sample_ops (world_of None))) as Hr.
  { eapply rtc_l; [by apply (do_op (OpAdd "alpha" (Some "/a") None (stamp "t0")))|].
    eapply rtc_l; [by apply (do_op (OpAdd "beta" None (Some (AdbBackendConfig "s1")) (stamp "t1")))|].
    eapply rtc_l; [by apply (do_op (OpRemove "alpha"))|]. apply rtc_refl. }
  assert (reg (fold_left (fun w op => run_op op w) sample_ops (world_of None)) <> None) as Hn
    by (vm_compute; discriminate).
  split; [exact Hr|]. split; [exact Hn|].
  exact (indices_never_shared (world_of None) _ eq_refl Hr Hn).
Defined.

Lemma reconcile_backend_kind_spec_witness :
  let data := [("alpha", mkInstanceMeta (RedroidBackendConfig "/a" [("k", "v")]) 4 (stamp "t"))] in
  let w := world_of (Some (Doc (_registry_to_json data))) in
  opened w = (Ok data, w) /\
  exists m' data', reconcile_backend_kind "alpha" "vm" w = (Ok true, stored data' w) /\
    Dict.get "alpha" data' = Some m' /\ is_vm_row (backend m') = true /\
    directory_of (backend m') = Some "/a" /\ index m' = 4 /\ created_at m' = (stamp "t") /\
    (forall n, n <> "alpha" -> Dict.get n data' = Dict.get n data).
Proof.
  simpl. split; [vm_compute; reflexivity|].
  apply (reconcile_backend_kind_spec "alpha" "vm"
    (world_of (Some (Doc (_registry_to_json
       [("alpha", mkInstanceMeta (RedroidBackendConfig "/a" [("k", "v")]) 4 (stamp "t"))]))))
    [("alpha", mkInstanceMeta (RedroidBackendConfig "/a" [("k", "v")]) 4 (stamp "t"))]).
  vm_compute. reflexivity.
Defined.

Lemma read_preserves_content_witness :
  let w := world_of (Some (NotJson true)) in
  (exists data, _read w = (Ok data, w)) \/
  (exists w', _read w = (Ok [], w') /\ reg w' = None /\ bak w' = Some (NotJson true)).
Proof.
  apply (read_preserves_content (world_of (Some (NotJson true))) (NotJson true));
    [reflexivity|discriminate|discriminate].
Defined.

Lemma undecodable_registry_raises_witness :
  let w := world_of (Some NotUtf8) in
  _needs_legacy_migration w = true /\ list_instances w = (Err UnicodeDecode, w).
Proof. apply (undecodable_registry_raises (world_of (Some NotUtf8))). reflexivity. Defined.

(** A row whose index is a string. *)
Definition bad_index_row : jdict :=
  [("backend", JObj [("kind", JStr "adb"); ("serial", JStr "s")]);
   ("index", JStr "seven"); ("created_at", JStr "t")].
Definition bad_index_doc : json :=
  JObj [("version", JInt 3);
        ("instances", JObj [("alpha", JObj alpha_row); ("gamma", JObj bad_index_row)])].

Lemma shared_lock_rename_witness :
  let w := world_of (Some (Doc bad_index_doc)) in
  _needs_legacy_migration w = false /\
  exists w', list_instances w = (Ok [], w') /\ reg w' = None /\
    bak w' = Some (Doc bad_index_doc).
Proof.
  apply (shared_lock_rename (world_of (Some (Doc bad_index_doc))) bad_index_doc "gamma"
    bad_index_row [("kind", JStr "adb"); ("serial", JStr "s")]); try reflexivity.
  - apply (bool_decide_unpack (Dict.wf _)). vm_compute. exact I.
  - right. left.
Defined.

Lemma nondict_backend_row_is_lost_witness :
  let md := [("backend", JStr "redroid"); ("index", JInt 0); ("created_at", JStr "t")] in
  let w := world_of (Some (Doc (JObj [("version", JInt 3);
                                      ("instances", JObj [("alpha", JObj md)])]))) in
  add_allocating "beta" (Some "/b") None (stamp "t") w =
    (Ok 0, stored [("beta", mkInstanceMeta (RedroidBackendConfig "/b" []) 0 (stamp "t"))] w).
Proof.
  apply (nondict_backend_row_is_lost _ "alpha"
    [("backend", JStr "redroid"); ("index", JInt 0); ("created_at", JStr "t")]);
    [reflexivity|discriminate].
Defined.

Lemma assert_no_port_collision_spec_witness :
  let data := [("alpha", mkInstanceMeta (RedroidBackendConfig "/a" []) 0 (stamp "t"))] in
  let w := world_of (Some (Doc (_registry_to_json data))) in
  let load := fun _ => YamlOk InstanceConfig_default in
  exists siblings, opened w = (Ok data, w) /\
  _resolved_host_ports_from load data = Ok siblings /\
  (assert_no_port_collision load "beta" [mkResolvedPort None 80 5555] w = (Ok tt, w) <->
   forall rp n ps, rp ∈ [mkResolvedPort None 80 5555] -> (n, ps) ∈ siblings ->
     n <> "beta" -> rp_host rp ∉ ps).
Proof.
  eexists. split; [vm_compute; reflexivity|]. split; [reflexivity|].
  eapply (assert_no_port_collision_spec (fun _ => YamlOk InstanceConfig_default) "beta"
    [mkResolvedPort None 80 5555]
    (world_of (Some (Doc (_registry_to_json
       [("alpha", mkInstanceMeta (RedroidBackendConfig "/a" []) 0 (stamp "t"))]))))
    [("alpha", mkInstanceMeta (RedroidBackendConfig "/a" []) 0 (stamp "t"))]);
    [vm_compute; reflexivity|reflexivity].
Defined.

Lemma overcap_row_stops_scan_witness :
  is_ok (_resolved_host_ports_from (fun _ => YamlOk InstanceConfig_default)
    ([] ++ ("alpha", mkInstanceMeta (VmBackendConfig "/a") 1296 (stamp "t")) :: [])) = false.
Proof.
  apply (overcap_row_stops_scan _ [] "alpha" (mkInstanceMeta (VmBackendConfig "/a") 1296 (stamp "t"))
    [] "/a" InstanceConfig_default); [left; reflexivity|reflexivity|reflexivity].
Defined.
End witnesses.
