(* ===== verification/RegistryLock.v ===== *)
(** * The registry lock of [registry.py], with several processes

    The operations of [registry.py] as the steps another process can see: every look
    at the file, every change of it, and taking and giving back the lock.  Processes
    run in any order; only the [flock] on the lock file holds one back.  The
    functions of [Registry] are what one process does when it is alone
    ([run_op_steps]). *)
From stdpp Require Import base list strings gmap.
From Stdlib Require Import ZArith Lia.
From S2P Require Import Prelude PyStr Config Ports Registry RegistryOps.
Local Open Scope stdpp_scope.
Local Open Scope Z_scope.

(** [FileNotFound]: [read_text] or [stat] of a file that was there a moment ago. *)
Inductive conc_error : Type := Raised (e : reg_error) | FileNotFound.

Definition lift_error {A} (r : result reg_error A) : result conc_error A :=
  match r with Ok a => Ok a | Err e => Err (Raised e) end.

(** ** Programs *)

Inductive prog (A : Type) : Type :=
| Ret (r : result conc_error A)
| Act (change : world -> world) (next : world -> prog A)  (* one step on what is shared *)
| Acquire (exclusive : bool) (p : prog A)       (* flock *)
| Release (p : prog A).
Arguments Ret {A} r.
Arguments Act {A} change next.
Arguments Acquire {A} exclusive p.
Arguments Release {A} p.

Fixpoint bind_prog {A B} (f : A -> prog B) (p : prog A) : prog B :=
  match p with
  | Ret (Ok a) => f a
  | Ret (Err e) => Ret (Err e)
  | Act change next => Act change (fun w => bind_prog f (next w))
  | Acquire exclusive q => Acquire exclusive (bind_prog f q)
  | Release q => Release (bind_prog f q)
  end.

#[export] Instance prog_ret : MRet prog := fun _ a => Ret (Ok a).
#[export] Instance prog_bind : MBind prog := fun _ _ f p => bind_prog f p.
#[export] Instance prog_fmap : FMap prog := fun _ _ f p => bind_prog (fun a => Ret (Ok (f a))) p.

(** [try: p finally: release]. *)
Fixpoint finally_release {A} (p : prog A) : prog A :=
  match p with
  | Ret r => Release (Ret r)
  | Act change next => Act change (fun w => finally_release (next w))
  | Acquire exclusive q => Acquire exclusive (finally_release q)
  | Release q => Release (finally_release q)
  end.

(** The program run by a process that is alone. *)
Fixpoint run {A} (p : prog A) (w : world) : result conc_error A * world :=
  match p with
  | Ret r => (r, w)
  | Act change next => run (next w) (change w)
  | Acquire _ q | Release q => run q w
  end.

(** A look at the world, and a step of [Registry] taken as a whole. *)
Definition see {A} (f : world -> A) : prog A := Act id (fun w => Ret (Ok (f w))).
Definition atomically {A} (m : M world reg_error A) : prog A :=
  Act (fun w => snd (m w)) (fun w => Ret (lift_error (fst (m w)))).

Definition exists_ : prog bool := see (fun w => match reg w with Some _ => true | None => false end).

Definition read_text : prog content :=
  Act id (fun w => Ret match reg w with Some c => Ok c | None => Err FileNotFound end).

(** ** The operations as steps *)

Section steps.
Context `{P : Pydantic}.
Abbreviation RegistryFile := (list (string * InstanceMeta)).

(** [is_file] and [stat] are two looks at the registry; the rest concerns the
    directory of this process alone. *)
Definition check_v02_steps : prog unit :=
  printed ← see v02_hint;
  if printed : bool then mret tt else
  candidate ← see cwd_json;
  match candidate with
  | None => mret tt
  | Some c =>
      here ← exists_;
      busy ← (if here : bool then size_positive <$> read_text else mret false);
      if busy : bool then mret tt else
      match c with
      | NotUtf8 => Ret (Err (Raised UnicodeDecode))
      | NotJson _ => mret tt
      | Doc j =>
          if v02_shape j
          then atomically (modify (fun w => mkWorld (reg w) (bak w) (cwd_json w) true
                                              (legacy_hint w) (notes w ++ [V02Note])))
          else mret tt
      end
  end.

Definition legacy_content (c : content) : bool :=
  match c with
  | NotUtf8 | NotJson _ => true
  | Doc raw => negb (eq_schema_version (version_of raw))
  end.

Definition needs_migration_steps : prog bool :=
  here ← exists_;
  if here : bool then legacy_content <$> read_text else mret false.

(** The rename of [_backup_and_warn] is one step, whatever became of the file. *)
Definition read_steps : prog RegistryFile :=
  check_v02_steps ;;
  here ← exists_;
  if negb here then mret [] else
  c ← read_text;
  match c with
  | NotUtf8 => Ret (Err (Raised UnicodeDecode))
  | NotJson _ => atomically (_backup_and_warn "could not be parsed as JSON")
  | Doc raw =>
      if negb (eq_schema_version (version_of raw))
      then atomically (_backup_and_warn "was schema v")
      else match read_rows (raw_instances raw) [] with
           | Ok data => mret data
           | Err name => atomically (_backup_and_warn ("has an unsalvageable row " +:+ name))
           end
  end.

(** The temporary file has a name of its own; others see its [os.replace]. *)
Definition write_steps (data : RegistryFile) : prog unit := atomically (_write data).

(** [write_text] truncates the file, then fills it. *)
Definition create_steps : prog unit :=
  here ← exists_;
  if here : bool then mret tt else
  atomically (modify (set_reg (Some (NotJson true)))) ;;
  atomically (modify (set_reg (Some (Doc (_registry_to_json []))))).

Definition locked_steps {A} (exclusive : bool) (body : prog A) : prog A :=
  Acquire exclusive
    (finally_release ((if exclusive then create_steps else mret tt) ;; body)).

Definition list_instances_steps : prog RegistryFile :=
  here ← exists_;
  if negb here then check_v02_steps ;; mret [] else
  fast ← locked_steps false
    (legacy ← needs_migration_steps;
     if legacy : bool then mret None else Some <$> read_steps);
  match fast with
  | Some data => mret data
  | None => locked_steps true read_steps
  end.

Definition add_allocating_steps (name : string) (absolute_path : option string)
    (b : option BackendConfig) (now : datetime) : prog Z :=
  match requested_backend absolute_path b with
  | Err e => Ret (Err (Raised e))
  | Ok b => locked_steps true
      (data ← read_steps;
       if Dict.mem name data then Ret (Err (Raised (AlreadyRegistered name))) else
       match lowest_free_index (indices_of data) with
       | None => Ret (Err (Raised OutOfFuel))
       | Some idx =>
           match lift_port (_check_index idx) with
           | Err e => Ret (Err (Raised e))
           | Ok _ => write_steps (Dict.set name (mkInstanceMeta b idx now) data) ;; mret idx
           end
       end)
  end.

Definition remove_steps (name : string) : prog unit :=
  locked_steps true (data ← read_steps; write_steps (Dict.pop name data)).

Definition set_stealth_paths_steps (name : string) (sp : list (string * string)) : prog unit :=
  locked_steps true
    (data ← read_steps;
     match Dict.get name data with
     | None => Ret (Err (Raised (UnknownInstance name)))
     | Some m =>
         match backend m with
         | RedroidBackendConfig p _ =>
             write_steps (Dict.set name
               (mkInstanceMeta (RedroidBackendConfig p sp) (index m) (created_at m)) data)
         | b => Ret (Err (Raised (NotRedroid name (backend_kind b))))
         end
     end).

Definition reconcile_steps (name binder : string) : prog bool :=
  let want_vm := String.eqb binder "vm" in
  locked_steps true
    (data ← read_steps;
     match Dict.get name data with
     | None => mret false
     | Some m =>
         match backend m with
         | RedroidBackendConfig p _ =>
             if want_vm
             then write_steps (Dict.set name
                    (mkInstanceMeta (VmBackendConfig p) (index m) (created_at m)) data) ;;
                  mret true
             else mret false
         | VmBackendConfig p =>
             if want_vm then mret false
             else write_steps (Dict.set name
                    (mkInstanceMeta (RedroidBackendConfig p []) (index m) (created_at m)) data) ;;
                  mret true
         | _ => mret false
         end
     end).

Inductive answer : Type :=
| AnIndex (i : Z) | Nothing | AFlag (b : bool) | TheRows (data : RegistryFile).

Definition op_steps (op : reg_op) : prog answer :=
  match op with
  | OpAdd n p b t => AnIndex <$> add_allocating_steps n p b t
  | OpRemove n => (fun _ => Nothing) <$> remove_steps n
  | OpStealth n sp => (fun _ => Nothing) <$> set_stealth_paths_steps n sp
  | OpReconcile n b => AFlag <$> reconcile_steps n b
  | OpList => TheRows <$> list_instances_steps
  end.

(** ** Processes *)

(** What only the process sees: its directory and its hints. *)
Record local := mkLocal {
  l_cwd_json : option content; l_v02 : bool; l_legacy : bool; l_notes : list note }.

(** [cur] is the operation under way, [holds] the lock held ([true]: exclusive),
    [log] what the finished ones returned. *)
Record proc := mkProc {
  todo : list reg_op;
  cur : option (reg_op * prog answer);
  holds : option bool;
  log : list (reg_op * result conc_error answer);
  mine : local }.

Record system := mkSystem {
  file : option content; backup : option content; procs : list proc }.

Definition view (s : system) (l : local) : world :=
  mkWorld (file s) (backup s) (l_cwd_json l) (l_v02 l) (l_legacy l) (l_notes l).
Definition local_of (w : world) : local :=
  mkLocal (cwd_json w) (v02_hint w) (legacy_hint w) (notes w).

(** [flock]: an exclusive lock excludes every other, shared locks only exclusive
    ones. *)
Definition blocks (exclusive : bool) (q : proc) : bool :=
  match holds q with None => false | Some e => exclusive || e end.
Definition granted (i : nat) (exclusive : bool) (s : system) : bool :=
  forallb (fun '(j, q) => bool_decide (j = i) || negb (blocks exclusive q))
    (imap pair (procs s)).

Definition put (i : nat) (q : proc) (s : system) : system :=
  mkSystem (file s) (backup s) (<[i := q]> (procs s)).

(** One step of process [i]; [None] when it is finished or has to wait. *)
Definition step_proc (i : nat) (s : system) : option system :=
  q ← procs s !! i;
  match cur q with
  | None =>
      match todo q with
      | [] => None
      | op :: ops => Some (put i (mkProc ops (Some (op, op_steps op)) (holds q) (log q) (mine q)) s)
      end
  | Some (op, Ret r) =>
      Some (put i (mkProc (todo q) None (holds q) (log q ++ [(op, r)]) (mine q)) s)
  | Some (op, Act change next) =>
      let w := view s (mine q) in
      let w' := change w in
      Some (mkSystem (reg w') (bak w')
        (<[i := mkProc (todo q) (Some (op, next w)) (holds q) (log q) (local_of w')]> (procs s)))
  | Some (op, Acquire exclusive p) =>
      if granted i exclusive s
      then Some (put i (mkProc (todo q) (Some (op, p)) (Some exclusive) (log q) (mine q)) s)
      else None
  | Some (op, Release p) =>
      Some (put i (mkProc (todo q) (Some (op, p)) None (log q) (mine q)) s)
  end.

Definition sys_step (s s' : system) : Prop := exists i, step_proc i s = Some s'.

(** The steps of a schedule, those that have to wait left out. *)
Fixpoint schedule (order : list nat) (s : system) : system :=
  match order with
  | [] => s
  | i :: order' => schedule order' (default s (step_proc i s))
  end.

Lemma schedule_steps order s : rtc sys_step s (schedule order s).
Proof.
  revert s. induction order as [|i order IH]; intros s; simpl; [done|].
  destruct (step_proc i s) as [s'|] eqn:E; simpl; [|done].
  eapply rtc_l; [by exists i|]. apply IH.
Qed.

Definition finished (q : proc) : Prop := cur q = None /\ todo q = [].

(** ** A process that is alone *)

Lemma run_bind {A B} (p : prog A) (f : A -> prog B) w :
  run (p ≫= f) w =
  match run p w with (Ok a, w') => run (f a) w' | (Err e, w') => (Err e, w') end.
Proof.
  unfold mbind, prog_bind. revert w. induction p as [[a|e]|change next IH|x q IH|q IH]; intros w; simpl; rewrite ?IH; auto.
Qed.

Lemma run_finally {A} (p : prog A) w : run (finally_release p) w = run p w.
Proof.
  revert w. induction p as [r|change next IH|x q IH|q IH]; intros w; simpl; rewrite ?IH; auto.
Qed.

Definition lifted {A} (m : M world reg_error A) (w : world) : result conc_error A * world :=
  let '(r, w') := m w in (lift_error r, w').

Lemma run_atomically {A} (m : M world reg_error A) w : run (atomically m) w = lifted m w.
Proof. unfold atomically, lifted. simpl. by destruct (m w). Qed.

Lemma lifted_bind {A B} (m : M world reg_error A) (f : A -> M world reg_error B) w :
  lifted (m ≫= f) w =
  match lifted m w with (Ok a, w') => lifted (f a) w' | (Err e, w') => (Err e, w') end.
Proof. unfold lifted, mbind, M_bind. by destruct (m w) as [[a|e] w']. Qed.

Lemma run_check_v02 w : run check_v02_steps w = lifted _check_v02_registry_at_cwd w.
Proof.
  destruct w as [r b c v g n].
  unfold check_v02_steps, lifted, _check_v02_registry_at_cwd. simpl.
  destruct v; [done|]. simpl. destruct c as [c|]; [|done]. simpl.
  destruct r as [r|]; simpl; [destruct (size_positive r); [done|]|];
    destruct c as [|e|j]; try done; by destruct (v02_shape j).
Qed.

Lemma run_read w : run read_steps w = lifted _read w.
Proof.
  unfold read_steps, _read. rewrite run_bind, run_check_v02, lifted_bind.
  destruct (lifted _check_v02_registry_at_cwd w) as [[[]|e] w1]; [|done].
  unfold lifted, mbind, M_bind, gets. simpl.
  destruct (reg w1) as [c|] eqn:Hr; simpl; [|done]. rewrite Hr.
  destruct c as [|e|j]; simpl; [done|by destruct (_backup_and_warn _ _)|].
  destruct (negb _); simpl; [by destruct (_backup_and_warn _ _)|].
  destruct (read_rows _ _); simpl; [done|by destruct (_backup_and_warn _ _)].
Qed.

Lemma run_create w : run create_steps w = lifted _locked_exclusive w.
Proof.
  unfold create_steps, lifted, _locked_exclusive. simpl. by destruct (reg w).
Qed.

Lemma run_locked {A} (body : prog A) (m : M world reg_error A) w :
  (forall w', run body w' = lifted m w') ->
  run (locked_steps true body) w = lifted (_locked_exclusive ;; m) w.
Proof.
  intros H. unfold locked_steps. cbn [run]. rewrite run_finally, run_bind, lifted_bind, run_create.
  destruct (lifted _locked_exclusive w) as [[[]|e] w1]; [apply H|done].
Qed.

(** A body that reads the rows and goes on. *)
Lemma run_locked_read {A} (k : RegistryFile -> prog A) (m : RegistryFile -> M world reg_error A) w :
  (forall data w', run (k data) w' = lifted (m data) w') ->
  run (locked_steps true (data ← read_steps; k data)) w =
  lifted (_locked_exclusive ;; data ← _read; m data) w.
Proof.
  intros H. apply run_locked. intros w'. rewrite run_bind, lifted_bind, run_read.
  destruct (lifted _read w') as [[d|e] w1]; [apply H|done].
Qed.

Lemma run_see {A B} (f : world -> A) (k : A -> prog B) w :
  run (see f ≫= k) w = run (k (f w)) w.
Proof. done. Qed.

Lemma run_shared {A} (body : prog A) w : run (locked_steps false body) w = run body w.
Proof. unfold locked_steps. cbn [run]. by rewrite run_finally. Qed.

Lemma run_needs_migration w : run needs_migration_steps w = (Ok (_needs_legacy_migration w), w).
Proof.
  unfold needs_migration_steps, _needs_legacy_migration. simpl.
  destruct (reg w) as [c|] eqn:Hr; [|done]. simpl. rewrite Hr. by destruct c.
Qed.

Lemma lifted_ext {A} (m m' : M world reg_error A) w : m w = m' w -> lifted m w = lifted m' w.
Proof. unfold lifted. by intros ->. Qed.

Lemma run_list_instances w : run list_instances_steps w = lifted list_instances w.
Proof.
  unfold list_instances_steps. unfold exists_ at 1. rewrite run_see.
  destruct (reg w) as [c|] eqn:Hr; simpl negb; cbn iota.
  - rewrite run_bind, run_shared, run_bind, run_needs_migration.
    destruct (_needs_legacy_migration w) eqn:Hn.
    + cbn [run mret prog_ret]. rewrite (run_locked _ _read) by apply run_read.
      apply lifted_ext. unfold list_instances. by rewrite Hr, Hn.
    + unfold fmap, prog_fmap. change (bind_prog ?f ?p) with (p ≫= f).
      rewrite run_bind, run_read, (lifted_ext list_instances _read);
        [by destruct (lifted _read w) as [[d|e] w1]|].
      unfold list_instances. by rewrite Hr, Hn.
  - rewrite run_bind, run_check_v02,
      (lifted_ext list_instances (_check_v02_registry_at_cwd ;; mret []));
      [|unfold list_instances; by rewrite Hr].
    rewrite lifted_bind. by destruct (lifted _ w) as [[[]|e] w1].
Qed.

(** ** The sequential definitions *)

Definition perform (op : reg_op) : M world reg_error answer :=
  match op with
  | OpAdd n p b t => i ← add_allocating n p b t; mret (AnIndex i)
  | OpRemove n => remove n ;; mret Nothing
  | OpStealth n sp => set_stealth_paths n sp ;; mret Nothing
  | OpReconcile n b => c ← reconcile_backend_kind n b; mret (AFlag c)
  | OpList => d ← list_instances; mret (TheRows d)
  end.

Lemma run_answer {A} (f : A -> answer) (p : prog A) (m : M world reg_error A) w :
  run p w = lifted m w -> run (f <$> p) w = lifted (a ← m; mret (f a)) w.
Proof.
  intros H. unfold fmap, prog_fmap. change (bind_prog ?f ?p) with (p ≫= f).
  rewrite run_bind, lifted_bind, H. by destruct (lifted m w) as [[a|e] w1].
Qed.

Lemma run_add_allocating n p b t w :
  run (add_allocating_steps n p b t) w = lifted (add_allocating n p b t) w.
Proof.
  unfold add_allocating_steps, add_allocating.
  destruct (requested_backend p b) as [bk|e]; [|done].
  rewrite (lifted_ext _ _ w (lift_ok_bind _ _ _)). apply run_locked_read. intros data w'.
  destruct (Dict.mem n data); [done|].
  unfold lifted, mbind, M_bind, lift, raise_if. simpl.
  destruct (lowest_free_index (indices_of data)) as [i|]; [|done].
  by destruct (lift_port (_check_index i)) as [[]|e].
Qed.

Lemma run_op_steps op w : run (op_steps op) w = lifted (perform op) w.
Proof.
  destruct op as [n p b t|n|n sp|n bd|]; apply run_answer.
  - apply run_add_allocating.
  - by apply run_locked_read.
  - apply run_locked_read. intros data w'. destruct (Dict.get n data) as [m|]; [|done].
    by destruct (backend m).
  - apply run_locked_read. intros data w'. destruct (Dict.get n data) as [m|]; [|done].
    by destruct (backend m); destruct (String.eqb bd "vm").
  - apply run_list_instances.
Qed.

End steps.
