(* ===== verification/RegistryConc.v ===== *)
(** * The registry under concurrency is a table with atomic operations

    The abstract registry is a table of rows; an operation reads it and leaves a new
    one ([table_op]).  This file says what the steps of one operation may do while
    other processes are at work: before it has a lock ([starting]), under the shared
    one ([reading]) and under the exclusive one ([owning]); [RegistrySer] composes
    the processes. *)
From stdpp Require Import base list strings gmap.
From Stdlib Require Import ZArith Lia.
From S2P Require Import Prelude PyStr Config Ports Registry RegistryOps RegistryLock.
Local Open Scope stdpp_scope.
Local Open Scope Z_scope.

#[local] Arguments check_v02_steps : simpl never.
#[local] Arguments read_steps {_} : simpl never.
#[local] Arguments write_steps {_} _ : simpl never.

Section table.
Context `{P : Pydantic} `{L : !PydanticLaws P}.
Abbreviation RegistryFile := (list (string * InstanceMeta)).
Implicit Types (data : RegistryFile) (w : world).

(** ** The abstract registry *)

(** [None]: no registry yet. *)
Definition table : Type := option RegistryFile.

Definition stored_as (t : table) : option content :=
  (fun data => Doc (_registry_to_json data)) <$> t.

Definition table_ok (t : table) : Prop := data_inv (default [] t).

(** What an operation answers on the rows [data], and the rows it leaves. *)
Definition rows_op (op : reg_op) data : result conc_error answer * RegistryFile :=
  match op with
  | OpAdd n p b now =>
      match requested_backend p b with
      | Err e => (Err (Raised e), data)
      | Ok bk =>
          if Dict.mem n data then (Err (Raised (AlreadyRegistered n)), data) else
          match lowest_free_index (indices_of data) with
          | None => (Err (Raised OutOfFuel), data)
          | Some i =>
              if decide (0 <= i <= _MAX_PORT_INDEX)
              then (Ok (AnIndex i), data ++ [(n, mkInstanceMeta bk i now)])
              else (Err (Raised (BadIndex (IndexTooLarge i))), data)
          end
      end
  | OpRemove n => (Ok Nothing, Dict.pop n data)
  | OpStealth n sp =>
      match Dict.get n data with
      | None => (Err (Raised (UnknownInstance n)), data)
      | Some m =>
          match backend m with
          | RedroidBackendConfig p _ =>
              (Ok Nothing, Dict.set n
                 (mkInstanceMeta (RedroidBackendConfig p sp) (index m) (created_at m)) data)
          | b => (Err (Raised (NotRedroid n (backend_kind b))), data)
          end
      end
  | OpReconcile n binder =>
      match Dict.get n data with
      | Some m =>
          match backend m, String.eqb binder "vm" with
          | RedroidBackendConfig p _, true =>
              (Ok (AFlag true), Dict.set n
                 (mkInstanceMeta (VmBackendConfig p) (index m) (created_at m)) data)
          | VmBackendConfig p, false =>
              (Ok (AFlag true), Dict.set n
                 (mkInstanceMeta (RedroidBackendConfig p []) (index m) (created_at m)) data)
          | _, _ => (Ok (AFlag false), data)
          end
      | None => (Ok (AFlag false), data)
      end
  | OpList => (Ok (TheRows data), data)
  end.

(** Only an operation that takes the exclusive lock creates the file. *)
Definition creates (op : reg_op) : bool :=
  match op with
  | OpAdd _ p b _ => is_ok (requested_backend p b)
  | OpList => false
  | _ => true
  end.

Definition table_op (op : reg_op) (t : table) : result conc_error answer * table :=
  let '(r, data) := rows_op op (default [] t) in
  (r, if creates op then Some data else t).

(** The operations of a history, each with the process that asked and the answer. *)
Abbreviation event := (nat * reg_op * result conc_error answer)%type.

Fixpoint serial (t : table) (hist : list event) (t' : table) : Prop :=
  match hist with
  | [] => t' = t
  | (_, op, r) :: hist' => exists t1, table_op op t = (r, t1) /\ serial t1 hist' t'
  end.

Definition events_of (i : nat) (hist : list event) : list (reg_op * result conc_error answer) :=
  omap (fun '(j, op, r) => if decide (j = i) then Some (op, r) else None) hist.

Lemma serial_snoc t hist t1 i op r t2 :
  serial t hist t1 -> table_op op t1 = (r, t2) -> serial t (hist ++ [(i, op, r)]) t2.
Proof.
  revert t. induction hist as [|[[j o] a] hist IH]; intros t; simpl.
  - intros -> H. by exists t2.
  - intros (t3 & H3 & Hs) H. exists t3. auto.
Qed.

Lemma events_of_snoc i j hist op r :
  events_of i (hist ++ [(j, op, r)]) =
  events_of i hist ++ (if decide (j = i) then [(op, r)] else []).
Proof. unfold events_of. rewrite omap_app. simpl. by destruct (decide (j = i)). Qed.

Lemma table_op_ok op t : op_ok op -> table_ok t -> table_ok (snd (table_op op t)).
Proof.
  unfold table_ok, table_op. intros Hop Ht.
  assert (data_inv (snd (rows_op op (default [] t)))) as H.
  { generalize dependent (default [] t). intros data Hd.
    destruct op as [n p b now|n|n sp|n bd|]; simpl.
    - destruct (requested_backend p b) as [bk|e] eqn:Hbk; [|done].
      destruct (Dict.mem n data) eqn:Hm; [done|].
      destruct (lowest_free_index_least (indices_of data)) as (i & Hi & [H0 _] & Hn & Hb).
      rewrite Hi. case_decide; [|done]. simpl.
      apply data_inv_add; simpl; [done| | |done|done].
      + unfold Dict.mem in Hm. by destruct (Dict.get n data).
      + destruct b as [b|]; [by simplify_eq/=|].
        destruct p as [p|]; simplify_eq/=. apply (redroid_ok p []).
    - by apply data_inv_pop.
    - destruct (Dict.get n data) as [m|] eqn:Hg; [|done].
      destruct (backend m); try done. apply data_inv_set; auto using redroid_ok.
    - destruct (Dict.get n data) as [m|] eqn:Hg; [|done].
      destruct (backend m); try done; destruct (String.eqb bd "vm"); try done;
        apply data_inv_set; auto using vm_ok, redroid_ok.
    - done. }
  destruct (rows_op op (default [] t)) as [r data]. simpl in *. by destruct (creates op).
Qed.

(** ** Steps that leave the files alone *)

(** The process's directory has no [instances.json] whose bytes cannot be decoded. *)
Definition decodable (c : option content) : Prop := c <> Some NotUtf8.

Definition quiet w w' : Prop :=
  reg w' = reg w /\ bak w' = bak w /\ cwd_json w' = cwd_json w.

(** [p] changes no file and returns a result in [Q], when every world it meets has a
    registry in [K] (and, once it was seen, a registry). *)
Fixpoint looks {A} (K : option content -> Prop) (seen : bool) (p : prog A)
    (Q : result conc_error A -> Prop) : Prop :=
  match p with
  | Ret r => Q r
  | Act change next => forall w, decodable (cwd_json w) -> K (reg w) ->
      (seen = true -> is_Some (reg w)) ->
      quiet w (change w) /\ looks K (seen || bool_decide (is_Some (reg w))) (next w) Q
  | _ => False
  end.

Lemma looks_mono {A} K seen seen' (p : prog A) (Q Q' : result conc_error A -> Prop) :
  (seen = true -> seen' = true) -> (forall r, Q r -> Q' r) ->
  looks K seen p Q -> looks K seen' p Q'.
Proof.
  intros Hs HQ. revert seen seen' Hs. induction p as [r|change next IH|x q IH|q IH];
    intros seen seen' Hs; simpl; auto.
  intros H w Hc HK Hw. destruct (H w Hc HK) as [Hq Hn]; [auto|]. split; [done|].
  eapply IH; [|exact Hn]. destruct seen, seen'; simpl; auto. by discriminate Hs.
Qed.

Lemma looks_weaken {A} K seen (p : prog A) (Q Q' : result conc_error A -> Prop) :
  looks K seen p Q -> (forall r, Q r -> Q' r) -> looks K seen p Q'.
Proof. intros H HQ. by apply (looks_mono K seen seen p Q). Qed.

Lemma looks_bind {A B} K seen (p : prog A) (f : A -> prog B) Q :
  looks K seen p (fun r => match r with Ok a => looks K seen (f a) Q | Err e => Q (Err e) end) ->
  looks K seen (p ≫= f) Q.
Proof.
  assert (forall s0, (s0 = true -> seen = true) ->
    looks K seen p (fun r => match r with Ok a => looks K s0 (f a) Q | Err e => Q (Err e) end) ->
    looks K seen (p ≫= f) Q) as H; [|apply H; auto].
  unfold mbind, prog_bind. revert seen.
  induction p as [[a|e]|change next IH|x q IH|q IH]; intros seen s0 Hs; simpl; try done.
  - by apply looks_mono.
  - intros H w Hc HK Hw. destruct (H w Hc HK Hw) as [Hq Hn]. split; [done|].
    apply (IH w _ s0); [|done]. intros ->. by rewrite Hs.
Qed.

Lemma looks_see {A} K seen (f : world -> A) Q :
  (forall w, decodable (cwd_json w) -> K (reg w) -> (seen = true -> is_Some (reg w)) -> Q (Ok (f w))) ->
  looks K seen (see f) Q.
Proof. intros H w Hc HK Hw. split; [done|]. simpl. auto. Qed.

(** [stat] or [read_text] of a registry that was seen. *)
Lemma looks_read_text K Q :
  (forall c, K (Some c) -> Q (Ok c)) -> looks K true read_text Q.
Proof.
  intros H w Hc HK Hw. split; [done|]. simpl. destruct (Hw eq_refl) as [c Hr].
  rewrite Hr in *. auto.
Qed.

Lemma looks_exists {B} K seen (f : bool -> prog B) Q :
  (K None -> looks K seen (f false) Q) ->
  (forall c, K (Some c) -> looks K true (f true) Q) ->
  looks K seen (exists_ ≫= f) Q.
Proof.
  intros H1 H2 w Hc HK Hw. split; [done|]. simpl. destruct (reg w) as [c|].
  - rewrite orb_true_r. eauto.
  - destruct seen; [by destruct (Hw eq_refl)|]. auto.
Qed.

Lemma looks_fmap {A B} K seen (g : A -> B) (p : prog A) Q :
  looks K seen p (fun r => Q (g <$> r)) -> looks K seen (g <$> p) Q.
Proof.
  intros H. apply (looks_bind K seen p (fun a => Ret (Ok (g a)))).
  eapply looks_weaken; [exact H|]. by intros [a|e].
Qed.

Lemma looks_check_v02 K seen : looks K seen check_v02_steps (fun r => r = Ok tt).
Proof.
  unfold check_v02_steps. apply looks_bind, looks_see. intros w _ _ _.
  destruct (v02_hint w); [done|]. clear w. apply looks_bind, looks_see. intros w Hc _ _.
  destruct (cwd_json w) as [c|] eqn:Hcwd; [|done].
  assert (forall busy : bool, looks K seen (if busy then mret tt else match c with
      | NotUtf8 => Ret (Err (Raised UnicodeDecode))
      | NotJson _ => mret tt
      | Doc j =>
          if v02_shape j
          then atomically (modify (fun w => mkWorld (reg w) (bak w) (cwd_json w) true
                                              (legacy_hint w) (notes w ++ [V02Note])))
          else mret tt
      end) (fun r => r = Ok tt)) as Hlast.
  { intros [|]; [done|]. destruct c as [|e|j]; [by destruct Hc|done|]. by destruct (v02_shape j). }
  apply looks_exists; intros.
  - by apply (looks_bind K seen (mret false)), Hlast.
  - apply looks_bind, looks_fmap, looks_read_text. intros c' _. simpl.
    by apply (looks_mono K seen true _ (fun r => r = Ok tt)).
Qed.

(** Reading a registry that holds the table [t]. *)
Definition holds_table (t : table) (c : option content) : Prop := c = stored_as t.

Lemma holds_some t c : holds_table t (Some c) ->
  exists data, t = Some data /\ c = Doc (_registry_to_json data).
Proof. destruct t as [data|]; [|done]. intros [= ->]. eauto. Qed.

Lemma looks_read t seen : table_ok t ->
  looks (holds_table t) seen read_steps (fun r => r = Ok (default [] t)).
Proof.
  intros Ht. unfold read_steps. apply looks_bind.
  eapply looks_weaken; [apply looks_check_v02|]. intros r ->. cbn beta iota.
  apply looks_exists; [by destruct t|]. intros _ _. simpl negb. cbn iota.
  apply looks_bind, looks_read_text. intros c (data & -> & ->)%holds_some.
  assert (eq_schema_version (version_of (_registry_to_json data)) = true) as -> by reflexivity.
  simpl negb. cbn iota. change (raw_instances (_registry_to_json data))
    with (map (fun '(n, m) => (n, row_json m)) data).
  by rewrite (read_written_rows data []) by apply Ht.
Qed.

Lemma looks_needs_migration t seen :
  looks (holds_table t) seen needs_migration_steps (fun r => r = Ok false).
Proof.
  apply looks_exists; [done|]. intros _ _. apply looks_fmap, looks_read_text.
  by intros c (data & -> & ->)%holds_some.
Qed.

(** ** Inside the exclusive lock *)

(** From [w] on, with nobody else at work: [Q] holds of the result and the world
    reached, and no step on the way removes the registry or touches the backup. *)
Fixpoint owns {A} (p : prog A) (Q : result conc_error A -> world -> Prop) w : Prop :=
  match p with
  | Ret r => Q r w
  | Act change next =>
      (is_Some (reg w) -> is_Some (reg (change w))) /\ bak (change w) = bak w /\
      cwd_json (change w) = cwd_json w /\ owns (next w) Q (change w)
  | _ => False
  end.

Lemma owns_mono {A} (p : prog A) (Q Q' : result conc_error A -> world -> Prop) w :
  (forall r w', Q r w' -> Q' r w') -> owns p Q w -> owns p Q' w.
Proof.
  intros HQ. revert w. induction p as [r|change next IH|x q IH|q IH]; intros w; simpl; auto.
  intros (? & ? & ? & ?). auto.
Qed.

Lemma owns_bind {A B} (p : prog A) (f : A -> prog B) Q w :
  owns p (fun r w' => match r with Ok a => owns (f a) Q w' | Err e => Q (Err e) w' end) w ->
  owns (p ≫= f) Q w.
Proof.
  unfold mbind, prog_bind. revert w.
  induction p as [[a|e]|change next IH|x q IH|q IH]; intros w; simpl; auto.
  intros (? & ? & ? & ?). auto.
Qed.

(** What only looks does the same inside the lock. *)
Lemma looks_owns_from {A} K seen (p : prog A) (Q : result conc_error A -> Prop) w v :
  looks K seen p Q -> decodable (cwd_json w) -> K (reg w) ->
  (seen = true -> is_Some (reg w)) -> quiet w v ->
  owns p (fun r w' => Q r /\ quiet w w') v.
Proof.
  intros H Hc HK. revert seen v H.
  induction p as [r|change next IH|x q IH|q IH]; simpl; auto.
  intros seen v H Hs (Hr & Hb & Hj).
  destruct (H v) as [(Hr' & Hb' & Hj') Hn]; rewrite ?Hr, ?Hj; [done..|].
  split_and!; [by rewrite Hr', Hr|done|by rewrite Hj', Hj|].
  apply (IH v (seen || bool_decide (is_Some (reg v))) (change v)); [done| |].
  - rewrite Hr. destruct seen; simpl; [by auto|]. apply bool_decide_eq_true.
  - unfold quiet. by rewrite Hr', Hb', Hj'.
Qed.

Lemma looks_owns {A} K (p : prog A) (Q : result conc_error A -> Prop) w :
  looks K false p Q -> decodable (cwd_json w) -> K (reg w) ->
  owns p (fun r w' => Q r /\ quiet w w') w.
Proof. intros. by eapply looks_owns_from. Qed.

Lemma owns_atomically (m : M world reg_error unit) Q w :
  (is_Some (reg w) -> is_Some (reg (snd (m w)))) -> bak (snd (m w)) = bak w ->
  cwd_json (snd (m w)) = cwd_json w ->
  Q (lift_error (fst (m w))) (snd (m w)) -> owns (atomically m) Q w.
Proof. by simpl. Qed.

(** ** One operation *)

(** What is left of an operation that holds the exclusive lock on the table [t]. *)
Fixpoint owning (op : reg_op) (t : table) (p : prog answer) w : Prop :=
  match p with
  | Act change next =>
      (is_Some (reg w) -> is_Some (reg (change w))) /\ bak (change w) = bak w /\
      cwd_json (change w) = cwd_json w /\ owning op t (next w) (change w)
  | Release (Ret r) => exists t', table_op op t = (r, t') /\ reg w = stored_as t'
  | _ => False
  end.

(** ... that holds a shared lock, *)
Fixpoint reading (op : reg_op) (t : table) (seen : bool) (p : prog answer) : Prop :=
  match p with
  | Act change next => forall w, decodable (cwd_json w) -> holds_table t (reg w) ->
      (seen = true -> is_Some (reg w)) ->
      quiet w (change w) /\ reading op t (seen || bool_decide (is_Some (reg w))) (next w)
  | Release (Ret r) => table_op op t = (r, t)
  | _ => False
  end.

(** ... that holds no lock and has not taken effect. *)
Fixpoint starting (op : reg_op) (p : prog answer) : Prop :=
  match p with
  | Ret r => forall t, table_op op t = (r, t)
  | Act change next => forall w, decodable (cwd_json w) ->
      quiet w (change w) /\
      match reg w with
      | Some _ => starting op (next w)
      | None => exists r, table_op op None = (r, None) /\
                  looks (fun _ => True) false (next w) (eq r)
      end
  | Acquire true q => forall t w, table_ok t -> reg w = stored_as t ->
      decodable (cwd_json w) -> owning op t q w
  | Acquire false q => forall t, table_ok t -> reading op t false q
  | Release _ => False
  end.

Lemma owning_finally {A} op t (g : A -> answer) (p : prog A) w :
  owns p (fun r w' => exists t', table_op op t = (g <$> r, t') /\ reg w' = stored_as t') w ->
  owning op t (g <$> finally_release p) w.
Proof.
  unfold fmap at 2, prog_fmap. revert w.
  induction p as [[a|e]|change next IH|x q IH|q IH]; intros w; try done.
  simpl. intros (? & ? & ? & ?). auto.
Qed.

Lemma owns_create t w : reg w = stored_as t ->
  owns create_steps (fun r w' => r = Ok tt /\
    reg w' = stored_as (Some (default [] t)) /\ cwd_json w' = cwd_json w) w.
Proof. intros Hr. simpl. rewrite Hr. by destruct t. Qed.

(** Inside the exclusive lock: the file is there, or it is created empty, and the rows
    are read. *)
Lemma owning_locked {A} op t (g : A -> answer) (k : RegistryFile -> prog A) w :
  table_ok t -> reg w = stored_as t -> decodable (cwd_json w) ->
  (forall v, reg v = stored_as (Some (default [] t)) ->
    owns (k (default [] t))
      (fun r w' => exists t', table_op op t = (g <$> r, t') /\ reg w' = stored_as t') v) ->
  owning op t (g <$> finally_release (create_steps ;; data ← read_steps; k data)) w.
Proof.
  intros Ht Hr Hc Hk. apply owning_finally.
  assert (forall v, reg v = stored_as (Some (default [] t)) -> decodable (cwd_json v) ->
    owns (data ← read_steps; k data)
      (fun r w' => exists t', table_op op t = (g <$> r, t') /\ reg w' = stored_as t') v) as Hread.
  { intros v Hv Hcv. apply owns_bind.
    eapply owns_mono; [|apply (looks_owns _ _ _ _ (looks_read (Some (default [] t)) false Ht) Hcv Hv)].
    intros r w' (-> & Hrw & _ & _). simpl. apply Hk. by rewrite Hrw. }
  apply owns_bind. eapply owns_mono; [|by apply owns_create].
  intros r w' (-> & Hr' & Hc'). apply Hread; [done|by rewrite Hc'].
Qed.

Lemma owns_write data (Q : result conc_error unit -> world -> Prop) w :
  Q (Ok tt) (set_reg (stored_as (Some data)) w) -> owns (write_steps data) Q w.
Proof. by simpl. Qed.

(** ** The operations before they run *)

Lemma starting_locked {A} op (g : A -> answer) (k : RegistryFile -> prog A) :
  (forall t v, table_ok t -> reg v = stored_as (Some (default [] t)) ->
    owns (k (default [] t))
      (fun r w' => exists t', table_op op t = (g <$> r, t') /\ reg w' = stored_as t') v) ->
  starting op (g <$> locked_steps true (data ← read_steps; k data)).
Proof. intros H t w Ht Hr Hc. apply owning_locked; auto. Qed.

Lemma table_op_on op t : creates op = true ->
  table_op op t = (fst (rows_op op (default [] t)), Some (snd (rows_op op (default [] t)))).
Proof. unfold table_op. intros ->. by destruct (rows_op _ _). Qed.

Lemma starting_add n p b now : starting (OpAdd n p b now) (op_steps (OpAdd n p b now)).
Proof.
  unfold op_steps, add_allocating_steps.
  destruct (requested_backend p b) as [bk|e] eqn:Hbk.
  - apply starting_locked. intros t v Ht Hv.
    rewrite table_op_on by (simpl; by rewrite Hbk). cbn [rows_op]. rewrite Hbk.
    set (data := default [] t) in *.
    destruct (Dict.mem n data) eqn:Hm; [simpl; eauto|].
    destruct (lowest_free_index_least (indices_of data)) as (i & Hi & [H0 _] & Hn & Hb).
    rewrite Hi. unfold _check_index, raise_if. destruct (Z.ltb_spec i 0); [lia|].
    case_decide.
    + destruct (Z.ltb_spec _MAX_PORT_INDEX i); [lia|]. cbn [lift_port].
      apply owns_bind, owns_write. simpl. eexists. split; [done|].
      rewrite Dict.set_fresh; [done|]. unfold Dict.mem in Hm. by destruct (Dict.get n data).
    + destruct (Z.ltb_spec _MAX_PORT_INDEX i); [|lia]. simpl. eauto.
  - intros t. unfold table_op. simpl. by rewrite Hbk.
Qed.

Lemma starting_others op : match op with OpAdd _ _ _ _ | OpList => False | _ => True end ->
  starting op (op_steps op).
Proof.
  destruct op as [n p b now|n|n sp|n bd|]; [done| | | |done]; intros _; apply starting_locked;
    intros t v Ht Hv; rewrite table_op_on by done; cbn [rows_op]; set (data := default [] t) in *.
  - apply owns_write. simpl. eauto.
  - destruct (Dict.get n data) as [m|]; [|simpl; eauto].
    destruct (backend m); try (simpl; by eauto). apply owns_write. simpl. eauto.
  - destruct (Dict.get n data) as [m|]; [|simpl; eauto].
    destruct (backend m), (String.eqb bd "vm"); try (simpl; by eauto);
      apply owns_bind, owns_write; simpl; eauto.
Qed.


Lemma reading_finally t seen (body : prog (option RegistryFile)) data cont :
  looks (holds_table t) seen body (fun r => r = Ok (Some data)) ->
  cont (Some data) = mret data -> table_op OpList t = (Ok (TheRows data), t) ->
  reading OpList t seen (TheRows <$> (finally_release body ≫= cont)).
Proof.
  intros H Hk Ht. revert seen H. unfold mbind, prog_bind, fmap, prog_fmap.
  induction body as [r|change next IH|x q IH|q IH]; intros seen; try done.
  - simpl. intros ->. by rewrite Hk.
  - simpl. intros H w Hc HK Hs. destruct (H w Hc HK Hs) as [Hq Hn]. auto.
Qed.

Lemma starting_list : starting OpList (op_steps OpList).
Proof.
  intros w Hc. split; [done|]. cbn beta. destruct (reg w) as [c|]; simpl negb; cbn iota.
  - intros t Ht. apply (reading_finally t false _ (default [] t)); [|done|].
    + apply (looks_bind _ _ (mret tt)), looks_bind.
      eapply looks_weaken; [apply looks_needs_migration|]. intros r ->. cbn iota beta.
      apply looks_fmap. eapply looks_weaken; [by apply looks_read|]. by intros r ->.
    + unfold table_op. by destruct t.
  - exists (Ok (TheRows [])). split; [done|].
    apply (looks_fmap _ _ TheRows (check_v02_steps ;; mret [])), looks_bind.
    eapply looks_weaken; [apply looks_check_v02|]. by intros r ->.
Qed.

Lemma starting_op op : starting op (op_steps op).
Proof.
  destruct op; first [apply starting_add|apply starting_list|by apply starting_others].
Qed.

End table.
