(* ===== verification/RegistrySer.v ===== *)
(** * Processes at the registry lock: linearizability and progress

    However the processes of [RegistryLock] interleave, the answers they get and the
    file they leave are those of the operations done one after another on the table
    of [RegistryConc]; none waits for ever.  A file the code did not write is another
    matter: two readers of one with an unsalvageable row race
    ([racing_readers_crash]). *)
From stdpp Require Import base list strings gmap.
From Stdlib Require Import ZArith Lia.
From S2P Require Import Prelude PyStr Config Ports Registry RegistryOps RegistryLock RegistryConc.
Local Open Scope stdpp_scope.
Local Open Scope Z_scope.

Section processes.
Context `{P : Pydantic} `{L : !PydanticLaws P}.
Abbreviation RegistryFile := (list (string * InstanceMeta)).
Abbreviation event := (nat * reg_op * result conc_error answer)%type.
Implicit Types (data : RegistryFile) (w : world).

(** ** The processes *)

Abbreviation at_ f b l := (view (mkSystem f b []) l).

Definition proc_inv (f b : option content) (t : table) (hist : list event) (i : nat) (q : proc) : Prop :=
  decodable (l_cwd_json (mine q)) /\ Forall op_ok (todo q) /\
  match cur q, holds q with
  | None, None => events_of i hist = log q
  | None, Some _ => False
  | Some (op, p), Some true => op_ok op /\ events_of i hist = log q /\ owning op t p (at_ f b (mine q))
  | Some (op, p), Some false => op_ok op /\ events_of i hist = log q /\
      exists seen, (seen = true -> is_Some f) /\ reading op t seen p
  | Some (op, p), None => op_ok op /\
      ((events_of i hist = log q /\ starting op p) \/
       exists r seen, events_of i hist = log q ++ [(op, r)] /\ (seen = true -> is_Some f) /\
         looks (fun _ => True) seen p (eq r))
  end.

Definition alone (i : nat) (s : system) : Prop :=
  forall j q, j <> i -> procs s !! j = Some q -> holds q = None.
Definition no_owner (i : nat) (s : system) : Prop :=
  forall j q, j <> i -> procs s !! j = Some q -> holds q <> Some true.

(** [t] is the table after the operations that took effect, those of [hist]. *)
Record good (t0 t : table) (hist : list event) (s : system) : Prop := {
  g_serial : serial t0 hist t;
  g_ok : table_ok t;
  g_none : file s = None -> t = None;
  g_free : (forall i q, procs s !! i = Some q -> holds q <> Some true) -> file s = stored_as t;
  g_lock : forall i q, procs s !! i = Some q -> holds q = Some true -> alone i s;
  g_procs : forall i q, procs s !! i = Some q -> proc_inv (file s) (backup s) t hist i q }.

Lemma proc_inv_frame f f' b t t' hist hist' i q :
  proc_inv f b t hist i q -> (is_Some f -> is_Some f') ->
  (holds q <> None -> f' = f /\ t' = t) -> events_of i hist' = events_of i hist ->
  proc_inv f' b t' hist' i q.
Proof.
  unfold proc_inv. intros (? & ? & H) Hf Hh ->. split_and!; [done..|].
  destruct (cur q) as [[op p]|], (holds q) as [[|]|]; try done.
  - by destruct Hh as [-> ->].
  - destruct Hh as [-> ->]; [done|]. done.
  - destruct H as (? & [H|(r & seen & ? & ? & ?)]); split; [done|by left|done|].
    right. exists r, seen. auto.
Qed.

Lemma good_put t0 t hist s i q q' f' t' hist' :
  good t0 t hist s -> procs s !! i = Some q ->
  serial t0 hist' t' -> table_ok t' ->
  (hist' = hist \/ exists op r, hist' = hist ++ [(i, op, r)]) ->
  (f' = None -> t' = None) -> (is_Some (file s) -> is_Some f') ->
  (alone i s \/ (f' = file s /\ t' = t)) ->
  (holds q' = Some true -> alone i s) ->
  (holds q' = Some false -> no_owner i s) ->
  (no_owner i s -> holds q' <> Some true -> f' = stored_as t') ->
  proc_inv f' (backup s) t' hist' i q' ->
  good t0 t' hist' (mkSystem f' (backup s) (<[i := q']> (procs s))).
Proof.
  intros Hg Hi Hser Hok Hhist Hnone Hsome Hal Ht Hsh Hfree Hinv.
  assert (forall j x, <[i := q']> (procs s) !! j = Some x ->
    (j = i /\ x = q') \/ (j <> i /\ procs s !! j = Some x)) as Hlook.
  { intros j x [(-> & -> & _)|[? ?]]%list_lookup_insert_Some; auto. }
  assert (i < length (procs s))%nat as Hlen by (by apply lookup_lt_is_Some_1; eauto).
  split; simpl; [done..| | |].
  - intros H. apply Hfree.
    + intros j x Hj Hx. apply (H j). by rewrite list_lookup_insert_ne.
    + apply (H i). by rewrite list_lookup_insert_eq.
  - intros j x [[-> ->]|[Hj Hx]]%Hlook Hhold k y Hk [[-> ->]|[Hk' Hy]]%Hlook.
    + done.
    + by eapply Ht.
    + destruct (holds q') as [[|]|] eqn:E; [|by destruct (Hsh eq_refl j x)|done].
      by rewrite (Ht eq_refl j x Hj Hx) in Hhold.
    + by eapply (g_lock _ _ _ _ Hg j x).
  - intros j x [[-> ->]|[Hj Hx]]%Hlook; [done|].
    apply (proc_inv_frame (file s) f' (backup s) t t' hist hist'); [by apply Hg|done| |].
    + intros Hh. destruct Hal as [Hal|?]; [|done]. by destruct Hh; eapply Hal.
    + destruct Hhist as [->|(op & r & ->)]; [done|]. rewrite events_of_snoc.
      rewrite decide_False by done. apply app_nil_r.
Qed.

Lemma granted_spec i e s j q :
  granted i e s = true -> j <> i -> procs s !! j = Some q -> blocks e q = false.
Proof.
  unfold granted. intros H Hj Hq. rewrite forallb_forall in H.
  specialize (H (j, q)). simpl in H. rewrite bool_decide_eq_false_2 in H by done.
  apply negb_true_iff, H. by apply list_elem_of_In, (elem_of_lookup_imap_2 pair).
Qed.

Lemma granted_alone i s : granted i true s = true -> alone i s.
Proof.
  intros H j q Hj Hq. pose proof (granted_spec _ _ _ _ _ H Hj Hq) as Hb.
  unfold blocks in Hb. by destruct (holds q).
Qed.

Lemma granted_no_owner i s : granted i false s = true -> no_owner i s.
Proof.
  intros H j q Hj Hq E. pose proof (granted_spec _ _ _ _ _ H Hj Hq) as Hb.
  unfold blocks in Hb. by rewrite E in Hb.
Qed.

(** A process that holds a lock keeps every other from the exclusive one. *)
Lemma holder_no_owner t0 t hist s i q e : good t0 t hist s -> procs s !! i = Some q ->
  holds q = Some e -> no_owner i s.
Proof.
  intros Hg Hi He j x Hj Hx Hown. pose proof (g_lock _ _ _ _ Hg j x Hx Hown i q) as H.
  by rewrite H in He by done.
Qed.

Lemma no_owner_stored t0 t hist s i q : good t0 t hist s -> procs s !! i = Some q ->
  holds q <> Some true -> no_owner i s -> file s = stored_as t.
Proof.
  intros Hg Hi Hq Hn. apply (g_free _ _ _ _ Hg). intros j x Hx.
  destruct (decide (j = i)) as [->|]; [|by eapply Hn]. by simplify_eq.
Qed.

(** The process goes on without changing a file or taking effect. *)
Lemma good_goes_on t0 t hist s i q q' :
  good t0 t hist s -> procs s !! i = Some q -> holds q' = holds q ->
  proc_inv (file s) (backup s) t hist i q' ->
  good t0 t hist (mkSystem (file s) (backup s) (<[i := q']> (procs s))).
Proof.
  intros Hg Hi Hh Hinv.
  apply (good_put t0 t hist s i q q' (file s) t hist);
    [done|done|apply Hg|apply Hg|by left|apply Hg|done|by right| | | |done].
  - rewrite Hh. by apply (g_lock _ _ _ _ Hg).
  - rewrite Hh. by eapply holder_no_owner.
  - rewrite Hh. intros Hn Hq. by eapply no_owner_stored.
Qed.

(** The operation takes effect without changing a file, and the process holds no lock. *)
Lemma good_takes_effect t0 t hist s i q q' op r :
  good t0 t hist s -> procs s !! i = Some q -> holds q <> Some true -> holds q' = None ->
  table_op op t = (r, t) -> proc_inv (file s) (backup s) t (hist ++ [(i, op, r)]) i q' ->
  good t0 t (hist ++ [(i, op, r)]) (mkSystem (file s) (backup s) (<[i := q']> (procs s))).
Proof.
  intros Hg Hi Hq Hh Hop Hinv.
  apply (good_put t0 t hist s i q q' (file s) t (hist ++ [(i, op, r)]));
    [done|done| |apply Hg|by eauto|apply Hg|done|by right|by rewrite Hh|by rewrite Hh| |done].
  - eapply serial_snoc; [apply Hg|done].
  - intros Hn _. by eapply no_owner_stored.
Qed.

Lemma events_took i hist op r (l : list (reg_op * result conc_error answer)) :
  events_of i hist = l -> events_of i (hist ++ [(i, op, r)]) = l ++ [(op, r)].
Proof. intros <-. rewrite events_of_snoc. by rewrite decide_True by done. Qed.

Section step.
Context (t0 t : table) (hist : list event) (s : system) (i : nat) (q : proc)
  (Hg : good t0 t hist s) (Hi : procs s !! i = Some q).

Abbreviation leads_to s' := 
  (exists t' hist', good t0 t' hist' s' /\ backup s' = backup s /\ hist `prefix_of` hist').

(** The backup is the one it was, and the history has at most grown. *)
Ltac on_history := split_and!; [|done|first [reflexivity|by apply prefix_app_r]].

Lemma step_starts op ops : cur q = None -> todo q = op :: ops ->
  leads_to (put i (mkProc ops (Some (op, op_steps op)) (holds q) (log q) (mine q)) s).
Proof.
  intros Hc Ht. destruct (g_procs _ _ _ _ Hg i q Hi) as (Hd & Hops & Hp).
  rewrite Hc in Hp. rewrite Ht in Hops. apply Forall_cons in Hops as [Hop Hops].
  destruct (holds q) eqn:Hh; [done|]. exists t, hist. on_history.
  eapply good_goes_on; eauto. split_and!; [done..|]. simpl. split; [done|]. left.
  split; [done|apply starting_op].
Qed.

Lemma step_returns op r : cur q = Some (op, Ret r) ->
  leads_to (put i (mkProc (todo q) None (holds q) (log q ++ [(op, r)]) (mine q)) s).
Proof.
  intros Hc. destruct (g_procs _ _ _ _ Hg i q Hi) as (Hd & Hops & Hp).
  rewrite Hc in Hp. destruct (holds q) as [[|]|] eqn:Hh.
  - by destruct Hp as (_ & _ & ?).
  - by destruct Hp as (_ & _ & ? & _ & ?).
  - destruct Hp as (Hop & [(He & Hs)|(r' & seen & He & _ & ->)]).
    + exists t, (hist ++ [(i, op, r)]). on_history.
      eapply good_takes_effect; eauto; [by rewrite Hh|].
      split_and!; [done..|]. simpl. by apply events_took.
    + exists t, hist. on_history. by eapply good_goes_on; eauto.
Qed.

Lemma step_acquires op e p : cur q = Some (op, Acquire e p) -> granted i e s = true ->
  leads_to (put i (mkProc (todo q) (Some (op, p)) (Some e) (log q) (mine q)) s).
Proof.
  intros Hc Hgr. destruct (g_procs _ _ _ _ Hg i q Hi) as (Hd & Hops & Hp).
  rewrite Hc in Hp. destruct (holds q) as [[|]|] eqn:Hh.
  - by destruct Hp as (_ & _ & ?).
  - by destruct Hp as (_ & _ & ? & _ & ?).
  - destruct Hp as (Hop & [(He & Hs)|(r' & seen & _ & _ & ?)]); [|done].
    exists t, hist. on_history. pose proof (g_ok _ _ _ _ Hg) as Hok.
    assert (no_owner i s) as Hno.
    { destruct e; [|by apply granted_no_owner].
      intros j x Hj Hx. by rewrite (granted_alone _ _ Hgr j x). }
    assert (file s = stored_as t) as Hf by (eapply no_owner_stored; eauto; by rewrite Hh).
    eapply (good_put t0 t hist s i q _ (file s) t hist);
      [done|done|apply Hg|done|by left|apply Hg|done|by right| |done|done|]; simpl.
    + intros [= ->]. by apply granted_alone.
    + split_and!; [done..|]. simpl. destruct e; (split_and!; [done..|]).
      * by apply Hs.
      * exists false. split; [done|]. by apply Hs.
Qed.

Lemma step_releases op p : cur q = Some (op, Release p) ->
  leads_to (put i (mkProc (todo q) (Some (op, p)) None (log q) (mine q)) s).
Proof.
  intros Hc. destruct (g_procs _ _ _ _ Hg i q Hi) as (Hd & Hops & Hp).
  rewrite Hc in Hp. destruct (holds q) as [[|]|] eqn:Hh.
  - destruct Hp as (Hop & He & Hs). simpl in Hs. destruct p as [r|?|?|?]; try done.
    destruct Hs as (t' & Ht' & Hf). exists t', (hist ++ [(i, op, r)]). on_history.
    pose proof (table_op_ok op t Hop (g_ok _ _ _ _ Hg)) as Hok. rewrite Ht' in Hok.
    simpl in Hf. eapply (good_put t0 t hist s i q _ (file s) t' (hist ++ [(i, op, r)]));
      [done|done| |done|by eauto| |done| |done|done|done|].
    + eapply serial_snoc; [apply Hg|done].
    + rewrite Hf. by destruct t'.
    + left. by eapply (g_lock _ _ _ _ Hg).
    + split_and!; [done..|]. simpl. split; [done|]. right. exists r, false.
      split_and!; [by apply events_took|done|done].
  - destruct Hp as (Hop & He & seen & _ & Hs). simpl in Hs. destruct p as [r|?|?|?]; try done.
    exists t, (hist ++ [(i, op, r)]). on_history.
    eapply good_takes_effect; eauto; [by rewrite Hh|].
    split_and!; [done..|]. simpl. split; [done|]. right. exists r, false.
    split_and!; [by apply events_took|done|done].
  - by destruct Hp as (_ & [(_ & ?)|(? & ? & _ & _ & ?)]).
Qed.

Lemma step_acts op change next : cur q = Some (op, Act change next) ->
  let w := view s (mine q) in let w' := change w in
  leads_to (mkSystem (reg w') (bak w')
    (<[i := mkProc (todo q) (Some (op, next w)) (holds q) (log q) (local_of w')]> (procs s))).
Proof.
  intros Hc w w'. destruct (g_procs _ _ _ _ Hg i q Hi) as (Hd & Hops & Hp).
  rewrite Hc in Hp. exists t.
  destruct (holds q) as [[|]|] eqn:Hh; [exists hist|exists hist|]; simpl in Hp.
  - destruct Hp as (Hop & He & Hs).
    change (at_ (file s) (backup s) (mine q)) with w in Hs. destruct Hs as (Hsome & Hb & Hj & Hs).
    fold w' in Hsome, Hb, Hj, Hs. change (bak w) with (backup s) in Hb. on_history.
    rewrite Hb. eapply (good_put t0 t hist s i q _ (reg w') t hist);
      [done|done|apply Hg|apply Hg|by left| |done| | |done|done|]; simpl.
    + intros Hn. apply (g_none _ _ _ _ Hg). change (file s) with (reg w).
      apply eq_None_not_Some. intros H%Hsome. rewrite Hn in H. by destruct H.
    + left. by eapply (g_lock _ _ _ _ Hg).
    + intros _. by eapply (g_lock _ _ _ _ Hg).
    + split_and!; simpl; [by rewrite Hj|done|]. split_and!; [done..|].
      rewrite <- Hb. by destruct w'.
  - destruct Hp as (Hop & He & seen & Hseen & Hs).
    assert (file s = stored_as t) as Hf.
    { eapply no_owner_stored; eauto; [by rewrite Hh|]. by eapply holder_no_owner. }
    destruct (Hs w) as [(Hr & Hb & Hj) Hn]; [done..|].
    fold w' in Hr, Hb, Hj. on_history. rewrite Hr, Hb.
    eapply good_goes_on; [done..|]. split_and!; simpl; [by rewrite Hj|done|].
    split_and!; [done..|]. exists (seen || bool_decide (is_Some (reg w))). split; [|done].
    destruct seen; [by auto|]. apply bool_decide_eq_true.
  - destruct Hp as (Hop & [(He & Hs)|(r & seen & He & Hseen & Hs)]).
    + destruct (Hs w Hd) as [(Hr & Hb & Hj) Hn]. fold w' in Hr, Hb, Hj.
      destruct (reg w) as [c|] eqn:Hw.
      * exists hist. on_history. rewrite Hr, Hb, <- Hw.
        eapply good_goes_on; [done..|]. split_and!; simpl; [by rewrite Hj|done|].
        split; [done|]. by left.
      * destruct Hn as (r & Hop' & Hl). exists (hist ++ [(i, op, r)]). on_history.
        rewrite Hr, Hb, <- Hw. pose proof (g_none _ _ _ _ Hg Hw) as Ht.
        eapply good_takes_effect; [done|done|by rewrite Hh|done|by rewrite Ht|].
        split_and!; simpl; [by rewrite Hj|done|]. split; [done|]. right.
        exists r, false. split_and!; [by apply events_took|done|done].
    + exists hist. destruct (Hs w) as [(Hr & Hb & Hj) Hn]; [done..|].
      fold w' in Hr, Hb, Hj. on_history. rewrite Hr, Hb.
      eapply good_goes_on; [done..|]. split_and!; simpl; [by rewrite Hj|done|].
      split; [done|]. right. exists r, (seen || bool_decide (is_Some (reg w))).
      split_and!; [done| |done]. destruct seen; [by auto|]. apply bool_decide_eq_true.
Qed.

End step.

Lemma good_step t0 t hist s s' : good t0 t hist s -> sys_step s s' ->
  exists t' hist', good t0 t' hist' s' /\ backup s' = backup s /\ hist `prefix_of` hist'.
Proof.
  intros Hg [i Hs]. unfold step_proc in Hs. destruct (procs s !! i) as [q|] eqn:Hi; [|done].
  simpl in Hs. destruct (cur q) as [[op [r|change next|e p|p]]|] eqn:Hc.
  - injection Hs as <-. by eapply step_returns.
  - injection Hs as <-. by eapply step_acts.
  - destruct (granted i e s) eqn:Hgr; [|done]. injection Hs as <-. by eapply step_acquires.
  - injection Hs as <-. by eapply step_releases.
  - destruct (todo q) as [|op ops] eqn:Ht; [done|]. injection Hs as <-. by eapply step_starts.
Qed.

Lemma good_steps t0 t hist s s' : good t0 t hist s -> rtc sys_step s s' ->
  exists t' hist', good t0 t' hist' s' /\ backup s' = backup s /\ hist `prefix_of` hist'.
Proof.
  intros Hg Hs. revert t hist Hg. induction Hs as [s|s s1 s2 H1 _ IH]; intros t hist Hg; [by eauto|].
  destruct (good_step _ _ _ _ _ Hg H1) as (t1 & h1 & Hg1 & Hb1 & Hp1).
  destruct (IH t1 h1 Hg1) as (t2 & h2 & Hg2 & Hb2 & Hp2). exists t2, h2.
  split_and!; [done|by rewrite Hb2|by etransitivity].
Qed.

(** ** The script of a process never changes *)

Definition script (q : proc) : list reg_op :=
  (log q).*1 ++ match cur q with Some (op, _) => [op] | None => [] end ++ todo q.

Lemma step_scripts s s' : sys_step s s' -> script <$> procs s' = script <$> procs s.
Proof.
  assert (forall i q q', procs s !! i = Some q -> script q' = script q ->
    script <$> <[i := q']> (procs s) = script <$> procs s) as Hput.
  { intros i q q' Hi Hq. rewrite list_fmap_insert. apply list_insert_id.
    by rewrite list_lookup_fmap, Hi, Hq. }
  intros [i Hs]. unfold step_proc in Hs. destruct (procs s !! i) as [q|] eqn:Hi; [|done].
  simpl in Hs. destruct (cur q) as [[op [r|change next|e p|p]]|] eqn:Hc.
  - injection Hs as <-. apply (Hput i q); [done|]. unfold script. simpl.
    rewrite Hc, fmap_app. by rewrite <- app_assoc.
  - injection Hs as <-. apply (Hput i q); [done|]. unfold script. simpl. by rewrite Hc.
  - destruct (granted i e s) eqn:Hgr; [|done]. injection Hs as <-.
    apply (Hput i q); [done|]. unfold script. simpl. by rewrite Hc.
  - injection Hs as <-. apply (Hput i q); [done|]. unfold script. simpl. by rewrite Hc.
  - destruct (todo q) as [|op ops] eqn:Ht; [done|]. injection Hs as <-.
    apply (Hput i q); [done|]. unfold script. simpl. by rewrite Hc, Ht.
Qed.

Lemma steps_scripts s s' : rtc sys_step s s' -> script <$> procs s' = script <$> procs s.
Proof. induction 1 as [|s s1 s2 H1 _ IH]; [done|]. rewrite IH. by apply step_scripts. Qed.

(** ** Linearizability *)

(** Processes that have not begun. *)
Record begins (t0 : table) (s : system) : Prop := {
  b_file : file s = stored_as t0;
  b_ok : table_ok t0;
  b_procs : Forall (fun q => cur q = None /\ holds q = None /\ log q = [] /\
    decodable (l_cwd_json (mine q)) /\ Forall op_ok (todo q)) (procs s) }.

Lemma begins_good t0 s : begins t0 s -> good t0 t0 [] s.
Proof.
  intros [Hf Hok Hp]. rewrite Forall_lookup in Hp.
  split; [done|done| |done| |].
  - rewrite Hf. by destruct t0.
  - intros i q (_ & Hh & _)%Hp ?. congruence.
  - intros i q (Hc & Hh & Hl & Hd & Ho)%Hp. split_and!; [done..|]. by rewrite Hc, Hh.
Qed.

(** The answers a process got, and possibly that of the operation it is in. *)
Definition answered (q : proc) (l : list (reg_op * result conc_error answer)) : Prop :=
  l = log q \/ exists op p r, cur q = Some (op, p) /\ l = log q ++ [(op, r)].

Lemma answered_finished q l : answered q l -> finished q -> l = log q.
Proof. intros [->|(op & p & r & Hc & ->)] [Hf _]; [done|congruence]. Qed.

Lemma good_log t0 t hist s i q : good t0 t hist s -> procs s !! i = Some q ->
  answered q (events_of i hist).
Proof.
  intros Hg Hi. destruct (g_procs _ _ _ _ Hg i q Hi) as (_ & _ & Hp). unfold answered.
  destruct (cur q) as [[op p]|], (holds q) as [[|]|]; try done.
  - destruct Hp as (_ & -> & _). by left.
  - destruct Hp as (_ & -> & _). by left.
  - destruct Hp as (_ & [(-> & _)|(r & seen & -> & _)]); [by left|]. right. by exists op, p, r.
  - rewrite Hp. by left.
Qed.

(** C2. Whatever any number of processes interleave at the registry — looks at the file,
    its creation, the replacement by a new version, the two locks — there is one order
    of their operations such that doing them one after another on the table of rows
    gives every process exactly the answers it got.  The order is that of time: cut the
    run anywhere, and the operations that have returned by then are in the first part,
    those not yet begun in the second.  When all processes have finished, the file holds
    the rows of the table, each process has an answer to each operation it was to do, in
    its own order, and the backup was not touched.  The table keeps its invariant: no two
    rows share an index.  This is for a file the code wrote, or none, and processes whose
    directory holds no undecodable [instances.json]. *)
Theorem registry_linearizable t0 s0 s1 s2 :
  begins t0 s0 -> rtc sys_step s0 s1 -> rtc sys_step s1 s2 ->
  exists hist later t, serial t0 (hist ++ later) t /\ table_ok t /\ backup s2 = backup s0 /\
    (forall i q, procs s1 !! i = Some q -> answered q (events_of i hist)) /\
    (forall i q, procs s2 !! i = Some q -> answered q (events_of i (hist ++ later))) /\
    (Forall finished (procs s2) ->
       file s2 = stored_as t /\
       forall i q0, procs s0 !! i = Some q0 ->
         exists q, procs s2 !! i = Some q /\ events_of i (hist ++ later) = log q /\
           (log q).*1 = todo q0).
Proof.
  intros Hb H1 H2. destruct (good_steps _ _ _ _ _ (begins_good _ _ Hb) H1) as (t1 & hist & Hg1 & Hbk1 & _).
  destruct (good_steps _ _ _ _ _ Hg1 H2) as (t & h2 & Hg & Hbk & later & ->).
  exists hist, later, t. split_and!; [apply Hg|apply Hg|congruence| | |].
  - intros i q Hi. by apply (good_log t0 t1 hist s1).
  - intros i q Hi. by apply (good_log t0 t (hist ++ later) s2).
  - intros Hfin. rewrite Forall_lookup in Hfin. split.
    + apply (g_free _ _ _ _ Hg). intros i q Hi.
      destruct (g_procs _ _ _ _ Hg i q Hi) as (_ & _ & Hp).
      destruct (Hfin i q Hi) as [Hc _]. rewrite Hc in Hp. by destruct (holds q).
    + intros i q0 Hi0. assert (rtc sys_step s0 s2) as Hs by by etransitivity.
      pose proof (steps_scripts _ _ Hs) as Hsc.
      apply (f_equal (fun l => l !! i)) in Hsc. rewrite !list_lookup_fmap, Hi0 in Hsc.
      destruct (procs s2 !! i) as [q|] eqn:Hi; [|done]. simplify_eq/=.
      exists q. split; [done|]. destruct (Hfin i q Hi) as [Hc Ht].
      split; [by apply answered_finished; [by eapply good_log|]|].
      destruct (proj1 (Forall_lookup _ _) (b_procs _ _ Hb) i q0 Hi0) as (Hc0 & _ & Hl0 & _).
      unfold script in Hsc. rewrite Hc, Ht, Hc0, Hl0 in Hsc. simpl in Hsc.
      by rewrite app_nil_r in Hsc.
Qed.

(** ** Nobody waits for ever *)

(** What a step of a process leaves of it: the next program, or the next operation. *)
Inductive proc_step : proc -> proc -> Prop :=
| ps_start q op ops : cur q = None -> todo q = op :: ops ->
    proc_step q (mkProc ops (Some (op, op_steps op)) (holds q) (log q) (mine q))
| ps_return q op r : cur q = Some (op, Ret r) ->
    proc_step q (mkProc (todo q) None (holds q) (log q ++ [(op, r)]) (mine q))
| ps_act q op change next w l : cur q = Some (op, Act change next) ->
    proc_step q (mkProc (todo q) (Some (op, next w)) (holds q) (log q) l)
| ps_acquire q op e p h : cur q = Some (op, Acquire e p) ->
    proc_step q (mkProc (todo q) (Some (op, p)) h (log q) (mine q))
| ps_release q op p h : cur q = Some (op, Release p) ->
    proc_step q (mkProc (todo q) (Some (op, p)) h (log q) (mine q)).

Lemma sys_step_proc s s' : sys_step s s' -> exists i q q',
  procs s !! i = Some q /\ proc_step q q' /\ procs s' = <[i := q']> (procs s).
Proof.
  intros [i Hs]. unfold step_proc in Hs. destruct (procs s !! i) as [q|] eqn:Hi; [|done].
  simpl in Hs. exists i, q. destruct (cur q) as [[op [r|change next|e p|p]]|] eqn:Hc.
  - injection Hs as <-. eexists. split_and!; [done|by eapply ps_return|done].
  - injection Hs as <-. eexists. split_and!; [done|by eapply ps_act|done].
  - destruct (granted i e s); [|done]. injection Hs as <-.
    eexists. split_and!; [done|by eapply ps_acquire|done].
  - injection Hs as <-. eexists. split_and!; [done|by eapply ps_release|done].
  - destruct (todo q) as [|op ops] eqn:Ht; [done|]. injection Hs as <-.
    eexists. split_and!; [done|by eapply ps_start|done].
Qed.

Lemma busy_acc ops : (forall q, todo q = ops -> cur q = None -> Acc (flip proc_step) q) ->
  forall op p q, todo q = ops -> cur q = Some (op, p) -> Acc (flip proc_step) q.
Proof.
  intros Hidle op p. induction p as [r|change next IH|e p IH|p IH]; intros q Ht Hc; constructor;
    intros y Hy; inversion Hy as [? ? ? Hc'|? ? ? Hc'|? ? ? ? ? ? Hc'|? ? ? ? ? Hc'|? ? ? ? Hc'];
    rewrite Hc in Hc'; simplify_eq; by eauto.
Qed.

Lemma proc_acc q : Acc (flip proc_step) q.
Proof.
  assert (forall ops q, todo q = ops -> cur q = None -> Acc (flip proc_step) q) as Hidle.
  { induction ops as [|op ops IH]; intros x Ht Hc; constructor; intros y Hy;
      inversion Hy; subst; try congruence.
    assert (op0 = op /\ ops0 = ops) as [-> ->] by (split; congruence).
    by apply (busy_acc ops IH op (op_steps op)). }
  destruct (cur q) as [[op p]|] eqn:Hc; [|by eapply Hidle].
  by apply (busy_acc (todo q) (Hidle (todo q)) op p).
Qed.

(** One of the members of a list makes a step. *)
Inductive one_steps : list proc -> list proc -> Prop :=
| one_here q q' l : proc_step q q' -> one_steps (q :: l) (q' :: l)
| one_later q l l' : one_steps l l' -> one_steps (q :: l) (q :: l').

Lemma one_steps_insert i (l : list proc) q q' :
  l !! i = Some q -> proc_step q q' -> one_steps l (<[i := q']> l).
Proof.
  revert i. induction l as [|x l IH]; intros [|i] Hi Hq; simplify_eq/=; [by constructor|].
  constructor. auto.
Qed.

Lemma list_acc (l : list proc) : Acc (flip one_steps) l.
Proof.
  induction l as [|q l IH]; [constructor; intros y Hy; inversion Hy|].
  revert q. induction IH as [l _ IHl]. intros q. induction (proc_acc q) as [q _ IHq].
  constructor. intros y Hy. inversion Hy as [? q' ? Hq|? ? l' Hl]; subst; [by apply IHq|].
  by apply IHl.
Qed.

Lemma sys_acc s : Acc (flip sys_step) s.
Proof.
  assert (forall l, Acc (flip one_steps) l -> forall s, procs s = l -> Acc (flip sys_step) s) as H;
    [|by eapply H; [apply (list_acc (procs s))|]].
  induction 1 as [l _ IH]. intros x Hx. constructor. intros y Hy.
  destruct (sys_step_proc _ _ Hy) as (i & q & q' & Hi & Hq & Hp).
  eapply IH; [|exact Hp]. rewrite <- Hx. by eapply one_steps_insert.
Qed.

Lemma holder_steps t0 t hist s i q : good t0 t hist s -> procs s !! i = Some q ->
  holds q <> None -> exists s', sys_step s s'.
Proof.
  intros Hg Hi Hh. destruct (g_procs _ _ _ _ Hg i q Hi) as (_ & _ & Hp).
  assert (is_Some (step_proc i s)) as [s' Hs]; [|by exists s', i].
  unfold step_proc. rewrite Hi. simpl.
  destruct (cur q) as [[op [r|change next|e p|p]]|], (holds q) as [[|]|]; 
    naive_solver.
Qed.

Lemma good_progress t0 t hist s : good t0 t hist s -> ~ Forall finished (procs s) ->
  exists s', sys_step s s'.
Proof.
  intros Hg Hn.
  destruct (decide (Exists (fun q => holds q <> None) (procs s))) as [He|He].
  { apply Exists_exists in He as (q & [i Hi]%list_elem_of_lookup & Hh). by eapply holder_steps. }
  assert (forall j q, procs s !! j = Some q -> holds q = None) as Hfree.
  { intros j q Hj. destruct (holds q) eqn:E; [|done]. destruct He.
    apply Exists_exists. exists q. rewrite E. split; [by eapply list_elem_of_lookup_2|done]. }
  assert (exists i q, procs s !! i = Some q /\ ~ finished q) as (i & q & Hi & Hq).
  { assert (forall q, Decision (finished q)) as Hdec.
    { intros q. unfold finished. destruct (cur q); [right; by intros [? _]|].
      destruct (todo q); [by left|right; by intros [_ ?]]. }
    apply not_Forall_Exists in Hn; [|done]. apply Exists_exists in Hn as (q & Hin & Hq).
    apply list_elem_of_lookup in Hin as [i Hi]. eauto. }
  assert (is_Some (step_proc i s)) as [s' Hs]; [|by exists s', i].
  unfold step_proc. rewrite Hi. simpl. destruct (cur q) as [[op [r|change next|e p|p]]|] eqn:Hc; eauto.
  - assert (granted i e s = true) as ->; [|by eauto].
    unfold granted. apply forallb_forall. intros [j x] Hin.
    apply list_elem_of_In, elem_of_lookup_imap in Hin as (k & y & [= -> ->] & Hy).
    unfold blocks. rewrite (Hfree _ _ Hy). apply orb_true_r.
  - destruct (todo q) as [|op ops] eqn:Ht; [|by eauto]. by destruct Hq.
Qed.

(** C38. No process waits for ever at the registry: from any state the interleaving
    reaches only finitely many steps are left, and as long as a process is not finished
    some process can go on; so every operation returns. *)
Theorem registry_never_hangs t0 s0 s : begins t0 s0 -> rtc sys_step s0 s ->
  Acc (flip sys_step) s /\ (~ Forall finished (procs s) -> exists s', sys_step s s').
Proof.
  intros Hb Hs. destruct (good_steps _ _ _ _ _ (begins_good _ _ Hb) Hs) as (t & hist & Hg & _ & _).
  split; [apply sys_acc|]. by eapply good_progress.
Qed.

(** ** Two readers of a broken file *)

Definition reader (l : local) : proc := mkProc [OpList] None None [] l.
Definition fresh_local : local := mkLocal None false false [].

(** One turn of process [i], when the document's version and rows are known. *)
Ltac turn i Hv Hr :=
  eapply rtc_l;
    [exists i; lazy -[eq_schema_version version_of raw_instances read_rows];
     rewrite ?Hv, ?Hr; reflexivity|].

(** Readers of one broken file race.  Two processes that list a registry of the right
    version with an unsalvageable row both do so under the shared lock; one renames the
    file between the other's existence test and its read, and the other call ends in a
    [FileNotFoundError], although alone it would have answered with no rows. *)
Theorem racing_readers_crash j name b :
  eq_schema_version (version_of j) = true -> read_rows (raw_instances j) [] = Err name ->
  exists s, rtc sys_step (mkSystem (Some (Doc j)) b [reader fresh_local; reader fresh_local]) s /\
    log <$> procs s = [[(OpList, Ok (TheRows []))]; [(OpList, Err FileNotFound)]].
Proof.
  intros Hv Hr.
  eexists. split.
  - do 9 turn 0%nat Hv Hr. do 8 turn 1%nat Hv Hr. turn 0%nat Hv Hr.
    do 3 turn 1%nat Hv Hr. do 2 turn 0%nat Hv Hr. apply rtc_refl.
  - reflexivity.
Qed.

End processes.

Section witnesses.
Import Sample.

Definition alpha_adder : proc :=
  mkProc [OpAdd "alpha" (Some "/a") None (stamp "t0"); OpList] None None [] fresh_local.
Definition beta_adder : proc :=
  mkProc [OpAdd "beta" None (Some (AdbBackendConfig "s1")) (stamp "t1")] None None [] fresh_local.
Definition two_adders : system := mkSystem None None [alpha_adder; beta_adder].

(** The two take turns. *)
Definition turns : list nat := concat (replicate 40 [0; 1])%nat.
Definition after_turns : system := schedule turns two_adders.

Lemma two_adders_begin : begins None two_adders.
Proof.
  split; [done|apply data_inv_nil|]. repeat constructor; try done.
Qed.

(** The second process found the lock taken, waited, and got the next index; the first
    then lists both rows. *)
Example after_turns_logs : log <$> procs after_turns =
  [[(OpAdd "alpha" (Some "/a") None (stamp "t0"), Ok (AnIndex 0));
    (OpList, Ok (TheRows [("alpha", mkInstanceMeta (RedroidBackendConfig "/a" []) 0 (stamp "t0"));
                          ("beta", mkInstanceMeta (AdbBackendConfig "s1") 1 (stamp "t1"))]))];
   [(OpAdd "beta" None (Some (AdbBackendConfig "s1")) (stamp "t1"), Ok (AnIndex 1))]].
Proof. vm_compute. reflexivity. Qed.

(** The same run, cut after twelve turns. *)
Definition half_way : system := schedule (take 12 turns) two_adders.

Lemma half_way_on : rtc sys_step half_way after_turns.
Proof.
  assert (after_turns = schedule (drop 12 turns) half_way) as -> by (vm_compute; reflexivity).
  apply schedule_steps.
Qed.

Lemma registry_linearizable_witness :
  exists hist later t, serial None (hist ++ later) t /\ table_ok t /\ backup after_turns = backup two_adders /\
    (forall i q, procs half_way !! i = Some q -> answered q (events_of i hist)) /\
    (forall i q, procs after_turns !! i = Some q -> answered q (events_of i (hist ++ later))) /\
    (Forall finished (procs after_turns) ->
       file after_turns = stored_as t /\
       forall i q0, procs two_adders !! i = Some q0 ->
         exists q, procs after_turns !! i = Some q /\ events_of i (hist ++ later) = log q /\
           (log q).*1 = todo q0).
Proof.
  exact (registry_linearizable None two_adders half_way after_turns two_adders_begin
           (schedule_steps (take 12 turns) two_adders) half_way_on).
Defined.

Lemma registry_never_hangs_witness :
  Acc (flip sys_step) after_turns /\
  (~ Forall finished (procs after_turns) -> exists s', sys_step after_turns s').
Proof.
  exact (registry_never_hangs None two_adders after_turns two_adders_begin
           (schedule_steps turns two_adders)).
Defined.

Lemma racing_readers_crash_witness :
  exists s, rtc sys_step
      (mkSystem (Some (Doc bad_index_doc)) None [reader fresh_local; reader fresh_local]) s /\
    log <$> procs s = [[(OpList, Ok (TheRows []))]; [(OpList, Err FileNotFound)]].
Proof. exact (racing_readers_crash bad_index_doc "gamma" None eq_refl eq_refl). Defined.

End witnesses.
