(* ===== verification/RegistryCrash.v ===== *)
(** * Writing the registry survives a crash

    [_write] of [registry.py] as the system calls it makes, on a file system that
    loses what was not flushed: after a crash the directory is one of the versions
    since its last [fsync], and a file whose data was not flushed holds anything. *)
From stdpp Require Import base list strings gmap.
From Stdlib Require Import ZArith Lia.
From S2P Require Import Prelude.
Local Open Scope stdpp_scope.

(** [dir] and [data] are what running processes see; [synced] is the flushed data of
    the files, [versions] the directories a crash may leave, the newest last. *)
Record disk_state := mkDiskState {
  dir : gmap string nat;
  data : gmap nat string;
  synced : gmap nat string;
  versions : list (gmap string nat);
  next_inode : nat }.

Inductive syscall : Type :=
| OpenNew (name : string)                 (* open(tmp, "w") of a name not in use *)
| WriteAll (name payload : string)        (* f.write; f.flush *)
| FsyncFile (name : string)
| Replace (src dst : string)              (* os.replace *)
| FsyncDir
| UnlinkIfExists (name : string).

Definition with_dir (d : gmap string nat) (s : disk_state) : disk_state :=
  mkDiskState d (data s) (synced s) (versions s ++ [d]) (next_inode s).

Definition step (s : disk_state) (c : syscall) : disk_state :=
  match c with
  | OpenNew name =>
      let d := <[name := next_inode s]> (dir s) in
      mkDiskState d (<[next_inode s := ""]> (data s)) (synced s) (versions s ++ [d])
        (S (next_inode s))
  | WriteAll name payload =>
      match dir s !! name with
      | Some i => mkDiskState (dir s) (<[i := payload]> (data s)) (delete i (synced s))
                    (versions s) (next_inode s)
      | None => s
      end
  | FsyncFile name =>
      match dir s !! name with
      | Some i =>
          match data s !! i with
          | Some c => mkDiskState (dir s) (data s) (<[i := c]> (synced s)) (versions s) (next_inode s)
          | None => s
          end
      | None => s
      end
  | Replace src dst =>
      match dir s !! src with
      | Some i => with_dir (<[dst := i]> (delete src (dir s))) s
      | None => s
      end
  | FsyncDir => mkDiskState (dir s) (data s) (synced s) [dir s] (next_inode s)
  | UnlinkIfExists name =>
      match dir s !! name with
      | Some _ => with_dir (delete name (dir s)) s
      | None => s
      end
  end.

(** The calls of [_write], in order; [tmp] is the per-call unique sibling. *)
Definition _write_calls (tmp path payload : string) : list syscall :=
  [OpenNew tmp; WriteAll tmp payload; FsyncFile tmp; Replace tmp path; FsyncDir].

(** The first [n] calls succeed; with [cleanup], an exception — or the normal end —
    then runs the [finally] block. *)
Definition write_run (n : nat) (cleanup : bool) (tmp path payload : string) (s : disk_state)
  : disk_state :=
  fold_left step
    (take n (_write_calls tmp path payload) ++ if cleanup then [UnlinkIfExists tmp] else []) s.

(** What a process reads at [path], and what may be found there after a crash. *)
Definition visible (path : string) (s : disk_state) : option string :=
  i ← dir s !! path; data s !! i.

Definition crash_finds (path : string) (s : disk_state) (found : option string) : Prop :=
  exists d disk, d ∈ versions s /\ (forall i c, synced s !! i = Some c -> disk i = c) /\
    found = disk <$> d !! path.

(** A registry at rest: every version the disk may hold agrees on [path], its data is
    flushed, and [tmp] is a new name. *)
Record at_rest (path tmp : string) (old : option string) (s : disk_state) : Prop := {
  rest_dir : dir s ∈ versions s;
  rest_path : exists oi, (forall d, d ∈ versions s -> d !! path = oi) /\
    match oi, old with
    | Some i, Some c => synced s !! i = Some c /\ data s !! i = Some c /\ i < next_inode s
    | None, None => True
    | _, _ => False
    end;
  rest_tmp : tmp <> path /\ forall d, d ∈ versions s -> d !! tmp = None }.

Section write.
Variables (path tmp payload : string) (old : option string) (s : disk_state).
Hypothesis rest : at_rest path tmp old s.

(** Every version and every process still sees the old file, whose data is flushed. *)
Definition unchanged (s' : disk_state) : Prop :=
  exists oi, (forall d, d ∈ versions s' -> d !! path = oi) /\ dir s' !! path = oi /\
    match oi, old with
    | Some i, Some c => synced s' !! i = Some c /\ data s' !! i = Some c
    | None, None => True
    | _, _ => False
    end.

Lemma unchanged_old s' : unchanged s' ->
  (forall found, crash_finds path s' found -> found = old) /\ visible path s' = old.
Proof.
  intros (oi & Hv & Hd & Ho). split.
  - intros found (d & disk & Hin & Hc & ->). rewrite (Hv d Hin).
    destruct oi as [i|], old as [c|]; try done. destruct Ho as [Hs _]. cbn. by rewrite (Hc _ _ Hs).
  - unfold visible. rewrite Hd. destruct oi as [i|], old as [c|]; try done. by destruct Ho as [_ Ho].
Qed.

(** The process's view shows the new file, whose data is flushed. *)
Definition replaced (s' : disk_state) : Prop :=
  exists j, dir s' !! path = Some j /\ data s' !! j = Some payload /\ synced s' !! j = Some payload /\
    forall d, d ∈ versions s' -> d !! path = Some j \/
      (forall disk, (forall i c, synced s' !! i = Some c -> disk i = c) -> disk <$> d !! path = old).

Lemma replaced_new s' : replaced s' ->
  (forall found, crash_finds path s' found -> found = old \/ found = Some payload) /\
  visible path s' = Some payload.
Proof.
  intros (j & Hd & Hdata & Hs & Hv). split.
  - intros found (d & disk & Hin & Hc & ->). destruct (Hv d Hin) as [->|Ho].
    + right. cbn. by rewrite (Hc _ _ Hs).
    + left. by apply Ho.
  - unfold visible. by rewrite Hd.
Qed.

Ltac run :=
  unfold write_run, _write_calls;
  repeat (progress (cbn [take app fold_left step dir data synced versions next_inode with_dir];
    rewrite ?lookup_insert_eq, ?lookup_insert_ne, ?lookup_delete_eq, ?lookup_delete_ne by done)).

Lemma early n cleanup : n <= 3 -> unchanged (write_run n cleanup tmp path payload s).
Proof.
  intros Hn. destruct rest as [Hdir (oi & Hv & Ho) (Hne & Ht)].
  pose proof (Ht _ Hdir) as Ht0. pose proof (Hv _ Hdir) as Hp0.
  assert (tmp <> path /\ path <> tmp) as [H1 H2] by done.
  assert (match oi, old with
    | Some i, Some c => synced s !! i = Some c /\ data s !! i = Some c /\ i <> next_inode s
    | None, None => True | _, _ => False end) as Ho'.
  { destruct oi, old; try done. destruct Ho as (? & ? & ?). split_and!; try done. lia. }
  exists oi. destruct n as [|[|[|[|n]]]]; [..|lia]; destruct cleanup; run; rewrite ?Ht0; run;
    (split; [intros d; rewrite ?elem_of_app, ?list_elem_of_singleton;
             intros Hd; repeat match type of Hd with _ \/ _ => destruct Hd as [Hd|Hd] end; subst; auto;
             by rewrite ?lookup_delete_ne, ?lookup_insert_ne by done|]);
    (split; [by rewrite ?lookup_delete_ne, ?lookup_insert_ne by done|]);
    destruct oi as [i|], old as [c|]; try done; destruct Ho' as (? & ? & ?);
    by rewrite ?lookup_insert_ne, ?lookup_delete_ne, ?lookup_insert_ne by done.
Qed.

Lemma late n cleanup : 4 <= n -> replaced (write_run n cleanup tmp path payload s).
Proof.
  intros Hn. destruct rest as [Hdir (oi & Hv & Ho) (Hne & Ht)].
  pose proof (Ht _ Hdir) as Ht0.
  assert (path <> tmp) as H2 by done.
  assert (forall disk (d : gmap string nat), d !! path = oi ->
    (forall i c, synced s !! i = Some c -> i <> next_inode s -> disk i = c) ->
    disk <$> d !! path = old) as Hold.
  { intros disk d -> Hc. destruct oi as [i|], old as [c|]; try done.
    destruct Ho as (Hs & _ & Hlt). cbn. rewrite (Hc i c Hs); [done|lia]. }
  exists (next_inode s).
  destruct n as [|[|[|[|[|n]]]]]; [lia..|destruct cleanup
    |unfold write_run, _write_calls; cbn [take]; rewrite take_nil; destruct cleanup];
    run; rewrite ?Ht0; run; do 3 (split; [done|]);
    intros d; rewrite ?elem_of_app, ?list_elem_of_singleton; intros Hd;
    repeat match type of Hd with _ \/ _ => destruct Hd as [Hd|Hd] end; subst;
    try (by left; rewrite ?lookup_insert_eq); right; intros disk Hc;
    (apply Hold; [by rewrite ?lookup_insert_ne; auto|]);
    intros i c Hs Hi; apply Hc; by rewrite lookup_insert_ne, lookup_delete_ne by done.
Qed.

Lemma after_sync n cleanup : 5 <= n ->
  exists d, versions (write_run n cleanup tmp path payload s) = [d] /\
    dir (write_run n cleanup tmp path payload s) = d.
Proof.
  intros Hn. assert (path <> tmp /\ tmp <> path) as [H1 H2] by (by destruct rest as [_ _ []]).
  destruct n as [|[|[|[|[|n]]]]]; [lia..|]. unfold write_run, _write_calls. cbn [take].
  rewrite take_nil. destruct cleanup; run; by eexists.
Qed.

(** C29. Saving the registry is atomic and durable.  Wherever the machine stops —
    before any of the calls, after a call that failed and its cleanup, or later — the
    registry found at its path is the complete old one or the complete new one;
    every other process sees one of the two at any moment; and once [_write] has
    returned, a crash can only find the new one. *)
Theorem write_survives_crash n cleanup :
  let s' := write_run n cleanup tmp path payload s in
  (forall found, crash_finds path s' found -> found = old \/ found = Some payload) /\
  (visible path s' = old \/ visible path s' = Some payload) /\
  (5 <= n -> visible path s' = Some payload /\
             forall found, crash_finds path s' found -> found = Some payload).
Proof.
  intros s'. destruct (decide (n <= 3)) as [Hn|Hn].
  - destruct (unchanged_old s' (early n cleanup Hn)) as [H1 H2].
    split; [eauto|]. split; [by left|lia].
  - assert (replaced s') as Hr by (apply late; lia).
    destruct (replaced_new s' Hr) as [H1 H2]. split; [done|]. split; [by right|].
    intros H5. split; [done|]. intros found (d & disk & Hd & Hc & ->).
    destruct (after_sync n cleanup H5) as (d' & Hv & Hd'). fold s' in Hv, Hd'.
    rewrite Hv in Hd. apply list_elem_of_singleton in Hd as ->. rewrite <- Hd'.
    destruct Hr as (j & -> & _ & Hs & _). cbn. by rewrite (Hc _ _ Hs).
Qed.
End write.

(** A registry on disk, and the same file system without one. *)
Definition sample_disk_state : disk_state :=
  mkDiskState {[ "instances.json" := 7 ]} {[ 7 := "old" ]} {[ 7 := "old" ]}
    [{[ "instances.json" := 7 ]}] 8.

Lemma sample_at_rest : at_rest "instances.json" "instances.json.1.tmp" (Some "old") sample_disk_state.
Proof.
  split.
  - by apply list_elem_of_singleton.
  - exists (Some 7). split; [|split_and!; [done|done|cbn; lia]].
    by intros d ->%list_elem_of_singleton.
  - split; [done|]. by intros d ->%list_elem_of_singleton.
Qed.

Lemma write_survives_crash_witness :
  visible "instances.json"
    (write_run 5 true "instances.json.1.tmp" "instances.json" "new" sample_disk_state) = Some "new" /\
  forall found, crash_finds "instances.json"
    (write_run 4 false "instances.json.1.tmp" "instances.json" "new" sample_disk_state) found ->
    found = Some "old" \/ found = Some "new".
Proof.
  split.
  - destruct (write_survives_crash "instances.json" "instances.json.1.tmp" "new" (Some "old")
      sample_disk_state sample_at_rest 5 true) as (_ & _ & H).
    destruct H as [H _]; [lia|exact H].
  - destruct (write_survives_crash "instances.json" "instances.json.1.tmp" "new" (Some "old")
      sample_disk_state sample_at_rest 4 false) as (H & _). exact H.
Defined.
