(* ===== verification/ConfigLoad.v ===== *)
(** * [config.load_yaml]: migration of old documents and the load-time notes

    A YAML document as [yaml.safe_load] returns it, the [mode="before"] validators
    that migrate or refuse renamed keys, and [load_yaml] with its three
    once-per-path advisories.  Pydantic's conversion of the remaining document to
    typed fields is the parameter [typed_fields]. *)
From stdpp Require Import base list strings gmap.
From Stdlib Require Import ZArith QArith Lia.
From S2P Require Import Prelude PyStr Config.
Local Open Scope stdpp_scope.
Local Open Scope Z_scope.

(** ** Documents *)

Inductive ykey : Type :=
| KNull | KBool (b : bool) | KInt (z : Z) | KFloat (q : Q) | KStr (s : string).

Inductive yaml : Type :=
| YNull
| YBool (b : bool)
| YInt (z : Z)
| YFloat (q : Q)
| YStr (s : string)
| YList (l : list yaml)
| YMap (d : list (ykey * yaml)).

Notation ymap := (list (ykey * yaml)).

Definition is_key (s : string) (k : ykey) : bool :=
  match k with KStr t => String.eqb s t | _ => false end.

(** [d.get(s)] and [d[s] = v] for a string key. *)
Fixpoint yget (s : string) (d : ymap) : option yaml :=
  match d with
  | [] => None
  | (k, v) :: d' => if is_key s k then Some v else yget s d'
  end.
Fixpoint yset (s : string) (v : yaml) (d : ymap) : ymap :=
  match d with
  | [] => [(KStr s, v)]
  | (k, x) :: d' => if is_key s k then (k, v) :: d' else (k, x) :: yset s v d'
  end.
Definition yhas (s : string) (d : ymap) : bool :=
  match yget s d with Some _ => true | None => false end.
Definition ydel (s : string) (d : ymap) : ymap := filter (fun '(k, _) => is_key s k = false) d.

(** A section of the document, when it is a mapping. *)
Definition section (s : string) (d : ymap) : option ymap :=
  match yget s d with Some (YMap m) => Some m | _ => None end.

Inductive migration : Type :=
| StealthRemoved | GpuModeRenamed | GappsSplit (old : string) | PortsUnknownKeys
| BaseImageRemoved | ShmRenamed.

Inductive load_error : Type :=
| TypeError_                          (* unhashable or unorderable value *)
| Migration (m : migration)           (* ValidationError *)
| FieldTypes                          (* ValidationError: pydantic's own checks *)
| Invalid (e : cfg_error).            (* ValidationError: the field and model validators *)

(** ** The [mode="before"] validators *)

(** [data.get("gapps") in _LEGACY_GAPPS_VENDOR_VALUES]: membership in a dict
    hashes the value, which a list or a mapping refuses. *)
Definition _LEGACY_GAPPS_VENDOR_VALUES : list (string * string) :=
  [("lite", "litegapps"); ("mindthegapps", "mindthegapps")].
Definition in_legacy_gapps (v : option yaml) : result load_error bool :=
  match v with
  | Some (YStr s) => Ok (Dict.mem s _LEGACY_GAPPS_VENDOR_VALUES)
  | Some (YList _) | Some (YMap _) => Err TypeError_
  | _ => Ok false
  end.

Definition _reject_legacy_gapps_vendor_value (data : ymap) : result load_error unit :=
  legacy ← in_legacy_gapps (yget "gapps" data);
  match yget "gapps" data with
  | Some (YStr old) => raise_if legacy (Migration (GappsSplit old))
  | _ => Ok tt
  end.

Definition _reject_base_image (data : ymap) : result load_error unit :=
  raise_if (yhas "base_image" data) (Migration BaseImageRemoved).
Definition _reject_gpu_mode (data : ymap) : result load_error unit :=
  raise_if (yhas "gpu_mode" data) (Migration GpuModeRenamed).
Definition _reject_legacy_shm (data : ymap) : result load_error unit :=
  raise_if (yhas "shm" data) (Migration ShmRenamed).
Definition _reject_stealth_key (data : ymap) : result load_error unit :=
  raise_if (yhas "stealth" data) (Migration StealthRemoved).

(** [k in WELL_KNOWN_SERVICES]. *)
Definition key_well_known (k : ykey) : bool :=
  match k with KStr s => Dict.mem s WELL_KNOWN_SERVICES | _ => false end.

Definition key_numeric (k : ykey) : bool :=
  match k with KBool _ | KInt _ | KFloat _ => true | _ => false end.
Definition key_string (k : ykey) : bool := match k with KStr _ => true | _ => false end.

(** Whether [sorted] can compare the keys. *)
Definition sortable (ks : list ykey) : bool :=
  Nat.leb (length ks) 1 || forallb key_numeric ks || forallb key_string ks.

Definition migrated_mapping (raw_ports : ymap) : list yaml :=
  map (fun '(s, g) =>
         YMap [(KStr "service", YStr s); (KStr "guest", YInt g);
               (KStr "host", default YNull (yget s raw_ports))])
    WELL_KNOWN_SERVICES.

Definition _migrate_legacy_ports_mapping (data : ymap) : result load_error ymap :=
  match section "ports" data with
  | None => Ok data
  | Some [] => Ok (ydel "ports" data)
  | Some raw_ports =>
      let unknown := filter (fun k => key_well_known k = false) (map fst raw_ports) in
      raise_if (negb (sortable unknown)) TypeError_ ;;
      raise_if (bool_decide (unknown <> [])) (Migration PortsUnknownKeys) ;;
      Ok (yset "ports" (YList (migrated_mapping raw_ports)) data)
  end.

(** ** [load_yaml] *)

(** [raw.get("api_version") in _AUTO_BUMPABLE_API_VERSIONS]: the set holds the
    integers 1..7; [True] and equal floats hash and compare alike. *)
Definition auto_bumpable (v : option yaml) : result load_error bool :=
  match v with
  | Some (YInt z) => Ok ((1 <=? z) && (z <=? 7))
  | Some (YBool b) => Ok b
  | Some (YFloat q) => Ok (existsb (fun z => Qeq_bool q (inject_Z z)) [1; 2; 3; 4; 5; 6; 7])
  | Some (YList _) | Some (YMap _) => Err TypeError_
  | _ => Ok false
  end.

(** The [or] chain of [load_yaml], left to right. *)
Definition renamed_key_present (raw : ymap) : result load_error bool :=
  if yhas "stealth" raw then Ok true
  else if match section "display" raw with Some d => yhas "gpu_mode" d | None => false end
  then Ok true
  else
    legacy ← match section "android" raw with
             | Some a => in_legacy_gapps (yget "gapps" a)
             | None => Ok false
             end;
    Ok (legacy ||
        match section "ports" raw with
        | Some p => existsb (fun '(k, _) => negb (key_well_known k)) p
        | None => false
        end).

Inductive load_note : Type :=
| AutoUpgraded (old : option yaml)
| PortsMigrated
| VendorOverridesIntent.

(** The module-level dedup sets, and the notes printed so far. *)
Record load_state := mkLoadState {
  bump_warned : gset string;          (* _API_VERSION_BUMP_WARNED *)
  ports_warned : gset string;         (* _PORTS_MIGRATION_WARNED *)
  vendor_warned : gset string;        (* _GAPPS_VENDOR_OVERRIDE_WARNED *)
  printed : list load_note }.

Definition note_bump (path : string) (old : option yaml) (s : load_state) : load_state :=
  if decide (path ∈ bump_warned s) then s
  else mkLoadState ({[path]} ∪ bump_warned s) (ports_warned s) (vendor_warned s)
         (printed s ++ [AutoUpgraded old]).
Definition note_ports (path : string) (s : load_state) : load_state :=
  if decide (path ∈ ports_warned s) then s
  else mkLoadState (bump_warned s) ({[path]} ∪ ports_warned s) (vendor_warned s)
         (printed s ++ [PortsMigrated]).
Definition note_vendor (path : string) (s : load_state) : load_state :=
  if decide (path ∈ vendor_warned s) then s
  else mkLoadState (bump_warned s) (ports_warned s) ({[path]} ∪ vendor_warned s)
         (printed s ++ [VendorOverridesIntent]).

Section load.
(** Pydantic's conversion of a migrated document to typed fields; it never sees the
    values the validators above have rewritten or refused. *)
Variable typed_fields : yaml -> option InstanceConfig.

Definition on_section (f : ymap -> result load_error unit) (o : option ymap)
  : result load_error unit :=
  match o with Some d => f d | None => Ok tt end.

Definition invalid {A} (r : result cfg_error A) : result load_error A :=
  match r with Ok a => Ok a | Err e => Err (Invalid e) end.

(** The refusing validators of the document and of its sections. *)
Definition before_validators (d : ymap) : result load_error unit :=
  _reject_stealth_key d ;;
  on_section _reject_legacy_gapps_vendor_value (section "android" d) ;;
  on_section _reject_base_image (section "android" d) ;;
  on_section _reject_gpu_mode (section "display" d) ;;
  on_section _reject_legacy_shm (section "resources" d).

(** [InstanceConfig.model_validate(raw)]. *)
Definition model_validate (raw : yaml) : result load_error InstanceConfig :=
  raw ← match raw with
        | YMap d =>
            d ← _migrate_legacy_ports_mapping d;
            before_validators d ;;
            Ok (YMap d)
        | _ => Ok raw
        end;
  c ← match typed_fields raw with Some c => Ok c | None => Err FieldTypes end;
  invalid (InstanceConfig_validate c).

(** The auto-bump block: the possibly rewritten document, and the note. *)
Definition auto_bump (path : string) (raw : yaml) : M load_state load_error yaml :=
  match raw with
  | YMap d =>
      bump ← lift (auto_bumpable (yget "api_version" d));
      if bump : bool then
        renamed ← lift (renamed_key_present d);
        (if renamed : bool then mret tt
         else modify (note_bump path (yget "api_version" d))) ;;
        mret (YMap (yset "api_version" (YInt SUPPORTED_API_VERSION) d))
      else mret raw
  | _ => mret raw
  end.

(** A populated ports mapping with well-known keys only. *)
Definition migratable_ports (raw : yaml) : bool :=
  match raw with
  | YMap d =>
      match section "ports" d with
      | Some ((_ :: _) as p) => forallb (fun '(k, _) => key_well_known k) p
      | _ => false
      end
  | _ => false
  end.

(** [load_yaml(path)] from the parsed document; [path] is the resolved path. *)
Definition load_yaml (path : string) (raw : yaml) : M load_state load_error InstanceConfig :=
  let raw := match raw with YNull => YMap [] | _ => raw end in
  raw ← auto_bump path raw;
  (if migratable_ports raw then modify (note_ports path) else mret tt) ;;
  cfg ← lift (model_validate raw);
  (if bool_decide (is_Some (gapps_vendor (android cfg))) &&
      negb (bool_decide (gapps (android cfg) = gapps_none))
   then modify (note_vendor path) else mret tt) ;;
  mret cfg.
End load.

(** ** Key lookup *)

Lemma is_key_refl s : is_key s (KStr s) = true.
Proof. simpl. by apply String.eqb_refl. Qed.

Lemma is_key_true s k : is_key s k = true -> k = KStr s.
Proof. destruct k; try done. simpl. intros H. apply String.eqb_eq in H. by subst. Qed.

Lemma yget_set_eq s v d : yget s (yset s v d) = Some v.
Proof.
  induction d as [|[k x] d IH]; cbn [yset yget]; [by rewrite is_key_refl|].
  destruct (is_key s k) eqn:Hk; cbn [yget]; by rewrite Hk.
Qed.

Lemma yget_set_ne s t v d : s <> t -> yget t (yset s v d) = yget t d.
Proof.
  intros Hne. induction d as [|[k x] d IH]; cbn [yset yget].
  - destruct (is_key t (KStr s)) eqn:Hk; [|done]. apply is_key_true in Hk. congruence.
  - destruct (is_key s k) eqn:Hk; cbn [yget]; [|by rewrite IH].
    apply is_key_true in Hk as ->. destruct (is_key t (KStr s)) eqn:Ht; [|done].
    apply is_key_true in Ht. congruence.
Qed.

Lemma yget_del_ne s t d : s <> t -> yget t (ydel s d) = yget t d.
Proof.
  intros Hne. unfold ydel. induction d as [|[k x] d IH]; [done|].
  rewrite filter_cons. case_decide as Hk; cbn [yget]; rewrite IH; [done|].
  destruct (is_key t k) eqn:Ht; [|done]. apply is_key_true in Ht as ->.
  exfalso. apply Hk. destruct (is_key s (KStr t)) eqn:Hs; [|done].
  apply is_key_true in Hs. congruence.
Qed.

Lemma yget_del_eq s d : yget s (ydel s d) = None.
Proof.
  unfold ydel. induction d as [|[k x] d IH]; [done|].
  rewrite filter_cons. case_decide as Hk; [|done]. cbn [yget]. by rewrite Hk.
Qed.

(** ** The ports migration *)

Lemma well_known_unknown_nil (p : ymap) :
  forallb (fun '(k, _) => key_well_known k) p = true <->
  filter (fun k => key_well_known k = false) (map fst p) = [].
Proof.
  induction p as [|[k x] p IH]; [done|]. cbn [forallb map fst].
  rewrite filter_cons, andb_true_iff, IH. destruct (key_well_known k) eqn:Hk.
  - rewrite decide_False by done. split; [by intros [_ ?]|done].
  - rewrite decide_True by done. split; [by intros [? _]|done].
Qed.

Lemma migrate_other d d' t :
  _migrate_legacy_ports_mapping d = Ok d' -> t <> "ports" -> yget t d' = yget t d.
Proof.
  unfold _migrate_legacy_ports_mapping. intros H Ht.
  destruct (section "ports" d) as [[|x p]|]; [|inv_result|]; simplify_eq.
  - by apply yget_del_ne.
  - inv_result. by apply yget_set_ne.
  - done.
Qed.

(** The old mapping form of [ports] migrates without loss: a mapping over the
    three well-known services becomes the list that has, for each service, its
    canonical guest port and exactly the host the mapping gave it (or none); every
    other key of the document is unchanged, and migrating again changes nothing. *)
Theorem ports_mapping_lossless d p :
  section "ports" d = Some p -> p <> [] ->
  forallb (fun '(k, _) => key_well_known k) p = true ->
  exists d', _migrate_legacy_ports_mapping d = Ok d' /\
    yget "ports" d' = Some (YList (migrated_mapping p)) /\
    (forall s g, (s, g) ∈ WELL_KNOWN_SERVICES ->
       YMap [(KStr "service", YStr s); (KStr "guest", YInt g);
             (KStr "host", default YNull (yget s p))] ∈ migrated_mapping p) /\
    length (migrated_mapping p) = length WELL_KNOWN_SERVICES /\
    (forall t, t <> "ports" -> yget t d' = yget t d) /\
    _migrate_legacy_ports_mapping d' = Ok d'.
Proof.
  intros Hs Hne Hwk. pose proof (proj1 (well_known_unknown_nil p) Hwk) as Hnil.
  assert (_migrate_legacy_ports_mapping d =
          Ok (yset "ports" (YList (migrated_mapping p)) d)) as Hm.
  { unfold _migrate_legacy_ports_mapping. rewrite Hs. destruct p as [|x p]; [done|].
    by rewrite Hnil. }
  exists (yset "ports" (YList (migrated_mapping p)) d). split; [done|].
  split; [apply yget_set_eq|]. split.
  - intros s g Hin. unfold migrated_mapping. apply list_elem_of_In, in_map_iff.
    exists (s, g). split; [done|]. by apply list_elem_of_In.
  - split; [done|]. split; [intros t Ht; by apply yget_set_ne|].
    unfold _migrate_legacy_ports_mapping, section. by rewrite yget_set_eq.
Qed.

Lemma ports_mapping_lossless_witness :
  let p := [(KStr "adb", YInt 9000)] in
  let d := [(KStr "api_version", YInt 7); (KStr "ports", YMap p)] in
  exists d', _migrate_legacy_ports_mapping d = Ok d' /\
    yget "ports" d' = Some (YList (migrated_mapping p)) /\
    (forall s g, (s, g) ∈ WELL_KNOWN_SERVICES ->
       YMap [(KStr "service", YStr s); (KStr "guest", YInt g);
             (KStr "host", default YNull (yget s p))] ∈ migrated_mapping p) /\
    length (migrated_mapping p) = 3%nat /\
    (forall t, t <> "ports" -> yget t d' = yget t d) /\
    _migrate_legacy_ports_mapping d' = Ok d'.
Proof.
  apply (ports_mapping_lossless
    [(KStr "api_version", YInt 7); (KStr "ports", YMap [(KStr "adb", YInt 9000)])]
    [(KStr "adb", YInt 9000)]); [reflexivity|discriminate|reflexivity].
Defined.

(** ** Loading *)

Section load_facts.
Context (typed_fields : yaml -> option InstanceConfig).
Implicit Types (s : load_state) (d : ymap).

Definition as_document (raw : yaml) : yaml := match raw with YNull => YMap [] | _ => raw end.

(** The part of [load_yaml] after the auto-bump. *)
Definition finish (path : string) (raw : yaml) : M load_state load_error InstanceConfig :=
  (if migratable_ports raw then modify (note_ports path) else mret tt) ;;
  cfg ← lift (model_validate typed_fields raw);
  (if bool_decide (is_Some (gapps_vendor (android cfg))) &&
      negb (bool_decide (gapps (android cfg) = gapps_none))
   then modify (note_vendor path) else mret tt) ;;
  mret cfg.

Lemma load_yaml_finish path raw s :
  load_yaml typed_fields path raw s = (auto_bump path (as_document raw) ≫= finish path) s.
Proof. done. Qed.

Definition overrides (c : InstanceConfig) : bool :=
  bool_decide (is_Some (gapps_vendor (android c))) &&
  negb (bool_decide (gapps (android c) = gapps_none)).

Lemma finish_eq path raw s :
  finish path raw s =
  (model_validate typed_fields raw,
   let s1 := if migratable_ports raw then note_ports path s else s in
   match model_validate typed_fields raw with
   | Ok c => if overrides c then note_vendor path s1 else s1
   | Err _ => s1
   end).
Proof.
  unfold finish, mbind, M_bind, lift, modify.
  destruct (migratable_ports raw); simpl;
    destruct (model_validate typed_fields raw) as [c|e]; simpl; try done;
    fold (overrides c); by destruct (overrides c).
Qed.

Lemma auto_bump_eq path raw s :
  auto_bump path raw s =
  match raw with
  | YMap d =>
      match auto_bumpable (yget "api_version" d) with
      | Ok true =>
          match renamed_key_present d with
          | Ok b => (Ok (YMap (yset "api_version" (YInt SUPPORTED_API_VERSION) d)),
                     if b : bool then s else note_bump path (yget "api_version" d) s)
          | Err e => (Err e, s)
          end
      | Ok false => (Ok raw, s)
      | Err e => (Err e, s)
      end
  | _ => (Ok raw, s)
  end.
Proof.
  destruct raw as [| | | | | |d]; try done. unfold auto_bump, mbind, M_bind, lift.
  destruct (auto_bumpable _) as [[]|]; simpl; try done.
  destruct (renamed_key_present d) as [[]|]; done.
Qed.

(** An old document loads as the current one: when a mapping pins an
    [api_version] between 1 and 7, loading it gives the same configuration, or the
    same error, as loading the document with [api_version] set to 8. *)
Theorem old_version_loads_alike path d s b :
  auto_bumpable (yget "api_version" d) = Ok true -> renamed_key_present d = Ok b ->
  fst (load_yaml typed_fields path (YMap d) s) =
  fst (load_yaml typed_fields path
         (YMap (yset "api_version" (YInt SUPPORTED_API_VERSION) d)) s).
Proof.
  intros Hv Hr. rewrite !load_yaml_finish. unfold mbind, M_bind. cbn [as_document].
  rewrite !auto_bump_eq, Hv, Hr, yget_set_eq. cbn [auto_bumpable andb Z.leb].
  simpl. by rewrite !finish_eq.
Qed.

Lemma note_bump_id path old s : path ∈ bump_warned s -> note_bump path old s = s.
Proof. intros. unfold note_bump. by rewrite decide_True. Qed.
Lemma note_ports_id path s : path ∈ ports_warned s -> note_ports path s = s.
Proof. intros. unfold note_ports. by rewrite decide_True. Qed.
Lemma note_vendor_id path s : path ∈ vendor_warned s -> note_vendor path s = s.
Proof. intros. unfold note_vendor. by rewrite decide_True. Qed.

(** A note records its own path and leaves the other two sets alone. *)
Lemma note_bump_sets path old s :
  path ∈ bump_warned (note_bump path old s) /\
  ports_warned (note_bump path old s) = ports_warned s /\
  vendor_warned (note_bump path old s) = vendor_warned s.
Proof. unfold note_bump. case_decide; simpl; set_solver. Qed.
Lemma note_ports_sets path s :
  path ∈ ports_warned (note_ports path s) /\
  bump_warned (note_ports path s) = bump_warned s /\
  vendor_warned (note_ports path s) = vendor_warned s.
Proof. unfold note_ports. case_decide; simpl; set_solver. Qed.
Lemma note_vendor_sets path s :
  path ∈ vendor_warned (note_vendor path s) /\
  bump_warned (note_vendor path s) = bump_warned s /\
  ports_warned (note_vendor path s) = ports_warned s.
Proof. unfold note_vendor. case_decide; simpl; set_solver. Qed.

(** Each kind of note is silent once its path is in the corresponding set, and the
    other kinds do not touch that set. *)
Lemma notes_settled path b1 b2 b3 old s :
  let step s :=
    let s1 := if b1 : bool then note_bump path old s else s in
    let s2 := if b2 : bool then note_ports path s1 else s1 in
    if b3 : bool then note_vendor path s2 else s2 in
  step (step s) = step s.
Proof.
  intros step. set (t := step s).
  assert ((b1 = true -> path ∈ bump_warned t) /\ (b2 = true -> path ∈ ports_warned t) /\
          (b3 = true -> path ∈ vendor_warned t)) as (H1 & H2 & H3).
  { unfold t, step. set (s1 := if b1 then _ else _). set (s2 := if b2 then _ else _).
    pose proof (note_bump_sets path old s). pose proof (note_ports_sets path s1).
    pose proof (note_vendor_sets path s2).
    destruct b1, b2, b3; subst s1 s2; destruct_and?; split_and!; intros; try done; congruence. }
  clearbody t. unfold step.
  destruct b1; [rewrite (note_bump_id path old t) by auto|];
    (destruct b2; [rewrite (note_ports_id path t) by auto|]);
    (destruct b3; [rewrite (note_vendor_id path t) by auto|]); done.
Qed.

(** Each advisory is printed at most once per path: loading the same document
    from the same path a second time, whether the load succeeds or fails, gives the
    same result and prints nothing. *)
Theorem second_load_is_silent path raw s r s' :
  load_yaml typed_fields path raw s = (r, s') ->
  load_yaml typed_fields path raw s' = (r, s').
Proof.
  rewrite !load_yaml_finish. unfold mbind, M_bind. rewrite !auto_bump_eq.
  destruct (as_document raw) as [| | | | | |d];
    try (rewrite !finish_eq; cbn [migratable_ports]; intros [= <- <-]; f_equal;
         destruct (model_validate _ _) as [c|]; [|done];
         by apply (notes_settled path false false (overrides c) None s)).
  destruct (auto_bumpable (yget "api_version" d)) as [[]|e]; [| |congruence].
  - destruct (renamed_key_present d) as [b|e]; [|congruence].
    rewrite !finish_eq. intros [= <- <-]. f_equal.
    set (doc := YMap (yset _ _ d)). destruct (model_validate _ doc) as [c|].
    + pose proof (notes_settled path (negb b) (migratable_ports doc) (overrides c)
        (yget "api_version" d) s) as H. by destruct b.
    + pose proof (notes_settled path (negb b) (migratable_ports doc) false
        (yget "api_version" d) s) as H. by destruct b.
  - rewrite !finish_eq. intros [= <- <-]. f_equal.
    destruct (model_validate _ (YMap d)) as [c|].
    + by apply (notes_settled path false (migratable_ports (YMap d)) (overrides c) None s).
    + by apply (notes_settled path false (migratable_ports (YMap d)) false None s).
Qed.

(** A hostile document can escape the schema's error contract: with a list or a
    mapping as [api_version], [load_yaml] raises [TypeError], not a validation
    error, before any validator runs. *)
Theorem unhashable_api_version path d v s :
  yget "api_version" d = Some v -> (exists l, v = YList l) \/ (exists m, v = YMap m) ->
  load_yaml typed_fields path (YMap d) s = (Err TypeError_, s).
Proof.
  intros Hv Hl. rewrite load_yaml_finish. unfold mbind, M_bind. cbn [as_document].
  rewrite auto_bump_eq, Hv. by destruct Hl as [[l ->]|[m ->]].
Qed.

Definition late_migration (m : migration) : Prop := m = BaseImageRemoved \/ m = ShmRenamed.

Lemma section_set k t v d : k <> t -> section t (yset k v d) = section t d.
Proof. intros. unfold section. by rewrite yget_set_ne. Qed.

Lemma not_renamed d :
  renamed_key_present d = Ok false ->
  yhas "stealth" d = false /\
  (forall x, section "display" d = Some x -> yhas "gpu_mode" x = false) /\
  (forall x, section "android" d = Some x -> in_legacy_gapps (yget "gapps" x) = Ok false) /\
  (forall x, section "ports" d = Some x -> forallb (fun '(k, _) => key_well_known k) x = true).
Proof.
  unfold renamed_key_present. destruct (yhas "stealth" d); [done|]. intros H.
  split; [done|].
  destruct (match section "display" d with Some x => yhas "gpu_mode" x | None => false end)
    eqn:Hg; [done|].
  apply bind_ok in H as (b & Ha & H). injection H as [-> Hp]%orb_false_iff. split_and!.
  - intros x Hx. by rewrite Hx in Hg.
  - intros x Hx. by rewrite Hx in Ha.
  - intros x Hx. rewrite Hx in Hp. clear -Hp. induction x as [|[k v] x IH]; [done|].
    simpl in Hp |- *. apply orb_false_iff in Hp as [Hk%negb_false_iff Hp].
    rewrite Hk. by apply IH.
Qed.

Lemma before_validators_late d m :
  yhas "stealth" d = false ->
  (forall x, section "display" d = Some x -> yhas "gpu_mode" x = false) ->
  (forall x, section "android" d = Some x -> in_legacy_gapps (yget "gapps" x) = Ok false) ->
  before_validators d = Err (Migration m) -> late_migration m.
Proof.
  intros Hst Hgpu Hgap H. unfold before_validators, _reject_stealth_key in H.
  rewrite Hst in H. apply bind_err in H as [H|(_ & _ & H)]; [done|].
  apply bind_err in H as [H|(_ & _ & H)].
  { destruct (section "android" d) as [a|]; [|done]. simpl in H.
    unfold _reject_legacy_gapps_vendor_value in H. rewrite (Hgap _ eq_refl) in H. simpl in H.
    by destruct (yget "gapps" a) as [[]|]. }
  apply bind_err in H as [H|(_ & _ & H)].
  { destruct (section "android" d) as [a|]; [|done]. apply raise_if_err in H as [_ [= <-]].
    by left. }
  apply bind_err in H as [H|(_ & _ & H)].
  { destruct (section "display" d) as [x|]; [|done]. simpl in H.
    unfold _reject_gpu_mode in H. by rewrite (Hgpu _ eq_refl) in H. }
  destruct (section "resources" d) as [x|]; [|done].
  apply raise_if_err in H as [_ [= <-]]. by right.
Qed.

Lemma model_validate_late d m :
  renamed_key_present d = Ok false ->
  model_validate typed_fields (YMap (yset "api_version" (YInt SUPPORTED_API_VERSION) d)) =
    Err (Migration m) -> late_migration m.
Proof.
  intros (Hst & Hgpu & Hgap & Hpt)%not_renamed H. unfold model_validate in H.
  set (d1 := yset "api_version" (YInt SUPPORTED_API_VERSION) d) in *.
  assert (exists d2, _migrate_legacy_ports_mapping d1 = Ok d2) as [d2 Hd2].
  { unfold _migrate_legacy_ports_mapping, d1. rewrite section_set by done.
    destruct (section "ports" d) as [[|x p]|]; [by eexists| |by eexists].
    specialize (Hpt _ eq_refl). rewrite (proj1 (well_known_unknown_nil _) Hpt).
    by eexists. }
  assert (forall t, t <> "ports" -> t <> "api_version" -> yget t d2 = yget t d) as Hsame.
  { intros t Ht Ht'. rewrite (migrate_other _ _ _ Hd2 Ht). by apply yget_set_ne. }
  rewrite Hd2 in H. apply bind_err in H as [H|(raw & _ & H)].
  - apply bind_err in H as [[=]|(d3 & [= <-] & H)].
    apply bind_err in H as [H|(_ & _ & [=])].
    apply (before_validators_late d2); [| |by unfold section; rewrite Hsame|done].
    + unfold yhas. by rewrite Hsame.
    + unfold section. by rewrite Hsame.
  - apply bind_err in H as [H|(c & _ & H)]; [by destruct (typed_fields raw)|].
    by destruct (InstanceConfig_validate c).
Qed.

(** No contradictory advice: when a load ends in one of the migration errors
    for [stealth], [gpu_mode], a vendor-named [gapps] or unknown [ports] keys, the
    "auto-upgraded, run apply" note was not printed. *)
Theorem no_upgrade_note_with_migration_error path raw s m s' :
  load_yaml typed_fields path raw s = (Err (Migration m), s') -> ~ late_migration m ->
  bump_warned s' = bump_warned s /\
  (printed s' = printed s \/ printed s' = printed s ++ [PortsMigrated]).
Proof.
  assert (forall r s1, finish path r s = (Err (Migration m), s1) ->
    bump_warned s1 = bump_warned s /\
    (printed s1 = printed s \/ printed s1 = printed s ++ [PortsMigrated])) as Hfin.
  { intros r s1. rewrite finish_eq. destruct (model_validate _ r) as [|e]; [done|].
    intros [= _ <-]. destruct (migratable_ports r); [|by auto]. unfold note_ports.
    case_decide; simpl; auto. }
  rewrite load_yaml_finish. unfold mbind, M_bind. rewrite auto_bump_eq. intros H Hlate.
  destruct (as_document raw) as [| | | | | |d]; try by eapply Hfin.
  destruct (auto_bumpable _) as [[]|]; [|by eapply Hfin|by simplify_eq; auto].
  destruct (renamed_key_present d) as [[]|e] eqn:Hr; [by eapply Hfin| |by simplify_eq; auto].
  exfalso. apply Hlate. rewrite finish_eq in H. eapply model_validate_late; [exact Hr|].
  congruence.
Qed.
End load_facts.

(** Concrete documents; the typed view of any document is the default config. *)
Definition old_document : ymap :=
  [(KStr "api_version", YInt 3); (KStr "lifecycle", YStr "durable")].
Definition empty_state : load_state := mkLoadState ∅ ∅ ∅ [].

Lemma old_version_loads_alike_witness :
  let load := load_yaml (fun _ => Some InstanceConfig_default) "/a/beetroot.yaml" in
  auto_bumpable (yget "api_version" old_document) = Ok true /\
  fst (load (YMap old_document) empty_state) =
  fst (load (YMap (yset "api_version" (YInt SUPPORTED_API_VERSION) old_document)) empty_state).
Proof.
  split; [reflexivity|].
  apply (old_version_loads_alike (fun _ => Some InstanceConfig_default) "/a/beetroot.yaml"
    old_document empty_state false); reflexivity.
Defined.

Lemma second_load_is_silent_witness :
  let load := load_yaml (fun _ => Some InstanceConfig_default) "/a/beetroot.yaml" in
  exists s', load (YMap old_document) empty_state = (Ok InstanceConfig_default, s') /\
    printed s' = [AutoUpgraded (Some (YInt 3))] /\
    load (YMap old_document) s' = (Ok InstanceConfig_default, s').
Proof.
  eexists. split; [vm_compute; reflexivity|]. split; [reflexivity|].
  apply (second_load_is_silent (fun _ => Some InstanceConfig_default) "/a/beetroot.yaml"
    (YMap old_document) empty_state). vm_compute. reflexivity.
Defined.

Lemma unhashable_api_version_witness :
  let d := [(KStr "api_version", YList [YInt 8])] in
  load_yaml (fun _ => Some InstanceConfig_default) "/a" (YMap d) empty_state =
    (Err TypeError_, empty_state).
Proof.
  apply (unhashable_api_version (fun _ => Some InstanceConfig_default) "/a"
    [(KStr "api_version", YList [YInt 8])] (YList [YInt 8])); [reflexivity|].
  left. exists [YInt 8]. reflexivity.
Defined.

Lemma no_upgrade_note_with_migration_error_witness :
  let d := [(KStr "api_version", YInt 3); (KStr "stealth", YMap [])] in
  exists s', load_yaml (fun _ => None) "/a" (YMap d) empty_state =
      (Err (Migration StealthRemoved), s') /\
    bump_warned s' = bump_warned empty_state /\
    (printed s' = printed empty_state \/
     printed s' = printed empty_state ++ [PortsMigrated]).
Proof.
  eexists. split; [vm_compute; reflexivity|].
  apply (no_upgrade_note_with_migration_error (fun _ => None) "/a"
    (YMap [(KStr "api_version", YInt 3); (KStr "stealth", YMap [])]) empty_state
    StealthRemoved); [vm_compute; reflexivity|]. intros [H|H]; discriminate.
Defined.
