(* ===== verification/Render.v ===== *)
(** * Rendering a configuration: [.env], the compose override, the inert-field advisory

    [render_env], [render_compose_ports_override], [inert_fields] and
    [warn_inert_fields] of [config.py], with readers for the two files as docker
    compose and the boot script consume them. *)
From stdpp Require Import base list strings gmap.
From Stdlib Require Import ZArith QArith Lia Ascii.
From S2P Require Import Prelude PyStr Config Ports.
Local Open Scope stdpp_scope.
Local Open Scope Z_scope.

Definition _STEALTH_PATH_DEFAULTS : list (string * string) :=
  [("magisk_db", "/data/adb/magisk.db");
   ("modules_dir", "/data/adb/modules_update");
   ("frida_bin", "/data/local/tmp/frida-server")].

(** [{**_STEALTH_PATH_DEFAULTS, **(stealth_paths or {})}]. *)
Definition resolved_paths (stealth_paths : option (list (string * string)))
  : list (string * string) :=
  fold_left (fun d '(k, v) => Dict.set k v d) (default [] stealth_paths)
    _STEALTH_PATH_DEFAULTS.

Definition path_of (k : string) (d : list (string * string)) : string :=
  default "" (Dict.get k d).

(** The variables [render_env] writes, in order.  [float_repr] is Python's [repr]
    of a float, [has_node] the render-node probe of the host. *)
Definition env_vars (float_repr : Q -> string) (has_node : bool) (name : string)
    (cfg : InstanceConfig) (stealth_paths : option (list (string * string)))
  : list (string * string) :=
  let paths := resolved_paths stealth_paths in
  [("INSTANCE_NAME", name);
   ("BASE_IMAGE", base_image_tag (android cfg));
   ("MEM_LIMIT", mem (resources cfg));
   ("CPUS", float_repr (cpus (resources cfg)));
   ("SHM_SIZE", shared_mem (resources cfg));
   ("PIDS_LIMIT", str_of_Z (pids_limit (resources cfg)));
   ("DISPLAY_WIDTH", str_of_Z (width (display cfg)));
   ("DISPLAY_HEIGHT", str_of_Z (height (display cfg)));
   ("DISPLAY_FPS", str_of_Z (fps (display cfg)));
   ("DISPLAY_GPU", resolve_rendering has_node (rendering (display cfg)));
   ("BEETROOT_DENYLIST_PACKAGES", join "," (denylist (magisk cfg)));
   ("BEETROOT_MAGISK_DB", path_of "magisk_db" paths);
   ("BEETROOT_MODULES_DIR", path_of "modules_dir" paths);
   ("BEETROOT_FRIDA_BIN", path_of "frida_bin" paths)] ++
  match mem_reservation (resources cfg) with Some s => [("MEM_RESERVATION", s)] | None => [] end ++
  match memswap_limit (resources cfg) with Some s => [("MEMSWAP_LIMIT", s)] | None => [] end.

Definition env_line (kv : string * string) : string := kv.1 +:+ "=" +:+ kv.2.

Definition nl : string := String newline "".

Definition render_env float_repr has_node name cfg stealth_paths : string :=
  join nl (map env_line (env_vars float_repr has_node name cfg stealth_paths)) +:+ nl.

Definition _COMPOSE_SERVICE_NAME : string := "phone".

Definition quote_char : ascii := ascii_of_nat 34.

(** [f'      - "{rp.host}:{rp.guest}"']. *)
Definition port_line (rp : ResolvedPort) : string :=
  "      - " +:+ String quote_char (str_of_Z (rp_host rp) +:+
    String ":" (str_of_Z (rp_guest rp) +:+ String quote_char "")).

Definition render_compose_ports_override (resolved : list ResolvedPort) : string :=
  join nl (["services:"; "  " +:+ _COMPOSE_SERVICE_NAME +:+ ":"; "    ports:"] ++
           map port_line resolved) +:+ nl.

(** ** The inert-field advisory *)

Inductive inert_field : Type :=
| InertGapps (intent : GappsIntent)
| InertFrida
| InertDenylist
| InertModules
| InertDisplay
| InertPorts.

Definition is_well_known (m : PortMapping) : bool :=
  match well_known_guest (service m) with Some _ => true | None => false end.

Definition add_if (c : bool) (f : inert_field) : list inert_field := if c then [f] else [].

Definition inert_fields (cfg : InstanceConfig) : list inert_field :=
  if bool_decide (binder cfg <> binder_vm) then []
  else
    add_if (bool_decide (gapps (android cfg) <> gapps_none)) (InertGapps (gapps (android cfg))) ++
    add_if (bool_decide (is_Some (frida cfg))) InertFrida ++
    add_if (bool_decide (denylist (magisk cfg) <> []) &&
            bool_decide (denylist (magisk cfg) <> denylist Magisk_default)) InertDenylist ++
    add_if (negb (match modules cfg with [] => true | _ => false end)) InertModules ++
    add_if (bool_decide (display cfg <> Display_default)) InertDisplay ++
    add_if (negb (forallb is_well_known (ports cfg))) InertPorts.

(** [warn_inert_fields]: the fields its note names, or no note. *)
Definition warn_inert_fields (cfg : InstanceConfig) : option (list inert_field) :=
  match inert_fields cfg with [] => None | l => Some l end.

(** ** Readers *)

(** Lines of a newline-terminated file. *)
Definition file_lines (text : string) : list string := split_on newline (chop_newline text).

(** The [KEY=value] lines of an env file. *)
Definition parse_env (text : string) : list (string * string) :=
  omap (fun line =>
          match partition_on "="%char line with
          | (k, Some v) => Some (k, v)
          | (_, None) => None
          end) (file_lines text).

(** The boot script's [IFS=,] split of the denylist variable. *)
Definition parse_denylist (value : string) : list string := split_on ","%char value.

(** One entry of the override's port list. *)
Definition parse_port_line (line : string) : option (Z * Z) :=
  match split_on quote_char line with
  | [_; body; _] =>
      match split_on ":"%char body with
      | [h; g] => h ← Z_of_digits h; g ← Z_of_digits g; Some (h, g)
      | _ => None
      end
  | _ => None
  end.

Definition parse_override (text : string) : option (list (Z * Z)) :=
  match file_lines text with
  | "services:" :: "  phone:" :: "    ports:" :: entries => mapM parse_port_line entries
  | _ => None
  end.

(** ** Round trips *)

Definition free (c : ascii) (s : string) : Prop := c ∉ chars s.

Lemma free_app c s t : free c s -> free c t -> free c (s +:+ t).
Proof. unfold free. rewrite chars_app. set_solver. Qed.

Lemma free_literal c s : forallb (fun d => negb (Ascii.eqb d c)) (chars s) = true -> free c s.
Proof.
  rewrite forallb_forall. intros H Hin%list_elem_of_In%H. by rewrite Ascii.eqb_refl in Hin.
Qed.

Ltac solve_free := by (apply free_literal; vm_compute; reflexivity).

Lemma file_lines_join l :
  l <> [] -> Forall (free newline) l -> file_lines (join nl l +:+ nl) = l.
Proof. intros. unfold file_lines. rewrite chop_newline_app. by apply split_join. Qed.

Lemma partition_on_app c s t :
  free c s -> partition_on c (s +:+ String c t) = (s, Some t).
Proof.
  unfold free. induction s as [|d s IH]; intros H.
  - rewrite app_empty_str. simpl. by destruct (ascii_dec c c).
  - rewrite app_cons_str. cbn in H |- *. destruct (ascii_dec d c) as [->|]; [set_solver|].
    by rewrite IH by set_solver.
Qed.

Lemma parse_env_line k v :
  free "=" k -> partition_on "="%char (env_line (k, v)) = (k, Some v).
Proof. intros. by apply partition_on_app. Qed.

Lemma parse_env_vars vars :
  vars <> [] -> Forall (fun '(k, v) => free "=" k /\ free newline k /\ free newline v) vars ->
  parse_env (join nl (map env_line vars) +:+ nl) = vars.
Proof.
  intros Hne Hv. unfold parse_env. rewrite file_lines_join.
  - clear Hne. induction Hv as [|[k v] vars (Hk & _) _ IH]; [done|].
    cbn [map omap list_omap]. rewrite parse_env_line by done. by f_equal.
  - by destruct vars.
  - apply Forall_map. eapply Forall_impl; [exact Hv|]. intros [k v] (_ & Hk & Hn).
    unfold env_line. simpl. repeat apply free_app; [done|solve_free|done].
Qed.

(** No user-supplied string of the configuration spans two lines. *)
Definition single_line float_repr has_node name cfg sp : Prop :=
  Forall (fun '(_, v) => free newline v) (env_vars float_repr has_node name cfg sp).

Lemma env_keys_clean float_repr has_node name cfg sp :
  Forall (fun '(k, _) => free "=" k /\ free newline k)
    (env_vars float_repr has_node name cfg sp).
Proof.
  unfold env_vars. apply Forall_app. split; [repeat constructor; solve_free|].
  apply Forall_app. split; [destruct (mem_reservation _)|destruct (memswap_limit _)];
    repeat constructor; solve_free.
Qed.

Lemma env_keys_NoDup float_repr has_node name cfg sp :
  Dict.wf (env_vars float_repr has_node name cfg sp).
Proof.
  unfold env_vars, Dict.wf, Dict.keys.
  destruct (mem_reservation _), (memswap_limit _); apply (bool_decide_unpack _);
    vm_compute; exact I.
Qed.

(** The [.env] file says what the configuration says: when no value spans two
    lines, reading the rendered file back gives every variable once, with its
    value, in order — and the denylist variable splits on commas into exactly the
    configured entries when the schema accepted them. *)
Theorem render_env_roundtrip float_repr has_node name cfg sp :
  single_line float_repr has_node name cfg sp -> config_wf cfg ->
  denylist (magisk cfg) <> [] ->
  let vars := parse_env (render_env float_repr has_node name cfg sp) in
  vars = env_vars float_repr has_node name cfg sp /\ Dict.wf vars /\
  exists v, Dict.get "BEETROOT_DENYLIST_PACKAGES" vars = Some v /\
    parse_denylist v = denylist (magisk cfg).
Proof.
  intros Hs Hc Hne. unfold render_env.
  rewrite parse_env_vars; [|done|].
  - split; [done|]. split; [apply env_keys_NoDup|]. eexists. split; [reflexivity|].
    apply (split_join ","%char); [done|].
    eapply Forall_impl; [apply (cw_denylist _ Hc)|].
    intros e (body & He & Hb)%denylist_match_text%denylist_pkg_match_spec.
    assert (forall w, plus_full is_pkg_char w = true -> free "," w) as Hw.
    { intros w [_ H]%plus_full_spec Hin%list_elem_of_In. unfold all_chars in H.
      rewrite forallb_forall in H. by apply H in Hin. }
    assert (free "," body) as Hbody.
    { destruct Hb as [?|(p & q & -> & ? & ?)]; [by apply Hw|].
      apply free_app; [by apply Hw|]. rewrite <- (app_empty_str q).
      change (String "/" ("" +:+ q)) with ("/" +:+ q).
      apply free_app; [solve_free|by apply Hw]. }
    destruct He as [->| ->]; [done|]. apply free_app; [done|solve_free].
  - pose proof (env_keys_clean float_repr has_node name cfg sp) as Hk.
    unfold single_line in Hs. revert Hs Hk. generalize (env_vars float_repr has_node name cfg sp).
    intros l Hs Hk. rewrite Forall_forall in Hs, Hk. apply Forall_forall.
    intros [k v] Hin. specialize (Hs _ Hin). specialize (Hk _ Hin). simpl in *. naive_solver.
Qed.

Definition plain_repr (q : Q) : string := str_of_Z (Qnum q).

Lemma default_config_wf : config_wf InstanceConfig_default.
Proof.
  apply (InstanceConfig_validate_exact _ InstanceConfig_default). vm_compute. reflexivity.
Qed.

Lemma render_env_roundtrip_witness :
  parse_env (render_env plain_repr false "alpha" InstanceConfig_default None)
  = env_vars plain_repr false "alpha" InstanceConfig_default None.
Proof.
  apply (render_env_roundtrip plain_repr false "alpha" InstanceConfig_default None).
  - unfold single_line. repeat constructor; solve_free.
  - apply default_config_wf.
  - done.
Defined.

(** A validated entry may end in a newline ([re.match] with a dollar anchor), and
    then the boot script sees another denylist. *)
Definition newline_config : InstanceConfig :=
  let c := InstanceConfig_default in
  mkInstanceConfig (api_version c) (lifecycle c) (android c) (display c) (resources c)
    (frida c) (modules c) (mkMagisk ["com.a" +:+ nl; "com.b"]) (ports c) (binder c) (vm c).

(** The denylist a boot script reads from the rendered file. *)
Definition booted_denylist (cfg : InstanceConfig) : option (list string) :=
  parse_denylist <$> Dict.get "BEETROOT_DENYLIST_PACKAGES"
    (parse_env (render_env plain_repr false "alpha" cfg None)).

(** Validation does not make the file safe: there is a configuration the schema
    accepts whose [.env] gives the boot script a denylist with its last package
    missing, because the entry grammar tolerates a trailing newline. *)
Theorem accepted_denylist_is_truncated :
  InstanceConfig_validate newline_config = Ok newline_config /\
  denylist (magisk newline_config) = ["com.a" +:+ nl; "com.b"] /\
  booted_denylist newline_config = Some ["com.a"].
Proof. by vm_compute. Qed.

(** The three path variables, by the key of the override. *)
Lemma get_env_path float_repr has_node name cfg sp key var :
  (key, var) ∈ [("magisk_db", "BEETROOT_MAGISK_DB"); ("modules_dir", "BEETROOT_MODULES_DIR");
                ("frida_bin", "BEETROOT_FRIDA_BIN")] ->
  Dict.get var (env_vars float_repr has_node name cfg sp)
  = Some (path_of key (resolved_paths sp)).
Proof.
  rewrite !elem_of_cons, elem_of_nil.
  intros [[= -> ->]|[[= -> ->]|[[= -> ->]|[]]]]; reflexivity.
Qed.

Lemma get_fold_set (sp d : list (string * string)) k :
  Dict.wf sp ->
  Dict.get k (fold_left (fun d '(k, v) => Dict.set k v d) sp d)
  = match Dict.get k sp with Some v => Some v | None => Dict.get k d end.
Proof.
  unfold Dict.wf, Dict.keys. revert d.
  induction sp as [|[k' v'] sp IH]; intros d Hwf; [done|].
  apply NoDup_cons in Hwf as [Hn Hwf]. cbn [fold_left]. rewrite IH by done. cbn [Dict.get].
  case_decide as Hk; subst.
  - apply (Dict.get_None k' sp) in Hn. by rewrite Hn, Dict.get_set_eq.
  - by rewrite Dict.get_set_ne by done.
Qed.

(** A registered stealth path reaches the boot script: each of the three path
    variables holds the override of the instance's row when there is one and the
    stock path otherwise, and keys the defaults do not name change nothing. *)
Theorem stealth_paths_override float_repr has_node name cfg sp key var stock :
  (key, var, stock) ∈
    [("magisk_db", "BEETROOT_MAGISK_DB", "/data/adb/magisk.db");
     ("modules_dir", "BEETROOT_MODULES_DIR", "/data/adb/modules_update");
     ("frida_bin", "BEETROOT_FRIDA_BIN", "/data/local/tmp/frida-server")] ->
  Dict.wf sp ->
  Dict.get var (env_vars float_repr has_node name cfg (Some sp))
  = Some (default stock (Dict.get key sp)).
Proof.
  intros Hin Hwf. rewrite (get_env_path _ _ _ _ _ key var) by set_solver.
  unfold path_of, resolved_paths. cbn [default from_option id]. rewrite get_fold_set by done.
  destruct (Dict.get key sp); [done|].
  rewrite !elem_of_cons, elem_of_nil in Hin.
  by destruct Hin as [[= -> -> ->]|[[= -> -> ->]|[[= -> -> ->]|[]]]].
Qed.

Lemma stealth_paths_override_witness :
  Dict.get "BEETROOT_FRIDA_BIN" (env_vars plain_repr false "alpha" InstanceConfig_default
     (Some [("frida_bin", "/data/x")])) = Some "/data/x".
Proof.
  apply (stealth_paths_override plain_repr false "alpha" InstanceConfig_default
    [("frida_bin", "/data/x")] "frida_bin" "BEETROOT_FRIDA_BIN" "/data/local/tmp/frida-server").
  - set_solver.
  - apply (bool_decide_unpack _). vm_compute. exact I.
Defined.

Lemma number_free z c : 0 <= z -> is_digit c = false -> free c (str_of_Z z).
Proof. apply str_of_Z_free. Qed.

Lemma parse_port_line_ok rp : 0 <= rp_host rp -> 0 <= rp_guest rp ->
  parse_port_line (port_line rp) = Some (rp_host rp, rp_guest rp).
Proof.
  intros Hh Hg. unfold parse_port_line, port_line.
  set (body := str_of_Z (rp_host rp) +:+ String ":" (str_of_Z (rp_guest rp))).
  replace (str_of_Z (rp_host rp) +:+ String ":" (str_of_Z (rp_guest rp) +:+ String quote_char ""))
    with (body +:+ String quote_char "").
  2:{ unfold body. by rewrite app_assoc_str, app_cons_str. }
  rewrite split_on_app by (apply free_literal; vm_compute; reflexivity).
  assert (free quote_char body) as Hb.
  { unfold body. apply free_app; [by apply number_free|].
    change (free quote_char (":" +:+ str_of_Z (rp_guest rp))).
    apply free_app; [solve_free|by apply number_free]. }
  rewrite split_on_app by exact Hb. cbn [split_on].
  unfold body. rewrite split_on_app, split_on_free by (by apply number_free).
  by rewrite !Z_of_digits_str.
Qed.

Lemma port_line_free rp : 0 <= rp_host rp -> 0 <= rp_guest rp -> free newline (port_line rp).
Proof.
  intros. unfold port_line. apply free_app; [solve_free|].
  change (free newline (String quote_char "" +:+ (str_of_Z (rp_host rp) +:+ (":" +:+
    (str_of_Z (rp_guest rp) +:+ String quote_char ""))))).
  repeat apply free_app; try solve_free; by apply number_free.
Qed.

(** The compose override publishes exactly the resolved mappings: docker compose
    reads back the host and guest port of every mapping, in order, none added and
    none lost. *)
Theorem render_override_roundtrip resolved :
  Forall (fun rp => 0 <= rp_host rp /\ 0 <= rp_guest rp) resolved ->
  parse_override (render_compose_ports_override resolved)
  = Some (map (fun rp => (rp_host rp, rp_guest rp)) resolved).
Proof.
  intros Hr. unfold parse_override, render_compose_ports_override.
  rewrite file_lines_join; [|done|].
  - transitivity (mapM parse_port_line (map port_line resolved)); [reflexivity|].
    induction Hr as [|rp l [Hh Hg] _ IH]; [done|].
    cbn [map mapM]. by rewrite parse_port_line_ok, IH.
  - apply Forall_app. split; [repeat constructor; solve_free|].
    apply Forall_map. eapply Forall_impl; [exact Hr|]. intros rp []. by apply port_line_free.
Qed.

Lemma render_override_roundtrip_witness :
  parse_override (render_compose_ports_override
    [mkResolvedPort (Some "adb") 5555 5555; mkResolvedPort None 80 8080])
  = Some [(5555, 5555); (8080, 80)].
Proof.
  apply (render_override_roundtrip
    [mkResolvedPort (Some "adb") 5555 5555; mkResolvedPort None 80 8080]).
  repeat constructor; simpl; lia.
Defined.

(** ** Which configurations are quiet *)

Lemma add_if_nil c f : add_if c f = [] <-> c = false.
Proof. by destruct c. Qed.

(** No advisory is printed exactly for the configurations every field of which
    the active backend honours: any backend but the VM, or a VM instance without
    GApps, Frida, modules, a changed denylist, a changed display or a port mapping
    outside the well-known services. *)
Theorem quiet_exactly_when_honoured cfg :
  warn_inert_fields cfg = None <->
  (binder cfg = binder_vm ->
   gapps (android cfg) = gapps_none /\ frida cfg = None /\ modules cfg = [] /\
   (denylist (magisk cfg) = [] \/ denylist (magisk cfg) = denylist Magisk_default) /\
   display cfg = Display_default /\
   Forall (fun m => is_well_known m = true) (ports cfg)).
Proof.
  assert (warn_inert_fields cfg = None <-> inert_fields cfg = []) as ->.
  { unfold warn_inert_fields. by destruct (inert_fields cfg). }
  unfold inert_fields. case_bool_decide as Hb; [naive_solver|].
  rewrite !app_nil, !add_if_nil.
  rewrite andb_false_iff, !bool_decide_eq_false, !negb_false_iff.
  assert (forallb is_well_known (ports cfg) = true
          <-> Forall (fun m => is_well_known m = true) (ports cfg)) as ->.
  { rewrite forallb_forall, Forall_forall. by setoid_rewrite list_elem_of_In. }
  assert (is_Some (frida cfg) <-> frida cfg <> None) as -> by (symmetry; apply not_eq_None_Some).
  assert (match modules cfg with [] => true | _ => false end = true
          <-> modules cfg = []) as -> by (by destruct (modules cfg)).
  split.
  - intros (H1 & H2 & H3 & H4 & H5 & H6) _.
    split_and!; try (by apply dec_stable); try done.
    destruct H3; [left|right]; by apply dec_stable.
  - intros (H1 & H2 & H3 & H4 & H5 & H6)%(fun f => f Hb).
    split_and!; try done; try tauto.
Qed.

(** The default configuration on the VM backend. *)
Definition default_on_vm : InstanceConfig :=
  let c := InstanceConfig_default in
  mkInstanceConfig (api_version c) (lifecycle c) (android c) (display c) (resources c)
    (frida c) (modules c) (magisk c) (ports c) binder_vm (vm c).

(** An all-defaults VM instance is not quiet: the schema's own default for
    [android.gapps] is reported as an inert field. *)
Theorem default_vm_config_is_not_quiet :
  InstanceConfig_validate default_on_vm = Ok default_on_vm /\
  warn_inert_fields default_on_vm = Some [InertGapps (gapps (android InstanceConfig_default))].
Proof. by vm_compute. Qed.
