(* ===== verification/HostFs.v ===== *)
(** * The file system and the paths of the host

    Directories and regular files by resolved absolute path, with the calls of
    [pathlib], [os] and [shutil] that the snapshot code makes.  Symbolic links are
    not modelled: resolving a path removes its empty, dot and dot-dot components. *)
From stdpp Require Import base list strings gmap sorting.
From Stdlib Require Import ZArith Lia Ascii.
From S2P Require Import Prelude PyStr.
Local Open Scope stdpp_scope.

Notation path := (list string).

Inductive node : Type :=
| DirN
| FileN (c : string).

#[export] Instance node_eq_dec : EqDecision node.
Proof. solve_decision. Defined.

Notation fs := (gmap path node).

(** The root always exists. *)
Definition node_at (f : fs) (p : path) : option node :=
  match p with [] => Some DirN | _ => f !! p end.

(** [Path.exists]. *)
Definition exists_at (f : fs) (p : path) : bool := bool_decide (node_at f p <> None).

Inductive os_error : Type :=
| IsADirectory | NotADirectory | FileExists | NoSuchFile
| NotRemoved.                        (* [shutil.rmtree] gave up: PermissionError and the like *)

Definition parent (p : path) : path := removelast p.
Arguments parent : simpl never.

(** ** Paths *)

Definition is_dot (c : string) : bool := String.eqb c "" || String.eqb c ".".

(** Follow the components [rest] from [done]. *)
Fixpoint norm (done rest : path) : path :=
  match rest with
  | [] => done
  | c :: r =>
      if is_dot c then norm done r
      else if String.eqb c ".." then norm (parent done) r
      else norm (done ++ [c]) r
  end.

Definition components (s : string) : path := split_on "/"%char s.

(** [Path(s).resolve()] for a process whose working directory is [cwd]. *)
Definition resolve (cwd : path) (s : string) : path :=
  norm (if starts_with "/" s then [] else cwd) (components s).

(** [str(p)]. *)
Definition path_str (p : path) : string := "/" +:+ join "/" p.

(** A name a directory can hold. *)
Definition plain (c : string) : Prop := is_dot c = false /\ c <> ".." /\ "/"%char ∉ chars c.
#[export] Instance plain_dec c : Decision (plain c).
Proof. unfold plain. apply _. Defined.

(** A tree: whatever holds an entry is a directory, and names are plain. *)
Definition fs_wf (f : fs) : Prop := forall p n, f !! p = Some n ->
  p <> [] /\ node_at f (parent p) = Some DirN /\ Forall plain p.

(** ** Calls *)

Section calls.
Abbreviation FM := (M fs os_error).

(** A path that leads through a regular file. *)
Definition under_file (f : fs) (p : path) : bool :=
  existsb (fun k => match node_at f (take k p) with Some (FileN _) => true | _ => false end)
    (seq 0 (length p)).

Definition read_file (p : path) (f : fs) : result os_error string :=
  match node_at f p with
  | Some (FileN c) => Ok c
  | Some DirN => Err IsADirectory
  | None => Err (if under_file f p then NotADirectory else NoSuchFile)
  end.

(** [os.makedirs(.., exist_ok=True)] and [Path.mkdir(parents=True, exist_ok=True)],
    from the existing directory [done]; the result is where the components lead. *)
Fixpoint make_dirs (done rest : path) : FM path :=
  match rest with
  | [] => mret done
  | c :: r =>
      if is_dot c then make_dirs done r
      else if String.eqb c ".." then make_dirs (parent done) r
      else
        let p := done ++ [c] in
        n ← gets (fun f => node_at f p);
        match n with
        | Some DirN => make_dirs p r
        | Some (FileN _) => raise (match r with [] => FileExists | _ => NotADirectory end)
        | None => modify (fun f => <[p := DirN]> f) ;; make_dirs p r
        end
  end.

Definition mkdir_p (p : path) : FM unit := make_dirs [] p ;; mret tt.

(** [open(p, "w")] or [open(p, "wb")], and a write of [c]. *)
Definition write_file (p : path) (c : string) : FM unit := fun f =>
  match node_at f p, node_at f (parent p) with
  | Some DirN, _ => (Err IsADirectory, f)
  | _, Some DirN => (Ok tt, <[p := FileN c]> f)
  | _, Some (FileN _) => (Err NotADirectory, f)
  | _, None => (Err (if under_file f p then NotADirectory else NoSuchFile), f)
  end.

(** Writing in the file opened at [p], or truncating it; a further write at its end. *)
Definition update_file (p : path) (g : string -> string) : FM unit :=
  modify (alter (fun n => match n with FileN c0 => FileN (g c0) | DirN => DirN end) p).
Definition append_file (p : path) (c : string) : FM unit :=
  modify (alter (fun n => match n with FileN c0 => FileN (c0 +:+ c) | DirN => DirN end) p).

(** [os.mkdir] of a tar directory member: an existing directory will do. *)
Definition mkdir_exist_ok (p : path) : FM unit := fun f =>
  match node_at f p with
  | Some DirN => (Ok tt, f)
  | Some (FileN _) => (Err FileExists, f)
  | None => (Ok tt, <[p := DirN]> f)
  end.

(** [shutil.rmtree] that removes everything. *)
Definition rmtree (p : path) (f : fs) : fs :=
  filter (fun '(q, _) => ~ p `prefix_of` q) f.

(** [shutil.rmtree] that stops at an error: of the tree at [p] the entries [l] are still
    there, with the directories above them. *)
Definition left_behind (l : list path) (p q : path) : Prop :=
  q = p \/ Exists (fun r => q `prefix_of` r) l.
#[export] Instance left_behind_dec l p q : Decision (left_behind l p q).
Proof. unfold left_behind. apply _. Defined.

Definition rmtree_partly (l : list path) (p : path) (f : fs) : fs :=
  filter (fun '(q, _) => ~ p `prefix_of` q \/ left_behind l p q) f.

(** [Path.unlink], and with [missing_ok=True]. *)
Definition unlink (p : path) : FM unit := fun f =>
  match node_at f p with
  | Some (FileN _) => (Ok tt, delete p f)
  | Some DirN => (Err IsADirectory, f)
  | None => (Err (if under_file f p then NotADirectory else NoSuchFile), f)
  end.

Definition unlink_missing_ok (p : path) : FM unit := fun f =>
  match unlink p f with
  | (Err NoSuchFile, f') => (Ok tt, f')
  | r => r
  end.

(** [os.replace] of a file. *)
Definition replace (a b : path) : FM unit := fun f =>
  match node_at f a with
  | Some (FileN c) =>
      match write_file b c f with
      | (Ok _, f') => (Ok tt, if decide (a = b) then f' else delete a f')
      | (Err e, _) => (Err e, f)
      end
  | Some DirN => (Err IsADirectory, f)
  | None => (Err NoSuchFile, f)
  end.

Definition string_le (a b : string) : Prop := Is_true (String.leb a b).
#[export] Instance string_le_dec a b : Decision (string_le a b).
Proof. unfold string_le. apply _. Defined.

Definition child_name (p q : path) : option string :=
  match last q with
  | Some c => if decide (q = p ++ [c]) then Some c else None
  | None => None
  end.

(** [sorted(p.iterdir())], names only. *)
Definition children (f : fs) (p : path) : list string :=
  merge_sort string_le (omap (fun '(q, _) => child_name p q) (map_to_list f)).
End calls.

(** The name [tempfile.mkstemp] chooses in a directory, with a prefix and a suffix: a
    plain name that is not in use. *)
Class TempNames := { temp_name : fs -> path -> string -> string -> string }.
Class TempNamesLaws (T : TempNames) : Prop := {
  temp_fresh : forall f d pre suf, f !! (d ++ [temp_name f d pre suf]) = None;
  temp_plain : forall f d pre suf, "/"%char ∉ chars pre -> "/"%char ∉ chars suf ->
    plain (temp_name f d pre suf);
  temp_shape : forall f d pre suf, exists mid, temp_name f d pre suf = pre +:+ mid +:+ suf }.

Definition mkstemp `{T : TempNames} (d : path) (pre suf : string) : M fs os_error path := fun f =>
  let p := d ++ [temp_name f d pre suf] in
  match write_file p "" f with
  | (Ok _, f') => (Ok p, f')
  | (Err e, f') => (Err e, f')
  end.

(** ** Paths, lemmas *)

Lemma norm_app d a b : norm d (a ++ b) = norm (norm d a) b.
Proof.
  revert d. induction a as [|c a IH]; intros d; simpl; [done|].
  destruct (is_dot c); [done|]. by destruct (String.eqb c "..").
Qed.

Lemma norm_plain d p : Forall plain p -> norm d p = d ++ p.
Proof.
  intros Hp. revert d. induction Hp as [|c p (Hd & Hdd & _) _ IH]; intros d; simpl.
  - by rewrite app_nil_r.
  - rewrite Hd. destruct (String.eqb_spec c ".."); [done|]. by rewrite IH, <- app_assoc.
Qed.

Lemma plain_free p : Forall plain p -> Forall (fun c => "/"%char ∉ chars c) p.
Proof. intros Hp. eapply Forall_impl; [exact Hp|]. by intros c (_ & _ & ?). Qed.

Lemma path_str_resolve cwd p : Forall plain p -> resolve cwd (path_str p) = p.
Proof.
  intros Hp. unfold resolve, path_str, components, starts_with.
  change ("/" +:+ join "/" p) with (String "/"%char (join "/" p)).
  rewrite (proj2 (prefix_spec "/" (String "/"%char (join "/" p)))) by (by exists (join "/" p)).
  change (split_on "/" (String "/" (join "/" p))) with ("" :: split_on "/" (join "/" p)).
  simpl. destruct p as [|c p]; [done|].
  rewrite split_join by (by apply plain_free || done). by rewrite norm_plain.
Qed.

Lemma parent_snoc p c : parent (p ++ [c]) = p.
Proof. apply removelast_last. Qed.

Lemma snoc_parent p c : last p = Some c -> p = parent p ++ [c].
Proof.
  intros Hl. destruct p as [|c0 p _] using rev_ind; [done|].
  rewrite last_snoc in Hl. injection Hl as ->. by rewrite parent_snoc.
Qed.

Lemma last_component (cs : path) : removelast cs ++ drop (length cs - 1) cs = cs.
Proof.
  destruct cs as [|c cs _] using rev_ind; [done|].
  by rewrite removelast_last, length_app, Nat.add_sub, drop_app_length.
Qed.

Lemma node_at_cons f p : p <> [] -> node_at f p = f !! p.
Proof. by destruct p. Qed.

Lemma node_at_snoc f p c : node_at f (p ++ [c]) = f !! (p ++ [c]).
Proof. by destruct p. Qed.

Lemma node_at_None f p : node_at f p = None -> p <> [] /\ f !! p = None.
Proof. by destruct p. Qed.

Lemma elem_children f p c : c ∈ children f p <-> is_Some (f !! (p ++ [c])).
Proof.
  unfold children. rewrite merge_sort_Permutation, list_elem_of_omap. split.
  - intros ([q n] & Hin & Hc). apply elem_of_map_to_list in Hin. unfold child_name in Hc.
    destruct (last q); [|done]. case_decide; simplify_eq. eauto.
  - intros [n Hn]. exists (p ++ [c], n). split; [by apply elem_of_map_to_list|].
    unfold child_name. rewrite last_snoc. by rewrite decide_True.
Qed.

(** ** What a call can change *)

(** Outside [t] nothing is changed or removed; only new directories may appear. *)
Definition outside (t : path) (f f' : fs) : Prop := forall p, ~ t `prefix_of` p ->
  f' !! p = f !! p \/ (f !! p = None /\ f' !! p = Some DirN).

(** Moreover no directory disappears. *)
Definition confined (t : path) (f f' : fs) : Prop :=
  outside t f f' /\ (forall p, f !! p = Some DirN -> f' !! p = Some DirN).

#[export] Instance outside_preorder t : PreOrder (outside t).
Proof.
  split; [by intros f p _; left|]. intros f g h H1 H2 p Hp.
  destruct (H1 p Hp) as [Ha|[Ha Hb]], (H2 p Hp) as [Hc|[Hc Hd]]; rewrite ?Hc, ?Ha; auto.
  right. split; congruence.
Qed.

#[export] Instance confined_preorder t : PreOrder (confined t).
Proof.
  split; [split; [reflexivity|done]|].
  intros f g h [H1 H2] [H3 H4]. split; [by transitivity g|auto].
Qed.

Lemma confined_insert_dir t f p : f !! p = None -> confined t f (<[p := DirN]> f).
Proof.
  intros Hp. split; intros q Hq; (destruct (decide (p = q)) as [->|Hne];
    [rewrite lookup_insert_eq; auto|rewrite lookup_insert_ne by done; auto]).
Qed.

Lemma confined_insert_file t f p c :
  t `prefix_of` p -> f !! p <> Some DirN -> confined t f (<[p := FileN c]> f).
Proof.
  intros Ht Hp. split; intros q Hq; (destruct (decide (p = q)) as [->|Hne];
    [|rewrite lookup_insert_ne by done; auto]); [done|congruence].
Qed.

Lemma confined_update t f p g : t `prefix_of` p -> confined t f (snd (update_file p g f)).
Proof.
  intros Ht. simpl. split; intros q Hq; (destruct (decide (p = q)) as [->|Hne];
    [|rewrite lookup_alter_ne by done; auto]); [done|].
  by rewrite lookup_alter_eq, Hq.
Qed.

Lemma confined_append t f p c : t `prefix_of` p -> confined t f (snd (append_file p c f)).
Proof. apply confined_update. Qed.

Lemma make_dirs_confined t d r f : confined t f (snd (make_dirs d r f)).
Proof.
  revert d f. induction r as [|c r IH]; intros d f; simpl; [reflexivity|].
  destruct (is_dot c); [done|]. destruct (String.eqb c ".."); [done|].
  unfold mbind, M_bind, gets, modify, raise. simpl. rewrite node_at_snoc.
  destruct (f !! (d ++ [c])) as [[]|] eqn:Hn; simpl; [done|done|].
  etransitivity; [by apply (confined_insert_dir t _ (d ++ [c]))|apply IH].
Qed.

Lemma make_dirs_ok d r f q f' : make_dirs d r f = (Ok q, f') -> q = norm d r.
Proof.
  revert d f. induction r as [|c r IH]; intros d f; simpl; [by intros [= <- <-]|].
  destruct (is_dot c); [by apply IH|]. destruct (String.eqb c ".."); [by apply IH|].
  unfold mbind, M_bind, gets, modify, raise. simpl. rewrite node_at_snoc.
  destruct (f !! (d ++ [c])) as [[]|]; [by apply IH|done|by apply IH].
Qed.

Lemma write_file_confined t p c f : t `prefix_of` p -> confined t f (snd (write_file p c f)).
Proof.
  intros Ht. unfold write_file. destruct (node_at f p) as [[]|] eqn:Hn; [done| |];
    (destruct (node_at f (parent p)) as [[]|]; [|done|done]); apply confined_insert_file;
    try done; destruct p; simpl in *; congruence.
Qed.

Lemma write_file_ok p c f f' :
  write_file p c f = (Ok tt, f') ->
  f' = <[p := FileN c]> f /\ p <> [] /\ f !! p <> Some DirN /\ node_at f (parent p) = Some DirN.
Proof.
  unfold write_file. intros H. destruct p as [|x p]; [done|].
  change (node_at f (x :: p)) with (f !! (x :: p)) in H.
  destruct (f !! (x :: p)) as [[]|] eqn:Hp, (node_at f (parent (x :: p))) as [[]|] eqn:Hq;
    simplify_eq; split_and!; congruence.
Qed.

Lemma mkdir_exist_ok_confined t p f : confined t f (snd (mkdir_exist_ok p f)).
Proof.
  unfold mkdir_exist_ok. destruct (node_at f p) as [[]|] eqn:Hn; [done..|].
  apply confined_insert_dir. by apply node_at_None.
Qed.

Lemma lookup_rmtree p f q :
  rmtree p f !! q = if decide (p `prefix_of` q) then None else f !! q.
Proof.
  unfold rmtree. case_decide as Hp.
  - apply map_lookup_filter_None. right. intros n _. tauto.
  - destruct (f !! q) as [n|] eqn:Hn.
    + by apply map_lookup_filter_Some.
    + apply map_lookup_filter_None. by left.
Qed.

Lemma rmtree_outside p f : outside p f (rmtree p f).
Proof. intros q Hq. left. by rewrite lookup_rmtree, decide_False. Qed.

Lemma lookup_rmtree_partly l p f q :
  rmtree_partly l p f !! q = if decide (p `prefix_of` q /\ ~ left_behind l p q) then None else f !! q.
Proof.
  unfold rmtree_partly. case_decide as Hp.
  - apply map_lookup_filter_None. right. intros n _. tauto.
  - destruct (f !! q) as [n|] eqn:Hn.
    + apply map_lookup_filter_Some. split; [done|].
      destruct (decide (p `prefix_of` q)); [right|by left]. apply dec_stable. tauto.
    + apply map_lookup_filter_None. by left.
Qed.

Lemma rmtree_partly_outside l p f : outside p f (rmtree_partly l p f).
Proof. intros q Hq. left. rewrite lookup_rmtree_partly, decide_False; [done|]. by intros [? _]. Qed.

(** The directory itself stays, with something in it or not. *)
Lemma rmtree_partly_root l p f : node_at (rmtree_partly l p f) p = node_at f p.
Proof.
  destruct p as [|x p]; [done|]. unfold node_at. rewrite lookup_rmtree_partly, decide_False; [done|].
  intros [_ []]. by left.
Qed.

(** ** Creating directories *)

Lemma length_removelast_le {A} (l : list A) : (length (removelast l) <= length l)%nat.
Proof. induction l as [|x [|y l] IH]; simpl in *; lia. Qed.

Lemma make_dirs_deeper d r f p : (length d + length r < length p)%nat ->
  snd (make_dirs d r f) !! p = f !! p.
Proof.
  revert d f. induction r as [|c r IH]; intros d f Hp; simpl in *; [done|].
  destruct (is_dot c); [apply IH; lia|]. destruct (String.eqb c "..").
  { apply IH. unfold parent. pose proof (length_removelast_le d). lia. }
  unfold mbind, M_bind, gets, modify, raise. simpl.
  assert (length (d ++ [c]) + length r < length p)%nat as Hl by (rewrite length_app; simpl; lia).
  destruct (node_at f (d ++ [c])) as [[]|]; simpl; [by apply IH|done|].
  rewrite IH by done. rewrite lookup_insert_ne; [done|]. intros <-. rewrite length_app in *. simpl in *. lia.
Qed.

(** Making a directory puts nothing into it. *)
Lemma mkdir_p_below p q f : p `prefix_of` q -> q <> p -> snd (mkdir_p p f) !! q = f !! q.
Proof.
  intros [k ->] Hne. unfold mkdir_p, mbind, M_bind.
  assert (snd (make_dirs [] p f) !! (p ++ k) = f !! (p ++ k)) as H.
  { apply make_dirs_deeper. rewrite length_app. destruct k; [by rewrite app_nil_r in Hne|simpl; lia]. }
  by destruct (make_dirs [] p f) as [[] g].
Qed.

Lemma wf_below f p q : fs_wf f -> node_at f p = None -> p `prefix_of` q -> f !! q = None.
Proof.
  intros Hf Hp [l ->]. induction l as [|c l IH] using rev_ind.
  - rewrite app_nil_r. by apply node_at_None.
  - destruct (f !! (p ++ l ++ [c])) as [n|] eqn:Hn; [|done].
    destruct (Hf _ _ Hn) as (_ & Hd & _). rewrite app_assoc, parent_snoc in Hd.
    apply node_at_None in Hp as [Hne _]. rewrite node_at_cons in Hd by (by destruct p).
    congruence.
Qed.

Lemma make_dirs_plain d c r f :
  plain c -> make_dirs d (c :: r) f =
  match node_at f (d ++ [c]) with
  | Some DirN => make_dirs (d ++ [c]) r f
  | Some (FileN _) => (Err (match r with [] => FileExists | _ => NotADirectory end), f)
  | None => make_dirs (d ++ [c]) r (<[d ++ [c] := DirN]> f)
  end.
Proof.
  intros (Hd & Hdd & _). simpl. rewrite Hd. destruct (String.eqb_spec c ".."); [done|].
  unfold mbind, M_bind, gets, modify, raise. by destruct (node_at f (d ++ [c])) as [[]|].
Qed.

Lemma make_dirs_there d r f q f' :
  Forall plain r -> node_at f d = Some DirN -> make_dirs d r f = (Ok q, f') ->
  node_at f' q = Some DirN.
Proof.
  intros Hr. revert d f. induction Hr as [|c r Hc _ IH]; intros d f Hd; [by intros [= <- <-]|].
  rewrite make_dirs_plain by done. destruct (node_at f (d ++ [c])) as [[]|] eqn:Hn; [|done|].
  - by apply IH.
  - apply IH. by rewrite node_at_snoc, lookup_insert_eq.
Qed.

(** When it fails, nothing has appeared at the end of the path. *)
Lemma make_dirs_failed d r f e f' p :
  Forall plain r -> make_dirs d r f = (Err e, f') -> d ++ r `prefix_of` p -> f' !! p = f !! p.
Proof.
  intros Hr. revert d f. induction Hr as [|c r Hc _ IH]; intros d f; [done|].
  rewrite make_dirs_plain by done. intros Hm Hp.
  assert (d ++ [c] ++ r `prefix_of` p) as Hp' by done. rewrite app_assoc in Hp'.
  destruct (node_at f (d ++ [c])) as [[]|] eqn:Hn; [by eapply IH|by simplify_eq|].
  destruct r as [|c' r]; [done|]. rewrite (IH _ _ Hm Hp'). apply lookup_insert_ne.
  intros <-. apply prefix_length in Hp'. rewrite !length_app in Hp'. simpl in Hp'. lia.
Qed.

Lemma mkdir_p_ok p f f' :
  Forall plain p -> mkdir_p p f = (Ok tt, f') -> node_at f' p = Some DirN.
Proof.
  intros Hp. unfold mkdir_p, mbind, M_bind.
  destruct (make_dirs [] p f) as [[q|e] f1] eqn:Hm; [|done]. intros [= <-].
  pose proof (make_dirs_there [] p f q f1 Hp eq_refl Hm) as Hd.
  apply make_dirs_ok in Hm as ->. by rewrite norm_plain in Hd.
Qed.

Lemma mkdir_p_failed p f e f' q :
  Forall plain p -> mkdir_p p f = (Err e, f') -> p `prefix_of` q -> f' !! q = f !! q.
Proof.
  intros Hp. unfold mkdir_p, mbind, M_bind.
  destruct (make_dirs [] p f) as [[r|e'] f1] eqn:Hm; [done|]. intros [= -> <-] Hq.
  by eapply (make_dirs_failed [] p).
Qed.

(** Creating directories changes no file. *)
Lemma mkdir_p_files p f q c : f !! q = Some (FileN c) -> snd (mkdir_p p f) !! q = Some (FileN c).
Proof.
  intros Hq. unfold mkdir_p, mbind, M_bind.
  destruct (make_dirs_confined (q ++ [""]) [] p f) as [Ho _].
  destruct (make_dirs [] p f) as [[r|e] f1]; simpl in *;
    (destruct (Ho q) as [->|[? _]]; [|done|congruence]);
    intros Hp%prefix_length; rewrite length_app in Hp; simpl in Hp; lia.
Qed.

(** When no file is in the way, the missing directories are created. *)
Lemma make_dirs_run d r f :
  Forall plain r ->
  (forall k, (0 < k <= length r)%nat ->
     f !! (d ++ take k r) = None \/ f !! (d ++ take k r) = Some DirN) ->
  exists f', make_dirs d r f = (Ok (d ++ r), f') /\
    (forall k, (0 < k <= length r)%nat -> f' !! (d ++ take k r) = Some DirN) /\
    (forall p, f' !! p = f !! p \/ exists k, (0 < k <= length r)%nat /\ p = d ++ take k r).
Proof.
  intros Hr. revert d f. induction Hr as [|c r Hc _ IH]; intros d f Hk.
  { exists f. rewrite app_nil_r. split; [done|]. split; [simpl; lia|by left]. }
  set (f1 := match f !! (d ++ [c]) with None => <[d ++ [c] := DirN]> f | _ => f end).
  assert (f1 !! (d ++ [c]) = Some DirN /\
          (forall p, p <> d ++ [c] -> f1 !! p = f !! p)) as [H1 H2].
  { unfold f1. destruct (Hk 1%nat ltac:(simpl; lia)) as [Hn|Hn]; simpl in Hn; rewrite take_0 in Hn;
      rewrite Hn; [|by split]. rewrite lookup_insert_eq. split; [done|].
    intros p Hp. by rewrite lookup_insert_ne. }
  assert (make_dirs d (c :: r) f = make_dirs (d ++ [c]) r f1) as Hm.
  { rewrite make_dirs_plain, node_at_snoc by done. unfold f1.
    destruct (Hk 1%nat ltac:(simpl; lia)) as [Hn|Hn]; simpl in Hn; rewrite take_0 in Hn; by rewrite Hn. }
  destruct (IH (d ++ [c]) f1) as (f' & Hf & Hin & Hout).
  - intros k Hkr. rewrite <- app_assoc. rewrite H2.
    + apply (Hk (S k)). simpl. lia.
    + intros Heq. apply (inj (app d)) in Heq. destruct k, r; simpl in *; (lia || done).
  - exists f'. rewrite Hm, Hf, <- app_assoc. split; [done|]. split.
    + intros [|k] Hkr; [lia|]. simpl in Hkr. destruct k as [|k].
      * simpl. rewrite take_0. destruct (Hout (d ++ [c])) as [->|(k & ? & Heq)]; [done|].
        rewrite <- app_assoc in Heq. apply (inj (app d)) in Heq. destruct r, k; simpl in *; (lia || done).
      * specialize (Hin (S k) ltac:(lia)). by rewrite <- app_assoc in Hin.
    + intros p. destruct (Hout p) as [->|(k & Hkr & ->)].
      * destruct (decide (p = d ++ [c])) as [->|Hp]; [|left; by apply H2].
        right. exists 1%nat. simpl. rewrite take_0. split; [lia|done].
      * right. exists (S k). rewrite <- app_assoc. simpl. split; [lia|done].
Qed.

(** ** Replacing a file through a temporary one *)

(** Only the files named change, and directories may appear. *)
Definition only (ps : list path) (f f' : fs) : Prop := forall q, q ∉ ps ->
  f' !! q = f !! q \/ (f !! q = None /\ f' !! q = Some DirN).

#[export] Instance only_preorder ps : PreOrder (only ps).
Proof.
  split; [by intros f q _; left|]. intros f g h H1 H2 q Hq.
  destruct (H1 q Hq) as [Ha|[Ha Hb]], (H2 q Hq) as [Hc|[Hc Hd]]; rewrite ?Hc, ?Ha; auto.
  right. split; congruence.
Qed.

Lemma only_mono ps ps' f f' : ps ⊆ ps' -> only ps f f' -> only ps' f f'.
Proof. intros Hs H q Hq. apply H. set_solver. Qed.

Lemma only_file ps f f' q c : only ps f f' -> q ∉ ps -> f !! q = Some (FileN c) -> f' !! q = Some (FileN c).
Proof. intros H Hq Hf. destruct (H q Hq) as [->|[? _]]; congruence. Qed.

Lemma only_insert p n f : only [p] f (<[p := n]> f).
Proof. intros q Hq. left. apply lookup_insert_ne. set_solver. Qed.

Lemma only_delete p f : only [p] f (delete p f).
Proof. intros q Hq. left. apply lookup_delete_ne. set_solver. Qed.

Lemma only_append p c f : only [p] f (snd (append_file p c f)).
Proof. intros q Hq. left. apply lookup_alter_ne. set_solver. Qed.

Lemma mkdir_p_only p f : only [] f (snd (mkdir_p p f)).
Proof.
  intros q _. unfold mkdir_p, mbind, M_bind.
  destruct (make_dirs_confined (q ++ [""]) [] p f) as [Ho _].
  destruct (make_dirs [] p f) as [[r|e] f1]; simpl in *; apply (Ho q);
    intros Hp%prefix_length; rewrite length_app in Hp; simpl in Hp; lia.
Qed.

Lemma write_file_only p c f : only [p] f (snd (write_file p c f)).
Proof.
  unfold write_file. destruct (node_at f p) as [[]|], (node_at f (parent p)) as [[]|];
    try reflexivity; apply only_insert.
Qed.

Lemma unlink_only p f : only [p] f (snd (unlink p f)).
Proof. unfold unlink. destruct (node_at f p) as [[]|]; try reflexivity. apply only_delete. Qed.

Lemma unlink_missing_ok_only p f : only [p] f (snd (unlink_missing_ok p f)).
Proof.
  pose proof (unlink_only p f). unfold unlink_missing_ok.
  by destruct (unlink p f) as [[|[]] ?].
Qed.

Lemma replace_only a b f : only [a; b] f (snd (replace a b f)).
Proof.
  unfold replace. destruct (node_at f a) as [[|c]|]; try reflexivity.
  pose proof (write_file_only b c f) as Hw. destruct (write_file b c f) as [[|] f']; [|reflexivity].
  simpl in *. transitivity f'; [eapply only_mono; [|exact Hw]; set_solver|].
  case_decide; [reflexivity|]. eapply only_mono; [|apply only_delete]. set_solver.
Qed.

Section temp.
Context `{T : TempNames} `{TL : !TempNamesLaws T}.

Lemma mkstemp_ok d pre suf f t f' :
  mkstemp d pre suf f = (Ok t, f') ->
  t = d ++ [temp_name f d pre suf] /\ f !! t = None /\ f' = <[t := FileN ""]> f /\
  node_at f d = Some DirN.
Proof.
  unfold mkstemp. destruct (write_file _ _ f) as [[[]|e] f1] eqn:Hw; [|done]. intros [= <- <-].
  apply write_file_ok in Hw as (-> & _ & _ & Hd). rewrite parent_snoc in Hd.
  split_and!; [done|apply temp_fresh|done|done].
Qed.

Lemma mkstemp_made d pre suf f :
  node_at f d = Some DirN ->
  mkstemp d pre suf f =
    (Ok (d ++ [temp_name f d pre suf]), <[d ++ [temp_name f d pre suf] := FileN ""]> f).
Proof.
  intros Hd. unfold mkstemp, write_file. rewrite parent_snoc, Hd, node_at_snoc, temp_fresh. done.
Qed.

Lemma mkstemp_err d pre suf f e f' : mkstemp d pre suf f = (Err e, f') -> f' = f.
Proof.
  unfold mkstemp, write_file. set (p := d ++ _).
  destruct (node_at f p) as [[]|], (node_at f (parent p)) as [[]|]; by intros [= _ <-].
Qed.

Lemma mkstemp_not_dir d pre suf f t f' p :
  mkstemp d pre suf f = (Ok t, f') -> is_Some (f !! p) -> t <> p.
Proof. intros (-> & Hf & _)%mkstemp_ok [n Hn] <-. congruence. Qed.
End temp.

Lemma append_at p c c0 f : f !! p = Some (FileN c0) ->
  append_file p c f = (Ok tt, <[p := FileN (c0 +:+ c)]> f).
Proof.
  intros Hp. unfold append_file, modify. f_equal. apply map_eq. intros q.
  destruct (decide (p = q)) as [<-|Hq].
  - by rewrite lookup_alter_eq, Hp, lookup_insert_eq.
  - by rewrite lookup_alter_ne, lookup_insert_ne.
Qed.

Lemma replace_file a b c f :
  a <> [] -> f !! a = Some (FileN c) ->
  (exists e, replace a b f = (Err e, f)) \/
  (replace a b f = (Ok tt, if decide (a = b) then f else delete a (<[b := FileN c]> f)) /\
   f !! b <> Some DirN /\ b <> [] /\ node_at f (parent b) = Some DirN).
Proof.
  intros Ha Hc. unfold replace. rewrite node_at_cons by done. rewrite Hc.
  destruct (write_file b c f) as [[[]|e] f'] eqn:Hw; [right|left; by exists e].
  apply write_file_ok in Hw as (-> & Hb & Hd & Hp). split; [|done].
  case_decide as Hab; [|done]. subst. by rewrite insert_id.
Qed.

Lemma replace_err a b f e f' : replace a b f = (Err e, f') -> f' = f.
Proof.
  unfold replace. destruct (node_at f a) as [[|c]|]; [by intros [= _ <-]| |by intros [= _ <-]].
  destruct (write_file b c f) as [[|] ?]; [done|by intros [= _ <-]].
Qed.

(** Cleaning up a temporary file. *)
Lemma unlink_file p c f : p <> [] -> f !! p = Some (FileN c) -> unlink_missing_ok p f = (Ok tt, delete p f).
Proof. intros Hp Hf. unfold unlink_missing_ok, unlink. rewrite node_at_cons by done. by rewrite Hf. Qed.

Lemma delete_fresh (p : path) (n : node) (f : fs) : f !! p = None -> delete p (<[p := n]> f) = f.
Proof. intros. by apply delete_insert_id. Qed.

(** ** Directories that exist *)

Lemma wf_parents f p k : fs_wf f -> is_Some (node_at f p) -> (k < length p)%nat ->
  node_at f (take k p) = Some DirN.
Proof.
  intros Hf. induction p as [|c p IH] using rev_ind; intros [n Hn] Hk; [simpl in Hk; lia|].
  rewrite node_at_snoc in Hn. destruct (Hf _ _ Hn) as (_ & Hd & _). rewrite parent_snoc in Hd.
  rewrite length_app in Hk. simpl in Hk. destruct (decide (k = length p)) as [->|Hne].
  - by rewrite take_app_length.
  - rewrite take_app_le by lia. apply IH; [by eexists|lia].
Qed.

Lemma mkdir_p_there f p : fs_wf f -> node_at f p = Some DirN -> mkdir_p p f = (Ok tt, f).
Proof.
  intros Hf Hp. assert (Forall plain p) as Hpl.
  { destruct p as [|c p]; [done|]. by apply (Hf (c :: p) DirN). }
  assert (forall k, (0 < k <= length p)%nat -> f !! take k p = Some DirN) as Hd.
  { intros k Hk. rewrite <- node_at_cons by (destruct p, k; simpl in *; (lia || done)).
    destruct (decide (k = length p)) as [->|Hne]; [by rewrite take_ge by lia|].
    apply wf_parents; [done|by eexists|lia]. }
  destruct (make_dirs_run [] p f Hpl) as (f' & Hm & Hin & Hout); [intros k Hk; right; by apply Hd|].
  unfold mkdir_p. rewrite (M_bind_ok _ _ _ _ _ Hm). unfold mret, M_ret. f_equal.
  apply map_eq. intros q. destruct (Hout q) as [->|(k & Hk & ->)]; [done|].
  pose proof (Hin k Hk) as H1. simpl in H1. simpl. by rewrite H1, (Hd k Hk).
Qed.

(** ** A way to choose temporary names: longer than any name in use *)

Definition longest_name (f : fs) : nat :=
  max_list (map (fun '(p, _) => max_list (map String.length p)) (map_to_list f)).

Fixpoint repeat_x (n : nat) : string := match n with O => "" | S n' => String "x"%char (repeat_x n') end.

Definition long_names : TempNames :=
  {| temp_name f d pre suf := pre +:+ repeat_x (S (longest_name f)) +:+ suf |}.

Lemma max_list_bound n l : n ∈ l -> (n <= max_list l)%nat.
Proof. induction 1 as [l|m l' Hm IH]; simpl; lia. Qed.

Lemma length_repeat_x n : String.length (repeat_x n) = n.
Proof. induction n; simpl; auto. Qed.

Lemma longest_bound f p n c : f !! p = Some n -> c ∈ p -> (String.length c <= longest_name f)%nat.
Proof.
  intros Hp Hc. unfold longest_name.
  transitivity (max_list (map String.length p)); [apply max_list_bound; by apply list_elem_of_fmap_2|].
  apply max_list_bound, list_elem_of_fmap. exists (p, n). split; [done|by apply elem_of_map_to_list].
Qed.

Lemma chars_repeat_x n c : c ∈ chars (repeat_x n) -> c = "x"%char.
Proof.
  induction n as [|n IH]; simpl; [by intros ?%elem_of_nil|]. by intros [->|?]%elem_of_cons; auto.
Qed.

Lemma with_x_plain s : "x"%char ∈ chars s -> "/"%char ∉ chars s -> plain s.
Proof.
  intros Hx Hs. split; [|split; [|done]].
  - unfold is_dot. destruct (String.eqb_spec s "") as [->|_]; [by apply elem_of_nil in Hx|].
    destruct (String.eqb_spec s ".") as [->|_]; [|done]. by apply list_elem_of_singleton in Hx.
  - intros ->. by apply elem_of_cons in Hx as [?|[?|?%elem_of_nil]%elem_of_cons].
Qed.

Lemma long_names_laws : TempNamesLaws long_names.
Proof.
  split; intros f d pre suf; simpl; [| |by eexists].
  - apply eq_None_not_Some. intros [n Hn].
    pose proof (longest_bound f _ n (pre +:+ String "x" (repeat_x (longest_name f)) +:+ suf) Hn ltac:(set_solver)) as H.
    rewrite !length_app_str in H. cbn [String.length] in H. rewrite length_repeat_x in H. lia.
  - intros Hpre Hsuf. apply with_x_plain; rewrite chars_app, elem_of_app.
    + right. by left.
    + intros [?|[?|Hr]%elem_of_cons]; [done..|].
      rewrite chars_app, elem_of_app in Hr. destruct Hr as [Hr|?]; [|done].
      by apply chars_repeat_x in Hr.
Qed.
