(* ===== verification/Paths.v ===== *)
(** * [src/src/beetroot/paths.py]: where things are on disk

    The layout of an instance directory, the discovery of the instance a command is run
    in, the per-user directories, and the bundled assets.  [platformdirs] and the
    installed package's resources are the class [Layout]; [importlib.resources.as_file]
    is modelled after its documentation: a resource that is not a file on disk is
    extracted to a temporary file, which is removed when the [with] block ends. *)
From stdpp Require Import base list strings gmap sorting.
From Stdlib Require Import ZArith Lia Ascii.
From S2P Require Import Prelude PyStr HostFs.
Local Open Scope stdpp_scope.

Definition _INSTANCE_MARKER : string := "beetroot.yaml".
Definition _APP_NAME : string := "beetroot".
Definition _VM_ASSET_NAMES : list string := ["kernel.config"; "guest-init.sh"; "adbprobe.c"].

Class Layout := {
  user_config_path : string;                 (* platformdirs, for the application *)
  user_cache_path : string;
  home : path;
  resource_path : string -> option path;     (* of a resource that is a file on disk *)
  resource_bytes : string -> string;
  extract_dir : path;                        (* [tempfile.gettempdir()] *)
  layout_temp :: TempNames }.

Class LayoutLaws (Y : Layout) : Prop := {
  home_plain : Forall plain home;
  layout_temp_laws :: TempNamesLaws layout_temp }.

(** ** The instance directory *)

Definition instance_env (root : path) : path := root ++ [".env"].
Definition instance_compose_override (root : path) : path := root ++ ["compose.override.yaml"].
Definition instance_data (root : path) : path := root ++ ["data"].
Definition instance_modules (root : path) : path := root ++ ["modules"].
Definition instance_frida (root : path) : path := root ++ ["frida-server"].

(** [[cur, *cur.parents]]. *)
Definition ancestors (cur : path) : list path :=
  map (fun k => take k cur) (rev (seq 0 (S (length cur)))).

Definition is_file_at (f : fs) (p : path) : bool :=
  match node_at f p with Some (FileN _) => true | _ => false end.
Definition is_dir_at (f : fs) (p : path) : bool :=
  match node_at f p with Some DirN => true | _ => false end.

Inductive root_error : Type := InstanceRootNotFound (cur : path).

(** [start] is resolved. *)
Definition instance_root (f : fs) (cur : path) : result root_error path :=
  match filter (fun p => is_file_at f (p ++ [_INSTANCE_MARKER]) = true) (ancestors cur) with
  | p :: _ => Ok p
  | [] => Err (InstanceRootNotFound cur)
  end.

(** ** Per-user directories *)

Section layout.
Context {Y : Layout}.

Definition is_absolute (s : string) : bool := starts_with "/" s.

Definition user_config_dir : path :=
  if is_absolute user_config_path then resolve [] user_config_path
  else home ++ [".config"; _APP_NAME].
Definition user_registry_file : path := user_config_dir ++ ["instances.json"].
Definition user_cache_dir (subdir : string) : path :=
  (if is_absolute user_cache_path then resolve [] user_cache_path
   else home ++ [".cache"; _APP_NAME]) ++ [subdir].

Lemma norm_is_plain d p : Forall plain d -> Forall (fun c => "/"%char ∉ chars c) p ->
  Forall plain (norm d p).
Proof.
  intros Hd Hp. revert d Hd. induction Hp as [|c p Hc _ IH]; intros d Hd; simpl; [done|].
  destruct (is_dot c) eqn:Hdot; [by apply IH|].
  destruct (String.eqb_spec c ".."); apply IH.
  - unfold parent. destruct d as [|x d _] using rev_ind; [done|].
    rewrite removelast_last. by apply Forall_app in Hd as [? _].
  - apply Forall_app. split; [done|]. by apply Forall_singleton.
Qed.

Lemma resolve_plain d s : Forall plain d -> Forall plain (resolve d s).
Proof.
  intros Hd. unfold resolve, components. apply norm_is_plain; [|apply split_on_items_free].
  by destruct (starts_with "/" s).
Qed.

Lemma user_cache_plain `{YL : !LayoutLaws Y} sub : plain sub -> Forall plain (user_cache_dir sub).
Proof.
  intros Hs. unfold user_cache_dir. apply Forall_app. split; [|by apply Forall_singleton].
  destruct (is_absolute _); [by apply resolve_plain|].
  apply Forall_app. split; [apply home_plain|].
  apply (bool_decide_unpack _). by vm_compute.
Qed.

(** ** Atomic writes *)

(** [target.name]. *)
Definition path_name (p : path) : string := default "" (last p).

(** The system calls once the temporary file exists; the content may be flushed in
    any number of pieces. *)
Definition _atomic_calls (tmp target : path) (pieces : list string) : list (M fs os_error unit) :=
  map (append_file tmp) pieces ++ [replace tmp target].

Fixpoint run_calls (l : list (M fs os_error unit)) : M fs os_error unit :=
  match l with
  | [] => mret tt
  | c :: l' => c ;; run_calls l'
  end.

Definition _atomic_write_bytes (target : path) (pieces : list string) : M fs os_error unit :=
  tmp ← mkstemp (parent target) (path_name target) ".tmp";
  catch (run_calls (_atomic_calls tmp target pieces))
    (fun e => unlink_missing_ok tmp ;; raise e).

(** ** Bundled assets *)

(** The process's state: the file system and the two module-level caches. *)
Record assets := mkAssets {
  a_fs : fs; _BUNDLED_COMPOSE_CACHE : option path; _BUNDLED_VM_DIR_CACHE : option path }.
Abbreviation PM := (M assets os_error).

Definition on_afs {A} (m : M fs os_error A) : PM A :=
  zoom a_fs (fun f s => mkAssets f (_BUNDLED_COMPOSE_CACHE s) (_BUNDLED_VM_DIR_CACHE s)) id m.

Definition set_compose_cache (p : path) : PM unit :=
  modify (fun s => mkAssets (a_fs s) (Some p) (_BUNDLED_VM_DIR_CACHE s)).
Definition set_vm_cache (p : path) : PM unit :=
  modify (fun s => mkAssets (a_fs s) (_BUNDLED_COMPOSE_CACHE s) (Some p)).

Definition finally {S E A} (m : M S E A) (h : M S E unit) : M S E A := fun s =>
  let '(r, s') := m s in
  match h s' with
  | (Ok _, s'') => (r, s'')
  | (Err e, s'') => (Err e, s'')
  end.

(** [with as_file(files(..).joinpath(name)) as resolved: body]. *)
Definition with_as_file {A} (name : string) (body : path -> PM A) : PM A :=
  match resource_path name with
  | Some p => body p
  | None =>
      tmp ← on_afs (mkstemp extract_dir "" name);
      on_afs (append_file tmp (resource_bytes name)) ;;
      finally (body tmp) (on_afs (unlink_missing_ok tmp))
  end.

Definition read_bytes (p : path) : PM string := fun s => (read_file p (a_fs s), s).

(** [if not dst.exists() or dst.read_bytes() != contents: _atomic_write_bytes(..)]. *)
Definition write_if_changed (dst : path) (contents : string) : PM unit :=
  there ← gets (fun s => exists_at (a_fs s) dst);
  old ← (if (there : bool) then c ← read_bytes dst; mret (Some c) else mret None);
  if decide (old = Some contents) then mret tt
  else on_afs (_atomic_write_bytes dst [contents]).

Definition _materialise_bundled_compose : PM path :=
  cached ← gets (fun s => match _BUNDLED_COMPOSE_CACHE s with
                          | Some p => if exists_at (a_fs s) p then Some p else None
                          | None => None
                          end);
  match cached with
  | Some p => mret p
  | None =>
      r ← with_as_file "compose.yaml" (fun resolved =>
            here ← gets (fun s => is_file_at (a_fs s) resolved);
            if (here : bool) then set_compose_cache resolved ;; mret (inl resolved)
            else c ← read_bytes resolved; mret (inr c));
      match r with
      | inl p => mret p
      | inr contents =>
          let cache_target := user_cache_dir "templates" ++ ["compose.yaml"] in
          on_afs (mkdir_p (parent cache_target)) ;;
          write_if_changed cache_target contents ;;
          set_compose_cache cache_target ;;
          mret cache_target
      end
  end.

Definition bundled_compose_file : PM path := _materialise_bundled_compose.

Fixpoint extract_assets (target : path) (names : list string) : PM unit :=
  match names with
  | [] => mret tt
  | n :: names' =>
      write_if_changed (target ++ [n]) (resource_bytes n) ;; extract_assets target names'
  end.

Definition _materialise_bundled_vm_dir : PM path :=
  cached ← gets (fun s => match _BUNDLED_VM_DIR_CACHE s with
                          | Some p => if is_dir_at (a_fs s) p then Some p else None
                          | None => None
                          end);
  match cached with
  | Some p => mret p
  | None =>
      r ← with_as_file "kernel.config" (fun resolved =>
            here ← gets (fun s => is_file_at (a_fs s) resolved);
            if (here : bool)
            then set_vm_cache (parent resolved) ;; mret (Some (parent resolved))
            else mret None);
      match r with
      | Some d => mret d
      | None =>
          let target := user_cache_dir "vm-assets" in
          on_afs (mkdir_p target) ;;
          extract_assets target _VM_ASSET_NAMES ;;
          set_vm_cache target ;;
          mret target
      end
  end.

Definition bundled_vm_dir : PM path := _materialise_bundled_vm_dir.

(** ** Discovery *)

Lemma elem_ancestors p cur : p ∈ ancestors cur <-> p `prefix_of` cur.
Proof.
  unfold ancestors. rewrite list_elem_of_fmap. split.
  - intros (k & -> & _). exists (drop k cur). by rewrite take_drop.
  - intros [l ->]. exists (length p). rewrite take_app_length. split; [done|].
    rewrite list_elem_of_In, <- in_rev, in_seq, length_app. lia.
Qed.

(** The ancestors come longest first. *)
Lemma ancestors_snoc cur c : ancestors (cur ++ [c]) = (cur ++ [c]) :: ancestors cur.
Proof.
  unfold ancestors. rewrite length_app. simpl length. rewrite Nat.add_1_r.
  rewrite (seq_S (S (length cur))), rev_app_distr. cbn [rev app map].
  rewrite Nat.add_0_l, firstn_all2 by (rewrite length_app; simpl; lia). f_equal.
  apply map_ext_in. intros k Hk. apply in_rev, in_seq in Hk.
  rewrite take_app_le by lia. done.
Qed.

(** A command run in a directory acts on the nearest instance: discovery returns
    the directory's longest ancestor that holds a [beetroot.yaml] file, and fails
    exactly when none of them does. *)
Theorem instance_root_nearest f cur :
  match instance_root f cur with
  | Ok r =>
      r `prefix_of` cur /\ is_file_at f (r ++ [_INSTANCE_MARKER]) = true /\
      forall p, p `prefix_of` cur -> is_file_at f (p ++ [_INSTANCE_MARKER]) = true -> p `prefix_of` r
  | Err (InstanceRootNotFound c) =>
      c = cur /\ forall p, p `prefix_of` cur -> is_file_at f (p ++ [_INSTANCE_MARKER]) = false
  end.
Proof.
  unfold instance_root. assert (forall l p, filter (fun p => is_file_at f (p ++ [_INSTANCE_MARKER]) = true) l = [] ->
    p ∈ l -> is_file_at f (p ++ [_INSTANCE_MARKER]) = false) as Hnil.
  { intros l p Hl Hp. apply not_true_iff_false. intros Ht.
    assert (p ∈ filter (fun p => is_file_at f (p ++ [_INSTANCE_MARKER]) = true) l) as Hin
      by (by apply list_elem_of_filter). rewrite Hl in Hin. set_solver. }
  induction cur as [|c cur IH] using rev_ind.
  - destruct (filter _ (ancestors [])) as [|r l] eqn:Hf.
    + split; [done|]. intros p Hp. eapply Hnil; [exact Hf|by apply elem_ancestors].
    + assert (r ∈ filter (fun p => is_file_at f (p ++ [_INSTANCE_MARKER]) = true) (ancestors []))
        as [Hm Hp]%list_elem_of_filter by (rewrite Hf; set_solver).
      apply elem_ancestors in Hp. split_and!; [done..|]. intros p Hp' _.
      apply prefix_nil_inv in Hp, Hp'. by subst.
  - rewrite ancestors_snoc, filter_cons. case_decide as Hc.
    { split_and!; [done|done|]. intros p Hp _. done. }
    assert (forall p, p `prefix_of` cur ++ [c] ->
      is_file_at f (p ++ [_INSTANCE_MARKER]) = true -> p `prefix_of` cur) as Hup.
    { intros p [l Hl] Hp. destruct l as [|x l _] using rev_ind.
      - rewrite app_nil_r in Hl. by subst.
      - rewrite app_assoc in Hl. apply app_inj_tail in Hl as [-> _]. by exists l. }
    destruct (filter _ (ancestors cur)) as [|r l].
    + destruct IH as [_ IH]. split; [done|]. intros p Hp. apply not_true_iff_false.
      intros Ht. specialize (IH p (Hup p Hp Ht)). congruence.
    + destruct IH as (Hp & Hm & Hlong). split_and!; [|done|eauto].
      etransitivity; [exact Hp|by exists [c]].
Qed.

(** ** Atomic writes *)

Section atomic.
Context `{TL : !TempNamesLaws layout_temp}.

Lemma run_calls_app l1 l2 f :
  run_calls (l1 ++ l2) f = (run_calls l1 ;; run_calls l2) f.
Proof.
  revert f. induction l1 as [|c l1 IH]; intros f; simpl; [done|].
  unfold mbind, M_bind in *. destruct (c f) as [[a|e] f1]; [apply IH|done].
Qed.

Lemma run_appends tmp pieces c0 f :
  f !! tmp = Some (FileN c0) ->
  run_calls (map (append_file tmp) pieces) f =
    (Ok tt, <[tmp := FileN (c0 +:+ String.concat "" pieces)]> f).
Proof.
  revert c0 f. induction pieces as [|x l IH]; intros c0 f Hf; simpl.
  { rewrite app_nil_r_str. by rewrite insert_id. }
  rewrite (M_bind_ok _ _ _ _ _ (append_at _ x _ _ Hf)).
  rewrite (IH (c0 +:+ x)) by apply lookup_insert_eq. rewrite insert_insert_eq.
  destruct l as [|y l]; [by rewrite app_nil_r_str|]. by rewrite <- app_assoc_str.
Qed.

Lemma calls_run tmp target pieces f :
  tmp <> target -> tmp <> [] -> f !! tmp = None ->
  let f0 := <[tmp := FileN ""]> f in
  let new := FileN (String.concat "" pieces) in
  (exists e, run_calls (_atomic_calls tmp target pieces) f0 = (Err e, <[tmp := new]> f)) \/
  (run_calls (_atomic_calls tmp target pieces) f0 = (Ok tt, <[target := new]> f) /\ target <> []).
Proof.
  intros Hne Htmp Hf. simpl. set (new := FileN (String.concat "" pieces)).
  unfold _atomic_calls. rewrite run_calls_app.
  erewrite M_bind_ok by (apply run_appends, lookup_insert_eq). rewrite insert_insert_eq.
  change (FileN ("" +:+ String.concat "" pieces)) with new.
  destruct (replace_file tmp target (String.concat "" pieces) (<[tmp := new]> f) Htmp)
    as [[e He]|(Hr & _ & Hnil & _)]; [apply lookup_insert_eq| |].
  - left. exists e. simpl. by rewrite (M_bind_err _ _ _ _ _ He).
  - right. simpl. rewrite (M_bind_ok _ _ _ _ _ Hr). split; [|done]. simpl.
    rewrite decide_False by done. unfold mret, M_ret. f_equal.
    rewrite insert_insert_ne by done. apply delete_fresh. by rewrite lookup_insert_ne.
Qed.

(** The temporary name extends the target's. *)
Lemma temp_not_target target f t f0 :
  mkstemp (parent target) (path_name target) ".tmp" f = (Ok t, f0) -> t <> target.
Proof.
  intros (-> & _)%mkstemp_ok Heq.
  destruct (temp_shape f (parent target) (path_name target) ".tmp") as [mid Hn].
  rewrite Hn in Heq. apply (f_equal last) in Heq. rewrite last_snoc in Heq.
  unfold path_name in Heq. rewrite <- Heq in Heq. simpl in Heq. injection Heq as Heq.
  apply (f_equal String.length) in Heq. rewrite !length_app_str in Heq. simpl in Heq. lia.
Qed.

(** The bundled assets are written atomically: at every point between two of the
    system calls (the content flushed in any pieces) a reader of the target sees the
    old file or the complete new one.  When the write returns, the target has the new
    content; when it raises, no file has changed; and either way the temporary file
    is gone. *)
Theorem atomic_write_old_or_new target pieces f tmp f0 :
  mkstemp (parent target) (path_name target) ".tmp" f = (Ok tmp, f0) ->
  let new := FileN (String.concat "" pieces) in
  (forall k, let seen := snd (run_calls (take k (_atomic_calls tmp target pieces)) f0) !! target in
     seen = f !! target \/ seen = Some new) /\
  (_atomic_write_bytes target pieces f = (Ok tt, <[target := new]> f) \/
   exists e, _atomic_write_bytes target pieces f = (Err e, f)).
Proof.
  intros Hm new. pose proof (temp_not_target _ _ _ _ Hm) as Hne.
  pose proof Hm as (Htmp & Hf & -> & _)%mkstemp_ok.
  assert (tmp <> []) as Hnil by (rewrite Htmp; by destruct (parent target)). split.
  - intros k. unfold _atomic_calls. rewrite take_app, length_map.
    rewrite firstn_map, run_calls_app.
    erewrite M_bind_ok by (apply run_appends, lookup_insert_eq).
    rewrite insert_insert_eq. destruct (k - length pieces)%nat as [|n] eqn:Hk; simpl.
    { left. by rewrite lookup_insert_ne. }
    rewrite (take_ge pieces) by lia. rewrite take_nil.
    destruct (replace_file tmp target (String.concat "" pieces) (<[tmp := new]> f) Hnil)
      as [[e He]|(Hr & _)]; [apply lookup_insert_eq| |].
    + rewrite (M_bind_err _ _ _ _ _ He). left. simpl. by rewrite lookup_insert_ne.
    + rewrite (M_bind_ok _ _ _ _ _ Hr). right. simpl. rewrite decide_False by done.
      by rewrite lookup_delete_ne, lookup_insert_eq.
  - unfold _atomic_write_bytes. rewrite (M_bind_ok _ _ _ _ _ Hm). unfold catch.
    destruct (calls_run tmp target pieces f Hne Hnil Hf) as [[e He]|[Hok _]].
    + right. exists e. rewrite He. erewrite M_bind_ok by (eapply unlink_file; [done|apply lookup_insert_eq]).
      unfold raise. f_equal. by apply delete_fresh.
    + left. by rewrite Hok.
Qed.

(** ** Bundled assets *)

(** From a source or editable install the asset is used where it is. *)
Lemma bundled_compose_source p s :
  resource_path "compose.yaml" = Some p -> is_file_at (a_fs s) p = true ->
  _BUNDLED_COMPOSE_CACHE s = None ->
  bundled_compose_file s = (Ok p, mkAssets (a_fs s) (Some p) (_BUNDLED_VM_DIR_CACHE s)).
Proof.
  intros Hp Hf Hc. unfold bundled_compose_file, _materialise_bundled_compose, with_as_file.
  rewrite Hp. unfold mbind, M_bind, gets, set_compose_cache, modify, mret, M_ret.
  by rewrite Hc, Hf.
Qed.

Lemma on_afs_ok {A} (m : M fs os_error A) s a f :
  m (a_fs s) = (Ok a, f) ->
  on_afs m s = (Ok a, mkAssets f (_BUNDLED_COMPOSE_CACHE s) (_BUNDLED_VM_DIR_CACHE s)).
Proof. unfold on_afs, zoom. by intros ->. Qed.

(** From a package that is not unpacked on disk, the assets are never available:
    the temporary file of [as_file] is taken for an installed one and returned, the
    copy in the cache directory is not made, and when [bundled_compose_file] returns
    its path names a file that no longer exists. *)
Theorem zip_install_returns_deleted_file s t f :
  resource_path "compose.yaml" = None -> _BUNDLED_COMPOSE_CACHE s = None ->
  mkstemp extract_dir "" "compose.yaml" (a_fs s) = (Ok t, f) ->
  bundled_compose_file s = (Ok t, mkAssets (a_fs s) (Some t) (_BUNDLED_VM_DIR_CACHE s)) /\
  node_at (a_fs s) t = None.
Proof.
  intros Hp Hc Hm. pose proof Hm as (Ht & Hf & -> & _)%mkstemp_ok.
  assert (t <> []) as Hnil by (rewrite Ht; by destruct extract_dir).
  split; [|by rewrite node_at_cons].
  unfold bundled_compose_file, _materialise_bundled_compose.
  rewrite (M_bind_ok _ _ s None s) by (unfold gets; by rewrite Hc).
  set (s' := mkAssets (a_fs s) (Some t) (_BUNDLED_VM_DIR_CACHE s)).
  rewrite (M_bind_ok _ _ s (inl t) s'); [reflexivity|].
  unfold with_as_file. rewrite Hp. set (new := FileN (resource_bytes "compose.yaml")).
  rewrite (M_bind_ok _ _ _ _ _ (on_afs_ok _ _ _ _ Hm)).
  erewrite M_bind_ok; [|by apply on_afs_ok, append_at, lookup_insert_eq].
  cbn [a_fs _BUNDLED_COMPOSE_CACHE _BUNDLED_VM_DIR_CACHE]. rewrite insert_insert_eq.
  set (s1 := mkAssets (<[t := new]> (a_fs s)) (_BUNDLED_COMPOSE_CACHE s) (_BUNDLED_VM_DIR_CACHE s)).
  change (mkAssets _ _ _) with s1. unfold finally. rewrite (M_bind_ok _ _ s1 true s1).
  - unfold mbind, M_bind, set_compose_cache, modify. cbn [mret M_ret].
    rewrite (on_afs_ok _ _ tt (a_fs s)); [done|].
    rewrite (unlink_file t (resource_bytes "compose.yaml")) by (done || apply lookup_insert_eq).
    f_equal. by apply delete_fresh.
  - unfold gets, is_file_at, s1. cbn [a_fs]. by rewrite node_at_cons, lookup_insert_eq.
Qed.
End atomic.
End layout.

(** ** Concrete runs *)

Module PathsSample.

(** A package that is a zip file: no resource is a file on disk. *)
#[export] Instance zipped : Layout := {|
  user_config_path := "/home/u/.config/beetroot"; user_cache_path := ".cache";
  home := ["home"; "u"]; resource_path _ := None;
  resource_bytes n := n; extract_dir := ["tmp"]; layout_temp := long_names |}.

#[export] Instance zipped_laws : LayoutLaws zipped.
Proof. split; [|apply long_names_laws]. apply (bool_decide_unpack _). by vm_compute. Qed.

Definition machine : fs :=
  list_to_map [(["tmp"], DirN); (["home"], DirN); (["home"; "u"], DirN);
               (["home"; "u"; "beetroot.yaml"], FileN "a"); (["home"; "u"; "x"], DirN)].

Example discovered : instance_root machine ["home"; "u"; "x"] = Ok ["home"; "u"].
Proof. vm_compute. reflexivity. Qed.

Example no_instance : instance_root machine ["tmp"] = Err (InstanceRootNotFound ["tmp"]).
Proof. vm_compute. reflexivity. Qed.

(** A relative answer of platformdirs is replaced by the XDG default. *)
Example cache_dir_absolute : user_cache_dir "modules" = ["home"; "u"; ".cache"; "beetroot"; "modules"].
Proof. vm_compute. reflexivity. Qed.

Definition target : path := ["home"; "u"; "beetroot.yaml"].
Definition tmp : path := ["home"; "u"] ++ [temp_name machine ["home"; "u"] "beetroot.yaml" ".tmp"].
Definition extracted : path := ["tmp"] ++ [temp_name machine ["tmp"] "" "compose.yaml"].

Lemma tmp_made : mkstemp ["home"; "u"] "beetroot.yaml" ".tmp" machine =
  (Ok tmp, <[tmp := FileN ""]> machine).
Proof. apply (mkstemp_made (TL := long_names_laws)). by vm_compute. Qed.

Lemma extracted_made : mkstemp ["tmp"] "" "compose.yaml" machine =
  (Ok extracted, <[extracted := FileN ""]> machine).
Proof. apply (mkstemp_made (TL := long_names_laws)). by vm_compute. Qed.

Lemma atomic_write_witness :
  (forall k, let seen := snd (run_calls (take k (_atomic_calls tmp target ["b"; "c"]))
                                (<[tmp := FileN ""]> machine)) !! target in
     seen = machine !! target \/ seen = Some (FileN "bc")) /\
  (_atomic_write_bytes target ["b"; "c"] machine = (Ok tt, <[target := FileN "bc"]> machine) \/
   exists e, _atomic_write_bytes target ["b"; "c"] machine = (Err e, machine)).
Proof. exact (atomic_write_old_or_new target ["b"; "c"] machine tmp _ tmp_made). Defined.

Definition fresh : assets := mkAssets machine None None.

Lemma zip_install_witness :
  bundled_compose_file fresh = (Ok extracted, mkAssets machine (Some extracted) None) /\
  node_at machine extracted = None.
Proof. exact (zip_install_returns_deleted_file fresh extracted _ eq_refl eq_refl extracted_made). Defined.
End PathsSample.
