(* ===== verification/Compose.v ===== *)
(** * [src/src/beetroot/compose.py]: running docker compose

    The command line of every subcommand, the failures of a run and the closed status
    vocabulary.  The docker binary is the class [Docker]: what a call returns and does
    to the files may depend on the calls made before it. *)
From stdpp Require Import base list strings gmap sorting.
From Stdlib Require Import ZArith QArith Lia Ascii.
From S2P Require Import Prelude PyStr Registry HostFs Paths.
Local Open Scope stdpp_scope.
Local Open Scope Z_scope.

Definition _STDERR_TAIL_CHARS : nat := 500.
Definition _DAEMON_UNREACHABLE_MARKERS : list string :=
  ["cannot connect to the docker daemon"; "failed to connect to the docker"].

Inductive ComposeStatus : Type :=
| running | exited | starting | created | paused | not_created | docker_unreachable | unknown.

#[export] Instance ComposeStatus_eq_dec : EqDecision ComposeStatus.
Proof. solve_decision. Defined.

Definition _STATE_TO_STATUS : list (string * ComposeStatus) :=
  [("running", running); ("exited", exited); ("starting", starting); ("created", created);
   ("paused", paused); ("restarting", starting); ("dead", exited); ("removing", exited)].

Record call := mkCall { argv : list string; call_cwd : path }.

(** The end of a process; [TimedOut] only when the caller set a deadline. *)
Inductive outcome : Type :=
| Exited (rc : Z) (stdout stderr : string)
| TimedOut.

Class Docker := {
  docker_bin : string;                       (* the setting *)
  docker_found : bool;                       (* [shutil.which(docker_bin)] *)
  docker_run : list call -> call -> fs -> outcome * fs;
  json_loads : string -> option json }.

(** A container sees its instance directory only: compose runs with the project in the
    working directory and its template binds nothing else.  The directory itself, being
    bound, stays. *)
Class DockerLaws (D : Docker) : Prop := {
  docker_confined : forall history c f, outside (call_cwd c) f (snd (docker_run history c f));
  docker_keeps_root : forall history c f,
    node_at f (call_cwd c) = Some DirN -> node_at (snd (docker_run history c f)) (call_cwd c) = Some DirN }.

Inductive compose_error : Type :=
| DockerNotFound                                              (* ComposeError *)
| CallFailed (verb name : string) (rc : Z) (tail : string)    (* ComposeError *)
| ComposeOs (e : os_error).                                   (* OSError *)

(** Which of them are a [ComposeError]. *)
Definition is_ComposeError (e : compose_error) : bool :=
  match e with ComposeOs _ => false | _ => true end.

Record cworld := mkCw { assets_of : assets; calls : list call }.
Abbreviation CM := (M cworld compose_error).

Definition c_fs (w : cworld) : fs := a_fs (assets_of w).
Definition set_assets (a : assets) (w : cworld) : cworld := mkCw a (calls w).
Definition on_assets {A} (m : M assets os_error A) : CM A := zoom assets_of set_assets ComposeOs m.

Section compose.
Context {Y : Layout} {D : Docker}.

Definition _ensure_docker : CM unit := lift (raise_if (negb docker_found) DockerNotFound).

Definition _base_cmd (name : string) (root : path) : CM (list string) :=
  _ensure_docker ;;
  template ← on_assets bundled_compose_file;
  override ← gets (fun w => is_file_at (c_fs w) (instance_compose_override root));
  mret ([docker_bin; "compose"; "-p"; name; "-f"; path_str template] ++
        (if (override : bool) then ["-f"; path_str (instance_compose_override root)] else []) ++
        ["--project-directory"; path_str root; "--env-file"; path_str (instance_env root)]).

(** [subprocess.run(cmd, cwd=instance_root)]: a working directory that cannot be entered
    raises before anything runs. *)
Definition spawn (cmd : list string) (root : path) : CM outcome := fun w =>
  match node_at (c_fs w) root with
  | Some DirN =>
      let c := mkCall cmd root in
      let '(o, f) := docker_run (calls w) c (c_fs w) in
      (Ok o, mkCw (mkAssets f (_BUNDLED_COMPOSE_CACHE (assets_of w)) (_BUNDLED_VM_DIR_CACHE (assets_of w)))
               (calls w ++ [c]))
  | Some (FileN _) => (Err (ComposeOs NotADirectory), w)
  | None => (Err (ComposeOs NoSuchFile), w)
  end.

Definition run (name : string) (root : path) (args : list string) : CM outcome :=
  base ← _base_cmd name root; spawn (base ++ args) root.

(** [s[-n:]]. *)
Definition tail_chars (n : nat) (s : string) : string :=
  of_chars (drop (length (chars s) - n) (chars s)).

Definition _lifecycle_error (verb name : string) (rc : Z) (stderr : string) : compose_error :=
  CallFailed verb name rc (tail_chars _STDERR_TAIL_CHARS (strip stderr)).

(** Raise when the exit status is not zero; a call without a deadline cannot time out. *)
Definition check_exit (verb name : string) (o : outcome) : CM unit :=
  match o with
  | Exited rc _ stderr => if rc =? 0 then mret tt else raise (_lifecycle_error verb name rc stderr)
  | TimedOut => mret tt
  end.

Definition up (name : string) (root : path) : CM unit :=
  o ← run name root ["up"; "-d"]; check_exit "up" name o.

Definition down (name : string) (root : path) (volumes : bool) : CM unit :=
  o ← run name root (["down"] ++ (if volumes then ["--volumes"] else [])); check_exit "down" name o.

Definition logs (name : string) (root : path) (follow : bool) : CM unit :=
  if follow then _ ← run name root ["logs"; "-f"]; mret tt
  else o ← run name root ["logs"]; check_exit "logs" name o.

Definition build (name : string) (root : path) : CM unit :=
  o ← run name root ["build"];
  match o with
  | Exited rc _ _ => if rc =? 0 then mret tt else raise (CallFailed "build" name rc "")
  | TimedOut => mret tt
  end.

(** [str(entry.get("State", ""))]; the text of a number, a list or an object is none of
    the known states, and not empty. *)
Definition state_text (entry : list (string * json)) : string :=
  match Dict.get "State" entry with
  | None => ""
  | Some (JStr s) => s
  | Some _ => "?"
  end.

(** The loop over the lines of [ps --format json]. *)
Fixpoint first_state (lines : list string) : ComposeStatus :=
  match lines with
  | [] => not_created
  | line :: lines' =>
      match json_loads line with
      | Some (JObj entry) =>
          let state := lower (state_text entry) in
          if String.eqb state "" then first_state lines'
          else default unknown (Dict.get state _STATE_TO_STATUS)
      | _ => first_state lines'
      end
  end.

Definition status_of (o : outcome) : ComposeStatus :=
  match o with
  | TimedOut => docker_unreachable
  | Exited rc stdout stderr =>
      if negb (rc =? 0) then
        if existsb (fun m => contains m (lower stderr)) _DAEMON_UNREACHABLE_MARKERS
        then docker_unreachable else not_created
      else if String.eqb (strip stdout) "" then not_created
      else first_state (splitlines (strip stdout))
  end.

(** Only [ComposeError] and the deadline are caught. *)
Definition ps_status (name : string) (root : path) : CM ComposeStatus :=
  catch (o ← run name root ["ps"; "--format"; "json"]; mret (status_of o))
    (fun e => if is_ComposeError e then mret docker_unreachable else raise e).

(** ** Facts *)

Implicit Types (w : cworld) (root : path).

(** With docker installed, a call is spawned with the project name, directory and
    environment file of its instance; the ports overlay is passed when it is there. *)
Lemma base_cmd_cached name root w t :
  docker_found = true -> _BUNDLED_COMPOSE_CACHE (assets_of w) = Some t ->
  exists_at (c_fs w) t = true ->
  _base_cmd name root w =
    (Ok ([docker_bin; "compose"; "-p"; name; "-f"; path_str t] ++
         (if is_file_at (c_fs w) (instance_compose_override root)
          then ["-f"; path_str (instance_compose_override root)] else []) ++
         ["--project-directory"; path_str root; "--env-file"; path_str (instance_env root)]), w).
Proof.
  intros Hd Hc Ht. unfold _base_cmd, _ensure_docker. rewrite Hd. simpl. rewrite lift_ok_bind.
  rewrite (M_bind_ok _ _ w t w); [done|].
  unfold on_assets, zoom, bundled_compose_file, _materialise_bundled_compose.
  rewrite (M_bind_ok _ _ (assets_of w) (Some t) (assets_of w)); [by destruct w|].
  unfold gets. unfold c_fs in Ht. by rewrite Hc, Ht.
Qed.

(** A status of [running] is docker's own: the probe exited with 0 and the first object
    with a state says so. *)
Lemma running_is_reported o :
  status_of o = running ->
  exists stdout stderr line entry, o = Exited 0 stdout stderr /\
    line ∈ splitlines (strip stdout) /\ json_loads line = Some (JObj entry) /\
    lower (state_text entry) = "running".
Proof.
  destruct o as [rc stdout stderr|]; simpl; [|done].
  destruct (Z.eqb_spec rc 0) as [->|]; simpl; [|by destruct (_ || _)].
  destruct (String.eqb (strip stdout) ""); [done|]. intros H.
  enough (exists line entry, line ∈ splitlines (strip stdout) /\ json_loads line = Some (JObj entry) /\
    lower (state_text entry) = "running") as (line & entry & ?) by (by exists stdout, stderr, line, entry).
  induction (splitlines (strip stdout)) as [|line l IH]; [done|]. cbn [first_state] in H.
  assert (first_state l = running -> exists line0 entry, line0 ∈ line :: l /\
    json_loads line0 = Some (JObj entry) /\ lower (state_text entry) = "running") as Hl.
  { intros H'. destruct (IH H') as (x & en & Hx & ?). exists x, en. split; [by right|done]. }
  destruct (json_loads line) as [[| | | | | | |entry]|] eqn:Hj; auto.
  cbv zeta in H. destruct (String.eqb_spec (lower (state_text entry)) ""); auto.
  exists line, entry. split; [by left|]. split; [done|].
  destruct (Dict.get _ _) as [st|] eqn:Hg; cbn [from_option] in H; unfold id in H; [subst st|done].
  apply Dict.get_Some_elem in Hg. unfold _STATE_TO_STATUS in Hg. clear -Hg.
  repeat (apply elem_of_cons in Hg as [[= ?]|Hg]); try done. by apply elem_of_nil in Hg.
Qed.
End compose.
