(* ===== verification/Download.v ===== *)
(** * Downloads: what the four download modules share

    [urllib], [hashlib] and [tempfile] as [frida_download.py], [modules_download.py],
    [kernel_download.py] and [rootfs_download.py] use them: requests that may fail when
    they are opened or in the middle of the body, the read loop, and the temporary file
    that is renamed onto the destination when everything has been checked.  The network
    and SHA-256 are the class [Web]: what a request returns may depend on how many were
    made before it.  Temporary names come from [Layout]. *)
From stdpp Require Import base list strings gmap sorting.
From Stdlib Require Import ZArith Lia Ascii.
From S2P Require Import Prelude PyStr HostFs Paths.
Local Open Scope stdpp_scope.
Local Open Scope Z_scope.

(** ** Requests *)

(** What [urlopen] and [resp.read] raise; [OtherConn] is any exception that is neither a
    [URLError] nor a [TimeoutError] (a reset connection, an incomplete read). *)
Inductive http_error : Type := HTTPError (code : Z) | TimeoutErr | URLErr | OtherConn.

(** A response: the chunks that successive reads return, and how the last one ends. *)
Record body := mkBody {
  content_length : option string; final_url : string;
  body_chunks : list string; stop : option http_error }.

Class Web := {
  web : nat -> string -> result http_error body;
  sha256_hex : string -> string;
  decodable : string -> bool }.             (* [bytes.decode()] succeeds *)

(** The hexadecimal digest is 64 lower-case digits. *)
Class WebLaws (W : Web) : Prop := {
  sha256_lower : forall s, lower (sha256_hex s) = sha256_hex s;
  sha256_chars : forall s, String.length (sha256_hex s) = 64%nat /\ all_chars is_hex (sha256_hex s) = true }.

(** Why a [FridaFetchError], [ModuleFetchError], [KernelFetchError] or
    [RootfsFetchError] was raised. *)
Inductive fetch_error : Type :=
| FHttp (code : Z) | FTimeout | FUnreachable
| FScheme (url : string)
| FTruncated (got expected : Z)
| FMidStream                              (* the .xz ended before its end marker *)
| FCeiling                                (* the decompression ceiling *)
| FDecompress
| FSidecar                                (* an empty or undecodable checksum file *)
| FMismatch (expected actual : string)
| FLatest (url : string)                  (* no tag behind [latest] *)
| FVersion (v : string).

Inductive dl_error : Type :=
| Http (e : http_error)                   (* not yet mapped, or not mapped at all *)
| Fetch (why : fetch_error)
| BadLength                               (* ValueError of [float(..)] *)
| DigestMismatch (expected actual : string) (* ValueError *)
| ModuleEscapes (path : string)           (* ModuleResolveError *)
| ModuleNotFound (p : path)               (* FileNotFoundError *)
| NoModuleSource                          (* ValueError *)
| SameFile                                (* shutil.SameFileError *)
| DlOs (e : os_error)
| DlOutOfFuel.

Inductive dl_note : Type :=
| FridaResolved (selector tag : string)
| FridaSkew (server client : string).

Record net := mkNet { nfs : fs; requests : nat; said : list dl_note }.
Abbreviation DM := (M net dl_error).

Definition set_nfs (f : fs) (s : net) : net := mkNet f (requests s) (said s).
Definition on_nfs {A} (m : M fs os_error A) : DM A := zoom nfs set_nfs DlOs m.
Definition say (n : dl_note) : DM unit :=
  modify (fun s => mkNet (nfs s) (requests s) (said s ++ [n])).

Section web.
Context {Y : Layout} {W : Web}.

(** Split before the first character that satisfies [p]. *)
Fixpoint break_at (p : ascii -> bool) (l : list ascii) : list ascii * list ascii :=
  match l with
  | [] => ([], [])
  | c :: l' => if p c then ([], l) else let '(a, b) := break_at p l' in (c :: a, b)
  end.

(** [urllib.request.urlopen(url, timeout=..)]. *)
Definition urlopen (url : string) : DM body := fun s =>
  let s' := mkNet (nfs s) (S (requests s)) (said s) in
  match web (requests s) url with
  | Ok b => (Ok b, s')
  | Err e => (Err (Http e), s')
  end.

(** The read loop: each chunk goes to [sink]; an empty one is the end.  The result is
    all that was received. *)
Fixpoint read_loop (sink : string -> DM unit) (got : string) (l : list string)
    (last : option http_error) : DM string :=
  match l with
  | [] => match last with None => mret got | Some e => raise (Http e) end
  | c :: l' =>
      if String.eqb c "" then mret got
      else sink c ;; read_loop sink (got +:+ c) l' last
  end.

Definition read_into (tmp : path) (b : body) : DM string :=
  read_loop (fun c => on_nfs (append_file tmp c)) "" (body_chunks b) (stop b).

(** [int(raw) if isinstance(raw, str) and raw.isdigit() else None]. *)
Definition numeric_length (b : body) : option Z :=
  match content_length b with
  | Some s => if plus_full is_digit s then Z_of_digits s else None
  | None => None
  end.

(** The check of the bytes received against the advertised length. *)
Definition check_length (b : body) (got : string) : DM unit :=
  let n := Z.of_nat (String.length got) in
  match numeric_length b with
  | Some m => if n =? m then mret tt else raise (Fetch (FTruncated n m))
  | None => mret tt
  end.

(** The strings [float] accepts: digits that single underscores may separate, a
    fraction, an exponent, a sign, or a spelt infinity or NaN. *)
Fixpoint digit_part (after_digit : bool) (l : list ascii) : bool :=
  match l with
  | [] => after_digit
  | c :: l' =>
      if is_digit c then digit_part true l'
      else Ascii.eqb c "_"%char && after_digit && negb (bool_decide (l' = [])) && digit_part false l'
  end.

Definition unsigned (l : list ascii) : list ascii :=
  match l with c :: l' => if Ascii.eqb c "+"%char || Ascii.eqb c "-"%char then l' else l | [] => l end.

Definition is_number (s : string) : bool :=
  let '(mantissa, exponent) := partition_on "e"%char s in
  let '(whole, fraction) := partition_on "."%char mantissa in
  let part t := String.eqb t "" || digit_part false (chars t) in
  part whole && part (default "" fraction) &&
  negb (String.eqb whole "" && String.eqb (default "" fraction) "") &&
  match exponent with None => true | Some x => digit_part false (unsigned (chars x)) end.

Definition float_accepts (s : string) : bool :=
  let t := lower (of_chars (unsigned (chars (strip s)))) in
  bool_decide (t ∈ ["inf"; "infinity"; "nan"]) || is_number t.

(** [float(raw_length) if raw_length else None], for the progress bar. *)
Definition progress_total (b : body) : DM unit :=
  match content_length b with
  | None => mret tt
  | Some s => lift (raise_if (negb (String.eqb s "") && negb (float_accepts s)) BadLength)
  end.

(** The [except] clauses that turn connection failures into the module's error. *)
Definition as_fetch_error (e : dl_error) : dl_error :=
  match e with
  | Http (HTTPError c) => Fetch (FHttp c)
  | Http TimeoutErr => Fetch FTimeout
  | Http URLErr => Fetch FUnreachable
  | e => e
  end.

Definition mapped {A} (m : DM A) : DM A := catch m (fun e => raise (as_fetch_error e)).

(** A [try] whose clauses all unlink the temporary file. *)
Definition cleaning {A} (tmp : path) (m : DM A) : DM A :=
  catch m (fun e => on_nfs (unlink_missing_ok tmp) ;; raise e).

(** [sha256_of]. *)
Definition sha256_of (p : path) : DM string := fun s =>
  match read_file p (nfs s) with
  | Ok c => (Ok (sha256_hex c), s)
  | Err e => (Err (DlOs e), s)
  end.

(** [shutil.copyfile]. *)
Definition copyfile (src dst : path) : DM unit := fun s =>
  if decide (src = dst) then
    (Err (if bool_decide (node_at (nfs s) src = None) then DlOs NoSuchFile else SameFile), s)
  else match read_file src (nfs s) with
  | Ok c => on_nfs (write_file dst c) s
  | Err e => (Err (DlOs e), s)
  end.

(** [p.exists() and p.stat().st_size > 0]; a directory has a size. *)
Definition nonempty_at (f : fs) (p : path) : bool :=
  match node_at f p with
  | Some (FileN c) => negb (String.eqb c "")
  | Some DirN => true
  | None => false
  end.

(** [sidecar.decode().split()[0].strip()]. *)
Definition first_word (s : string) : option string :=
  match fst (break_at is_space (lstrip_chars (chars s))) with
  | [] => None
  | w => Some (of_chars w)
  end.

Definition sidecar_digest (sidecar : string) : result dl_error string :=
  if decodable sidecar then
    match first_word sidecar with Some w => Ok w | None => Err (Fetch FSidecar) end
  else Err (Fetch FSidecar).

(** [_fetch_bytes], of [kernel_download.py] and [rootfs_download.py]. *)
Definition _fetch_bytes (url : string) : DM string :=
  mapped (
    resp ← urlopen url;
    progress_total resp ;;
    read_loop (fun _ => mret tt) "" (body_chunks resp) (stop resp)).

(** ** Lemmas *)

Fixpoint received (l : list string) : string :=
  match l with
  | [] => ""
  | c :: l' => if String.eqb c "" then "" else c +:+ received l'
  end.

(** How the loop over [l] ends. *)
Definition loop_end (l : list string) (last : option http_error) : option http_error :=
  if existsb (String.eqb "") l then None else last.

Lemma loop_end_cons c l last :
  loop_end (c :: l) last = if String.eqb c "" then None else loop_end l last.
Proof. by destruct c. Qed.

Lemma wp_on_nfs {A} (m : M fs os_error A) (Q : A -> net -> Prop) (R : dl_error -> net -> Prop) s :
  match m (nfs s) with
  | (Ok a, f) => Q a (set_nfs f s) | (Err e, f) => R (DlOs e) (set_nfs f s)
  end -> wp (on_nfs m) Q R s.
Proof. apply wp_zoom. Qed.

Lemma on_nfs_ok {A} (m : M fs os_error A) s a f :
  m (nfs s) = (Ok a, f) -> on_nfs m s = (Ok a, set_nfs f s).
Proof. unfold on_nfs, zoom. by intros ->. Qed.

Lemma set_nfs_twice f g s : set_nfs f (set_nfs g s) = set_nfs f s.
Proof. done. Qed.
Lemma set_nfs_id s : set_nfs (nfs s) s = s.
Proof. by destruct s. Qed.

Lemma read_loop_file tmp got l last s :
  nfs s !! tmp = Some (FileN got) ->
  read_loop (fun c => on_nfs (append_file tmp c)) got l last s =
  (match loop_end l last with None => Ok (got +:+ received l) | Some e => Err (Http e) end,
   set_nfs (<[tmp := FileN (got +:+ received l)]> (nfs s)) s).
Proof.
  revert got s. induction l as [|c l IH]; intros got s Hs.
  { simpl. rewrite app_nil_r_str, insert_id, set_nfs_id by done. unfold loop_end. simpl.
    by destruct last. }
  rewrite loop_end_cons. cbn [read_loop received]. destruct (String.eqb c "").
  { by rewrite app_nil_r_str, insert_id, set_nfs_id by done. }
  rewrite (M_bind_ok _ _ _ _ _ (on_nfs_ok _ _ _ _ (append_at _ c _ _ Hs))).
  rewrite IH by apply lookup_insert_eq. cbn [nfs set_nfs].
  rewrite insert_insert_eq, set_nfs_twice, app_assoc_str. done.
Qed.

(** A body read into a fresh temporary file. *)
Lemma read_into_fresh tmp b s :
  nfs s !! tmp = Some (FileN "") ->
  read_into tmp b s =
  (match loop_end (body_chunks b) (stop b) with
   | None => Ok (received (body_chunks b)) | Some e => Err (Http e) end,
   set_nfs (<[tmp := FileN (received (body_chunks b))]> (nfs s)) s).
Proof. intros Hs. unfold read_into. by rewrite read_loop_file. Qed.

Lemma as_fetch_error_idem e : as_fetch_error (as_fetch_error e) = as_fetch_error e.
Proof. by destruct e as [[]| | | | | | | | |]. Qed.

(** *** Steps of a download, with the temporary file over the file system [f] *)

Implicit Types (f : fs) (tmp dst : path).

Lemma wp_urlopen u (Q : body -> net -> Prop) (R : dl_error -> net -> Prop) s :
  let s' := mkNet (nfs s) (S (requests s)) (said s) in
  (forall b, web (requests s) u = Ok b -> Q b s') ->
  (forall e, web (requests s) u = Err e -> R (Http e) s') ->
  wp (urlopen u) Q R s.
Proof. intros s' HQ HR. unfold wp, urlopen. destruct (web (requests s) u) as [b|e]; auto. Qed.

Lemma wp_mkdir p (Q : unit -> net -> Prop) (R : dl_error -> net -> Prop) s :
  (forall f, only [] (nfs s) f -> (Forall plain p -> node_at f p = Some DirN) -> Q tt (set_nfs f s)) ->
  (forall e f, only [] (nfs s) f -> R (DlOs e) (set_nfs f s)) ->
  wp (on_nfs (mkdir_p p)) Q R s.
Proof.
  intros HQ HR. apply wp_on_nfs. pose proof (mkdir_p_only p (nfs s)) as Ho.
  destruct (mkdir_p p (nfs s)) as [[[]|e] f] eqn:Hm; [|by apply HR].
  apply HQ; [done|]. intros Hp. by eapply mkdir_p_ok.
Qed.

Lemma wp_mkstemp `{TL : !TempNamesLaws layout_temp} d pre suf
    (Q : path -> net -> Prop) (R : dl_error -> net -> Prop) s :
  (let tmp := d ++ [temp_name (nfs s) d pre suf] in
   nfs s !! tmp = None -> Q tmp (set_nfs (<[tmp := FileN ""]> (nfs s)) s)) ->
  (forall e, R (DlOs e) s) ->
  wp (on_nfs (mkstemp d pre suf)) Q R s.
Proof.
  intros HQ HR. apply wp_on_nfs. destruct (mkstemp d pre suf (nfs s)) as [[t|e] f] eqn:Hm.
  - apply mkstemp_ok in Hm as (-> & Hf & -> & _). by apply HQ.
  - apply mkstemp_err in Hm as ->. by rewrite set_nfs_id.
Qed.

Lemma wp_read_into tmp b f (Q : string -> net -> Prop) (R : dl_error -> net -> Prop) s :
  let got := received (body_chunks b) in
  nfs s = <[tmp := FileN ""]> f ->
  (loop_end (body_chunks b) (stop b) = None -> Q got (set_nfs (<[tmp := FileN got]> f) s)) ->
  (forall e, R (Http e) (set_nfs (<[tmp := FileN got]> f) s)) ->
  wp (read_into tmp b) Q R s.
Proof.
  intros got Hs HQ HR. unfold wp.
  rewrite read_into_fresh by (rewrite Hs; apply lookup_insert_eq).
  rewrite Hs, insert_insert_eq. destruct (loop_end _ _); [apply HR|by apply HQ].
Qed.

Lemma wp_check_length b got (Q : unit -> net -> Prop) (R : dl_error -> net -> Prop) s :
  (from_option (fun n => Z.of_nat (String.length got) = n) True (numeric_length b) -> Q tt s) ->
  (forall n, R (Fetch (FTruncated (Z.of_nat (String.length got)) n)) s) ->
  wp (check_length b got) Q R s.
Proof.
  intros HQ HR. unfold check_length. destruct (numeric_length b) as [n|]; [|by apply wp_ret, HQ].
  destruct (Z.eqb_spec (Z.of_nat (String.length got)) n); [by apply wp_ret, HQ|by apply wp_raise].
Qed.

Lemma wp_replace tmp dst c f (Q : unit -> net -> Prop) (R : dl_error -> net -> Prop) s :
  tmp <> [] -> f !! tmp = None -> nfs s = <[tmp := FileN c]> f ->
  (f !! dst <> Some DirN -> dst <> [] -> Q tt (set_nfs (<[dst := FileN c]> f) s)) ->
  (forall e, R (DlOs e) s) ->
  wp (on_nfs (replace tmp dst)) Q R s.
Proof.
  intros Hnil Hf Hs HQ HR. apply wp_on_nfs. rewrite Hs.
  destruct (replace_file tmp dst c (<[tmp := FileN c]> f) Hnil) as [[e He]|(Hr & Hd & Hn & _)];
    [apply lookup_insert_eq| |].
  - rewrite He, <- Hs, set_nfs_id. apply HR.
  - rewrite Hr. case_decide as Ht.
    + subst. apply HQ; [congruence|done].
    + rewrite lookup_insert_ne in Hd by done. rewrite insert_insert_ne by done.
      rewrite (delete_fresh tmp) by (by rewrite lookup_insert_ne). by apply HQ.
Qed.

Lemma wp_mapped {A} (m : DM A) (Q : A -> net -> Prop) (R : dl_error -> net -> Prop) s :
  wp m Q (fun e => R (as_fetch_error e)) s -> wp (mapped m) Q R s.
Proof. intros H. by apply wp_catch. Qed.

(** When the [try] fails, the temporary file goes. *)
Lemma wp_cleaning {A} tmp f (m : DM A) (Q : A -> net -> Prop) (R : dl_error -> net -> Prop) s :
  tmp <> [] -> f !! tmp = None ->
  wp m Q (fun e s' => (exists c, nfs s' = <[tmp := FileN c]> f) /\ R e (set_nfs f s')) s ->
  wp (cleaning tmp m) Q R s.
Proof.
  intros Hnil Hf Hm. apply wp_catch. eapply wp_mono; [exact Hm|done|].
  intros e s' [[c Hc] HR]. unfold wp, mbind, M_bind.
  erewrite on_nfs_ok by (eapply unlink_file; [done|rewrite Hc; apply lookup_insert_eq]).
  rewrite Hc, delete_fresh by done. exact HR.
Qed.

Lemma read_loop_memory got l last s :
  read_loop (fun _ => mret tt) got l last s =
  (match loop_end l last with None => Ok (got +:+ received l) | Some e => Err (Http e) end, s).
Proof.
  revert got. induction l as [|c l IH]; intros got.
  { simpl. rewrite app_nil_r_str. unfold loop_end. simpl. by destruct last. }
  rewrite loop_end_cons. cbn [read_loop received]. destruct (String.eqb c ""); [by rewrite app_nil_r_str|].
  change (read_loop (fun _ => mret tt) (got +:+ c) l last s =
    (match loop_end l last with None => Ok (got +:+ c +:+ received l) | Some e => Err (Http e) end, s)).
  by rewrite IH, app_assoc_str.
Qed.

Lemma wp_progress b (Q : unit -> net -> Prop) (R : dl_error -> net -> Prop) s :
  Q tt s -> R BadLength s -> wp (progress_total b) Q R s.
Proof.
  intros HQ HR. unfold progress_total. destruct (content_length b); [|by apply wp_ret].
  apply wp_lift; [by intros [] _|]. by intros e [_ <-]%raise_if_err.
Qed.

Lemma wp_fetch_bytes u (Q : string -> net -> Prop) (R : dl_error -> net -> Prop) s :
  let s' := mkNet (nfs s) (S (requests s)) (said s) in
  (forall b, web (requests s) u = Ok b -> loop_end (body_chunks b) (stop b) = None ->
     Q (received (body_chunks b)) s') ->
  (forall e, R e s') -> wp (_fetch_bytes u) Q R s.
Proof.
  intros s' HQ HR. apply wp_mapped, wp_bind, wp_urlopen; [|intros; apply HR]. intros b Hb.
  apply wp_bind, wp_progress; [|apply HR]. unfold wp. rewrite read_loop_memory.
  destruct (loop_end _ _) eqn:He; [apply HR|by apply HQ].
Qed.
End web.

(** Only the files under [ts] change; directories may appear. *)
Definition within (ts : list path) (f f' : fs) : Prop := forall q,
  Forall (fun t => ~ t `prefix_of` q) ts ->
  f' !! q = f !! q \/ (f !! q = None /\ f' !! q = Some DirN).

#[export] Instance within_preorder ts : PreOrder (within ts).
Proof.
  split; [by intros f q _; left|]. intros f g h H1 H2 q Hq.
  destruct (H1 q Hq) as [Ha|[Ha Hb]], (H2 q Hq) as [Hc|[Hc Hd]]; rewrite ?Hc, ?Ha; auto.
  right. split; congruence.
Qed.

Lemma only_within ps ts f f' :
  Forall (fun p => Exists (fun t => t `prefix_of` p) ts) ps -> only ps f f' -> within ts f f'.
Proof.
  intros Hp Ho q Hq. apply Ho. intros Hin. rewrite Forall_forall in Hp.
  specialize (Hp q Hin). rewrite Forall_forall in Hq. apply Exists_exists in Hp as (t & Ht & Htq).
  by apply (Hq t).
Qed.

Lemma within_file ts f f' q c :
  within ts f f' -> Forall (fun t => ~ t `prefix_of` q) ts ->
  f !! q = Some (FileN c) -> f' !! q = Some (FileN c).
Proof. intros H Hq Hf. destruct (H q Hq) as [->|[? _]]; congruence. Qed.

Definition net_within (ts : list path) (s s' : net) : Prop := within ts (nfs s) (nfs s').

#[export] Instance net_within_preorder ts : PreOrder (net_within ts).
Proof. split; [intros s; red; reflexivity|]. intros a b c H1 H2. red. by etransitivity. Qed.

(** ** Instances for examples

    A layout with an unpacked package, and a network that serves a few pages; the digest
    is a toy that satisfies the law. *)
Module DlSample.

Definition hexify (c : ascii) : ascii := ascii_of_nat (97 + nat_of_ascii c mod 6).
Definition toy_digest (s : string) : string :=
  of_chars (take 64 (map hexify (chars s) ++ replicate 64 "0"%char)).

#[export] Instance layout : Layout := {|
  user_config_path := "/home/u/.config/beetroot"; user_cache_path := "/home/u/.cache/beetroot";
  home := ["home"; "u"]; resource_path := fun n => Some ["pkg"; n];
  resource_bytes := fun n => n; extract_dir := ["tmp"]; layout_temp := long_names |}.

#[export] Instance layout_laws : LayoutLaws layout.
Proof. split; [|apply long_names_laws]. apply (bool_decide_unpack _). by vm_compute. Qed.

Definition page (s : string) : body :=
  mkBody (Some (str_of_Z (Z.of_nat (String.length s)))) "" [s] None.

Definition pages : list (string * body) :=
  [("https://example.org/a.zip", page "AAAA"); ("https://example.org/b/a.zip?v=2", page "BB");
   ("https://example.org/cut.zip", mkBody (Some "10") "" ["CC"] None)].

#[export] Instance network : Web := {|
  web _ u := match Dict.get u pages with Some b => Ok b | None => Err (HTTPError 404) end;
  sha256_hex := toy_digest; decodable _ := true |}.

Lemma hexify_hex c : is_hex (hexify c) = true /\ lower_char (hexify c) = hexify c.
Proof. destruct c as [[] [] [] [] [] [] [] []]; by vm_compute. Qed.

Lemma lower_chars l : Forall (fun c => lower_char c = c) l -> lower (of_chars l) = of_chars l.
Proof. 
  induction 1 as [|c l Hc _ IH]; [done|].
  change (lower (of_chars (c :: l))) with (String (lower_char c) (lower (of_chars l))).
  by rewrite Hc, IH.
Qed.

Lemma length_of_chars l : String.length (of_chars l) = length l.
Proof. induction l as [|c l IH]; [done|]. simpl. by f_equal. Qed.

Lemma toy_chars s : Forall (fun c => is_hex c = true /\ lower_char c = c)
  (take 64 (map hexify (chars s) ++ replicate 64 "0"%char)).
Proof.
  apply Forall_take, Forall_app. split.
  - apply Forall_map, Forall_true. intros c. apply hexify_hex.
  - apply Forall_replicate. by split.
Qed.

#[export] Instance network_laws : WebLaws network.
Proof.
  split; intros s; simpl; pose proof (toy_chars s) as Hs.
  - apply lower_chars. eapply Forall_impl; [exact Hs|]. by intros c [_ ?].
  - split.
    + unfold toy_digest. rewrite length_of_chars, length_take, length_app, length_replicate. lia.
    + unfold all_chars, toy_digest. rewrite chars_of_chars. apply forallb_forall.
      intros c Hc. rewrite Forall_forall in Hs. by apply Hs, list_elem_of_In.
Qed.

Definition dirs (ps : list path) : fs := list_to_map (map (fun p => (p, DirN)) ps).
Definition start (f : fs) : net := mkNet f 0 [].

Example floats : map float_accepts ["12"; " 7 "; "1e5"; "1_0.5"; "-inf"; "12a"; "1__0"; "."; "e5"; "-"] =
  [true; true; true; true; true; false; false; false; false; false].
Proof. vm_compute. reflexivity. Qed.
End DlSample.
