(* ===== verification/ModulesDownload.v ===== *)
(** * [src/src/beetroot/modules_download.py]: staging Magisk modules

    A module is fetched from its URL through a per-user cache, or copied from the
    instance directory or an absolute path; a digest, when given, is checked before
    anything is staged.  File modes are not modelled, nor a URL whose host is written as
    an IPv6 address, which [urlsplit] validates. *)
From stdpp Require Import base list strings gmap sorting.
From Stdlib Require Import ZArith Lia Ascii.
From S2P Require Import Prelude PyStr Config HostFs Paths Download.
Local Open Scope stdpp_scope.
Local Open Scope Z_scope.

Definition _ALLOWED_URL_SCHEMES : list string := ["http://"; "https://"].

(** ** URLs and names *)

Definition one_of (s : string) (c : ascii) : bool := bool_decide (c ∈ chars s).

(** [urlsplit(url).path] of an [http] or [https] URL: tabs and line breaks are removed,
    then the scheme and the host, the query and the fragment. *)
Definition url_path (u : string) : string :=
  let unsafe c := let n := nat_of_ascii c in (n =? 9)%nat || (n =? 10)%nat || (n =? 13)%nat in
  let l := filter (fun c => unsafe c = false) (chars u) in
  let after_scheme := drop 3 (snd (break_at (Ascii.eqb ":"%char) l)) in
  let rest := snd (break_at (one_of "/?#") after_scheme) in
  of_chars (fst (break_at (one_of "?#") rest)).

Definition _filename_from_url (u : string) : string :=
  let n := default "" (last (split_on "/"%char (url_path u))) in
  if String.eqb n "" then "module.zip" else n.

Definition ends_with (suffix s : string) : bool := bool_decide (chars suffix `suffix_of` chars s).

(** ["{index}_{name}" until it is unused]; the fuel is one more than the used names. *)
Fixpoint unique_name (fuel : nat) (name : string) (used : list string) (index : Z) : string :=
  match fuel with
  | O => name
  | S fuel' =>
      if bool_decide (name ∉ used) then name
      else unique_name fuel' (str_of_Z index +:+ "_" +:+ name) used index
  end.

Definition _unique_dest_name (name : string) (used : list string) (index : Z) : string :=
  unique_name (S (length used)) name used index.

Section modules.
Context {Y : Layout} {W : Web}.

Definition _module_cache_dir : path := user_cache_dir "modules".

(** [Path(d) / n], for a name: a dot adds no component. *)
Definition join_name (d : path) (n : string) : path := if is_dot n then d else d ++ [n].

Definition _cache_path_for_url (u : string) : path :=
  join_name (_module_cache_dir ++ [String.substring 0 12 (sha256_hex u)]) (_filename_from_url u).

(** ** Fetching *)

Definition _fetch_url (u : string) : DM path :=
  if negb (existsb (fun s => starts_with s u) _ALLOWED_URL_SCHEMES) then raise (Fetch (FScheme u))
  else
    let cache := _cache_path_for_url u in
    (* where [cache] leads, should the last component be dot-dot *)
    let at_cache := norm [] cache in
    cached ← gets (fun s => nonempty_at (nfs s) at_cache);
    if (cached : bool) then mret cache
    else
      on_nfs (mkdir_p (parent cache)) ;;
      tmp ← on_nfs (mkstemp (parent cache) "" ".tmp");
      cleaning tmp (mapped (
        resp ← urlopen u;
        got ← read_into tmp resp;
        check_length resp got ;;
        on_nfs (replace tmp at_cache))) ;;
      mret cache.

Definition verify_sha256 (p : path) (expected : string) : DM unit :=
  actual ← sha256_of p;
  lift (raise_if (negb (String.eqb (lower actual) (lower expected))) (DigestMismatch expected actual)).

(** ** Resolving an entry *)

Definition is_url (m : Module_) : bool := truthy (url m).

Definition _is_within (p base : path) : bool := bool_decide (base `prefix_of` p).

Definition _resolve_path (p : string) (root : path) : DM path :=
  let local := resolve root p in
  lift (raise_if (negb (is_absolute p) && negb (_is_within local root)) (ModuleEscapes p)) ;;
  there ← gets (fun s => exists_at (nfs s) local);
  lift (raise_if (negb there) (ModuleNotFound local)) ;;
  mret local.

Definition _resolve (m : Module_) (root : path) : DM path :=
  local ← (if is_url m then _fetch_url (default "" (url m))
           else match Config.path m with
                | None => raise NoModuleSource
                | Some p => _resolve_path p root
                end);
  match module_sha256 m with
  | Some d =>
      if String.eqb d "" then mret local
      else
        catch (verify_sha256 (norm [] local) d) (fun e =>
          match e with
          | DigestMismatch _ _ =>
              if is_url m then on_nfs (unlink_missing_ok (norm [] local)) ;; raise e else raise e
          | _ => raise e
          end) ;;
        mret local
  | None => mret local
  end.

(** ** Staging *)

(** [for stale in target.glob("*.zip"): stale.unlink()], in the order of the names. *)
Fixpoint unlink_all (target : path) (names : list string) : DM unit :=
  match names with
  | [] => mret tt
  | n :: names' => on_nfs (unlink (target ++ [n])) ;; unlink_all target names'
  end.

Definition stale_zips (f : fs) (target : path) : list string :=
  filter (fun n => ends_with ".zip" n = true) (children f target).

Fixpoint stage_modules (root target : path) (used : list string) (index : Z) (l : list Module_)
  : DM (list path) :=
  match l with
  | [] => mret []
  | m :: l' =>
      src ← _resolve m root;
      let dst_name := _unique_dest_name (path_name src) used index in
      copyfile (norm [] src) (target ++ [dst_name]) ;;
      staged ← stage_modules root target (dst_name :: used) (index + 1) l';
      mret ((target ++ [dst_name]) :: staged)
  end.

Definition stage_for_instance (root : path) (l : list Module_) : DM (list path) :=
  let target := instance_modules root in
  on_nfs (mkdir_p target) ;;
  stale ← gets (fun s => stale_zips (nfs s) target);
  unlink_all target stale ;;
  stage_modules root target [] 0 l.
End modules.

(** ** Examples *)

Example filename_of_query :
  _filename_from_url "https://example.org/a/m.zip?v=2/x#y" = "m.zip" /\
  _filename_from_url "https://example.org" = "module.zip" /\
  _filename_from_url "https://example.org/a/?file=m.zip" = "module.zip" /\
  _filename_from_url "https://example.org/download" = "download".
Proof. vm_compute. auto. Qed.

(** ** Names *)

Lemma unique_name_fresh fuel name used index :
  (length used < fuel)%nat -> unique_name fuel name used index ∉ used.
Proof.
  enough (forall k seen, (length used < fuel + k)%nat -> length seen = k -> NoDup seen ->
    Forall (fun n => n ∈ used /\ (String.length n < String.length name)%nat) seen ->
    unique_name fuel name used index ∉ used) as H.
  { intros Hl. apply (H 0%nat []); [lia|done|constructor|constructor]. }
  revert name. induction fuel as [|fuel IH]; intros name k seen Hl Hk Hn Hs; simpl.
  - exfalso. assert (length seen <= length used)%nat; [|lia].
    apply submseteq_length, NoDup_submseteq; [done|].
    intros x Hx. rewrite Forall_forall in Hs. by apply Hs.
  - case_bool_decide as Hin; [done|].
    apply (IH _ (S k) (name :: seen)); [lia|by simpl; f_equal| |].
    + constructor; [|done]. intros Hin'. rewrite Forall_forall in Hs.
      destruct (Hs name Hin'). lia.
    + constructor; [split; [done|]|eapply Forall_impl; [exact Hs|intros x [? ?]; split; [done|]]];
        rewrite !length_app_str; simpl; lia.
Qed.

Lemma unique_dest_fresh name used index : _unique_dest_name name used index ∉ used.
Proof. apply unique_name_fresh. lia. Qed.

(** The first module of a name keeps it. *)
Lemma unique_dest_kept name used index : name ∉ used -> _unique_dest_name name used index = name.
Proof. intros H. unfold _unique_dest_name. simpl. by rewrite bool_decide_true. Qed.

Lemma hex_chars_plain s : s <> "" -> all_chars is_hex s = true -> plain s.
Proof.
  intros Hne Hs. unfold all_chars in Hs. rewrite forallb_forall in Hs.
  assert (forall c, c ∈ chars s -> is_hex c = true) as H.
  { intros c Hc. apply Hs. by apply list_elem_of_In. }
  split; [|split].
  - unfold is_dot. destruct (String.eqb_spec s ""); [done|]. simpl.
    destruct (String.eqb_spec s "."); [|done]. subst. discriminate (H "."%char). by left.
  - intros ->. discriminate (H "."%char). by left.
  - intros Hin. discriminate (H _ Hin).
Qed.

Lemma chars_substring n s : chars (String.substring 0 n s) = take n (chars s).
Proof. revert n. induction s as [|c s IH]; intros [|n]; simpl; f_equal; auto. Qed.

Section facts.
Context {Y : Layout} `{YL : !LayoutLaws Y} {W : Web} `{WL : !WebLaws W}.
Implicit Types (f : fs) (s : net) (target root : path).

Lemma url_key_plain u : plain (String.substring 0 12 (sha256_hex u)).
Proof.
  destruct (sha256_chars u) as [Hl Hc].
  apply hex_chars_plain.
  - intros He. apply (f_equal chars) in He. rewrite chars_substring in He.
    destruct (sha256_hex u) as [|c t]; [done|]. by simpl in He.
  - unfold all_chars in *. rewrite chars_substring. rewrite forallb_forall in *.
    intros c Hc'. apply Hc. apply list_elem_of_In, (subseteq_take 12). by apply list_elem_of_In.
Qed.

Lemma cache_dir_plain : Forall plain _module_cache_dir.
Proof. apply user_cache_plain. apply (bool_decide_unpack _). by vm_compute. Qed.

Lemma url_dir_plain u : Forall plain (_module_cache_dir ++ [String.substring 0 12 (sha256_hex u)]).
Proof. apply Forall_app. split; [apply cache_dir_plain|apply Forall_singleton, url_key_plain]. Qed.

Lemma filename_free u : "/"%char ∉ chars (_filename_from_url u).
Proof.
  unfold _filename_from_url. case_match eqn:He; [apply (bool_decide_unpack _); by vm_compute|].
  pose proof (split_on_items_free "/" (url_path u)) as Hf. rewrite Forall_forall in Hf.
  destruct (last _) as [n|] eqn:Hl; [|by rewrite String.eqb_refl in He]. simpl. apply Hf.
  apply last_Some in Hl as [l ->]. set_solver.
Qed.

(** Whatever its name, a cached module is in the cache directory. *)
Lemma cache_path_inside u :
  _module_cache_dir `prefix_of` parent (_cache_path_for_url u) /\
  _module_cache_dir `prefix_of` norm [] (_cache_path_for_url u).
Proof.
  unfold _cache_path_for_url, join_name. set (d := _module_cache_dir ++ [_]).
  assert (_module_cache_dir `prefix_of` d) as Hd by (by eexists).
  assert (norm [] d = d) as Hn by (by rewrite norm_plain by apply url_dir_plain).
  destruct (is_dot _) eqn:Hdot.
  { unfold d at 1. rewrite parent_snoc, Hn. by split. }
  rewrite parent_snoc. split; [done|]. rewrite norm_app, Hn. simpl. rewrite Hdot.
  destruct (String.eqb_spec (_filename_from_url u) "..").
  - unfold d. by rewrite parent_snoc.
  - etransitivity; [exact Hd|by eexists].
Qed.

(** ** Fetching *)

(** What a fetch leaves: on success the path of the cache entry, which was there and
    not empty, or is what a complete response carried; on failure no file has changed
    and the temporary one is gone. *)
Lemma fetch_cases u s :
  wp (_fetch_url u)
    (fun p s' => p = _cache_path_for_url u /\
       (s' = s /\ nonempty_at (nfs s) (norm [] p) = true \/
        requests s' = S (requests s) /\
        exists b f, web (requests s) u = Ok b /\ loop_end (body_chunks b) (stop b) = None /\
          let got := received (body_chunks b) in
          from_option (fun n => Z.of_nat (String.length got) = n) True (numeric_length b) /\
          only [] (nfs s) f /\ nfs s' = <[norm [] p := FileN got]> f))
    (fun _ s' => only [] (nfs s) (nfs s')) s.
Proof.
  unfold _fetch_url. destruct (negb _); [apply wp_raise; reflexivity|].
  set (cache := _cache_path_for_url u). apply wp_bind, wp_gets.
  destruct (nonempty_at _ _) eqn:Hc; [apply wp_ret; auto|].
  apply wp_bind, wp_mkdir; [|by intros e f Hf; simpl]. intros f Hf _.
  apply wp_bind, wp_mkstemp; [|by intros e; simpl]. intros tmp Ht.
  cbn [nfs set_nfs] in *.
  assert (tmp <> []) as Hnil by (unfold tmp; by destruct (parent cache)).
  apply wp_bind. eapply wp_cleaning; [exact Hnil|exact Ht|]. apply wp_mapped.
  apply wp_bind, wp_urlopen; [|intros e _; split; [by eexists|done]]. intros b Hb.
  apply wp_bind. apply (wp_read_into tmp b f); [done| |intros e; split; [by eexists|done]].
  intros Hend. apply wp_bind, wp_check_length; [intros Hlen|intros n; split; [by eexists|done]].
  eapply wp_replace; [exact Hnil|exact Ht|reflexivity| |intros e; split; [by eexists|done]].
  intros _ _. apply wp_ret. split; [done|]. right. split; [done|]. by exists b, f.
Qed.

Lemma fetch_within u s :
  wp (_fetch_url u) (fun p s' => p = _cache_path_for_url u /\ net_within [_module_cache_dir] s s')
    (fun _ s' => net_within [_module_cache_dir] s s') s.
Proof.
  eapply wp_mono; [apply fetch_cases| |].
  - intros p s' [-> [[-> _]|(_ & b & f & _ & _ & _ & Ho & Hs)]]; (split; [done|]); [reflexivity|].
    red. rewrite Hs. transitivity f; [eapply only_within; [|exact Ho]; constructor|].
    eapply only_within; [|apply only_insert]. apply Forall_singleton, Exists_cons_hd.
    apply cache_path_inside.
  - intros e s' Ho. red. eapply only_within; [|exact Ho]. constructor.
Qed.

(** ** Resolving *)

Definition pinned (m : Module_) (c : string) : Prop :=
  forall d, module_sha256 m = Some d -> d <> "" -> lower (sha256_hex c) = lower d.

Definition file_content f (p : path) (c : string) : Prop := read_file p f = Ok c.

Lemma verify_wp p d (Q : unit -> net -> Prop) (R : dl_error -> net -> Prop) s :
  (forall c, file_content (nfs s) p c -> lower (sha256_hex c) = lower d -> Q tt s) ->
  (forall e, R e s) -> wp (verify_sha256 p d) Q R s.
Proof.
  intros HQ HR. unfold verify_sha256. apply wp_bind. unfold wp at 1, sha256_of.
  destruct (read_file p (nfs s)) as [c|e] eqn:Hc; [|apply HR].
  apply wp_lift; [|intros e _; apply HR]. intros [] H%raise_if_ok.
  apply negb_false_iff, String.eqb_eq in H. by apply (HQ c).
Qed.

Lemma resolve_path_wp p root s :
  wp (_resolve_path p root)
    (fun l s' => s' = s /\ l = resolve root p /\ (is_absolute p = false -> root `prefix_of` l))
    (fun _ s' => s' = s) s.
Proof.
  unfold _resolve_path. apply wp_bind, wp_lift; [|done].
  intros [] H%raise_if_ok. apply wp_bind, wp_gets, wp_bind, wp_lift; [|done].
  intros [] _. apply wp_ret. split_and!; [done|done|]. intros Hp. rewrite Hp in H. simpl in H.
  by apply negb_false_iff, bool_decide_eq_true in H.
Qed.

(** Resolving an entry touches nothing but the cache, and nothing at all for a path
    entry; its digest has been checked. *)
Lemma resolve_cases m root s :
  wp (_resolve m root)
    (fun l s' =>
       net_within [_module_cache_dir] s s' /\
       (forall c, file_content (nfs s') (norm [] l) c -> pinned m c) /\
       (is_url m = true \/
        s' = s /\ exists p, Config.path m = Some p /\ l = resolve root p /\
                  (is_absolute p = false -> root `prefix_of` l)))
    (fun _ s' => net_within [_module_cache_dir] s s' /\ (is_url m = false -> s' = s)) s.
Proof.
  unfold _resolve. apply wp_bind.
  eapply (wp_mono _ (fun l s1 => net_within [_module_cache_dir] s s1 /\
       (is_url m = true /\ _module_cache_dir `prefix_of` norm [] l \/
        is_url m = false /\ s1 = s /\ exists p, Config.path m = Some p /\ l = resolve root p /\
                  (is_absolute p = false -> root `prefix_of` l)))); [|intros l s1 [Hw Hl]|intros e s1 He; exact He].
  { destruct (is_url m).
    - eapply wp_mono; [apply fetch_within| |done].
      intros p s1 [-> Hw]. split; [done|]. left. split; [done|apply cache_path_inside].
    - destruct (Config.path m) as [p|]; [|by apply wp_raise].
      eapply wp_mono; [apply resolve_path_wp| |by intros e s1 ->].
      intros l s1 (-> & -> & Hin). split; [reflexivity|]. right. split_and!; [done|done|]. by exists p. }
  assert (is_url m = true \/ s1 = s /\ exists p, Config.path m = Some p /\ l = resolve root p /\
                  (is_absolute p = false -> root `prefix_of` l)) as Hsrc by tauto.
  destruct (module_sha256 m) as [d|] eqn:Hd.
  2: { apply wp_ret. split_and!; [done| |done]. intros c _ d' Hd'. congruence. }
  destruct (String.eqb_spec d "") as [->|Hne].
  { apply wp_ret. split_and!; [done| |done]. intros c _ d' Hd' Hn. congruence. }
  apply wp_bind, wp_catch, verify_wp.
  - intros c Hc Hsha. apply wp_ret. split_and!; [done| |done]. intros c' Hc' d' Hd' _.
    unfold file_content in *. congruence.
  - assert (is_url m = false -> s1 = s) as Hsame by (destruct Hl as [[? _]|(_ & ? & _)]; congruence).
    intros e. destruct e as [| | |x y| | | | | |]; try (apply wp_raise; by split).
    destruct (is_url m) eqn:Hu; [|by apply wp_raise].
    destruct Hl as [[_ Hl]|(? & _)]; [|done].
    apply wp_bind, wp_on_nfs. pose proof (unlink_missing_ok_only (norm [] l) (nfs s1)) as Ho.
    assert (forall f, only [norm [] l] (nfs s1) f ->
      net_within [_module_cache_dir] s (set_nfs f s1)) as Hcl.
    { intros f Hf. etransitivity; [exact Hw|]. red. eapply only_within; [|exact Hf].
      by apply Forall_singleton, Exists_cons_hd. }
    destruct (unlink_missing_ok _ _) as [[[]|e] f]; (split; [by apply Hcl|done]).
Qed.

(** ** Staging *)

(** Neither of two directories contains the other. *)
Definition apart (a b : path) : Prop := ~ a `prefix_of` b /\ ~ b `prefix_of` a.

Lemma apart_below a b q : apart a b -> b `prefix_of` q -> ~ a `prefix_of` q.
Proof. intros [H1 H2] Hb Ha. by destruct (prefix_weak_total a b q Ha Hb). Qed.

Lemma copyfile_wp src dst s :
  wp (copyfile src dst)
    (fun _ s' => exists c, file_content (nfs s) src c /\ dst <> [] /\ s' = set_nfs (<[dst := FileN c]> (nfs s)) s)
    (fun _ s' => s' = s) s.
Proof.
  unfold wp, copyfile, on_nfs, zoom. case_decide; [done|].
  destruct (read_file src (nfs s)) as [c|e] eqn:Hc; [|done].
  destruct (write_file dst c (nfs s)) as [[[]|e] f] eqn:Hw.
  - apply write_file_ok in Hw as (-> & Hn & _). by exists c.
  - unfold write_file in Hw. repeat case_match; simplify_eq; apply set_nfs_id.
Qed.

Lemma unlink_all_wp target names s :
  wp (unlink_all target names)
    (fun _ s' => only (map (fun n => target ++ [n]) names) (nfs s) (nfs s') /\
                 forall n, n ∈ names -> forall c, nfs s' !! (target ++ [n]) <> Some (FileN c))
    (fun _ s' => only (map (fun n => target ++ [n]) names) (nfs s) (nfs s')) s.
Proof.
  revert s. induction names as [|n names IH]; intros s; simpl.
  { apply wp_ret. split; [reflexivity|set_solver]. }
  assert (forall f g, only [target ++ [n]] f g ->
    only (map (fun n => target ++ [n]) (n :: names)) f g) as Hhd
    by (intros f g; apply only_mono; set_solver).
  assert (forall f g, only (map (fun n => target ++ [n]) names) f g ->
    only (map (fun n => target ++ [n]) (n :: names)) f g) as Htl
    by (intros f g; apply only_mono; set_solver).
  apply wp_bind, wp_on_nfs. pose proof (unlink_only (target ++ [n]) (nfs s)) as Ho.
  unfold unlink in *. destruct (node_at (nfs s) (target ++ [n])) as [[|c0]|] eqn:Hn;
    [apply Hhd; simpl; exact Ho| |apply Hhd; simpl; exact Ho]. simpl in Ho.
  eapply wp_mono; [apply IH| |].
  - intros [] s' [Hs Hgone]. simpl in Hs. split.
    { etransitivity; [apply Hhd; exact Ho|by apply Htl]. }
    intros x [->|Hx]%elem_of_cons c Hc; [|by apply (Hgone x Hx c)].
    destruct (decide (n ∈ names)) as [Hin|Hin]; [by apply (Hgone n Hin c)|].
    destruct (Hs (target ++ [n])) as [Heq|[_ Heq]]; [|rewrite lookup_delete_eq in Heq; congruence|congruence].
    intros Hin'. apply list_elem_of_fmap in Hin' as (y & Hy & Hyin).
    apply (inj (app target)) in Hy as [= ->]. done.
  - intros e s' Hs. simpl in Hs. etransitivity; [apply Hhd; exact Ho|by apply Htl].
Qed.

(** Only the files staged change, the cache apart. *)
Definition staged_only (staged : list path) f f' : Prop := forall q,
  ~ _module_cache_dir `prefix_of` q -> q ∉ staged ->
  f' !! q = f !! q \/ (f !! q = None /\ f' !! q = Some DirN).

Lemma staged_only_trans a b f g h : staged_only a f g -> staged_only b g h -> staged_only (a ++ b) f h.
Proof.
  intros H1 H2 q Hc Hq. apply not_elem_of_app in Hq as [Ha Hb].
  destruct (H1 q Hc Ha) as [Hx|[Hx Hy]], (H2 q Hc Hb) as [Hz|[Hz Ht]]; rewrite ?Hz, ?Hx; auto.
  right. split; congruence.
Qed.

Lemma staged_only_within f f' : within [_module_cache_dir] f f' -> staged_only [] f f'.
Proof. intros H q Hc _. apply H. by apply Forall_singleton. Qed.

Lemma staged_only_target target names f f' :
  staged_only (map (fun n => target ++ [n]) names) f f' -> within [_module_cache_dir; target] f f'.
Proof.
  intros H q Hq. apply Forall_cons in Hq as [Hc Hq]. apply Forall_cons in Hq as [Hq _]. apply H; [done|].
  intros (n & -> & _)%list_elem_of_fmap. apply Hq. by eexists.
Qed.

Lemma stage_modules_wp root target used i l s :
  apart _module_cache_dir target ->
  wp (stage_modules root target used i l)
    (fun staged s' => exists names, staged = map (fun n => target ++ [n]) names /\
       NoDup names /\ Forall (fun n => n ∉ used) names /\
       Forall2 (fun m n => exists c, nfs s' !! (target ++ [n]) = Some (FileN c) /\ pinned m c) l names /\
       staged_only staged (nfs s) (nfs s'))
    (fun _ s' => net_within [_module_cache_dir; target] s s') s.
Proof.
  intros Hap. revert used i s. induction l as [|m l IH]; intros used i s; simpl.
  { apply wp_ret. exists []. split_and!; [done|apply NoDup_nil_2|done|done|by intros q _ _; left]. }
  assert (forall a b, net_within [_module_cache_dir] a b -> net_within [_module_cache_dir; target] a b) as Hup.
  { intros a b H q Hq. apply H. apply Forall_cons in Hq as [? _]. by apply Forall_singleton. }
  apply wp_bind. eapply wp_mono; [apply resolve_cases| |by intros e s1 [H _]; apply Hup].
  intros src s1 (Hw & Hpin & _). set (n := _unique_dest_name _ _ _).
  assert (n ∉ used) as Hn by apply unique_dest_fresh.
  apply wp_bind. eapply wp_mono; [apply copyfile_wp| |by intros e s2 ->; apply Hup].
  intros [] s2 (c & Hc & _ & ->). apply wp_bind.
  set (s2 := set_nfs _ s1).
  assert (staged_only [target ++ [n]] (nfs s) (nfs s2)) as H02.
  { change [target ++ [n]] with ([] ++ [target ++ [n]]). eapply staged_only_trans.
    - by apply staged_only_within.
    - intros q _ Hq. left. apply lookup_insert_ne. set_solver. }
  eapply wp_mono; [apply (IH (n :: used) (i + 1) s2)| |].
  - intros staged s3 (names & -> & Hnd & Hused & Hall & Ho). apply wp_ret.
    exists (n :: names). assert (n ∉ names) as Hnn.
    { intros Hin. rewrite Forall_forall in Hused. apply (Hused n Hin). by left. }
    split_and!; [done|by constructor| | |].
    + constructor; [done|]. eapply Forall_impl; [exact Hused|]. set_solver.
    + constructor; [|done]. exists c. split; [|by apply Hpin].
      destruct (Ho (target ++ [n])) as [->|[H _]].
      * eapply apart_below; [exact Hap|by eexists].
      * intros (x & Hx & Hxin)%list_elem_of_fmap. by apply (inj (app target)) in Hx as [= ->].
      * apply lookup_insert_eq.
      * unfold s2 in H. simpl in H. rewrite lookup_insert_eq in H. done.
    + apply (staged_only_trans [target ++ [n]] (map _ names) _ _ _ H02 Ho).
  - intros e s3 H. etransitivity; [|exact H]. red. by apply (staged_only_target target [n]).
Qed.

(** C33. What staging leaves in an instance: one file per module of the configuration, in
    order and under distinct names, whose content has the digest the entry pins; and no
    other zip file — a module removed from the configuration is no longer there. *)
Theorem staged_modules_exact root l s :
  apart _module_cache_dir (instance_modules root) ->
  match stage_for_instance root l s with
  | (Err _, _) => True
  | (Ok staged, s') => exists names,
      staged = map (fun n => instance_modules root ++ [n]) names /\ NoDup names /\
      Forall2 (fun m n => exists c,
        nfs s' !! (instance_modules root ++ [n]) = Some (FileN c) /\ pinned m c) l names /\
      forall n c, ends_with ".zip" n = true ->
        nfs s' !! (instance_modules root ++ [n]) = Some (FileN c) -> n ∈ names
  end.
Proof.
  intros Hap. set (target := instance_modules root) in *.
  change (wp (stage_for_instance root l) (fun staged s' => exists names,
    staged = map (fun n => target ++ [n]) names /\ NoDup names /\
    Forall2 (fun m n => exists c, nfs s' !! (target ++ [n]) = Some (FileN c) /\ pinned m c) l names /\
    forall n c, ends_with ".zip" n = true -> nfs s' !! (target ++ [n]) = Some (FileN c) -> n ∈ names)
    (fun _ _ => True) s).
  unfold stage_for_instance. fold target. apply wp_bind, wp_mkdir; [|done]. intros f0 _ _.
  apply wp_bind, wp_gets, wp_bind. cbn [nfs set_nfs].
  eapply wp_mono; [apply unlink_all_wp| |done]. intros [] s1 [Ho Hgone]. cbn [nfs set_nfs] in Ho.
  eapply wp_mono; [by apply stage_modules_wp| |done].
  intros staged s2 (names & -> & Hnd & _ & Hall & Hs). exists names. split_and!; [done..|].
  intros n c Hzip Hf. destruct (decide (n ∈ names)) as [|Hn]; [done|exfalso].
  assert (forall names, n ∉ names -> target ++ [n] ∉ map (fun n => target ++ [n]) names) as Hmap.
  { intros l0 H0 (x & Hx & Hxin)%list_elem_of_fmap. by apply (inj (app target)) in Hx as [= ->]. }
  destruct (Hs (target ++ [n]) (apart_below _ _ _ Hap ltac:(by eexists)) (Hmap _ Hn))
    as [Heq|[_ Heq]]; [|congruence].
  rewrite Heq in Hf. destruct (decide (n ∈ stale_zips f0 target)) as [Hin|Hin]; [by apply (Hgone n Hin c)|].
  apply Hin. unfold stale_zips. apply list_elem_of_filter. split; [done|]. apply elem_children.
  destruct (Ho (target ++ [n]) (Hmap _ Hin)) as [Hx|[_ Hx]]; [|congruence].
  rewrite Hx in Hf. by eexists.
Qed.

(** Staging stays in the module directory and the cache. *)
Lemma staging_within root l s :
  apart _module_cache_dir (instance_modules root) ->
  net_within [_module_cache_dir; instance_modules root] s (snd (stage_for_instance root l s)).
Proof.
  intros Hap. set (target := instance_modules root) in *.
  enough (wp (stage_for_instance root l) (fun _ s' => net_within [_module_cache_dir; target] s s')
    (fun _ s' => net_within [_module_cache_dir; target] s s') s) as H.
  { unfold wp in H. by destruct (stage_for_instance root l s) as [[]]. }
  assert (forall f, only [] (nfs s) f -> net_within [_module_cache_dir; target] s (set_nfs f s)) as H0.
  { intros f Hf. red. eapply only_within; [|exact Hf]. constructor. }
  unfold stage_for_instance. fold target.
  apply wp_bind, wp_mkdir; [|intros e f Hf; by apply H0]. intros f0 Hf0 _. apply H0 in Hf0.
  apply wp_bind, wp_gets, wp_bind.
  assert (forall names a b, only (map (fun n => target ++ [n]) names) (nfs a) (nfs b) ->
    net_within [_module_cache_dir; target] a b) as H1.
  { intros names a b Hab. red. eapply only_within; [|exact Hab].
    apply Forall_forall. intros q (n & -> & _)%list_elem_of_fmap.
    apply Exists_cons_tl, Exists_cons_hd. by eexists. }
  eapply wp_mono; [apply unlink_all_wp| |].
  - intros [] s1 [Ho _]. eapply wp_mono; [by apply stage_modules_wp| |].
    + intros staged s2 (names & -> & _ & _ & _ & Hs).
      etransitivity; [exact Hf0|]. transitivity s1; [by eapply H1|].
      red. by eapply staged_only_target.
    + intros e s2 Hs. etransitivity; [exact Hf0|]. transitivity s1; [by eapply H1|done].
  - intros e s1 Ho. etransitivity; [exact Hf0|exact (H1 _ _ _ Ho)].
Qed.

(** Staging writes in the instance's module directory and in the module cache and
    nowhere else, whatever the entries are and however it ends. *)
Theorem staging_is_confined root l s :
  apart _module_cache_dir (instance_modules root) ->
  net_within [_module_cache_dir; instance_modules root] s (snd (stage_for_instance root l s)).
Proof. apply staging_within. Qed.

(** A relative path entry never reads outside the instance directory: if it
    resolves at all, it is to a path inside; an entry that is not a URL changes
    nothing on disk, even when its digest is wrong. *)
Theorem relative_module_contained m root s l s' :
  is_url m = false -> _resolve m root s = (Ok l, s') ->
  s' = s /\ exists p, Config.path m = Some p /\ l = resolve root p /\
    (is_absolute p = false -> root `prefix_of` l).
Proof.
  intros Hu Hr. pose proof (resolve_cases m root s) as H. unfold wp in H. rewrite Hr in H.
  destruct H as (_ & _ & [H|H]); [congruence|done].
Qed.

(** A module kept in the instance's own module directory is destroyed by staging
    it: the zip is unlinked as stale before the entry is resolved, and staging then
    fails because its source is missing. *)
Theorem staging_deletes_own_source root p n d c l s :
  fs_wf (nfs s) -> node_at (nfs s) (instance_modules root) = Some DirN ->
  resolve root p = instance_modules root ++ [n] -> root `prefix_of` instance_modules root ->
  nfs s !! (instance_modules root ++ [n]) = Some (FileN c) ->
  stale_zips (nfs s) (instance_modules root) = [n] ->
  stage_for_instance root (mkModule None (Some p) d :: l) s =
    (Err (ModuleNotFound (instance_modules root ++ [n])),
     set_nfs (delete (instance_modules root ++ [n]) (nfs s)) s).
Proof.
  intros Hwf Hdir Hp Hin Hn Hz. unfold stage_for_instance.
  set (target := instance_modules root) in *.
  rewrite (M_bind_ok _ _ s tt s)
    by (rewrite <- (set_nfs_id s) at 2; by apply on_nfs_ok, mkdir_p_there).
  rewrite (M_bind_ok _ _ s [n] s) by (unfold gets; by rewrite Hz).
  set (s1 := set_nfs (delete (target ++ [n]) (nfs s)) s).
  rewrite (M_bind_ok _ _ s tt s1).
  2: { simpl. erewrite M_bind_ok; [done|]. apply on_nfs_ok. unfold unlink. by rewrite node_at_snoc, Hn. }
  cbn [stage_modules]. apply M_bind_err. unfold _resolve, is_url. cbn [Config.url truthy Config.path].
  apply M_bind_err. unfold _resolve_path, _is_within. rewrite Hp, (bool_decide_true (root `prefix_of` _)) by
    (etransitivity; [exact Hin|by eexists]).
  rewrite andb_false_r. cbn [raise_if]. rewrite lift_ok_bind.
  rewrite (M_bind_ok _ _ s1 false s1); [done|]. unfold gets, exists_at, s1. cbn [nfs set_nfs].
  rewrite bool_decide_false; [done|]. rewrite node_at_snoc, lookup_delete_eq. tauto.
Qed.
End facts.

(** ** Examples and witnesses *)

Module ModSample.
Import DlSample.

Definition root : path := ["inst"].
Definition url_mod (u : string) (d : option string) : Module_ := mkModule (Some u) None d.
Definition path_mod (p : string) : Module_ := mkModule None (Some p) None.

(** Two modules with the same file name, one with a digest, and a stale zip. *)
Definition two : list Module_ :=
  [url_mod "https://example.org/a.zip" (Some (toy_digest "AAAA"));
   url_mod "https://example.org/b/a.zip?v=2" None].
Definition before : net := start
  (<[["inst"; "modules"; "old.zip"] := FileN "old"]>
     (dirs [["inst"]; ["inst"; "modules"]; ["home"]])).

Example staged_two :
  fst (stage_for_instance root two before) =
    Ok [["inst"; "modules"; "a.zip"]; ["inst"; "modules"; "1_a.zip"]].
Proof. vm_compute. reflexivity. Qed.

Example refused_traversal :
  fst (stage_for_instance root [path_mod "../other/x.zip"] before) = Err (ModuleEscapes "../other/x.zip").
Proof. vm_compute. reflexivity. Qed.

Example refused_truncated :
  fst (stage_for_instance root [url_mod "https://example.org/cut.zip" None] before) =
    Err (Fetch (FTruncated 2 10)).
Proof. vm_compute. reflexivity. Qed.

Lemma apart_here : apart _module_cache_dir (instance_modules root).
Proof. split; apply (bool_decide_unpack _); by vm_compute. Qed.

Definition own : net := start
  (<[["inst"; "modules"; "m.zip"] := FileN "zip"]> (dirs [["inst"]; ["inst"; "modules"]])).

Lemma own_wf : fs_wf (nfs own).
Proof.
  intros p n Hn. assert (map_Forall (fun p n => p <> [] /\
    node_at (nfs own) (parent p) = Some DirN /\ Forall plain p) (nfs own)) as H
    by (apply (bool_decide_unpack _); by vm_compute).
  by apply (H p n).
Qed.

Lemma staged_modules_exact_witness : exists names,
  NoDup names /\ length names = 2%nat /\
  forall n c, ends_with ".zip" n = true ->
    nfs (snd (stage_for_instance root two before)) !! (instance_modules root ++ [n]) = Some (FileN c) ->
    n ∈ names.
Proof.
  pose proof (staged_modules_exact root two before apart_here) as H.
  destruct (stage_for_instance root two before) as [[staged|e] s'] eqn:Hr.
  - destruct H as (names & -> & Hnd & Hall & Hz). exists names.
    split; [exact Hnd|]. split; [|exact Hz].
    by rewrite <- (Forall2_length _ _ _ Hall).
  - apply (f_equal fst) in Hr. rewrite staged_two in Hr. discriminate.
Defined.

Lemma staging_is_confined_witness :
  net_within [_module_cache_dir; instance_modules root] before (snd (stage_for_instance root two before)).
Proof. apply (staging_is_confined root two before apart_here). Defined.

Lemma relative_module_contained_witness :
  let m := path_mod "modules/old.zip" in
  exists p, Config.path m = Some p /\ ["inst"; "modules"; "old.zip"] = resolve root p /\
    (is_absolute p = false -> root `prefix_of` ["inst"; "modules"; "old.zip"]).
Proof.
  intros m. apply (relative_module_contained m root before _ before); vm_compute; reflexivity.
Defined.

Lemma staging_deletes_own_source_witness :
  stage_for_instance root [path_mod "modules/m.zip"] own =
    (Err (ModuleNotFound ["inst"; "modules"; "m.zip"]),
     set_nfs (delete ["inst"; "modules"; "m.zip"] (nfs own)) own).
Proof.
  apply (staging_deletes_own_source root "modules/m.zip" "m.zip" None "zip" [] own own_wf);
    try (vm_compute; reflexivity). exists ["modules"]. reflexivity.
Defined.
End ModSample.
