(* ===== verification/FridaDownload.v ===== *)
(** * [src/src/beetroot/frida_download.py]: fetching and staging frida-server

    A symbolic version becomes a release tag, the compressed binary is decompressed as
    it arrives under a ceiling and published in the per-user cache, its digest is
    checked, and the instance's copy is replaced atomically.  The context variable that
    carries the architecture to [download] is an argument.  The LZMA decompressor is the
    class [Lzma]; file modes are not modelled. *)
From stdpp Require Import base list strings gmap sorting.
From Stdlib Require Import ZArith Lia Ascii.
From S2P Require Import Prelude PyStr Config HostFs Paths Download ModulesDownload.
Local Open Scope stdpp_scope.
Local Open Scope Z_scope.

Definition _VM_FRIDA_ARCH : string := "android-x86_64".
Definition _MACHINE_TO_FRIDA_ARCH : list (string * string) :=
  [("aarch64", "android-arm64"); ("arm64", "android-arm64");
   ("x86_64", "android-x86_64"); ("amd64", "android-x86_64")].
Definition _LATEST_RELEASE_URL : string := "https://github.com/frida/frida/releases/latest".
Definition _CHUNK_SIZE : Z := 65536.
Definition _MAX_DECOMPRESSED_BYTES : Z := 512 * 1024 * 1024.

(** The host: [BEETROOT_FRIDA_ARCH] in the environment and in the settings,
    [platform.machine()], and what [frida --version] prints when it is installed and
    runs. *)
Class FridaHost := {
  env_frida_arch : option string;
  settings_frida_arch : string;
  machine : string;
  frida_version_output : option string }.

(** [lzma.LZMADecompressor]: [None] is [LZMAError]. *)
Class Lzma := {
  lz : Type;
  lz_new : lz;
  lz_eof : lz -> bool;
  lz_needs_input : lz -> bool;
  lz_decompress : lz -> string -> Z -> option (string * lz) }.

(** What its documentation says: while it does not need input, has not ended and is
    given nothing, it makes progress. *)
Class LzmaLaws (D : Lzma) : Prop := {
  lz_progress : forall d n p d', lz_eof d = false -> lz_needs_input d = false -> (0 < n)%Z ->
    lz_decompress d "" n = Some (p, d') ->
    p <> "" \/ lz_eof d' = true \/ lz_needs_input d' = true }.

(** ** Versions *)

Section frida.
Context {Y : Layout} {W : Web} {H : FridaHost} {D : Lzma}.

Definition resolve_frida_arch (binder : Binder) : string :=
  if truthy env_frida_arch then settings_frida_arch
  else if bool_decide (binder = binder_vm) then _VM_FRIDA_ARCH
  else default settings_frida_arch (Dict.get (lower machine) _MACHINE_TO_FRIDA_ARCH).

Definition release_url (version : string) (arch : option string) : string :=
  "https://github.com/frida/frida/releases/download/" +:+ version +:+ "/" +:+
  "frida-server-" +:+ version +:+ "-" +:+ default settings_frida_arch arch +:+ ".xz".

Definition host_frida_tools_version : option string :=
  match frida_version_output with
  | None => None
  | Some out => if is_pinned_frida_version (strip out) then Some (strip out) else None
  end.

(** [s.rstrip("/")]. *)
Fixpoint rstrip_slash (l : list ascii) : list ascii :=
  match l with
  | [] => []
  | c :: l' =>
      match rstrip_slash l' with
      | [] => if Ascii.eqb c "/"%char then [] else [c]
      | r => c :: r
      end
  end.

Definition latest_release_tag : DM string :=
  resp ← mapped (urlopen _LATEST_RELEASE_URL);
  let tag := default "" (last (split_on "/"%char (of_chars (rstrip_slash (chars (final_url resp)))))) in
  if is_pinned_frida_version tag then mret tag else raise (Fetch (FLatest (final_url resp))).

Definition resolve_version (version : string) (host_version : option string) : DM string :=
  if is_pinned_frida_version version then mret version
  else if String.eqb version FRIDA_AUTO then
    match (match host_version with Some h => Some h | None => host_frida_tools_version end) with
    | Some h => mret h
    | None => latest_release_tag
    end
  else if String.eqb version FRIDA_LATEST then latest_release_tag
  else raise (Fetch (FVersion version)).

(** ** The cache *)

Definition frida_cache_dir : path := user_cache_dir "frida".

Definition cached_binary (version : string) (arch : option string) : path :=
  frida_cache_dir ++ ["frida-server-" +:+ version +:+ "-" +:+ default settings_frida_arch arch].

(** [_check_sha256]: a file with another digest is deleted. *)
Definition _check_sha256 (p : path) (expected : option string) : DM unit :=
  match expected with
  | None => mret tt
  | Some d =>
      actual ← sha256_of p;
      if String.eqb (lower actual) (lower d) then mret tt
      else on_nfs (unlink_missing_ok p) ;; raise (DigestMismatch d actual)
  end.

(** The [while not decompressor.eof] loop over the chunks that are left. *)
Fixpoint decompress_loop (fuel : nat) (tmp : path) (d : lz) (total : Z) (l : list string)
    (last : option http_error) : DM unit :=
  match fuel with
  | O => raise DlOutOfFuel
  | S fuel' =>
      let step feed l' :=
        match lz_decompress d feed _CHUNK_SIZE with
        | None => raise (Fetch FDecompress)
        | Some (piece, d') =>
            let total' := total + Z.of_nat (String.length piece) in
            if _MAX_DECOMPRESSED_BYTES <? total' then raise (Fetch FCeiling)
            else on_nfs (append_file tmp piece) ;; decompress_loop fuel' tmp d' total' l' last
        end in
      if lz_eof d then mret tt
      else if lz_needs_input d then
        match l with
        | [] => match last with Some e => raise (Http e) | None => raise (Fetch FMidStream) end
        | c :: l' => if String.eqb c "" then raise (Fetch FMidStream) else step c l'
        end
      else step "" l
  end.

Definition download (fuel : nat) (version : string) (expected : option string) (arch : option string)
  : DM path :=
  let out := cached_binary version arch in
  cached ← gets (fun s => nonempty_at (nfs s) out);
  if (cached : bool) then _check_sha256 out expected ;; mret out
  else
    on_nfs (mkdir_p (parent out)) ;;
    tmp ← on_nfs (mkstemp (parent out) "" ".tmp");
    cleaning tmp (mapped (
      resp ← urlopen (release_url version arch);
      progress_total resp ;;
      decompress_loop fuel tmp lz_new 0 (body_chunks resp) (stop resp) ;;
      on_nfs (replace tmp out))) ;;
    _check_sha256 out expected ;;
    mret out.

(** ** Staging *)

Definition _warn_on_client_skew (server : string) (host_version : option string) : DM unit :=
  match (match host_version with Some h => Some h | None => host_frida_tools_version end) with
  | None => mret tt
  | Some host =>
      if decide (take 2 (split_on "."%char host) = take 2 (split_on "."%char server)) then mret tt
      else say (FridaSkew server host)
  end.

Definition frida_stage_for_instance (fuel : nat) (root : path) (version : string)
    (expected : option string) (binder : Binder) : DM path :=
  let host_version := host_frida_tools_version in
  tag ← resolve_version version host_version;
  (if String.eqb tag version then mret tt else say (FridaResolved version tag)) ;;
  _warn_on_client_skew tag host_version ;;
  src ← download fuel tag expected (Some (resolve_frida_arch binder));
  let dst := instance_frida root in
  on_nfs (mkdir_p (parent dst)) ;;
  tmp ← on_nfs (mkstemp (parent dst) ".frida-server." ".tmp");
  cleaning tmp (copyfile src tmp ;; on_nfs (replace tmp dst)) ;;
  mret dst.
End frida.

Section facts.
Context {Y : Layout} `{YL : !LayoutLaws Y} {W : Web} {H : FridaHost} {D : Lzma}.
Implicit Types (f : fs) (s : net).

(** ** Versions *)

Lemma latest_tag_pinned s :
  wp latest_release_tag (fun tag s' => is_pinned_frida_version tag = true) (fun _ _ => True) s.
Proof.
  unfold latest_release_tag. apply wp_bind, wp_mapped, wp_urlopen; [|done]. intros b _.
  destruct (is_pinned_frida_version _) eqn:Ht; [by apply wp_ret|by apply wp_raise].
Qed.

Lemma host_version_pinned h : host_frida_tools_version = Some h -> is_pinned_frida_version h = true.
Proof.
  unfold host_frida_tools_version. destruct frida_version_output as [out|]; [|done].
  destruct (is_pinned_frida_version (strip out)) eqn:Hp; [|done]. by intros [= <-].
Qed.

Lemma resolve_version_files v s :
  wp (resolve_version v host_frida_tools_version) (fun _ s' => nfs s' = nfs s)
    (fun _ s' => nfs s' = nfs s) s.
Proof.
  assert (wp latest_release_tag (fun _ s' => nfs s' = nfs s) (fun _ s' => nfs s' = nfs s) s) as Hl.
  { unfold latest_release_tag. apply wp_bind, wp_mapped, wp_urlopen; [|done]. intros b _.
    destruct (is_pinned_frida_version _); [by apply wp_ret|by apply wp_raise]. }
  unfold resolve_version. destruct (is_pinned_frida_version v); [by apply wp_ret|].
  destruct (String.eqb v FRIDA_AUTO).
  - destruct host_frida_tools_version; [by apply wp_ret|done].
  - destruct (String.eqb v FRIDA_LATEST); [done|by apply wp_raise].
Qed.

(** Versions: what is staged is always a concrete release — a pinned version is
    itself and costs no request, [auto] is the version of an installed client without
    a request, and everything else is asked for once or refused. *)
Theorem resolve_version_concrete v s :
  match resolve_version v host_frida_tools_version s with
  | (Ok tag, s') =>
      is_pinned_frida_version tag = true /\ nfs s' = nfs s /\
      (requests s' = requests s \/ requests s' = S (requests s)) /\
      (is_pinned_frida_version v = true -> tag = v /\ s' = s) /\
      (v = FRIDA_AUTO -> forall h, host_frida_tools_version = Some h -> tag = h /\ s' = s)
  | (Err e, s') =>
      nfs s' = nfs s /\ is_pinned_frida_version v = false /\
      (v = FRIDA_AUTO -> host_frida_tools_version = None)
  end.
Proof.
  assert (match latest_release_tag s with
          | (Ok tag, s') => is_pinned_frida_version tag = true /\ nfs s' = nfs s /\
              requests s' = S (requests s)
          | (Err _, s') => nfs s' = nfs s
          end) as Hl.
  { pose proof (latest_tag_pinned s) as Hp. unfold wp in Hp.
    unfold latest_release_tag, mapped, catch, urlopen, mbind, M_bind in *.
    destruct (web (requests s) _) as [b|e]; simpl in *; [|done].
    by destruct (is_pinned_frida_version _). }
  assert (is_pinned_frida_version FRIDA_AUTO = false) as Ha by by vm_compute.
  unfold resolve_version. destruct (is_pinned_frida_version v) eqn:Hv.
  { simpl. split_and!; [done|done|by left|done|]. intros -> . congruence. }
  destruct (String.eqb_spec v FRIDA_AUTO) as [->|Hne].
  - destruct host_frida_tools_version as [h|] eqn:Hh.
    + simpl. split_and!; [by apply host_version_pinned|done|by left|done|]. by intros _ h' [= <-].
    + destruct (latest_release_tag s) as [[tag|e] s'].
      * destruct Hl as (? & ? & ?). split_and!; [done|done|by right|done|done].
      * by split_and!.
  - destruct (String.eqb v FRIDA_LATEST); [|by split_and!].
    destruct (latest_release_tag s) as [[tag|e] s'].
    + destruct Hl as (? & ? & ?). split_and!; [done|done|by right|done|done].
    + by split_and!.
Qed.

(** ** The download *)

Definition mismatch (e : dl_error) : bool :=
  match e with DigestMismatch _ _ => true | _ => false end.

Lemma decompress_loop_wp fuel tmp d total l last f c s :
  nfs s = <[tmp := FileN c]> f -> Z.of_nat (String.length c) = total ->
  total <= _MAX_DECOMPRESSED_BYTES ->
  wp (decompress_loop fuel tmp d total l last)
    (fun _ s' => exists c', s' = set_nfs (<[tmp := FileN c']> f) s /\
                 Z.of_nat (String.length c') <= _MAX_DECOMPRESSED_BYTES)
    (fun e s' => mismatch e = false /\ exists c', s' = set_nfs (<[tmp := FileN c']> f) s) s.
Proof.
  revert d total l c s. induction fuel as [|fuel IH]; intros d total l c s Hs Hc Hm; cbn [decompress_loop];
    assert (s = set_nfs (<[tmp := FileN c]> f) s) as Heq by (rewrite <- Hs; by destruct s).
  { apply wp_raise. split; [done|by exists c]. }
  destruct (lz_eof d); [apply wp_ret; exists c; by rewrite Hc|].
  assert (forall feed l', wp (match lz_decompress d feed _CHUNK_SIZE with
    | None => raise (Fetch FDecompress)
    | Some (piece, d') =>
        let total' := total + Z.of_nat (String.length piece) in
        if _MAX_DECOMPRESSED_BYTES <? total' then raise (Fetch FCeiling)
        else on_nfs (append_file tmp piece) ;; decompress_loop fuel tmp d' total' l' last
    end)
    (fun _ s' => exists c', s' = set_nfs (<[tmp := FileN c']> f) s /\
                 Z.of_nat (String.length c') <= _MAX_DECOMPRESSED_BYTES)
    (fun e s' => mismatch e = false /\ exists c', s' = set_nfs (<[tmp := FileN c']> f) s) s) as Hstep.
  { intros feed l'. destruct (lz_decompress d feed _CHUNK_SIZE) as [[piece d']|]; [|apply wp_raise; (split; [done|by exists c])].
    cbv zeta. destruct (Z.ltb_spec _MAX_DECOMPRESSED_BYTES (total + Z.of_nat (String.length piece)));
      [apply wp_raise; (split; [done|by exists c])|].
    apply wp_bind, wp_on_nfs. rewrite (append_at tmp piece c) by (rewrite Hs; apply lookup_insert_eq).
    rewrite Hs, insert_insert_eq. set (s1 := set_nfs _ s).
    assert (forall c', set_nfs (<[tmp := FileN c']> f) s1 = set_nfs (<[tmp := FileN c']> f) s) as Hset by done.
    eapply wp_mono; [apply (IH d' _ l' (c +:+ piece) s1)| |]; [done| |done| |].
    - rewrite length_app_str. lia.
    - intros [] s2 (c' & -> & Hl). exists c'. by rewrite Hset.
    - intros e s2 (He & c' & ->). split; [done|]. exists c'. by rewrite Hset. }
  destruct (lz_needs_input d); [|apply Hstep].
  destruct l as [|x l]; [destruct last; apply wp_raise; (split; [done|by exists c])|].
  destruct (String.eqb x ""); [apply wp_raise; (split; [done|by exists c])|apply Hstep].
Qed.

Definition digest_ok (expected : option string) (c : string) : Prop :=
  forall d, expected = Some d -> lower (sha256_hex c) = lower d.

(** A check changes the file only by deleting it when its digest is wrong. *)
Lemma check_sha256_wp p expected s :
  p <> [] ->
  wp (_check_sha256 p expected)
    (fun _ s' => s' = s /\ forall c, file_content (nfs s) p c -> digest_ok expected c)
    (fun e s' => match e with
                 | DigestMismatch _ _ => s' = set_nfs (delete p (nfs s)) s
                 | _ => s' = s /\ forall c, ~ file_content (nfs s) p c
                 end) s.
Proof.
  intros Hp. unfold _check_sha256. destruct expected as [d|]; [|by apply wp_ret].
  apply wp_bind. unfold wp at 1, sha256_of. destruct (read_file p (nfs s)) as [c|e] eqn:Hc.
  2: { split; [done|]. intros c. unfold file_content. congruence. }
  destruct (String.eqb_spec (lower (sha256_hex c)) (lower d)).
  - apply wp_ret. split; [done|]. intros c' Hc' d' [= <-]. unfold file_content in Hc'. congruence.
  - apply wp_bind, wp_on_nfs. rewrite (unlink_file p c); [by apply wp_raise|done|].
    unfold read_file in Hc. rewrite node_at_cons in Hc by done.
    destruct (nfs s !! p) as [[]|]; by simplify_eq.
Qed.

Lemma out_not_nil v arch : cached_binary v arch <> [].
Proof. unfold cached_binary. by destruct frida_cache_dir. Qed.

Lemma download_wp fuel v expected arch s :
  let out := cached_binary v arch in
  wp (download fuel v expected arch) (fun p s' => p = out /\ only [out] (nfs s) (nfs s') /\
      (s' = s /\ nonempty_at (nfs s) out = true \/
       requests s' = S (requests s) /\ exists c, nfs s' !! out = Some (FileN c) /\
         Z.of_nat (String.length c) <= _MAX_DECOMPRESSED_BYTES) /\
      forall c, file_content (nfs s') out c -> digest_ok expected c)
      (fun e s' => match e with
       | DigestMismatch _ _ => only [out] (nfs s) (nfs s') /\ nfs s' !! out = None
       | _ => only [] (nfs s) (nfs s') end) s.
Proof.
  intros out. pose proof (out_not_nil v arch) as Hnil. fold out in Hnil.
  unfold download. fold out. apply wp_bind, wp_gets. destruct (nonempty_at (nfs s) out) eqn:Hc.
  { apply wp_bind. eapply wp_mono; [by apply check_sha256_wp| |].
    - intros [] s' [-> Hd]. apply wp_ret. split_and!; [done|reflexivity|by left|done].
    - intros e s' He. destruct e; try (by destruct He as [-> _]).
      subst s'. split; [apply only_delete|apply lookup_delete_eq]. }
  apply wp_bind, wp_mkdir; [|by intros e f Hf]. intros f Hf _.
  apply wp_bind, wp_mkstemp; [|by intros e]. intros tmp Ht. cbn [nfs set_nfs] in Ht.
  assert (tmp <> []) as Htn by (unfold tmp; by destruct (parent out)).
  apply wp_bind. eapply wp_cleaning; [exact Htn|exact Ht|]. apply wp_mapped.
  apply wp_bind, wp_urlopen; [|intros e _; split; [by eexists|by destruct e]]. intros b _.
  apply wp_bind, wp_progress; [|split; [by eexists|done]].
  apply wp_bind. eapply wp_mono; [eapply (decompress_loop_wp _ _ _ 0 _ _ f ""); [done|done|by vm_compute]| |].
  2: { intros e s1 (He & c & ->). split; [by eexists|]. by destruct e as [[]| | | | | | | | |]. }
  intros [] s1 (c & -> & Hlen). eapply wp_replace; [exact Htn|exact Ht|done| |].
  2: { intros e. split; [by eexists|done]. }
  intros _ _. apply wp_bind. set (s2 := set_nfs _ _).
  assert (only [out] (nfs s) (nfs s2)) as Hs2.
  { transitivity f; [eapply only_mono; [|exact Hf]; set_solver|apply only_insert]. }
  eapply wp_mono; [by apply check_sha256_wp| |].
  - intros [] s3 [-> Hd]. apply wp_ret. split_and!; [done|done| |done].
    right. split; [done|]. exists c. split; [apply lookup_insert_eq|done].
  - assert (file_content (nfs s2) out c) as Hout.
    { unfold file_content, read_file. rewrite node_at_cons by done. unfold s2. cbn [nfs set_nfs].
      by rewrite lookup_insert_eq. }
    intros e s3 He. destruct e; try (destruct He as [_ He]; by destruct (He c)).
    subst s3. split; [transitivity (nfs s2); [done|apply only_delete]|apply lookup_delete_eq].
Qed.

(** A download: it returns the cache entry, fetched with one request or found there
    and left alone; a fetched binary is within the ceiling; what is returned has the
    digest asked for.  When it fails no file has changed and no temporary one is left,
    except that an entry with another digest is deleted. *)
Theorem download_spec fuel v expected arch s :
  let out := cached_binary v arch in
  match download fuel v expected arch s with
  | (Ok p, s') =>
      p = out /\ only [out] (nfs s) (nfs s') /\
      (s' = s /\ nonempty_at (nfs s) out = true \/
       requests s' = S (requests s) /\ exists c, nfs s' !! out = Some (FileN c) /\
         Z.of_nat (String.length c) <= _MAX_DECOMPRESSED_BYTES) /\
      forall c, file_content (nfs s') out c -> digest_ok expected c
  | (Err (DigestMismatch _ _), s') => only [out] (nfs s) (nfs s') /\ nfs s' !! out = None
  | (Err _, s') => only [] (nfs s) (nfs s')
  end.
Proof.
  intros out. pose proof (download_wp fuel v expected arch s) as Hw. fold out in Hw. unfold wp in Hw.
  destruct (download fuel v expected arch s) as [[]]; [done|]. by destruct e.
Qed.

(** ** Termination *)

(** Every step reads a chunk, writes a byte, or leaves the draining state. *)
Definition steps_left (d : lz) (total : Z) (l : list string) : nat :=
  2 * length l + 2 * Z.to_nat (_MAX_DECOMPRESSED_BYTES + 1 - total) +
  (if lz_eof d || lz_needs_input d then 0 else 1).

Lemma decompress_loop_ends `{DL : !LzmaLaws D} fuel tmp d total l last s :
  (steps_left d total l < fuel)%nat -> total <= _MAX_DECOMPRESSED_BYTES ->
  fst (decompress_loop fuel tmp d total l last s) <> Err DlOutOfFuel.
Proof.
  revert d total l s. induction fuel as [|fuel IH]; intros d total l s Hf Ht; [lia|].
  unfold steps_left in Hf. cbn [decompress_loop]. destruct (lz_eof d) eqn:He; [done|].
  assert (forall feed l' b, (b = 1 <-> feed = "" /\ l' = l /\ lz_needs_input d = false)%nat ->
    (b = 0 -> S (length l') = length l)%nat -> (b = 0 \/ b = 1)%nat ->
    fst ((match lz_decompress d feed _CHUNK_SIZE with
    | None => raise (Fetch FDecompress)
    | Some (piece, d') =>
        let total' := total + Z.of_nat (String.length piece) in
        if _MAX_DECOMPRESSED_BYTES <? total' then raise (Fetch FCeiling)
        else on_nfs (append_file tmp piece) ;; decompress_loop fuel tmp d' total' l' last
    end) s) <> Err DlOutOfFuel) as Hstep.
  { intros feed l' b Hb Hl' Hcase. destruct (lz_decompress d feed _CHUNK_SIZE) as [[piece d']|] eqn:Hd; [|done].
    cbv zeta. destruct (Z.ltb_spec _MAX_DECOMPRESSED_BYTES (total + Z.of_nat (String.length piece))); [done|].
    unfold mbind, M_bind, on_nfs, zoom, append_file, modify. cbn [fst]. apply IH; [|lia].
    unfold steps_left.
    assert (Z.to_nat (_MAX_DECOMPRESSED_BYTES + 1 - (total + Z.of_nat (String.length piece))) + String.length piece =
            Z.to_nat (_MAX_DECOMPRESSED_BYTES + 1 - total))%nat as Hz by lia.
    assert ((if lz_eof d' || lz_needs_input d' then 0 else 1) <= 1)%nat as H1
      by (destruct (lz_eof d' || lz_needs_input d'); lia).
    destruct Hcase as [->| ->].
    - specialize (Hl' eq_refl). lia.
    - destruct (proj1 Hb eq_refl) as (-> & -> & Hn). rewrite Hn in Hf. simpl in Hf.
      destruct (lz_progress d _CHUNK_SIZE piece d' He Hn ltac:(by vm_compute) Hd) as [Hp|[Hp|Hp]].
      + destruct piece; [done|]. simpl in Hz |- *. lia.
      + rewrite Hp. simpl. lia.
      + rewrite Hp, orb_true_r. lia. }
  destruct (lz_needs_input d) eqn:Hn.
  - destruct l as [|c l]; [by destruct last|]. destruct (String.eqb_spec c ""); [done|].
    apply (Hstep c l 0%nat); [split; [done|by intros (? & _)]|done|by left].
  - apply (Hstep "" l 1%nat); [done|done|by right].
Qed.

(** C39. A download ends: whatever the server sends and however the decompressor cuts its
    output, some number of steps suffices to return or raise. *)
Theorem download_terminates `{DL : !LzmaLaws D} v expected arch s :
  exists n, forall fuel, (n <= fuel)%nat ->
    fst (download fuel v expected arch s) <> Err DlOutOfFuel.
Proof.
  set (len := match web (requests s) (release_url v arch) with Ok b => length (body_chunks b) | Err _ => O end).
  exists (2 * len + 2 * Z.to_nat (_MAX_DECOMPRESSED_BYTES + 1) + 2)%nat. intros fuel Hfuel.
  enough (wp (download fuel v expected arch) (fun _ _ => True) (fun e _ => e <> DlOutOfFuel) s) as Hw.
  { unfold wp in Hw. destruct (download fuel v expected arch s) as [[]]; simpl; congruence. }
  assert (forall p s, wp (_check_sha256 p expected) (fun _ _ => True) (fun e _ => e <> DlOutOfFuel) s) as Hck.
  { intros p s0. unfold _check_sha256. destruct expected as [d|]; [|by apply wp_ret].
    apply wp_bind. unfold wp at 1, sha256_of. destruct (read_file p (nfs s0)); [|done].
    destruct (String.eqb _ _); [by apply wp_ret|]. apply wp_bind, wp_on_nfs.
    by destruct (unlink_missing_ok p (nfs s0)) as [[] ?]. }
  unfold download. apply wp_bind, wp_gets. destruct (nonempty_at _ _).
  { apply wp_bind. eapply wp_mono; [apply Hck|by intros; apply wp_ret|done]. }
  apply wp_bind, wp_mkdir; [|done]. intros f _ _. apply wp_bind.
  apply wp_on_nfs. destruct (mkstemp _ _ _ _) as [[tmp|e] f1]; [|done].
  apply wp_bind. set (s1 := set_nfs f1 _).
  eapply (wp_mono _ (fun _ _ => True)); [|intros _ s2 _; apply wp_bind; eapply wp_mono;
    [apply Hck|by intros; apply wp_ret|done]|intros e s2 He; exact He].
  apply wp_catch. apply wp_mapped.
  assert (forall e s2, e <> DlOutOfFuel -> wp ((on_nfs (unlink_missing_ok tmp) ;; raise e) : DM unit)
    (fun _ _ => True) (fun e _ => e <> DlOutOfFuel) s2) as Hcl.
  { intros e s2 He. apply wp_bind, wp_on_nfs. by destruct (unlink_missing_ok tmp (nfs s2)) as [[] ?]. }
  apply wp_bind, wp_urlopen; [|intros e _; apply Hcl; by destruct e]. intros b Hb.
  apply wp_bind, wp_progress; [|by apply Hcl]. apply wp_bind.
  pose proof (decompress_loop_ends fuel tmp lz_new 0 (body_chunks b) (stop b)
    (mkNet (nfs s1) (S (requests s1)) (said s1))) as Hend.
  unfold wp at 1. destruct (decompress_loop _ _ _ _ _ _ _) as [[[]|e] s2].
  - apply wp_on_nfs. destruct (replace tmp _ (nfs s2)) as [[] ?]; [done|]. by apply Hcl.
  - apply Hcl. assert (Err e <> Err (A := unit) DlOutOfFuel) as He.
    { apply Hend; [|by vm_compute]. unfold steps_left.
      unfold len in Hfuel. replace (requests s) with (requests s1) in Hfuel by done. rewrite Hb in Hfuel.
      rewrite Z.sub_0_r. destruct (_ || _); lia. }
    destruct e as [[]| | | | | | | | |]; simpl; congruence.
Qed.

(** ** Staging *)

Lemma skew_wp server h s :
  wp (_warn_on_client_skew server h) (fun _ s' => nfs s' = nfs s) (fun _ s' => nfs s' = nfs s) s.
Proof.
  unfold _warn_on_client_skew. destruct h; [|destruct host_frida_tools_version]; try case_decide;
    try apply wp_ret; try apply wp_modify; done.
Qed.

(** A staging changes the cache entry of one release and, if it succeeds, the
    instance's [frida-server]. *)
Lemma frida_stage_wp fuel root v expected binder s :
  apart frida_cache_dir root ->
  let arch := Some (resolve_frida_arch binder) in
  let dst := instance_frida root in
  wp (frida_stage_for_instance fuel root v expected binder)
    (fun p s' => p = dst /\ (exists c, nfs s' !! dst = Some (FileN c) /\ digest_ok expected c) /\
       exists tag, only [cached_binary tag arch; dst] (nfs s) (nfs s'))
    (fun _ s' => exists tag, only [cached_binary tag arch] (nfs s) (nfs s')) s.
Proof.
  intros Hap arch dst. unfold frida_stage_for_instance.
  apply wp_bind. eapply wp_mono; [exact (resolve_version_files v s)| |
    intros e s1 Hs; exists ""; rewrite Hs; reflexivity].
  intros tag s1 H1. apply wp_bind.
  eapply (wp_mono _ (fun _ s' => nfs s' = nfs s) _ (fun _ s' => nfs s' = nfs s)).
  { destruct (String.eqb tag v); [by apply wp_ret|by apply wp_modify]. }
  2: { intros e s2 H2. exists tag. rewrite H2. reflexivity. }
  intros _ s2 H2. apply wp_bind.
  eapply wp_mono; [apply skew_wp| |intros e s3 H3; exists tag; rewrite H3, H2; reflexivity].
  intros u s3 H3. cbv beta in H3. clear u. rewrite H2 in H3. apply wp_bind. fold arch.
  set (out := cached_binary tag arch).
  assert (forall q, root `prefix_of` q -> q <> out) as Hout.
  { intros q Hq ->. eapply (apart_below _ _ _ Hap Hq). unfold out, cached_binary. by eexists. }
  eapply wp_mono; [apply download_wp| |].
  2: { intros e s4 He. exists tag. fold out in He |- *. rewrite <- H3.
       assert (only [] (nfs s3) (nfs s4) -> only [out] (nfs s3) (nfs s4)) as Hmono
         by (apply only_mono; set_solver).
       destruct e; auto. by destruct He. }
  fold out. intros p s4 (-> & Ho & _ & Hdig). rewrite H3 in Ho.
  apply wp_bind, wp_mkdir.
  2: { intros e f Hf. exists tag. transitivity (nfs s4); [exact Ho|]. cbn [nfs set_nfs].
       eapply only_mono; [|exact Hf]. set_solver. }
  intros f Hf _. set (s5 := set_nfs f s4).
  assert (only [out] (nfs s) f) as Hk5
    by (transitivity (nfs s4); [exact Ho|eapply only_mono; [|exact Hf]; set_solver]).
  apply wp_bind, wp_mkstemp; [|intros e; by exists tag]. intros tmp Ht.
  assert (tmp <> []) as Htn by (unfold tmp; by destruct (parent _)).
  apply wp_bind. eapply (wp_cleaning tmp f); [exact Htn|exact Ht|].
  apply wp_bind. eapply wp_mono; [apply copyfile_wp| |].
  2: { intros e s6 ->. split; [by eexists|]. by exists tag. }
  intros [] s6 (c & Hc & _ & ->). cbn [nfs set_nfs] in Hc |- *. rewrite insert_insert_eq, set_nfs_twice.
  eapply wp_replace; [exact Htn|exact Ht|reflexivity| |intros e; split; [by eexists|by exists tag]].
  intros Hnd _. apply wp_ret. split; [done|]. split.
  - exists c. split; [apply lookup_insert_eq|]. apply Hdig.
    unfold file_content, read_file in Hc |- *. rewrite node_at_cons in Hc |- * by apply out_not_nil.
    rewrite lookup_insert_ne in Hc by (apply Hout; unfold tmp, instance_frida; rewrite parent_snoc; by eexists).
    revert Hc. simpl. destruct (Hf out ltac:(set_solver)) as [->|[_ ->]]; [|done]. by destruct (nfs s4 !! out) as [[]|].
  - exists tag. fold out. cbn [nfs set_nfs]. transitivity f; [eapply only_mono; [|exact Hk5]; set_solver|].
    eapply only_mono; [|apply only_insert]. set_solver.
Qed.

(** Re-staging is safe: when it succeeds the instance's [frida-server] is a file
    with the digest asked for and nothing else of the instance has changed; when it
    fails — a missing release, a bad digest, a full disk — the binary that worked
    before is still there, with every other file of the instance. *)
Theorem frida_restage_safe fuel root v expected binder s :
  apart frida_cache_dir root ->
  let dst := instance_frida root in
  match frida_stage_for_instance fuel root v expected binder s with
  | (Ok p, s') =>
      p = dst /\ (exists c, nfs s' !! dst = Some (FileN c) /\ digest_ok expected c) /\
      forall q c, root `prefix_of` q -> q <> dst -> nfs s !! q = Some (FileN c) ->
        nfs s' !! q = Some (FileN c)
  | (Err _, s') =>
      forall q c, root `prefix_of` q -> nfs s !! q = Some (FileN c) -> nfs s' !! q = Some (FileN c)
  end.
Proof.
  intros Hap dst. pose proof (frida_stage_wp fuel root v expected binder s Hap) as Hw. unfold wp in Hw.
  assert (forall tag arch q, root `prefix_of` q -> q <> cached_binary tag arch) as Hout.
  { intros tag arch q Hq ->. eapply (apart_below _ _ _ Hap Hq). unfold cached_binary. by eexists. }
  destruct (frida_stage_for_instance fuel root v expected binder s) as [[p|e] s'].
  - destruct Hw as (-> & Hc & tag & Ho). split_and!; [done..|]. intros q c Hq Hne Hf.
    eapply only_file; [exact Ho| |exact Hf]. specialize (Hout tag (Some (resolve_frida_arch binder)) q Hq).
    set_solver.
  - destruct Hw as (tag & Ho). intros q c Hq Hf. eapply only_file; [exact Ho| |exact Hf].
    specialize (Hout tag (Some (resolve_frida_arch binder)) q Hq). set_solver.
Qed.
End facts.

(** ** Examples and witnesses

    A decompressor whose format is the text itself, ended by a full stop. *)
Module FridaSample.
Import DlSample.

Record plain_lz := mkLz { pending : list ascii; saw_end : bool }.

#[export] Instance dots : Lzma := {|
  lz := plain_lz; lz_new := mkLz [] false;
  lz_eof d := bool_decide (pending d = []) && saw_end d;
  lz_needs_input d := bool_decide (pending d = []) && negb (saw_end d);
  lz_decompress d feed n :=
    let '(a, b) := break_at (Ascii.eqb "."%char) (chars feed) in
    let all := pending d ++ a in
    Some (of_chars (take (Z.to_nat n) all),
          mkLz (drop (Z.to_nat n) all) (saw_end d || negb (bool_decide (b = [])))) |}.

#[export] Instance dots_laws : LzmaLaws dots.
Proof.
  split. intros d n p d' He Hn Hpos. simpl in *. rewrite app_nil_r. intros [= <- _].
  left. destruct d as [[|c l] []]; try discriminate; simpl;
    (destruct (Z.to_nat n) eqn:Hz; [lia|done]).
Qed.

#[export] Instance frida_host : FridaHost := {|
  env_frida_arch := None; settings_frida_arch := "android-x86_64"; machine := "aarch64";
  frida_version_output := Some ("16.4.10" +:+ String newline "") |}.

Definition tag_url := "https://github.com/frida/frida/releases/tag/17.0.1/".
Definition releases : list (string * body) :=
  [(release_url "16.4.10" (Some "android-arm64"), mkBody None "" ["ELF"; "arm."] None);
   (_LATEST_RELEASE_URL, mkBody None tag_url [] None);
   (release_url "17.0.1" (Some "android-arm64"), mkBody None "" ["ELF"; "cut"] None);
   (release_url "1.2.3" (Some "android-arm64"), mkBody (Some "many") "" ["ELF."] None)].

#[export] Instance frida_net : Web := {|
  web _ u := match Dict.get u releases with Some b => Ok b | None => Err (HTTPError 404) end;
  sha256_hex := toy_digest; decodable _ := true |}.

Definition inst : path := ["inst"].
Definition with_old : net := start
  (<[["inst"; "frida-server"] := FileN "old"]> (dirs [["inst"]; ["home"]])).

Definition staged v d := frida_stage_for_instance 100 inst v d binder_auto with_old.
Definition binary (r : result dl_error path * net) : option node :=
  nfs (snd r) !! ["inst"; "frida-server"].

(** The version of the installed client, for the architecture of the machine. *)
Example auto_stages_client_version :
  fst (staged FRIDA_AUTO None) = Ok ["inst"; "frida-server"] /\
  binary (staged FRIDA_AUTO None) = Some (FileN "ELFarm") /\
  said (snd (staged FRIDA_AUTO None)) = [FridaResolved FRIDA_AUTO "16.4.10"].
Proof. vm_compute. auto. Qed.

Example truncated_latest_keeps_old :
  fst (staged FRIDA_LATEST None) = Err (Fetch FMidStream) /\
  binary (staged FRIDA_LATEST None) = Some (FileN "old") /\
  said (snd (staged FRIDA_LATEST None)) =
    [FridaResolved FRIDA_LATEST "17.0.1"; FridaSkew "17.0.1" "16.4.10"].
Proof. vm_compute. auto. Qed.

(** A header that is not a number is a [ValueError], not a [FridaFetchError]. *)
Example malformed_length_escapes : fst (staged "1.2.3" None) = Err BadLength.
Proof. vm_compute. reflexivity. Qed.

Lemma inst_apart : apart frida_cache_dir inst.
Proof. split; apply (bool_decide_unpack _); by vm_compute. Qed.

Definition arm : option string := Some "android-arm64".

Lemma download_spec_witness : exists s' c,
  download 100 "16.4.10" (Some (toy_digest "ELFarm")) arm with_old = (Ok (cached_binary "16.4.10" arm), s') /\
  nfs s' !! cached_binary "16.4.10" arm = Some (FileN c) /\
  Z.of_nat (String.length c) <= _MAX_DECOMPRESSED_BYTES.
Proof.
  pose proof (download_spec 100 "16.4.10" (Some (toy_digest "ELFarm")) arm with_old) as H.
  assert (fst (download 100 "16.4.10" (Some (toy_digest "ELFarm")) arm with_old) =
          Ok (cached_binary "16.4.10" arm)) as Hr by (vm_compute; reflexivity).
  destruct (download 100 "16.4.10" (Some (toy_digest "ELFarm")) arm with_old) as [[p|e] s'];
    [|discriminate]. injection Hr as ->. destruct H as (_ & _ & [[_ H]|(_ & c & Hc & Hl)] & _).
  - vm_compute in H. discriminate.
  - exists s', c. split_and!; [reflexivity|exact Hc|exact Hl].
Defined.

Lemma download_terminates_witness : exists n, forall fuel, (n <= fuel)%nat ->
  fst (download fuel "16.4.10" None arm with_old) <> Err DlOutOfFuel.
Proof. apply (download_terminates "16.4.10" None arm with_old). Defined.

Lemma frida_restage_safe_witness : exists s',
  staged FRIDA_LATEST None = (Err (Fetch FMidStream), s') /\
  nfs s' !! ["inst"; "frida-server"] = Some (FileN "old").
Proof.
  pose proof (frida_restage_safe 100 inst FRIDA_LATEST None binder_auto with_old inst_apart) as H.
  pose proof truncated_latest_keeps_old as [Hr _]. unfold staged in *.
  destruct (frida_stage_for_instance 100 inst FRIDA_LATEST None binder_auto with_old) as [[p|e] s'];
    [discriminate|]. injection Hr as ->. exists s'. split; [reflexivity|].
  apply H; [exists ["frida-server"]; reflexivity|vm_compute; reflexivity].
Defined.
End FridaSample.
