(* ===== verification/KernelDownload.v ===== *)
(** * [src/src/beetroot/kernel_download.py]: the prebuilt guest kernel

    The kernel of a (version, fingerprint) pair is streamed into a temporary file,
    checked against its published digest and renamed into place. *)
From stdpp Require Import base list strings gmap sorting.
From Stdlib Require Import ZArith Lia Ascii.
From S2P Require Import Prelude PyStr HostFs Paths Download.
Local Open Scope stdpp_scope.
Local Open Scope Z_scope.

Definition _REPO : string := "Xiddoc/Beetroot".
Definition _RELEASE_TAG_PREFIX : string := "vm-kernel".

Definition asset_name (version fingerprint : string) : string :=
  "bzImage-" +:+ version +:+ "-" +:+ fingerprint.

Definition release_tag (version fingerprint : string) : string :=
  _RELEASE_TAG_PREFIX +:+ "-" +:+ version +:+ "-" +:+ fingerprint.

Definition release_url (version fingerprint : string) : string :=
  "https://github.com/" +:+ _REPO +:+ "/releases/download/" +:+
  release_tag version fingerprint +:+ "/" +:+ asset_name version fingerprint.

Section kernel.
Context {Y : Layout} {W : Web}.

Definition config_fingerprint (config_path : path) : DM string :=
  d ← sha256_of config_path; mret (String.substring 0 12 d).

(** Streams into the open temporary file; the digest of what was received. *)
Definition _stream_to_handle (url : string) (tmp : path) : DM string :=
  mapped (
    resp ← urlopen url;
    progress_total resp ;;
    got ← read_into tmp resp;
    mret (sha256_hex got)).

Definition fetch_prebuilt (version fingerprint : string) (out_path : path) : DM path :=
  let url := release_url version fingerprint in
  on_nfs (mkdir_p (parent out_path)) ;;
  tmp ← on_nfs (mkstemp (parent out_path) "" ".tmp");
  cleaning tmp (
    actual ← _stream_to_handle url tmp;
    sidecar ← _fetch_bytes (url +:+ ".sha256");
    expected ← lift (sidecar_digest sidecar);
    lift (raise_if (negb (String.eqb (lower actual) (lower expected)))
            (Fetch (FMismatch (lower expected) (lower actual)))) ;;
    on_nfs (replace tmp out_path)) ;;
  mret out_path.

Context `{YL : !LayoutLaws Y}.

(** The kernel at the destination is always verified: a fetch that returns has put
    there exactly the bytes of a complete response whose digest is the first word of
    the checksum file; one that raises has changed no file and left none behind. *)
Theorem kernel_fetch_spec version fingerprint out s :
  let url := release_url version fingerprint in
  match fetch_prebuilt version fingerprint out s with
  | (Ok p, s') =>
      p = out /\ exists k w f,
        web (requests s) url = Ok k /\ loop_end (body_chunks k) (stop k) = None /\
        (exists b, web (S (requests s)) (url +:+ ".sha256") = Ok b /\
                   sidecar_digest (received (body_chunks b)) = Ok w) /\
        lower (sha256_hex (received (body_chunks k))) = lower w /\
        only [] (nfs s) f /\ nfs s' = <[out := FileN (received (body_chunks k))]> f
  | (Err _, s') => only [] (nfs s) (nfs s')
  end.
Proof.
  intros url. enough (wp (fetch_prebuilt version fingerprint out) (fun p s' =>
      p = out /\ exists k w f,
        web (requests s) url = Ok k /\ loop_end (body_chunks k) (stop k) = None /\
        (exists b, web (S (requests s)) (url +:+ ".sha256") = Ok b /\
                   sidecar_digest (received (body_chunks b)) = Ok w) /\
        lower (sha256_hex (received (body_chunks k))) = lower w /\
        only [] (nfs s) f /\ nfs s' = <[out := FileN (received (body_chunks k))]> f)
      (fun _ s' => only [] (nfs s) (nfs s')) s) as Hw.
  { unfold wp in Hw. by destruct (fetch_prebuilt version fingerprint out s) as [[]]. }
  unfold fetch_prebuilt. fold url. apply wp_bind, wp_mkdir; [|by intros e f Hf]. intros f Hf _.
  apply wp_bind, wp_mkstemp; [|by intros e]. intros tmp Ht. cbn [nfs set_nfs requests] in *.
  assert (tmp <> []) as Htn by (unfold tmp; by destruct (parent out)).
  apply wp_bind. eapply wp_cleaning; [exact Htn|exact Ht|]. apply wp_bind, wp_mapped.
  apply wp_bind, wp_urlopen; [|intros e _; split; [by eexists|done]]. intros k Hk.
  apply wp_bind, wp_progress; [|split; [by eexists|done]].
  apply wp_bind. apply (wp_read_into tmp k f); [done| |intros e; split; [by eexists|done]].
  intros Hend. apply wp_ret. apply wp_bind, wp_fetch_bytes; [|intros e; split; [by eexists|done]].
  intros b Hb _. apply wp_bind, wp_lift; [|intros e _; split; [by eexists|done]]. intros w Hw.
  apply wp_bind, wp_lift; [|intros e _; split; [by eexists|done]].
  intros [] Hd%raise_if_ok. apply negb_false_iff, String.eqb_eq in Hd.
  eapply wp_replace; [exact Htn|exact Ht|reflexivity| |intros e; split; [by eexists|done]].
  intros _ _. apply wp_ret. split; [done|]. exists k, w, f. split_and!; [done|done| |done|done|done].
  by exists b.
Qed.
End kernel.

(** ** Examples *)

Module KernelSample.
Import DlSample.

Definition url : string := release_url "6.12.9" "abc".
Definition served : list (string * body) :=
  [(url, page "kernel"); (url +:+ ".sha256", page (toy_digest "kernel" +:+ "  bzImage"));
   (release_url "1" "reset", mkBody None "" ["ker"] (Some OtherConn));
   (release_url "2" "length", mkBody (Some "12 bytes") "" ["kernel"] None)].

#[export] Instance kernel_net : Web := {|
  web _ u := match Dict.get u served with Some b => Ok b | None => Err (HTTPError 404) end;
  sha256_hex := toy_digest; decodable _ := true |}.

Definition out : path := ["home"; "bzImage"].
Definition begin : net := start (dirs [["home"]]).

(** Neither a connection reset in the body nor a header that is not a number is a
    [KernelFetchError], so the caller does not fall back to compiling. *)
Example escaping_errors :
  fst (fetch_prebuilt "1" "reset" out begin) = Err (Http OtherConn) /\
  fst (fetch_prebuilt "2" "length" out begin) = Err BadLength /\
  fst (fetch_prebuilt "3" "missing" out begin) = Err (Fetch (FHttp 404)).
Proof. vm_compute. auto. Qed.

Lemma kernel_fetch_spec_witness : exists s' f,
  fetch_prebuilt "6.12.9" "abc" out begin = (Ok out, s') /\
  nfs s' = <[out := FileN "kernel"]> f /\ only [] (nfs begin) f.
Proof.
  pose proof (kernel_fetch_spec "6.12.9" "abc" out begin) as H. cbv zeta in H.
  assert (fst (fetch_prebuilt "6.12.9" "abc" out begin) = Ok out) as Hr by (vm_compute; reflexivity).
  destruct (fetch_prebuilt "6.12.9" "abc" out begin) as [[p|e] s']; [|discriminate].
  injection Hr as ->. destruct H as (_ & k & w & f & Hk & _ & _ & _ & Ho & Hs).
  assert (k = page "kernel") as -> by (vm_compute in Hk; injection Hk as <-; reflexivity).
  exists s', f. split; [reflexivity|]. split; [exact Hs|exact Ho].
Defined.
End KernelSample.
