(* ===== verification/RootfsDownload.v ===== *)
(** * [src/src/beetroot/rootfs_download.py]: the prebuilt guest rootfs

    The compressed image is streamed into a staging directory beside the destination,
    checked, decompressed under a ceiling, and renamed into place after the marker that
    records its Android version has been written.  Zstandard is the class [Zstd].  The
    reader of the marker is [builder.py]'s. *)
From stdpp Require Import base list strings gmap sorting.
From Stdlib Require Import ZArith Lia Ascii.
From S2P Require Import Prelude PyStr HostFs Paths Download.
Local Open Scope stdpp_scope.
Local Open Scope Z_scope.

Definition _MAX_DECOMPRESSED_BYTES : Z := 64 * 1024 * 1024 * 1024.
Definition _RELEASE_TAG_PREFIX : string := "vm-rootfs".
Definition _REPO : string := "Xiddoc/Beetroot".
Definition _ROOTFS_VERSION_MARKER_SUFFIX : string := ".android-version".

(** What successive reads of the decompressed stream return; false when the last one
    raises [ZstdError]. *)
Class Zstd := { zstd_reads : string -> list string * bool }.

Definition asset_name (version fingerprint : string) : string :=
  "rootfs-" +:+ version +:+ "-" +:+ fingerprint +:+ ".img.zst".

Definition release_tag (version fingerprint : string) : string :=
  _RELEASE_TAG_PREFIX +:+ "-" +:+ version +:+ "-" +:+ fingerprint.

Definition release_url (version fingerprint : string) : string :=
  "https://github.com/" +:+ _REPO +:+ "/releases/download/" +:+
  release_tag version fingerprint +:+ "/" +:+ asset_name version fingerprint.

(** [out_image.with_name(out_image.name + suffix)]. *)
Definition rootfs_version_marker (out_image : path) : path :=
  parent out_image ++ [path_name out_image +:+ _ROOTFS_VERSION_MARKER_SUFFIX].

(** [builder.read_rootfs_version]; [int] of the stripped text, for plain digits. *)
Definition read_rootfs_version (f : fs) (out_image : path) : option Z :=
  match node_at f (rootfs_version_marker out_image) with
  | Some (FileN c) => if plus_full is_digit (strip c) then Z_of_digits (strip c) else None
  | _ => None
  end.

Section rootfs.
Context {Y : Layout} {W : Web} {Z : Zstd}.

Definition composite_fingerprint (android_version : BinInt.Z) (docker_version : string)
    (guest_init_path : path) : DM string :=
  guest_init_hash ← sha256_of guest_init_path;
  let preimage := "android=" +:+ str_of_Z android_version +:+ String newline "" +:+
    "docker=" +:+ docker_version +:+ String newline "" +:+
    "guest-init=" +:+ guest_init_hash +:+ String newline "" in
  mret (String.substring 0 12 (sha256_hex preimage)).

Definition _download_to_file (url : string) (dest : path) : DM string :=
  mapped (
    resp ← urlopen url;
    on_nfs (write_file dest "") ;;
    got ← read_into dest resp;
    check_length resp got ;;
    mret (sha256_hex got)).

(** The copy loop of [_decompress_to_file]. *)
Fixpoint copy_capped (dst : path) (written : BinInt.Z) (l : list string) (complete : bool) : DM unit :=
  match l with
  | [] => if complete then mret tt else raise (Fetch FDecompress)
  | c :: l' =>
      if String.eqb c "" then mret tt
      else
        let written' := (written + BinInt.Z.of_nat (String.length c))%Z in
        if (_MAX_DECOMPRESSED_BYTES <? written')%Z then raise (Fetch FCeiling)
        else on_nfs (append_file dst c) ;; copy_capped dst written' l' complete
  end.

Definition _decompress_to_file (src dst : path) : DM unit :=
  blob ← (fun s => match read_file src (nfs s) with Ok c => (Ok c, s) | Err e => (Err (DlOs e), s) end);
  on_nfs (write_file dst "") ;;
  let '(chunks, complete) := zstd_reads blob in
  copy_capped dst 0 chunks complete.

(** [tempfile.TemporaryDirectory(dir=d, prefix=pre)]: removed however the block ends. *)
Definition with_temp_dir {A} (d : path) (pre : string) (body : path -> DM A) : DM A := fun s =>
  let staging := d ++ [temp_name (nfs s) d pre ""] in
  match node_at (nfs s) d with
  | Some DirN =>
      let '(r, s') := body staging (set_nfs (<[staging := DirN]> (nfs s)) s) in
      (r, set_nfs (rmtree staging (nfs s')) s')
  | Some (FileN _) => (Err (DlOs NotADirectory), s)
  | None => (Err (DlOs NoSuchFile), s)
  end.

(** [_fetch_bytes]: as in [kernel_download.py], with an exception class of its own. *)
Definition rootfs_fetch_bytes (url : string) : DM string := _fetch_bytes url.

(** The block up to the marker: all but the final rename. *)
Definition stage_image (android_version : BinInt.Z) (url : string) (out_image staging : path)
  : DM path :=
  let compressed := staging ++ ["image.img.zst"] in
  actual ← _download_to_file url compressed;
  sidecar ← rootfs_fetch_bytes (url +:+ ".sha256");
  expected ← lift (sidecar_digest sidecar);
  lift (raise_if (negb (String.eqb (lower actual) (lower expected)))
          (Fetch (FMismatch (lower expected) (lower actual)))) ;;
  let tmp := staging ++ ["image.img"] in
  _decompress_to_file compressed tmp ;;
  on_nfs (write_file (rootfs_version_marker out_image) (str_of_Z android_version +:+ String newline "")) ;;
  mret tmp.

Definition fetch_prebuilt (android_version : BinInt.Z) (fingerprint : string) (out_image : path)
  : DM path :=
  let url := release_url (str_of_Z android_version) fingerprint in
  on_nfs (mkdir_p (parent out_image)) ;;
  with_temp_dir (parent out_image) ".rootfs-dl-" (fun staging =>
    tmp ← stage_image android_version url out_image staging;
    on_nfs (replace tmp out_image)) ;;
  mret out_image.

Context `{YL : !LayoutLaws Y}.
Implicit Types (f : fs) (s : net) (out staging : path).

(** ** The steps *)

(** Files of the staging directory apart, only [ps] change. *)
Definition beside (staging : path) (ps : list path) f f' : Prop := forall q,
  ~ staging `prefix_of` q -> q ∉ ps -> f' !! q = f !! q \/ (f !! q = None /\ f' !! q = Some DirN).

#[local] Instance beside_preorder staging ps : PreOrder (beside staging ps).
Proof.
  split; [by intros f q _ _; left|]. intros f g h H1 H2 q Hs Hq.
  destruct (H1 q Hs Hq) as [Ha|[Ha Hb]], (H2 q Hs Hq) as [Hc|[Hc Hd]]; rewrite ?Hc, ?Ha; auto.
  right. split; congruence.
Qed.

Lemma beside_insert staging ps p n f : staging `prefix_of` p \/ p ∈ ps -> beside staging ps f (<[p := n]> f).
Proof.
  intros Hp q Hs Hq. left. apply lookup_insert_ne. intros ->. by destruct Hp.
Qed.

Lemma wp_write p c (Q : unit -> net -> Prop) (R : dl_error -> net -> Prop) s :
  (Q tt (set_nfs (<[p := FileN c]> (nfs s)) s)) -> (forall e, R (DlOs e) s) ->
  wp (on_nfs (write_file p c)) Q R s.
Proof.
  intros HQ HR. apply wp_on_nfs. destruct (write_file p c (nfs s)) as [[[]|e] f] eqn:Hw.
  - by apply write_file_ok in Hw as (-> & _).
  - unfold write_file in Hw. repeat case_match; simplify_eq; rewrite set_nfs_id; apply HR.
Qed.

Lemma copy_capped_wp dst c written l complete f s :
  nfs s = <[dst := FileN c]> f -> BinInt.Z.of_nat (String.length c) = written ->
  (written <= _MAX_DECOMPRESSED_BYTES)%Z ->
  wp (copy_capped dst written l complete)
    (fun _ s' => exists c', s' = set_nfs (<[dst := FileN c']> f) s /\ c' = c +:+ received l /\
                 (BinInt.Z.of_nat (String.length c') <= _MAX_DECOMPRESSED_BYTES)%Z)
    (fun _ s' => exists c', s' = set_nfs (<[dst := FileN c']> f) s) s.
Proof.
  revert c written s. induction l as [|x l IH]; intros c written s Hs Hc Hm; cbn [copy_capped received];
    assert (s = set_nfs (<[dst := FileN c]> f) s) as Heq by (rewrite <- Hs; by destruct s).
  { destruct complete; [apply wp_ret|apply wp_raise; by exists c].
    exists c. rewrite app_nil_r_str. split_and!; [done|done|by rewrite Hc]. }
  destruct (String.eqb x ""); [apply wp_ret; exists c; rewrite app_nil_r_str; split_and!; [done|done|by rewrite Hc]|].
  cbv zeta. destruct (Z.ltb_spec _MAX_DECOMPRESSED_BYTES (written + BinInt.Z.of_nat (String.length x)));
    [apply wp_raise; by exists c|].
  apply wp_bind, wp_on_nfs. rewrite (append_at dst x c) by (rewrite Hs; apply lookup_insert_eq).
  rewrite Hs, insert_insert_eq. set (s1 := set_nfs _ s).
  assert (forall c', set_nfs (<[dst := FileN c']> f) s1 = set_nfs (<[dst := FileN c']> f) s) as Hset by done.
  eapply wp_mono; [apply (IH (c +:+ x) _ s1)| |]; [done| |done| |].
  - rewrite length_app_str. lia.
  - intros [] s2 (c' & -> & -> & Hl). eexists. split_and!; [by rewrite Hset|by rewrite app_assoc_str|done].
  - intros e s2 (c' & ->). exists c'. by rewrite Hset.
Qed.

(** What a published image comes from. *)
Definition verified (url : string) (s : net) (image : string) : Prop := exists k b w,
  web (requests s) url = Ok k /\ web (S (requests s)) (url +:+ ".sha256") = Ok b /\
  sidecar_digest (received (body_chunks b)) = Ok w /\
  lower (sha256_hex (received (body_chunks k))) = lower w /\
  image = received (fst (zstd_reads (received (body_chunks k)))) /\
  (BinInt.Z.of_nat (String.length image) <= _MAX_DECOMPRESSED_BYTES)%Z.

(** Up to the rename: the image is in the staging directory and the marker beside the
    destination. *)
Lemma stage_image_wp android url out staging s :
  ~ staging `prefix_of` rootfs_version_marker out ->
  wp (stage_image android url out staging)
    (fun tmp s' => tmp = staging ++ ["image.img"] /\
       beside staging [rootfs_version_marker out] (nfs s) (nfs s') /\
       (exists image, nfs s' !! tmp = Some (FileN image) /\ verified url s image) /\
       nfs s' !! rootfs_version_marker out = Some (FileN (str_of_Z android +:+ String newline "")))
    (fun _ s' => beside staging [] (nfs s) (nfs s')) s.
Proof.
  intros Hmk. unfold stage_image. set (comp := staging ++ ["image.img.zst"]).
  set (tmp := staging ++ ["image.img"]).
  assert (staging `prefix_of` comp) as Hcomp by (by eexists).
  assert (staging `prefix_of` tmp) as Htmp by (by eexists).
  assert (tmp <> comp) as Hne by (intros Heq; by apply (inj (app staging)) in Heq).
  assert (forall p c f, staging `prefix_of` p -> beside staging [] f (<[p := FileN c]> f)) as Hin
    by (intros; apply beside_insert; by left).
  apply wp_bind, wp_mapped, wp_bind, wp_urlopen; [|intros e _; reflexivity]. intros k Hk.
  apply wp_bind, wp_write; [|intros e; reflexivity]. cbn [nfs set_nfs].
  apply wp_bind. eapply (wp_read_into comp k (nfs s)); [done| |intros e; by apply Hin]. intros _.
  apply wp_bind, wp_check_length; [intros _|intros n; by apply Hin]. apply wp_ret.
  set (blob := received (body_chunks k)). apply wp_bind, wp_fetch_bytes; [|intros e; by apply Hin].
  intros b Hb _. apply wp_bind, wp_lift; [|intros e _; by apply Hin]. intros w Hw.
  apply wp_bind, wp_lift; [|intros e _; by apply Hin]. intros [] Hd%raise_if_ok.
  apply negb_false_iff, String.eqb_eq in Hd. apply wp_bind.
  unfold _decompress_to_file. apply wp_bind. unfold wp at 1. cbn [nfs set_nfs].
  assert (comp <> []) as Hcn by (unfold comp; by destruct staging).
  unfold read_file. rewrite node_at_cons, lookup_insert_eq by done.
  apply wp_bind, wp_write; [|intros e; by apply Hin]. cbn [nfs set_nfs].
  destruct (zstd_reads blob) as [reads complete] eqn:Hz.
  eapply wp_mono; [eapply (copy_capped_wp tmp "" 0 _ _ (<[comp := FileN blob]> (nfs s))); [done|done|by vm_compute]| |].
  2: { intros e s1 (c & ->). cbn [nfs set_nfs]. etransitivity; by apply Hin. }
  intros [] s1 (image & -> & Himg & Hlen). apply wp_bind, wp_write.
  2: { intros e. cbn [nfs set_nfs]. etransitivity; by apply Hin. }
  apply wp_ret. cbn [nfs set_nfs]. split_and!; [done| | |apply lookup_insert_eq].
  - etransitivity; [|apply beside_insert; right; set_solver].
    etransitivity; apply beside_insert; by left.
  - exists image. split.
    + rewrite lookup_insert_ne by (by intros Heq; rewrite Heq in Hmk). apply lookup_insert_eq.
    + exists k, b, w. split_and!; try done. fold blob. by rewrite Hz.
Qed.

(** A name the staging directory cannot have. *)
Definition not_staging out : Prop :=
  starts_with ".rootfs-dl-" (path_name (rootfs_version_marker out)) = false.

Lemma staging_apart f d out :
  not_staging out -> parent out = d -> out <> [] ->
  ~ d ++ [temp_name f d ".rootfs-dl-" ""] `prefix_of` rootfs_version_marker out /\
  ~ d ++ [temp_name f d ".rootfs-dl-" ""] `prefix_of` out.
Proof.
  intros Hn Hd Hout. destruct (temp_shape f d ".rootfs-dl-" "") as [mid Hmid].
  unfold not_staging, path_name, rootfs_version_marker in Hn. rewrite last_snoc in Hn. simpl in Hn.
  assert (forall n, starts_with ".rootfs-dl-" n = false ->
    ~ d ++ [temp_name f d ".rootfs-dl-" ""] `prefix_of` d ++ [n]) as H.
  { intros n Hpre [l Hl]. rewrite <- app_assoc in Hl. apply (inj (app d)) in Hl as [= -> _].
    rewrite Hmid in Hpre. apply not_true_iff_false in Hpre. apply Hpre, prefix_spec. by eexists. }
  split.
  - unfold rootfs_version_marker. rewrite Hd. by apply H.
  - destruct out as [|c out _] using rev_ind; [done|]. rewrite parent_snoc in Hd. subst d.
    apply H. unfold path_name in Hn. rewrite last_snoc in Hn. simpl in Hn. apply not_true_iff_false. intros Ht.
    apply not_true_iff_false in Hn. apply Hn. unfold starts_with in *. apply prefix_spec in Ht as [r ->].
    apply prefix_spec. exists (r +:+ _ROOTFS_VERSION_MARKER_SUFFIX). by rewrite app_assoc_str.
Qed.

Lemma strip_line t : t <> "" -> all_chars (fun c => negb (is_space c)) t = true ->
  strip (t +:+ String newline "") = t.
Proof.
  intros Hne Ht. unfold strip. rewrite chars_app.
  assert (lstrip_chars (chars t ++ chars (String newline "")) = chars t ++ [newline]) as ->.
  { destruct t as [|c t]; [done|]. simpl. unfold all_chars in Ht. simpl in Ht.
    apply andb_true_iff in Ht as [Hc _]. apply negb_true_iff in Hc. by rewrite Hc. }
  rewrite rev_unit. simpl. rewrite lstrip_none.
  - by rewrite rev_involutive, of_chars_chars.
  - rewrite forallb_forall in *. intros c Hc. unfold all_chars in Ht. rewrite forallb_forall in Ht.
    apply Ht. by apply in_rev.
Qed.

Lemma marker_reads f out android :
  (0 <= android)%Z -> f !! rootfs_version_marker out = Some (FileN (str_of_Z android +:+ String newline "")) ->
  read_rootfs_version f out = Some android.
Proof.
  intros Ha Hf. unfold read_rootfs_version. rewrite node_at_cons by (unfold rootfs_version_marker; by destruct (parent out)).
  assert (all_chars is_digit (str_of_Z android) = true) as Hd by (by apply str_of_Z_digits).
  rewrite Hf, strip_line.
  - rewrite (proj2 (plus_full_spec _ _)) by (split; [by apply str_of_Z_nonempty|done]).
    by apply Z_of_digits_str.
  - by apply str_of_Z_nonempty.
  - revert Hd. apply all_chars_impl. intros c. clear. destruct c as [[] [] [] [] [] [] [] []]; by vm_compute.
Qed.

(** ** The fetch *)

(** A fetch of the prebuilt rootfs: when it returns, the image is what decompressing
    a complete response gives, within the ceiling, the response having the digest of
    the checksum file, and the marker reads as its Android version; no other file has
    changed.  When it raises, the image that was there is still there: no file but the
    marker has changed, and the staging directory is gone. *)
Theorem rootfs_fetch_spec android fp out s :
  fs_wf (nfs s) -> out <> [] -> not_staging out -> (0 <= android)%Z ->
  let marker := rootfs_version_marker out in
  match fetch_prebuilt android fp out s with
  | (Ok p, s') =>
      p = out /\
      (exists image, nfs s' !! out = Some (FileN image) /\
                     verified (release_url (str_of_Z android) fp) s image) /\
      read_rootfs_version (nfs s') out = Some android /\
      only [out; marker] (nfs s) (nfs s')
  | (Err _, s') => only [marker] (nfs s) (nfs s')
  end.
Proof.
  intros Hwf Hne Hns Ha marker. set (url := release_url (str_of_Z android) fp).
  enough (wp (fetch_prebuilt android fp out) (fun p s' => p = out /\
      (exists image, nfs s' !! out = Some (FileN image) /\ verified url s image) /\
      read_rootfs_version (nfs s') out = Some android /\ only [out; marker] (nfs s) (nfs s'))
      (fun _ s' => only [marker] (nfs s) (nfs s')) s) as Hw.
  { unfold wp in Hw. by destruct (fetch_prebuilt android fp out s) as [[]]. }
  unfold fetch_prebuilt. fold url.
  apply wp_bind, wp_mkdir; [|intros e f Hf; eapply only_mono; [|exact Hf]; set_solver].
  intros f Hf _. set (s0 := set_nfs f s). apply wp_bind. unfold wp at 1, with_temp_dir.
  set (staging := parent out ++ [temp_name (nfs s0) (parent out) ".rootfs-dl-" ""]).
  destruct (node_at (nfs s0) (parent out)) as [[|c]|]; try (eapply only_mono; [|exact Hf]; set_solver).
  set (s1 := set_nfs (<[staging := DirN]> (nfs s0)) s0).
  destruct (staging_apart (nfs s0) (parent out) out Hns eq_refl Hne) as [Hmk Hot].
  fold staging in Hmk, Hot.
  assert (nfs s !! staging = None) as Hst.
  { pose proof (temp_fresh (nfs s0) (parent out) ".rootfs-dl-" "") as Hfr. fold staging in Hfr.
    destruct (Hf staging) as [Heq|[? _]]; [set_solver| |done]. cbn [nfs set_nfs s0] in Hfr. congruence. }
  assert (forall ps g, beside staging ps (nfs s1) g -> only ps (nfs s) (rmtree staging g)) as Hfin.
  { intros ps g Hg q Hq. rewrite lookup_rmtree. case_decide as Hp.
    - left. symmetry. eapply wf_below; [exact Hwf| |exact Hp].
      unfold staging in *. by rewrite node_at_snoc.
    - destruct (Hf q) as [Hq0|[Hq0 Hq1]]; [set_solver| |];
        (assert (nfs s1 !! q = f !! q) as Hs1 by (apply lookup_insert_ne; intros ->; by apply Hp));
        destruct (Hg q Hp Hq) as [->|[Hx Hy]]; rewrite ?Hs1, ?Hq0, ?Hq1; auto; right; split; congruence. }
  pose proof (stage_image_wp android url out staging s1 Hmk) as Hstage. unfold wp in Hstage.
  unfold mbind at 1, M_bind at 1. destruct (stage_image android url out staging s1) as [[tmp|e] s2].
  2: { cbn [nfs set_nfs]. eapply only_mono; [|apply Hfin; exact Hstage]. set_solver. }
  destruct Hstage as (-> & Hb & (image & Himg & Hver) & Hmark). set (tmp := staging ++ ["image.img"]) in *.
  unfold on_nfs, zoom. destruct (replace_file tmp out image (nfs s2)) as [[e He]|(Hr & _ & _ & _)];
    [unfold tmp; by destruct staging|exact Himg| |].
  - rewrite He. cbn [nfs set_nfs]. apply Hfin. exact Hb.
  - assert (tmp <> out) as Hto by (intros Heq; apply Hot; rewrite <- Heq; by eexists).
    rewrite Hr, decide_False by done. apply wp_ret. cbn [nfs set_nfs]. split; [done|].
    assert (forall q, ~ staging `prefix_of` q ->
      rmtree staging (delete tmp (<[out := FileN image]> (nfs s2))) !! q = <[out := FileN image]> (nfs s2) !! q) as Hlook.
    { intros q Hq. rewrite lookup_rmtree, decide_False by done. apply lookup_delete_ne.
      intros <-. apply Hq. by eexists. }
    split_and!.
    + exists image. split; [|exact Hver]. rewrite Hlook by done. apply lookup_insert_eq.
    + apply marker_reads; [done|]. rewrite Hlook by done. rewrite lookup_insert_ne; [done|].
      intros Heq. apply (f_equal path_name) in Heq. unfold path_name, rootfs_version_marker in Heq.
      rewrite last_snoc in Heq. simpl in Heq. apply (f_equal String.length) in Heq.
      rewrite length_app_str in Heq. unfold path_name in Heq. simpl in Heq. lia.
    + apply Hfin. etransitivity; [|].
      * intros q Hq Hps. apply Hb; [done|]. set_solver.
      * intros q Hq Hps. left. rewrite lookup_delete_ne by (intros <-; apply Hq; by eexists).
        apply lookup_insert_ne. set_solver.
Qed.

(** Writing the marker first is not harmless when an older image is there: if the
    process stops before the rename, the old image stays and reads as the new
    version, so the check of a version skew does not see it. *)
Theorem interrupted_fetch_mislabels_image android url out staging s tmp s' old :
  (0 <= android)%Z -> ~ staging `prefix_of` rootfs_version_marker out -> ~ staging `prefix_of` out ->
  nfs s !! out = Some (FileN old) ->
  stage_image android url out staging s = (Ok tmp, s') ->
  nfs s' !! out = Some (FileN old) /\ read_rootfs_version (nfs s') out = Some android.
Proof.
  intros Ha Hmk Hot Hold Hr. pose proof (stage_image_wp android url out staging s Hmk) as H.
  unfold wp in H. rewrite Hr in H. destruct H as (_ & Hb & _ & Hmark).
  split; [|by apply marker_reads]. destruct (Hb out Hot) as [->|[Hx _]]; [|done|congruence].
  intros Heq%list_elem_of_singleton. apply (f_equal path_name) in Heq.
  unfold path_name, rootfs_version_marker in Heq. rewrite last_snoc in Heq. simpl in Heq.
  apply (f_equal String.length) in Heq. rewrite length_app_str in Heq. unfold path_name in Heq.
  simpl in Heq. lia.
Qed.
End rootfs.

(** ** Examples and witnesses *)

Module RootfsSample.
Import DlSample.

#[export] Instance stored : Zstd := {| zstd_reads blob := ([blob], true) |}.

Definition url : string := release_url "14" "abc".
Definition served : list (string * body) :=
  [(url, page "image"); (url +:+ ".sha256", page (toy_digest "image" +:+ "  rootfs.img.zst"))].

#[export] Instance rootfs_net : Web := {|
  web _ u := match Dict.get u served with Some b => Ok b | None => Err (HTTPError 404) end;
  sha256_hex := toy_digest; decodable _ := true |}.

Definition out : path := ["vm"; "rootdisk.img"].
Definition staging : path := ["vm"; ".rootfs-dl-1"].

(** An image of Android 13 with its marker. *)
Definition thirteen : net := start
  (<[["vm"; "rootdisk.img.android-version"] := FileN ("13" +:+ String newline "")]>
     (<[out := FileN "older"]> (dirs [["vm"]]))).

Lemma thirteen_wf : fs_wf (nfs thirteen).
Proof.
  intros p n Hn. assert (map_Forall (fun p n => p <> [] /\
    node_at (nfs thirteen) (parent p) = Some DirN /\ Forall plain p) (nfs thirteen)) as H
    by (apply (bool_decide_unpack _); by vm_compute).
  by apply (H p n).
Qed.

Example before_fetch : read_rootfs_version (nfs thirteen) out = Some 13.
Proof. vm_compute. reflexivity. Qed.

Lemma rootfs_fetch_spec_witness : exists s' image,
  fetch_prebuilt 14 "abc" out thirteen = (Ok out, s') /\
  nfs s' !! out = Some (FileN image) /\ verified url thirteen image /\
  read_rootfs_version (nfs s') out = Some 14.
Proof.
  pose proof (rootfs_fetch_spec 14 "abc" out thirteen thirteen_wf ltac:(discriminate)
    ltac:(vm_compute; reflexivity) ltac:(lia)) as H. cbv zeta in H.
  assert (fst (fetch_prebuilt 14 "abc" out thirteen) = Ok out) as Hr by (vm_compute; reflexivity).
  destruct (fetch_prebuilt 14 "abc" out thirteen) as [[p|e] s']; [|discriminate].
  injection Hr as ->. destruct H as (_ & (image & Hi & Hv) & Hm & _).
  exists s', image. split_and!; [reflexivity|exact Hi|exact Hv|exact Hm].
Defined.

Definition in_staging : net := set_nfs (<[staging := DirN]> (nfs thirteen)) thirteen.

Lemma interrupted_fetch_mislabels_image_witness : exists s',
  stage_image 14 url out staging in_staging = (Ok (staging ++ ["image.img"]), s') /\
  nfs s' !! out = Some (FileN "older") /\ read_rootfs_version (nfs s') out = Some 14.
Proof.
  assert (fst (stage_image 14 url out staging in_staging) = Ok (staging ++ ["image.img"])) as Hr
    by (vm_compute; reflexivity).
  pose proof (fun s' => interrupted_fetch_mislabels_image 14 url out staging in_staging
    (staging ++ ["image.img"]) s' "older" ltac:(lia)
    ltac:(apply (bool_decide_unpack _); by vm_compute) ltac:(apply (bool_decide_unpack _); by vm_compute)
    ltac:(vm_compute; reflexivity)) as H.
  destruct (stage_image 14 url out staging in_staging) as [[p|e] s']; [|discriminate].
  injection Hr as ->. exists s'. split; [reflexivity|]. by apply H.
Defined.
End RootfsSample.
