(* ===== verification/Snapshot.v ===== *)
(** * [src/src/beetroot/snapshot.py]: snapshots and their restoration

    One definition per function of the file, over a host that is a file system
    ([HostFs]) and the registry ([Registry.world]).  An archive is what [tarfile]
    sees in streaming mode: its members in order, the decompressed bytes read for
    each, and how the stream ends.  Zstandard, pydantic and YAML are the class
    [Externals].  Members that are links are those the [data] filter refuses; links
    that stay inside the destination are not modelled; sparse members are.  [restore_local] is
    [restore] up to its commit; [Api.restore] adds the soft network stage. *)
From stdpp Require Import base list strings gmap sorting.
From Stdlib Require Import ZArith QArith Lia Ascii.
From S2P Require Import Prelude PyStr Config Ports Registry Render HostFs.
Local Open Scope stdpp_scope.
Local Open Scope Z_scope.

Definition MANIFEST_FILENAME : string := ".beetroot-snapshot.json".
Definition INSTANCE_LOCK_FILENAME : string := ".beetroot.lock".
Definition _ARCHIVE_SUFFIX : string := ".tar.zst".
Definition _MAX_EXTRACT_BYTES : Z := 64 * 1024 * 1024 * 1024.
Definition _COMPOSE_OVERRIDE_FILENAME : string := "compose.override.yaml".
Definition _EXCLUDED_TOP_LEVEL : list string :=
  [".env"; _COMPOSE_OVERRIDE_FILENAME; MANIFEST_FILENAME; INSTANCE_LOCK_FILENAME].

(** ** The manifest *)

(** [schema_version] and [kind] are the constants 1 and [redroid]. *)
Record Manifest := mkManifest {
  m_name : string; source_index : Z; m_created_at : string; beetroot_version : string;
  path_layout : list (string * string); m_lifecycle : Lifecycle }.

Definition lifecycle_str (l : Lifecycle) : string :=
  match l with ephemeral => "ephemeral" | durable => "durable" end.

(** One character of a JSON string, as [json.dumps] escapes it. *)
Definition json_char (c : ascii) : string :=
  let n := nat_of_ascii c in
  if (n =? 34)%nat then String "\"%char (String c "")
  else if (n =? 92)%nat then String c (String c "")
  else if (n =? 10)%nat then "\n"
  else if (n =? 13)%nat then "\r"
  else if (n =? 9)%nat then "\t"
  else if (n =? 8)%nat then "\b"
  else if (n =? 12)%nat then "\f"
  else if (n <? 32)%nat || (126 <? n)%nat
  then "\u00" +:+ String (hex_digit (n / 16)) (String (hex_digit (n mod 16)) "")
  else String c "".

Definition json_str (s : string) : string :=
  String quote_char (String.concat "" (map json_char (chars s)) +:+ String quote_char "").

(** The items of an object at one indentation, each on its own line. *)
Definition json_object (indent : string) (items : list (string * string)) : string :=
  match items with
  | [] => "{}"
  | _ =>
      "{" +:+ nl +:+
      join ("," +:+ nl)
        (map (fun '(k, v) => indent +:+ "  " +:+ json_str k +:+ ": " +:+ v) items) +:+
      nl +:+ indent +:+ "}"
  end.

Definition key_le (a b : string * string) : Prop := string_le a.1 b.1.
#[export] Instance key_le_dec a b : Decision (key_le a b).
Proof. unfold key_le. apply _. Defined.

(** [json.dumps(.., sort_keys=True, indent=2)]. *)
Definition _manifest_to_json (m : Manifest) : string :=
  json_object ""
    [("beetroot_version", json_str (beetroot_version m));
     ("created_at", json_str (m_created_at m));
     ("kind", json_str "redroid");
     ("lifecycle", json_str (lifecycle_str (m_lifecycle m)));
     ("name", json_str (m_name m));
     ("path_layout", json_object "  "
        (map (fun '(k, v) => (k, json_str v)) (merge_sort key_le (path_layout m))));
     ("schema_version", str_of_Z 1);
     ("source_index", str_of_Z (source_index m))].

(** ** Archives *)

(** A sparse member has its data in segments, each at an offset of the file, and declares
    the size of the file; what no segment covers is a hole. *)
Inductive member_type : Type :=
| Reg
| Sparse (segments : list (nat * list string)) (size : nat)
| DirType
| OutsideLink                        (* absolute, or leaves the destination *)
| Special.                           (* a device or a fifo *)

(** [e_head] bytes are read up to the end of the member's header, then the content in
    pieces (of a regular file [e_data], of a sparse one those of its segments), then
    [e_pad] bytes of padding. *)
Record entry := mkEntry {
  e_name : string; e_type : member_type; e_head : Z; e_data : list string; e_pad : Z }.

Inductive stream_error : Type := ZstdErr | TarErr.

Inductive ending : Type :=
| Eof (pad : Z)                              (* the end of the archive *)
| Fails (e : stream_error)                   (* reading the next header raises *)
| FailsIn (en : entry) (e : stream_error).   (* reading on in [en] raises *)

Record archive := mkArchive { entries : list entry; last_read : ending }.

Definition bytes_len (s : string) : Z := Z.of_nat (String.length s).

Definition NUL : ascii := ascii_of_nat 0.

(** [seek(off)] and [write(s)] in a file that holds [c]: a gap is filled with zeros. *)
Definition put (off : nat) (s c : string) : string :=
  match s with
  | EmptyString => c
  | _ => of_chars (take off (chars c ++ replicate off NUL) ++ chars s ++ drop (off + String.length s) (chars c))
  end.

(** [truncate()] at [size]. *)
Definition resize (size : nat) (c : string) : string := of_chars (take size (chars c ++ replicate size NUL)).

Fixpoint put_all (off : nat) (l : list string) (c : string) : string :=
  match l with
  | [] => c
  | s :: l' => put_all (off + String.length s) l' (put off s c)
  end.

(** What [extractfile] reads. *)
Definition content (en : entry) : string :=
  match e_type en with
  | Sparse segs size => resize size (fold_left (fun c '(off, l) => put_all off l c) segs "")
  | _ => String.concat "" (e_data en)
  end.

(** ** World and errors *)

Record host := mkHost { fsys : fs; rworld : Registry.world }.

Inductive snap_error : Type :=
| InvalidName (name : string)                              (* ValueError *)
| UnsupportedBackend (verb name kind : string)             (* SnapshotError, and so on *)
| NameTaken (name : string)
| BadZstd | BadTar | NoManifest | ManifestNotRegular (name : string) | ManifestInvalid
| TargetIsFile | Overlaps (other : string) | Occupied
| CapExceeded | NoYaml
| RestoredPortCollides (port : Z) (other kind : string)
| NotInstanceDir | NotRegistered
| RawStream (e : stream_error)                             (* ZstdError, TarError *)
| OutsideDestination | RefusedLink | SpecialFile           (* tarfile.FilterError *)
| OsErr (e : os_error)                                     (* OSError *)
| ConfigFileErr (e : os_error)                             (* OSError of load_yaml *)
| ConfigInvalid                                            (* ValidationError, YAMLError *)
| SnapPort (e : port_error)                                (* ValueError, PortCollisionError *)
| RegErr (e : reg_error)
| InstanceNotFound (name : string).                        (* InstanceNotFoundError *)

(** The code that is not in this repository, and the process's surroundings. *)
Class Externals := {
  parse_config : string -> option InstanceConfig;    (* load_yaml on the file's text *)
  manifest_of_json : string -> option Manifest;      (* decode, model_validate_json *)
  read_archive : string -> archive;                  (* zstd and tar, from a file's bytes *)
  write_archive : archive -> string;
  header_bytes : string -> Z;                        (* of a member's tar headers *)
  eof_bytes : list entry -> Z;                       (* of the end-of-archive record *)
  float_repr : Q -> string;
  render_node : bool;
  cwd : path;
  (* what [shutil.rmtree] cannot remove of the tree at a path, if anything *)
  remains : fs -> path -> list path }.

Definition rollback_on {S E A} (m : M S E A) (h : M S E unit) : M S E A := fun s =>
  match m s with
  | (Ok a, s') => (Ok a, s')
  | (Err e, s') => (h ;; raise e) s'
  end.

Section snapshot.
Context `{P : Pydantic} {X : Externals}.
Abbreviation SM := (M host snap_error).

Definition on_fs {A} (m : M fs os_error A) : SM A := fun w =>
  match m (fsys w) with
  | (Ok a, f) => (Ok a, mkHost f (rworld w))
  | (Err e, f) => (Err (OsErr e), mkHost f (rworld w))
  end.

Definition on_reg {A} (m : M Registry.world reg_error A) : SM A := fun w =>
  match m (rworld w) with
  | (Ok a, r) => (Ok a, mkHost (fsys w) r)
  | (Err e, r) => (Err (RegErr e), mkHost (fsys w) r)
  end.

(** [shutil.rmtree]: it raises at the first entry it cannot remove. *)
Definition rmtree_at (p : path) : M fs os_error unit := fun f =>
  match node_at f p with
  | Some DirN =>
      match remains f p with
      | [] => (Ok tt, rmtree p f)
      | l => (Err NotRemoved, rmtree_partly l p f)
      end
  | Some (FileN _) => (Err NotADirectory, f)
  | None => (Err NoSuchFile, f)
  end.

Definition instance_yaml (root : path) : path := root ++ ["beetroot.yaml"].

(** [config.load_yaml], without the notes it prints ([ConfigLoad]). *)
Definition load_yaml (p : path) : SM InstanceConfig := fun w =>
  match read_file p (fsys w) with
  | Err e => (Err (ConfigFileErr e), w)
  | Ok text =>
      match parse_config text with
      | Some cfg => (Ok cfg, w)
      | None => (Err ConfigInvalid, w)
      end
  end.

(** The same for a registered directory, as the port scan of the registry sees it. *)
Definition sibling_yaml (f : fs) (dir : string) : yaml_load :=
  match read_file (instance_yaml (resolve cwd dir)) f with
  | Err NoSuchFile => YamlMissing
  | Err _ => YamlInvalid
  | Ok text => match parse_config text with Some cfg => YamlOk cfg | None => YamlInvalid end
  end.

Definition is_file (p : path) (w : host) : bool :=
  match node_at (fsys w) p with Some (FileN _) => true | _ => false end.

(** ** Packing *)

(** [dest.with_name(..)], on the last component. *)
Definition _ensure_suffix (name : string) : string :=
  if bool_decide (chars _ARCHIVE_SUFFIX `suffix_of` chars name) then name
  else name +:+ _ARCHIVE_SUFFIX.

Definition _build_manifest (name : string) (idx : Z) (layout : list (string * string))
    (lc : Lifecycle) (created version : string) : Manifest :=
  mkManifest name idx created version layout lc.

Definition _read_lifecycle (yaml_path : path) (w : host) : Lifecycle :=
  match load_yaml yaml_path w with (Ok cfg, _) => lifecycle cfg | (Err _, _) => durable end.

Definition registered_dir (b : BackendConfig) : option path :=
  match b with
  | RedroidBackendConfig p _ | VmBackendConfig p => Some (resolve cwd p)
  | _ => None
  end.

Fixpoint find_entry (target : path) (rows : list (string * InstanceMeta))
  : result snap_error (string * InstanceMeta * list (string * string)) :=
  match rows with
  | [] => Err NotRegistered
  | (name, meta) :: rows' =>
      match backend meta with
      | RedroidBackendConfig p sp =>
          if decide (resolve cwd p = target) then Ok (name, meta, sp)
          else find_entry target rows'
      | VmBackendConfig p =>
          if decide (resolve cwd p = target)
          then Err (UnsupportedBackend "snapshot" name (backend_kind (backend meta)))
          else find_entry target rows'
      | _ => find_entry target rows'
      end
  end.

Definition _find_registry_entry (instance_root : path)
  : SM (string * InstanceMeta * list (string * string)) :=
  data ← on_reg list_instances; lift (find_entry instance_root data).

(** [tarfile.addfile] of a regular file: the content padded to a block of 512. *)
Definition file_entry (name content : string) : entry :=
  mkEntry name Reg (header_bytes name) (if String.eqb content "" then [] else [content])
    (- bytes_len content mod 512).

Definition dir_entry (name : string) : entry := mkEntry name DirType (header_bytes name) [] 0.

(** [_skip_dest]: the member's own path is the archive being written. *)
Definition _skip_dest (instance_root dest : path) (name : string) : bool :=
  bool_decide (norm instance_root (components name) = dest).

(** [tar.add(.., recursive=True, filter=_skip_dest)].  The fuel bounds the depth. *)
Fixpoint tar_add (fuel : nat) (f : fs) (instance_root dest p : path) (arcname : string)
  : list entry :=
  match fuel with
  | O => []
  | S fuel' =>
      if _skip_dest instance_root dest arcname then []
      else match node_at f p with
      | None => []
      | Some (FileN c) => [file_entry arcname c]
      | Some DirN =>
          dir_entry arcname ::
          flat_map (fun c => tar_add fuel' f instance_root dest (p ++ [c]) (arcname +:+ "/" +:+ c))
            (children f p)
      end
  end.

Definition depth (f : fs) : nat := S (max_list (map (fun '(p, _) => length p) (map_to_list f))).

Definition _add_instance_tree (f : fs) (instance_root final_dest : path) : list entry :=
  flat_map (fun c =>
      if bool_decide (c ∈ _EXCLUDED_TOP_LEVEL) then []
      else if bool_decide (instance_root ++ [c] = final_dest) then []
      else tar_add (depth f) f instance_root final_dest (instance_root ++ [c]) ("./" +:+ c))
    (children f instance_root).

Definition _add_manifest (m : Manifest) : entry :=
  file_entry ("./" +:+ MANIFEST_FILENAME) (_manifest_to_json m).

(** Opening the lock file of [instance_lock] for appending. *)
Definition instance_lock (root : path) : SM unit :=
  let p := root ++ [INSTANCE_LOCK_FILENAME] in
  on_fs (mkdir_p root) ;;
  there ← gets (is_file p);
  if (there : bool) then mret tt else on_fs (write_file p "").

(** [dest] is the resolved destination, its directory and its name. *)
Definition snapshot (instance_root dest_dir : path) (dest_name created version : string)
  : SM path :=
  let yaml_path := instance_yaml instance_root in
  has_yaml ← gets (is_file yaml_path);
  lift (raise_if (negb has_yaml) NotInstanceDir) ;;
  '(name, meta, stealth) ← _find_registry_entry instance_root;
  let final_dest := dest_dir ++ [_ensure_suffix dest_name] in
  on_fs (mkdir_p dest_dir) ;;
  lc ← gets (_read_lifecycle yaml_path);
  let manifest := _build_manifest name (index meta) stealth lc created version in
  instance_lock instance_root ;;
  on_fs (write_file final_dest "") ;;
  f ← gets fsys;
  let members := _add_manifest manifest :: _add_instance_tree f instance_root final_dest in
  on_fs (write_file final_dest (write_archive (mkArchive members (Eof (eof_bytes members))))) ;;
  mret final_dest.

(** ** Reading the manifest *)

Definition _is_manifest_member (en : entry) : bool :=
  bool_decide (e_name en ∈ ["./" +:+ MANIFEST_FILENAME; MANIFEST_FILENAME]).

Definition wrapped (e : stream_error) : snap_error :=
  match e with ZstdErr => BadZstd | TarErr => BadTar end.

(** The loop of [_extract_manifest_bytes]: it returns at the first manifest member. *)
Fixpoint first_manifest (l : list entry) (last : ending) : result snap_error string :=
  match l with
  | [] =>
      match last with
      | Eof _ => Err NoManifest
      | Fails e | FailsIn _ e => Err (wrapped e)
      end
  | en :: l' =>
      if _is_manifest_member en then
        match e_type en with
        | Reg | Sparse _ _ => Ok (content en)
        | OutsideLink => Err BadTar
        | DirType | Special => Err (ManifestNotRegular (e_name en))
        end
      else first_manifest l' last
  end.

Definition _extract_manifest_bytes (a : archive) : result snap_error string :=
  first_manifest (entries a) (last_read a).

Definition open_archive (file : path) : SM archive :=
  f ← gets fsys;
  text ← lift (match read_file file f with Ok s => Ok s | Err e => Err (OsErr e) end);
  mret (read_archive text).

Definition read_manifest (file : path) : SM Manifest :=
  a ← open_archive file;
  raw ← lift (_extract_manifest_bytes a);
  lift (match manifest_of_json raw with Some m => Ok m | None => Err ManifestInvalid end).

(** ** Extraction *)

(** [_total] of the [_CappedReader], over the file system. *)
Record xstate := mkX { x_fs : fs; x_total : Z }.
Abbreviation XM := (M xstate snap_error).

(** [_CappedReader.read], for a read of the wrapped stream that returns [n] bytes. *)
Definition capped_read (n : Z) : XM unit := fun s =>
  let total := x_total s + n in
  if _MAX_EXTRACT_BYTES <? total then (Err CapExceeded, mkX (x_fs s) total)
  else (Ok tt, mkX (x_fs s) total).

Definition x_os {A} (m : M fs os_error A) : XM A := fun s =>
  match m (x_fs s) with
  | (Ok a, f) => (Ok a, mkX f (x_total s))
  | (Err e, f) => (Err (OsErr e), mkX f (x_total s))
  end.

Fixpoint copy_pieces (p : path) (l : list string) : XM unit :=
  match l with
  | [] => mret tt
  | s :: l' => capped_read (bytes_len s) ;; x_os (append_file p s) ;; copy_pieces p l'
  end.

(** [copyfileobj] from the offset of a segment on. *)
Fixpoint copy_at (p : path) (off : nat) (l : list string) : XM unit :=
  match l with
  | [] => mret tt
  | s :: l' =>
      capped_read (bytes_len s) ;; x_os (update_file p (put off s)) ;;
      copy_at p (off + String.length s) l'
  end.

Fixpoint copy_segments (p : path) (segs : list (nat * list string)) : XM unit :=
  match segs with
  | [] => mret tt
  | (off, l) :: segs' => copy_at p off l ;; copy_segments p segs'
  end.

Definition member_components (name : string) : path :=
  filter (fun c => c <> "") (components name).

(** [tarfile.data_filter]. *)
Definition data_filter (target : path) (en : entry) : result snap_error unit :=
  raise_if (negb (bool_decide (target `prefix_of` norm target (member_components (e_name en)))))
    OutsideDestination ;;
  match e_type en with
  | Reg | Sparse _ _ | DirType => Ok tt
  | OutsideLink => Err RefusedLink
  | Special => Err SpecialFile
  end.

(** [makefile] and [makedir] of [tarfile]. *)
Definition make_member (p : path) (en : entry) : XM unit :=
  match e_type en with
  | Reg => x_os (write_file p "") ;; copy_pieces p (e_data en)
  | Sparse segs size =>
      x_os (write_file p "") ;; copy_segments p segs ;; x_os (update_file p (resize size))
  | _ => x_os (mkdir_exist_ok p)
  end.

(** [tar.extract(member, path=target, filter="data")], the read of its header first. *)
Definition extract_member (target : path) (en : entry) : XM unit :=
  capped_read (e_head en) ;;
  lift (data_filter target en) ;;
  let cs := member_components (e_name en) in
  up ← x_os (make_dirs target (removelast cs));
  make_member (norm up (drop (length cs - 1) cs)) en ;;
  capped_read (e_pad en).

Fixpoint extract_all (target : path) (l : list entry) : XM unit :=
  match l with
  | [] => mret tt
  | en :: l' => extract_member target en ;; extract_all target l'
  end.

Definition extract_end (target : path) (last : ending) : XM unit :=
  match last with
  | Eof pad => capped_read pad
  | Fails e => raise (RawStream e)
  | FailsIn en e => extract_member target en ;; raise (RawStream e)
  end.

(** Reading through a fresh [_CappedReader]. *)
Definition through_cap (m : XM unit) : SM unit := fun w =>
  let '(r, s) := m (mkX (fsys w) 0) in (r, mkHost (x_fs s) (rworld w)).

Definition _extract_archive_into (file target : path) : SM unit :=
  a ← open_archive file;
  through_cap (extract_all target (entries a) ;; extract_end target (last_read a)) ;;
  has_yaml ← gets (is_file (instance_yaml target));
  lift (raise_if (negb has_yaml) NoYaml).

(** ** Restoring *)

(** [reg_dir == target or target in reg_dir.parents or reg_dir in target.parents]. *)
Definition overlaps (target reg_dir : path) : bool :=
  bool_decide (target `prefix_of` reg_dir) || bool_decide (reg_dir `prefix_of` target).

Fixpoint overlapping (target : path) (rows : list (string * InstanceMeta)) : option string :=
  match rows with
  | [] => None
  | (name, meta) :: rows' =>
      match registered_dir (backend meta) with
      | Some d => if overlaps target d then Some name else overlapping target rows'
      | None => overlapping target rows'
      end
  end.

Definition _prepare_destination (target : path) (force : bool) : SM unit :=
  f ← gets fsys;
  occupied ← lift (match node_at f target with
                   | None => Ok false
                   | Some (FileN _) => Err TargetIsFile
                   | Some DirN => Ok (bool_decide (children f target <> []))
                   end);
  rows ← on_reg list_instances;
  match overlapping target rows with
  | Some other => raise (Overlaps other)
  | None =>
      if negb occupied then mret tt
      else if negb force then raise Occupied
      else on_fs (rmtree_at target)
  end.

Definition resolved (idx : Z) (l : list PortMapping) : SM (list ResolvedPort) :=
  lift (match fst (resolve_ports idx l false) with Ok r => Ok r | Err e => Err (SnapPort e) end).

Definition _check_restored_port_collision (dest_name : string) (idx : Z) (target : path)
  : SM unit :=
  cfg ← load_yaml (instance_yaml target);
  new_ports ← resolved idx (ports cfg);
  f ← gets fsys;
  siblings ← on_reg (all_resolved_host_ports (sibling_yaml f));
  match find_port_collision new_ports (filter (fun '(n, _) => n <> dest_name) siblings) with
  | None => mret tt
  | Some (port, other, kind) => raise (RestoredPortCollides port other kind)
  end.

(** [Instance.load]: the row, its directory, its configuration. *)
Definition instance_load (name : string) : SM (path * InstanceConfig) :=
  m ← on_reg (Registry.get name);
  match m with
  | None => raise (InstanceNotFound name)
  | Some m =>
      match backend m with
      | RedroidBackendConfig p _ =>
          let root := resolve cwd p in
          cfg ← load_yaml (instance_yaml root);
          mret (root, cfg)
      | _ => raise (InstanceNotFound name)
      end
  end.

(** [frida_download.stage_empty]. *)
Definition stage_empty (root : path) : SM unit :=
  on_fs (mkdir_p root) ;; on_fs (write_file (root ++ ["frida-server"]) "").

Definition has_real_binary (root : path) (f : fs) : bool :=
  match node_at f (root ++ ["frida-server"]) with
  | Some (FileN c) => negb (String.eqb c "")
  | Some DirN => true
  | None => false
  end.

(** [Instance._stage_local]. *)
Definition _stage_local (name : string) (root : path) (cfg : InstanceConfig) : SM unit :=
  m ← on_reg (Registry.get name);
  match m with
  | None => raise (InstanceNotFound name)
  | Some m =>
      let stealth := match backend m with RedroidBackendConfig _ sp => Some sp | _ => None end in
      new_ports ← resolved (index m) (ports cfg);
      on_fs (mkdir_p (root ++ ["data"])) ;;
      on_fs (mkdir_p (root ++ ["modules"])) ;;
      on_fs (write_file (root ++ [".env"]) (render_env float_repr render_node name cfg stealth)) ;;
      on_fs (write_file (root ++ [_COMPOSE_OVERRIDE_FILENAME])
               (render_compose_ports_override new_ports)) ;;
      real ← gets (fun w => has_real_binary root (fsys w));
      if bool_decide (frida cfg = None) || negb real then stage_empty root else mret tt
  end.

(** [api._INSTANCE_NAME_RE]. *)
Definition instance_name_char (c : ascii) : bool :=
  is_lower c || is_digit c || Ascii.eqb c "_"%char || Ascii.eqb c "-"%char.

Definition _validate_instance_name (name : string) : result snap_error unit :=
  raise_if (negb (plus_full instance_name_char name)) (InvalidName name).

(** The [try] block of [restore]; the result is the loaded instance. *)
Definition restore_body (file : path) (dest_name : string) (target : path) (idx : Z)
    (manifest : Manifest) : SM (path * InstanceConfig) :=
  _extract_archive_into file target ;;
  cfg ← load_yaml (instance_yaml target);
  lift (raise_if (bool_decide (binder cfg = binder_vm))
          (UnsupportedBackend "restore" dest_name "vm")) ;;
  (if bool_decide (path_layout manifest = []) then mret tt
   else on_reg (set_stealth_paths dest_name (path_layout manifest))) ;;
  _check_restored_port_collision dest_name idx target ;;
  '(root, cfg) ← instance_load dest_name;
  _stage_local dest_name root cfg ;;
  mret (root, cfg).

(** The [except] block, before it raises again. *)
Definition restore_rollback (dest_name : string) (target : path) (created_dir : bool) : SM unit :=
  on_reg (remove dest_name) ;;
  there ← gets (fun w => exists_at (fsys w) target);
  if created_dir && there then on_fs (rmtree_at target) else mret tt.

(** [restore] from the point where the destination is clear; [now] is the clock of
    [add_allocating]. *)
Definition restore_into (file : path) (dest_name : string) (target : path) (now : datetime)
    (manifest : Manifest) : SM (path * InstanceConfig) :=
  created_dir ← gets (fun w => bool_decide (node_at (fsys w) target = None));
  on_fs (mkdir_p target) ;;
  idx ← on_reg (add_allocating dest_name None (Some (RedroidBackendConfig (path_str target) [])) now);
  rollback_on (restore_body file dest_name target idx manifest)
    (restore_rollback dest_name target created_dir).

(** [restore] up to its [try] statement, which the soft network stage of [Api.restore]
    follows; [target] is the resolved [dest_path]. *)
Definition restore_local (file : path) (dest_name : string) (target : path) (force : bool)
    (now : datetime) : SM (path * InstanceConfig) :=
  lift (_validate_instance_name dest_name) ;;
  existing ← on_reg (Registry.get dest_name);
  lift (match existing with
        | None => Ok tt
        | Some m =>
            match backend m with
            | RedroidBackendConfig _ _ => Err (NameTaken dest_name)
            | b => Err (UnsupportedBackend "restore" dest_name (backend_kind b))
            end
        end) ;;
  manifest ← read_manifest file;
  _prepare_destination target force ;;
  restore_into file dest_name target now manifest.
End snapshot.
