(* ===== verification/SnapshotOps.v ===== *)
(** * Snapshots: what restoring and packing do to the host

    The cases of the committing part of a restore: it only writes under its target, never
    inside another registered instance, and a failed one leaves the registry as it was; what
    a successful one establishes.  [RestoreSpecs] states them of [Api.restore].  The
    manifest of a snapshot. *)
From stdpp Require Import base list strings gmap sorting.
From Stdlib Require Import ZArith QArith Lia Ascii.
From S2P Require Import Prelude PyStr Config Ports Registry RegistryOps Render HostFs Snapshot.
Local Open Scope stdpp_scope.
Local Open Scope Z_scope.

Section facts.
Context `{P : Pydantic} `{L : !PydanticLaws P} {X : Externals}.
Implicit Types (w : host) (f : fs) (t p target : path).

(** ** Confinement *)

Definition host_confined (t : path) w w' : Prop := confined t (fsys w) (fsys w').
Definition host_outside (t : path) w w' : Prop := outside t (fsys w) (fsys w').
Definition x_confined (t : path) (s s' : xstate) : Prop := confined t (x_fs s) (x_fs s').

#[local] Instance host_confined_pre t : PreOrder (host_confined t).
Proof. split; [intros w; red; reflexivity|]. intros a b c H1 H2. red. by etransitivity. Qed.
#[local] Instance host_outside_pre t : PreOrder (host_outside t).
Proof. split; [intros w; red; reflexivity|]. intros a b c H1 H2. red. by etransitivity. Qed.
#[local] Instance x_confined_pre t : PreOrder (x_confined t).
Proof. split; [intros w; red; reflexivity|]. intros a b c H1 H2. red. by etransitivity. Qed.

Lemma on_fs_confined {A} t (m : M fs os_error A) :
  (forall f, confined t f (snd (m f))) -> preserves (host_confined t) (on_fs m).
Proof.
  intros Hm w. specialize (Hm (fsys w)). unfold on_fs. by destruct (m (fsys w)) as [[] ?].
Qed.

Lemma x_os_confined {A} t (m : M fs os_error A) :
  (forall f, confined t f (snd (m f))) -> preserves (x_confined t) (x_os m).
Proof.
  intros Hm s. specialize (Hm (x_fs s)). unfold x_os. by destruct (m (x_fs s)) as [[] ?].
Qed.

Lemma same_fs_confined {A} t (m : M host snap_error A) :
  (forall w, fsys (snd (m w)) = fsys w) -> preserves (host_confined t) m.
Proof. intros Hm w. red. by rewrite Hm. Qed.

Lemma on_reg_fs {A} (m : M Registry.world reg_error A) w : fsys (snd (on_reg m w)) = fsys w.
Proof. unfold on_reg. by destruct (m (rworld w)) as [[] ?]. Qed.

Lemma load_yaml_same p w : snd (load_yaml p w) = w.
Proof. unfold load_yaml. by destruct (read_file _ _) as [s|]; [destruct (parse_config s)|]. Qed.

Lemma on_reg_confined {A} t (m : M Registry.world reg_error A) :
  preserves (host_confined t) (on_reg m).
Proof. apply same_fs_confined. intros. apply on_reg_fs. Qed.

Lemma load_yaml_confined t p : preserves (host_confined t) (load_yaml p).
Proof. apply same_fs_confined. intros. by rewrite load_yaml_same. Qed.

Lemma mkdir_p_confined t p f : confined t f (snd (mkdir_p p f)).
Proof.
  unfold mkdir_p, mbind, M_bind. pose proof (make_dirs_confined t [] p f).
  by destruct (make_dirs [] p f) as [[] ?].
Qed.

Lemma capped_read_confined t n : preserves (x_confined t) (capped_read n).
Proof. intros s. unfold capped_read. by destruct (_ <? _). Qed.

Lemma copy_pieces_confined t p l : t `prefix_of` p -> preserves (x_confined t) (copy_pieces p l).
Proof.
  intros Ht. induction l as [|s l IH]; simpl; [auto with beetroot typeclass_instances|].
  apply preserves_bind; [apply _|apply capped_read_confined|intros _].
  apply preserves_bind; [apply _| |done].
  apply x_os_confined. intros f. by apply confined_append.
Qed.

Lemma data_filter_ok t en u :
  data_filter t en = Ok u -> t `prefix_of` norm t (member_components (e_name en)).
Proof.
  unfold data_filter. intros [v [Hv%raise_if_ok H]]%bind_ok.
  by apply negb_false_iff, bool_decide_eq_true in Hv.
Qed.

Lemma x_update_confined t p g : t `prefix_of` p -> preserves (x_confined t) (x_os (update_file p g)).
Proof. intros Ht. apply x_os_confined. intros f. by apply confined_update. Qed.

Lemma copy_at_confined t p off l : t `prefix_of` p -> preserves (x_confined t) (copy_at p off l).
Proof.
  intros Ht. revert off. induction l as [|s l IH]; intros off; simpl; [apply preserves_ret, _|].
  apply preserves_bind; [apply _|apply capped_read_confined|intros _].
  apply preserves_bind; [apply _|by apply x_update_confined|done].
Qed.

Lemma copy_segments_confined t p segs : t `prefix_of` p -> preserves (x_confined t) (copy_segments p segs).
Proof.
  intros Ht. induction segs as [|[off l] segs IH]; simpl; [apply preserves_ret, _|].
  apply preserves_bind; [apply _|by apply copy_at_confined|done].
Qed.

Lemma extract_member_confined t en : preserves (x_confined t) (extract_member t en).
Proof.
  unfold extract_member. set (cs := member_components (e_name en)).
  apply preserves_bind; [apply _|apply capped_read_confined|intros _].
  apply (preserves_bind_post _ (fun _ => t `prefix_of` norm t cs));
    [apply preserves_lift, _|intros s u Hu; by apply (data_filter_ok t en u)|intros _ Hin].
  apply (preserves_bind_post _ (fun up => up = norm t (removelast cs))).
  { apply x_os_confined, make_dirs_confined. }
  { intros s up Hup. unfold x_os in Hup.
    destruct (make_dirs _ _ _) as [[q|e] f] eqn:Hm; simplify_eq/=. by eapply make_dirs_ok. }
  intros ? ->. rewrite <- norm_app, last_component.
  apply preserves_bind; [apply _| |intros _; apply capped_read_confined].
  assert (preserves (x_confined t) (x_os (mkdir_exist_ok (norm t cs))))
    by (apply x_os_confined, mkdir_exist_ok_confined).
  assert (preserves (x_confined t) (x_os (write_file (norm t cs) "")))
    by (apply x_os_confined; intros f; by apply write_file_confined).
  unfold make_member. destruct (e_type en); [| |done..];
    (apply preserves_bind; [apply _|done|intros _; try by apply copy_pieces_confined]).
  apply preserves_bind; [apply _|by apply copy_segments_confined|intros _; by apply x_update_confined].
Qed.

Lemma extract_all_confined t l : preserves (x_confined t) (extract_all t l).
Proof.
  induction l as [|en l IH]; simpl; [apply preserves_ret, _|].
  apply preserves_bind; [apply _|apply extract_member_confined|done].
Qed.

Lemma extract_end_confined t e : preserves (x_confined t) (extract_end t e).
Proof.
  destruct e; simpl; [apply capped_read_confined|apply preserves_raise, _|].
  apply preserves_bind; [apply _|apply extract_member_confined|intros _; apply preserves_raise, _].
Qed.

Lemma open_archive_same file w : snd (open_archive file w) = w.
Proof.
  unfold open_archive, mbind, M_bind, gets, lift. by destruct (read_file file (fsys w)).
Qed.

Lemma through_cap_confined t m :
  preserves (x_confined t) m -> preserves (host_confined t) (through_cap m).
Proof.
  intros Hm w. specialize (Hm (mkX (fsys w) 0)). unfold through_cap.
  by destruct (m (mkX (fsys w) 0)).
Qed.

Lemma through_cap_reg m w : rworld (snd (through_cap m w)) = rworld w.
Proof. unfold through_cap. by destruct (m (mkX (fsys w) 0)). Qed.

Lemma extract_archive_confined file t : preserves (host_confined t) (_extract_archive_into file t).
Proof.
  unfold _extract_archive_into. apply preserves_bind; [apply _| |intros a].
  { apply same_fs_confined. intros w. by rewrite open_archive_same. }
  apply preserves_bind; [apply _| |intros _].
  - apply through_cap_confined, preserves_bind; [apply _|apply extract_all_confined|].
    intros _. apply extract_end_confined.
  - apply preserves_bind; [apply _|apply preserves_gets, _|intros u; apply preserves_lift, _].
Qed.

(** ** The registry during a restore *)

Lemma list_written (data : list (string * InstanceMeta)) (r : Registry.world) :
  reg r = Some (Doc (_registry_to_json data)) -> file_wf data ->
  list_instances r = (Ok data, r).
Proof.
  intros Hr Hd. unfold list_instances. rewrite Hr. unfold _needs_legacy_migration. rewrite Hr.
  simpl. by apply read_written.
Qed.

Lemma get_written name data (r : Registry.world) :
  reg r = Some (Doc (_registry_to_json data)) -> file_wf data ->
  Registry.get name r = (Ok (Dict.get name data), r).
Proof.
  intros Hr Hd. unfold Registry.get. by rewrite (M_bind_ok _ _ _ _ _ (list_written _ _ Hr Hd)).
Qed.

Section restoring.
Variables (data : list (string * InstanceMeta)) (name : string) (target : path).
Variables (idx : Z) (now : datetime).
Hypotheses (Hdata : file_wf data) (Hfresh : Dict.get name data = None).
Hypothesis Htarget : Forall plain target.

Definition row (sp : list (string * string)) : InstanceMeta :=
  mkInstanceMeta (RedroidBackendConfig (path_str target) sp) idx now.
Definition rows (sp : list (string * string)) : list (string * InstanceMeta) :=
  data ++ [(name, row sp)].

(** The registry is the old one with the new row, whose stealth paths may be set. *)
Definition registered w : Prop :=
  exists sp, reg (rworld w) = Some (Doc (_registry_to_json (rows sp))).

Lemma rows_wf sp : file_wf (rows sp).
Proof.
  destruct Hdata as [Hwf Hok]. unfold rows. split.
  - rewrite <- (Dict.set_fresh name (row sp)) by done. by apply Dict.wf_set.
  - apply Forall_app. split; [done|]. repeat constructor. apply redroid_ok.
Qed.

Lemma get_row sp : Dict.get name (rows sp) = Some (row sp).
Proof. unfold rows. rewrite <- (Dict.set_fresh name) by done. apply Dict.get_set_eq. Qed.

Lemma set_row sp sp' : Dict.set name (row sp') (rows sp) = rows sp'.
Proof.
  unfold rows. clear -Hfresh. induction data as [|[n m] d IH]; simpl in *.
  - by rewrite decide_True.
  - case_decide; [done|]. by rewrite IH.
Qed.

Lemma pop_row sp : Dict.pop name (rows sp) = data.
Proof.
  unfold rows. clear -Hfresh. induction data as [|[n m] d IH]; simpl in *.
  - by rewrite decide_True.
  - case_decide; [done|]. by rewrite IH.
Qed.

(** Steps that leave the registry alone, and steps that may set the stealth paths. *)
Definition calm w w' : Prop := host_confined target w w' /\ rworld w' = rworld w.

#[local] Instance calm_pre : PreOrder calm.
Proof.
  split; [by intros w|]. intros a b c [H1 H2] [H3 H4].
  split; [by etransitivity|congruence].
Qed.

Abbreviation stays := (keeps calm registered).
Abbreviation moves := (keeps (host_confined target) registered).

Lemma stays_moves {A} (m : M host snap_error A) : stays m -> moves m.
Proof. intros Hm w Hw. by destruct (Hm w Hw) as [[? _] ?]. Qed.

Lemma stays_fs {A} (m : M host snap_error A) :
  preserves (host_confined target) m -> (forall w, rworld (snd (m w)) = rworld w) -> stays m.
Proof. intros Hm Hr w [sp Hw]. split; [by split; [apply Hm|]|]. exists sp. by rewrite Hr. Qed.

Lemma stays_on_fs {A} (m : M fs os_error A) :
  (forall f, confined target f (snd (m f))) -> stays (on_fs m).
Proof.
  intros Hm. apply stays_fs; [by apply on_fs_confined|].
  intros w. unfold on_fs. by destruct (m (fsys w)) as [[] ?].
Qed.

Lemma stays_same {A} (m : M host snap_error A) : (forall w, snd (m w) = w) -> stays m.
Proof. intros Hm. apply keeps_read; [apply _|auto]. Qed.

Lemma stays_list {A} (k : list (string * InstanceMeta) -> M Registry.world reg_error A) :
  (forall d r, snd (k d r) = r) -> stays (on_reg (list_instances ≫= k)).
Proof.
  intros Hk. apply keeps_read; [apply _|]. intros [f r] [sp Hr]. simpl in Hr.
  unfold on_reg. simpl. rewrite (M_bind_ok _ _ _ _ _ (list_written _ _ Hr (rows_wf sp))).
  specialize (Hk (rows sp) r). destruct (k _ _) as [[] ?]; simpl in *; by subst.
Qed.

Lemma stays_get n : stays (on_reg (Registry.get n)).
Proof. by apply stays_list. Qed.

Lemma get_returns w m :
  registered w -> fst (on_reg (Registry.get name) w) = Ok m -> exists sp, m = Some (row sp).
Proof.
  intros [sp Hr] H. unfold on_reg in H. rewrite (get_written _ _ _ Hr (rows_wf sp)) in H.
  rewrite get_row in H. simplify_eq/=. eauto.
Qed.

Lemma moves_stealth sp : moves (on_reg (set_stealth_paths name sp)).
Proof.
  intros [f r] [sp0 Hr]. simpl in Hr. unfold on_reg, set_stealth_paths. simpl.
  rewrite locked_then, (opened_written _ _ Hr (rows_wf sp0)), get_row. cbn.
  split; [red; reflexivity|]. exists sp. cbn. by rewrite <- (set_row sp0 sp).
Qed.

Lemma stays_extract file : stays (_extract_archive_into file target).
Proof.
  apply stays_fs; [apply extract_archive_confined|]. intros w.
  unfold _extract_archive_into, mbind, M_bind, gets, lift.
  pose proof (open_archive_same file w) as Ho. destruct (open_archive file w) as [[a|e] w1];
    simpl in Ho; subst w1; [|done].
  match goal with |- context [through_cap ?m w] => pose proof (through_cap_reg m w) as Hr end.
  by destruct (through_cap _ w) as [[] ?].
Qed.

Lemma stays_load p : stays (load_yaml p).
Proof. apply stays_same, load_yaml_same. Qed.

Lemma stays_mret {A} (a : A) : stays (mret a : M host snap_error A).
Proof. by apply stays_same. Qed.
Lemma stays_raise {A} e : stays (raise e : M host snap_error A).
Proof. by apply stays_same. Qed.
Lemma stays_lift {A} (r : result snap_error A) : stays (lift r : M host snap_error A).
Proof. by apply stays_same. Qed.
Lemma stays_gets {A} (f : host -> A) : stays (gets f : M host snap_error A).
Proof. by apply stays_same. Qed.
Lemma stays_resolved i l : stays (resolved i l).
Proof. by apply stays_same. Qed.
Lemma stays_mkdir p : stays (on_fs (mkdir_p p)).
Proof. apply stays_on_fs, mkdir_p_confined. Qed.
Lemma stays_write x c : stays (on_fs (write_file (target ++ [x]) c)).
Proof. apply stays_on_fs. intros f. apply write_file_confined. by exists [x]. Qed.

(** Sequences and branches of steps that stay. *)
Ltac stay :=
  repeat (cbn beta iota zeta; first
    [ apply stays_mret | apply stays_raise | apply stays_lift | apply stays_gets
    | apply stays_resolved | apply stays_mkdir | apply stays_write | apply stays_get
    | apply stays_load | apply stays_extract
    | apply keeps_then; [apply _| |intros ?]
    | case_match ]).

Lemma stays_stage cfg : stays (_stage_local name target cfg).
Proof. unfold _stage_local, stage_empty. stay. Qed.

Lemma stays_check : stays (_check_restored_port_collision name idx target).
Proof.
  unfold _check_restored_port_collision, all_resolved_host_ports.
  do 3 (apply keeps_then; [apply _|stay|intros ?]).
  apply keeps_then; [apply _|by apply stays_list|intros ?]. stay.
Qed.

Lemma instance_load_root w root cfg :
  registered w -> fst (instance_load name w) = Ok (root, cfg) -> root = target.
Proof.
  intros [sp Hr] H. unfold instance_load, mbind, M_bind, on_reg in H.
  rewrite (get_written _ _ _ Hr (rows_wf sp)), get_row in H. simpl in H.
  rewrite path_str_resolve in H by done.
  by destruct (load_yaml _ _) as [[c|e] ?]; simplify_eq/=.
Qed.

Lemma stays_instance_load : stays (instance_load name).
Proof. unfold instance_load. stay. Qed.

(** The [try] block from the check of the ports on. *)
Definition finish : M host snap_error (path * InstanceConfig) :=
  _check_restored_port_collision name idx target ;;
  '(root, cfg) ← instance_load name;
  _stage_local name root cfg ;;
  mret (root, cfg).

Lemma stays_finish : stays finish.
Proof.
  unfold finish. apply keeps_then; [apply _|apply stays_check|intros ?].
  apply (keeps_bind_post _ _ (fun x => x.1 = target)); [apply stays_instance_load| |].
  - intros w [root cfg] Hw H. by eapply instance_load_root.
  - intros [root cfg] Hroot. simpl in Hroot. subst root.
    apply keeps_then; [apply _|apply stays_stage|intros ?]. stay.
Qed.

Lemma moves_body file manifest : moves (restore_body file name target idx manifest).
Proof.
  unfold restore_body. do 3 (apply keeps_then; [apply _|apply stays_moves; stay|intros ?]).
  apply keeps_then; [apply _| |intros ?; apply stays_moves, stays_finish].
  case_match; [apply stays_moves; stay|apply moves_stealth].
Qed.

(** What the staging leaves in the directory. *)
Record staged (cfg : InstanceConfig) (sp : list (string * string)) f : Prop := {
  st_env : f !! (target ++ [".env"]) =
    Some (FileN (render_env float_repr render_node name cfg (Some sp)));
  st_override : exists new, fst (resolve_ports idx (ports cfg) false) = Ok new /\
    f !! (target ++ [_COMPOSE_OVERRIDE_FILENAME]) =
      Some (FileN (render_compose_ports_override new));
  st_data : f !! (target ++ ["data"]) = Some DirN;
  st_modules : f !! (target ++ ["modules"]) = Some DirN }.

Lemma on_fs_ok {A} (m : M fs os_error A) w a w' :
  on_fs m w = (Ok a, w') -> m (fsys w) = (Ok a, fsys w') /\ rworld w' = rworld w.
Proof. unfold on_fs. destruct (m (fsys w)) as [[] f]; intros; by simplify_eq. Qed.

Lemma write_ok_facts x c w w' :
  on_fs (write_file (target ++ [x]) c) w = (Ok tt, w') ->
  fsys w' = <[target ++ [x] := FileN c]> (fsys w).
Proof. by intros [[-> _]%write_file_ok _]%on_fs_ok. Qed.

Lemma mkdir_ok_facts p w w' :
  Forall plain p -> p <> [] -> on_fs (mkdir_p p) w = (Ok tt, w') ->
  fsys w' !! p = Some DirN /\
  (forall q, fsys w !! q = Some DirN -> fsys w' !! q = Some DirN) /\
  (forall q c, fsys w !! q = Some (FileN c) -> fsys w' !! q = Some (FileN c)).
Proof.
  intros Hp Hne [H _]%on_fs_ok. split_and!.
  - rewrite <- node_at_cons by done. by eapply mkdir_p_ok.
  - intros q Hq. destruct (mkdir_p_confined q p (fsys w)) as [_ Hd]. rewrite H in Hd. auto.
  - intros q c Hq. pose proof (mkdir_p_files p _ _ _ Hq) as Hf. by rewrite H in Hf.
Qed.
Lemma snoc_ne (x y : string) : x <> y -> target ++ [x] <> target ++ [y].
Proof. by intros Hne [_ ?]%app_inj_tail. Qed.

Definition same_but_frida (f g : fs) : Prop := forall q n,
  q <> target ++ ["frida-server"] -> f !! q = Some n -> g !! q = Some n.

Lemma staged_same cfg sp f g : staged cfg sp f -> same_but_frida f g -> staged cfg sp g.
Proof.
  intros [He (new & Hnew & Ho) Hd Hm] Hs. split; [|exists new; split; [done|]|..];
    by apply Hs; [apply snoc_ne|].
Qed.

Lemma mkdir_p_same p f q n : f !! q = Some n -> snd (mkdir_p p f) !! q = Some n.
Proof. destruct n; [apply (mkdir_p_confined q p f)|apply mkdir_p_files]. Qed.

Lemma stage_empty_ok w w' :
  stage_empty target w = (Ok tt, w') ->
  same_but_frida (fsys w) (fsys w') /\ fsys w' !! (target ++ ["frida-server"]) = Some (FileN "").
Proof.
  unfold stage_empty. intros H. run_bind H u w1 H1. apply write_ok_facts in H.
  apply on_fs_ok in H1 as [H1 _]. rewrite H. split; [|apply lookup_insert_eq].
  intros q n Hne Hq. rewrite lookup_insert_ne by done.
  pose proof (mkdir_p_same target _ _ _ Hq) as Hk. by rewrite H1 in Hk.
Qed.

(** A complete run of [_stage_local]. *)
Lemma stage_ok cfg sp w w' :
  reg (rworld w) = Some (Doc (_registry_to_json (rows sp))) ->
  _stage_local name target cfg w = (Ok tt, w') ->
  staged cfg sp (fsys w') /\ (exists n, fsys w' !! (target ++ ["frida-server"]) = Some n) /\
  (forall c, fsys w !! instance_yaml target = Some (FileN c) ->
             fsys w' !! instance_yaml target = Some (FileN c)).
Proof.
  intros Hr H. unfold _stage_local in H.
  assert (on_reg (Registry.get name) w = (Ok (Some (row sp)), w)) as Hg.
  { unfold on_reg. rewrite (get_written _ _ _ Hr (rows_wf sp)), get_row. by destruct w. }
  rewrite (M_bind_ok _ _ _ _ _ Hg) in H. cbn beta iota zeta in H. cbn [backend row index] in H.
  run_bind H new w0 H0. unfold resolved, lift in H0. injection H0 as H0 <-.
  destruct (fst (resolve_ports idx (ports cfg) false)) as [new'|] eqn:Hnew; [|done].
  injection H0 as ->.
  assert (forall x, plain x -> Forall plain (target ++ [x]) /\ target ++ [x] <> []) as Hx.
  { intros x Hp. split; [apply Forall_app; auto|by destruct target]. }
  run_bind H u1 w1 H1. destruct u1. apply mkdir_ok_facts in H1 as (Hd1 & Hk1 & Hf1);
    [|apply Hx, (bool_decide_unpack _); vm_compute; exact I..].
  run_bind H u2 w2 H2. destruct u2. apply mkdir_ok_facts in H2 as (Hd2 & Hk2 & Hf2);
    [|apply Hx, (bool_decide_unpack _); vm_compute; exact I..].
  run_bind H u3 w3 H3. destruct u3. apply write_ok_facts in H3.
  run_bind H u4 w4 H4. destruct u4. apply write_ok_facts in H4.
  run_bind H real w5 H5. injection H5 as Hreal <-.
  assert (staged cfg sp (fsys w4) /\ (forall c, fsys w !! instance_yaml target = Some (FileN c) ->
    fsys w4 !! instance_yaml target = Some (FileN c))) as [Hs Hy].
  { unfold instance_yaml. rewrite H4, H3. split; [split; [|exists new; split; [done|]|..]|];
      unfold _COMPOSE_OVERRIDE_FILENAME;
      repeat (rewrite lookup_insert_eq || rewrite lookup_insert_ne by (by apply snoc_ne)); auto. }
  destruct (bool_decide (frida cfg = None) || negb real) eqn:Hb.
  - apply stage_empty_ok in H as [Hsame Hf]. split; [by eapply staged_same|]. split; [by eexists|].
    intros c Hc. apply Hsame; [by apply snoc_ne|auto].
  - injection H as <-. split; [done|]. split; [|done].
    apply orb_false_iff in Hb as [_ Hb%negb_false_iff]. subst real. unfold has_real_binary in Hb.
    rewrite node_at_snoc in Hb. destruct (fsys w4 !! _) as [n|]; [by exists n|done].
Qed.

Lemma stealth_row sp sp' w u w' :
  reg (rworld w) = Some (Doc (_registry_to_json (rows sp))) ->
  on_reg (set_stealth_paths name sp') w = (Ok u, w') ->
  fsys w' = fsys w /\ reg (rworld w') = Some (Doc (_registry_to_json (rows sp'))).
Proof.
  intros Hr H. unfold on_reg, set_stealth_paths in H.
  rewrite locked_then, (opened_written _ _ Hr (rows_wf sp)), get_row in H. cbn in H.
  injection H as _ <-. cbn. by rewrite <- (set_row sp sp').
Qed.

Lemma load_yaml_ok p w cfg w' :
  load_yaml p w = (Ok cfg, w') ->
  w' = w /\ exists text, node_at (fsys w) p = Some (FileN text) /\ parse_config text = Some cfg.
Proof.
  unfold load_yaml, read_file. destruct (node_at (fsys w) p) as [[|c]|]; [done| |done].
  destruct (parse_config c) eqn:Hc; intros; simplify_eq. eauto.
Qed.

Lemma check_ok w w' :
  registered w -> _check_restored_port_collision name idx target w = (Ok tt, w') ->
  fsys w' = fsys w /\ rworld w' = rworld w.
Proof.
  intros Hw H. pose proof (stays_check w Hw) as [[_ Hr] _]. rewrite H in Hr. split; [|done].
  unfold _check_restored_port_collision in H. run_bind H cfg w1 H1.
  apply load_yaml_ok in H1 as [-> _]. run_bind H new w2 H2. injection H2 as _ <-.
  run_bind H f w3 H3. injection H3 as _ <-. run_bind H sib w4 H4.
  pose proof (on_reg_fs (all_resolved_host_ports (sibling_yaml f)) w) as Hf. rewrite H4 in Hf.
  destruct (find_port_collision _ _) as [[[] ?]|]; [done|]. injection H as <-. done.
Qed.

(** A complete run of the [try] block, from the row [add_allocating] wrote. *)
Lemma body_ok file manifest w r w' :
  reg (rworld w) = Some (Doc (_registry_to_json (rows []))) ->
  restore_body file name target idx manifest w = (Ok r, w') ->
  exists text cfg, r = (target, cfg) /\
    fsys w' !! instance_yaml target = Some (FileN text) /\ parse_config text = Some cfg /\
    binder cfg <> binder_vm /\ staged cfg (path_layout manifest) (fsys w') /\
    (exists n, fsys w' !! (target ++ ["frida-server"]) = Some n) /\
    reg (rworld w') = Some (Doc (_registry_to_json (rows (path_layout manifest)))).
Proof.
  intros Hr H. unfold restore_body in H.
  run_bind H u w1 H1. pose proof (stays_extract file w (ex_intro _ [] Hr)) as [[_ Hr1] _].
  rewrite H1 in Hr1. simpl in Hr1. rewrite <- Hr1 in Hr. clear H1 Hr1.
  run_bind H cfg w2 H2. apply load_yaml_ok in H2 as [-> (text & Hy & Hp)].
  run_bind H u2 w2 H2. unfold lift in H2. injection H2 as Hb%raise_if_ok <-.
  apply bool_decide_eq_false in Hb.
  run_bind H u3 w3 H3.
  assert (fsys w3 = fsys w1 /\
          reg (rworld w3) = Some (Doc (_registry_to_json (rows (path_layout manifest))))) as [Hf3 Hr3].
  { case_bool_decide as Hl; [|by eapply stealth_row]. injection H3 as _ <-. by rewrite Hl. }
  run_bind H u4 w4 H4. destruct u4. apply check_ok in H4 as [Hf4 Hr4]; [|by eexists].
  run_bind H x w5 H5. destruct x as [root cfg'].
  assert (root = target) as ->
    by (eapply (instance_load_root w4); [eexists; by rewrite Hr4|by rewrite H5]).
  assert (w5 = w4 /\ cfg' = cfg) as [-> ->].
  { unfold instance_load in H5. run_bind H5 m w6 H6. unfold on_reg in H6.
    rewrite Hr4, (get_written _ _ _ Hr3 (rows_wf _)), get_row in H6. simplify_eq/=.
    run_bind H5 c w7 H7. apply load_yaml_ok in H7 as [-> (text' & Hy' & Hp')]. simpl in *.
    rewrite path_str_resolve in Hy' by done. simplify_eq/=.
    rewrite Hf4, Hf3 in Hy'.
    injection H5 as _ <- <-.
    rewrite <- Hr4. split; [by destruct w4|congruence]. }
  run_bind H u6 w6 H6. destruct u6. injection H as <- <-.
  assert (registered w4) as H4w by (eexists; by rewrite Hr4).
  pose proof (stays_stage cfg w4 H4w) as [[_ Hr5] _]. rewrite H6 in Hr5. simpl in Hr5.
  apply (stage_ok cfg (path_layout manifest)) in H6 as (Hs & Hfr & Hyk); [|by rewrite Hr4].
  exists text, cfg. split_and!; try done; [|by rewrite Hr5, Hr4].
  apply Hyk. rewrite Hf4, Hf3, <- node_at_cons; [done|]. unfold instance_yaml. by destruct target.
Qed.

(** [f'] is what an attempt to remove the tree at [p] leaves of [f]: nothing of it, or the
    directory with what could not be removed. *)
Definition removal (p : path) f (r : result os_error unit) f' : Prop :=
  match r with
  | Ok _ => f' = rmtree p f
  | Err e => e = NotRemoved /\ exists l, l <> [] /\ remains f p = l /\ f' = rmtree_partly l p f
  end.

Lemma rmtree_at_run p f : node_at f p = Some DirN ->
  exists r f', rmtree_at p f = (r, f') /\ removal p f r f'.
Proof.
  intros Hd. unfold rmtree_at. rewrite Hd. destruct (remains f p) as [|q l] eqn:Hl.
  - by exists (Ok tt), (rmtree p f).
  - eexists (Err NotRemoved), _. split; [done|]. split; [done|]. by exists (q :: l).
Qed.

Lemma removal_outside p f r f' : removal p f r f' -> outside p f f'.
Proof.
  destruct r as [u|e]; [intros ->; apply rmtree_outside|].
  intros (_ & l & _ & _ & ->). apply rmtree_partly_outside.
Qed.

(** The [except] block takes the row out again; a directory that was created goes, unless
    it cannot be removed. *)
Lemma rollback_spec created w :
  registered w -> node_at (fsys w) target = Some DirN ->
  exists r w', restore_rollback name target created w =
      (match r with Ok _ => Ok tt | Err e => Err (OsErr e) end, w') /\
    reg (rworld w') = Some (Doc (_registry_to_json data)) /\
    if created then removal target (fsys w) r (fsys w') else r = Ok tt /\ fsys w' = fsys w.
Proof.
  intros [sp Hr] Hd. unfold restore_rollback, mbind, M_bind, on_reg, remove.
  rewrite locked_then, (opened_written _ _ Hr (rows_wf sp)), pop_row.
  assert (exists_at (fsys w) target = true) as Hb
    by (unfold exists_at; apply bool_decide_eq_true; by rewrite Hd).
  cbn -[exists_at rmtree_at]. unfold gets. cbn [fsys]. rewrite Hb, andb_true_r. destruct created.
  - destruct (rmtree_at_run target (fsys w) Hd) as (r & f' & Hrun & Hrm). unfold on_fs. cbn [fsys rworld].
    rewrite Hrun. exists r. by destruct r as [[]|e]; eexists; (split; [reflexivity|]).
  - exists (Ok tt). eexists. by split; [reflexivity|].
Qed.
End restoring.

(** ** [restore] *)

Lemma read_manifest_same file w : snd (read_manifest file w) = w.
Proof.
  unfold read_manifest. pose proof (open_archive_same file w) as Ho.
  unfold mbind, M_bind, lift. destruct (open_archive file w) as [[a|e] w1]; simpl in *; subst; [|done].
  by destruct (_extract_manifest_bytes a).
Qed.

(** The file system once the destination is clear. *)
Definition cleared (target : path) f : fs :=
  match node_at f target with
  | Some DirN => if bool_decide (children f target <> []) then rmtree target f else f
  | _ => f
  end.

Lemma cleared_outside target f : outside target f (cleared target f).
Proof.
  unfold cleared. destruct (node_at f target) as [[]|]; [|reflexivity..].
  case_bool_decide; [apply rmtree_outside|reflexivity].
Qed.

Section steps.
Variables (data : list (string * InstanceMeta)) (w : host).
Hypotheses (Hreg : reg (rworld w) = Some (Doc (_registry_to_json data))) (Hdata : file_wf data).

(** The destination was refused, is clear now, or could not be cleared. *)
Lemma prepare_cases target force :
  (exists e, _prepare_destination target force w = (Err e, w)) \/
  (overlapping target data = None /\
   _prepare_destination target force w = (Ok tt, mkHost (cleared target (fsys w)) (rworld w))) \/
  (overlapping target data = None /\ node_at (fsys w) target = Some DirN /\ exists e f,
   removal target (fsys w) (Err e) f /\
   _prepare_destination target force w = (Err (OsErr e), mkHost f (rworld w))).
Proof.
  unfold _prepare_destination, cleared, mbind, M_bind, gets, lift, on_reg. simpl.
  destruct (node_at (fsys w) target) as [[|c]|] eqn:Hn; [|left; by eexists|];
    rewrite (list_written _ _ Hreg Hdata);
    (destruct (overlapping target data); [left; destruct w; by eexists|]).
  - case_bool_decide; simpl; [|right; left; by destruct w].
    destruct force; simpl; [right|left; destruct w; by eexists].
    destruct (rmtree_at_run target (fsys w) Hn) as ([[]|e] & f' & Hrun & Hrm); unfold on_fs; simpl; rewrite Hrun.
    + left. split; [done|]. by rewrite Hrm.
    + right. split; [done|]. split; [done|]. by exists e, f'.
  - right. left. by destruct w.
Qed.

(** Nothing at all has changed, the old destination could not be removed, or it is clear. *)
Lemma restore_cases file name target force now :
  (exists e, restore_local file name target force now w = (Err e, w)) \/
  (overlapping target data = None /\ node_at (fsys w) target = Some DirN /\ exists e f,
     removal target (fsys w) (Err e) f /\
     restore_local file name target force now w = (Err (OsErr e), mkHost f (rworld w))) \/
  (exists manifest,
     plus_full instance_name_char name = true /\ Dict.get name data = None /\
     read_manifest file w = (Ok manifest, w) /\ overlapping target data = None /\
     restore_local file name target force now w =
       restore_into file name target now manifest
         (mkHost (cleared target (fsys w)) (rworld w))).
Proof.
  remember (restore_local file name target force now w) as r eqn:Hr.
  unfold restore_local, _validate_instance_name, raise_if in Hr.
  destruct (plus_full instance_name_char name); simpl in Hr; [|left; subst; by eexists].
  rewrite lift_ok_bind in Hr.
  assert (on_reg (Registry.get name) w = (Ok (Dict.get name data), w)) as Hget.
  { unfold on_reg. rewrite (get_written _ _ _ Hreg Hdata). by destruct w. }
  rewrite (M_bind_ok _ _ _ _ _ Hget) in Hr. destruct (Dict.get name data) as [m|] eqn:Hg.
  { left. subst r. destruct (backend m); by eexists. }
  rewrite lift_ok_bind in Hr.
  pose proof (read_manifest_same file w) as Hm.
  destruct (read_manifest file w) as [[manifest|e] w1] eqn:Hread; simpl in Hm; subst w1.
  2: { rewrite (M_bind_err _ _ _ _ _ Hread) in Hr. left. subst r. by eexists. }
  rewrite (M_bind_ok _ _ _ _ _ Hread) in Hr.
  destruct (prepare_cases target force) as [[e Hp]|[[Ho Hp]|(Ho & Hn & e & f & Hf & Hp)]].
  - rewrite (M_bind_err _ _ _ _ _ Hp) in Hr. left. subst r. by eexists.
  - rewrite (M_bind_ok _ _ _ _ _ Hp) in Hr. right. right. by exists manifest.
  - rewrite (M_bind_err _ _ _ _ _ Hp) in Hr. right. left. subst r. split; [done|]. split; [done|]. by exists e, f.
Qed.

(** A port index is left to give out. *)
Definition index_free : Prop := exists i, 0 <= i <= _MAX_PORT_INDEX /\ i ∉ indices_of data.

Definition least_free (i : Z) : Prop :=
  0 <= i <= _MAX_PORT_INDEX /\ i ∉ indices_of data /\ (forall j, 0 <= j < i -> j ∈ indices_of data).

(** No port index is left. *)
Definition all_taken : Prop := forall j, 0 <= j <= _MAX_PORT_INDEX -> j ∈ indices_of data.

Lemma add_restored name target now :
  Dict.get name data = None ->
  let add := add_allocating name None (Some (RedroidBackendConfig (path_str target) [])) now in
  (exists i, least_free i /\
    add (rworld w) = (Ok i, stored (rows data name target i now []) (rworld w))) \/
  (all_taken /\ exists i, add (rworld w) = (Err (BadIndex (IndexTooLarge i)), rworld w)).
Proof.
  intros Hg. cbv zeta.
  pose proof (add_allocating_cases name None (Some (RedroidBackendConfig (path_str target) [])) now
    (rworld w) data (rworld w) (opened_written _ _ Hreg Hdata)) as Hs. simpl in Hs.
  unfold Dict.mem in Hs. rewrite Hg in Hs. destruct Hs as (i & Hi & Hn & Hb & Hs).
  destruct (decide (i <= _MAX_PORT_INDEX)).
  - left. exists i. by split; [split_and!|].
  - right. split; [|by exists i]. intros k Hk. apply Hb. lia.
Qed.
End steps.

(** How [restore_into] goes: it fails before anything is registered, it succeeds, or
    the [try] block fails and is rolled back. *)
Inductive restored (file : path) (name : string) (target : path) (now : datetime) (m : Manifest)
    (data : list (string * InstanceMeta)) w : result snap_error (path * InstanceConfig) -> host -> Prop :=
| mkdir_failed e f :
    mkdir_p target (fsys w) = (Err e, f) ->
    restored file name target now m data w (Err (OsErr e)) (mkHost f (rworld w))
| registry_full i f :
    mkdir_p target (fsys w) = (Ok tt, f) -> all_taken data ->
    restored file name target now m data w (Err (RegErr (BadIndex (IndexTooLarge i)))) (mkHost f (rworld w))
| body_ran i f x w2 :
    mkdir_p target (fsys w) = (Ok tt, f) -> least_free data i ->
    restore_body file name target i m
      (mkHost f (stored (rows data name target i now []) (rworld w))) = (Ok x, w2) ->
    confined target f (fsys w2) ->
    restored file name target now m data w (Ok x) w2
| body_failed f f2 e r w3 :
    mkdir_p target (fsys w) = (Ok tt, f) -> confined target f f2 ->
    reg (rworld w3) = Some (Doc (_registry_to_json data)) ->
    (if bool_decide (node_at (fsys w) target = None) then removal target f2 r (fsys w3)
     else r = Ok tt /\ fsys w3 = f2) ->
    restored file name target now m data w
      (Err (match r with Ok _ => e | Err o => OsErr o end)) w3.

Lemma restore_into_cases file name target now m data w :
  reg (rworld w) = Some (Doc (_registry_to_json data)) -> file_wf data ->
  Dict.get name data = None -> Forall plain target ->
  restored file name target now m data w
    (fst (restore_into file name target now m w)) (snd (restore_into file name target now m w)).
Proof.
  intros Hreg Hdata Hg Ht.
  destruct (restore_into file name target now m w) as [r' w'] eqn:Hr. simpl.
  unfold restore_into in Hr. unfold mbind at 1, M_bind, gets in Hr.
  destruct (mkdir_p target (fsys w)) as [[[]|e] f] eqn:Hm.
  2: { assert (on_fs (mkdir_p target) w = (Err (OsErr e), mkHost f (rworld w))) as Ho
         by (unfold on_fs; by rewrite Hm).
       rewrite (M_bind_err _ _ _ _ _ Ho) in Hr. simplify_eq. by apply mkdir_failed. }
  assert (on_fs (mkdir_p target) w = (Ok tt, mkHost f (rworld w))) as Ho
    by (unfold on_fs; by rewrite Hm).
  rewrite (M_bind_ok _ _ _ _ _ Ho) in Hr. set (add := add_allocating _ _ _ _) in Hr.
  assert (on_reg add (mkHost f (rworld w)) = match add (rworld w) with
    | (Ok i, r) => (Ok i, mkHost f r) | (Err e, r) => (Err (RegErr e), mkHost f r) end) as Ha by done.
  destruct (add_restored data w Hreg Hdata name target now Hg) as [(i & Hi & Hadd)|(Hfull & i & Hadd)];
    fold add in Hadd; rewrite Hadd in Ha.
  2: { rewrite (M_bind_err _ _ _ _ _ Ha) in Hr. simplify_eq. by apply registry_full. }
  rewrite (M_bind_ok _ _ _ _ _ Ha) in Hr. clear Ho Ha Hadd add.
  set (w1 := mkHost f (stored (rows data name target i now []) (rworld w))) in *.
  assert (registered data name target i now w1) as H1 by (by exists []).
  destruct (moves_body data name target i now Hdata Hg Ht file m w1 H1) as [Hc H2].
  unfold rollback_on in Hr.
  destruct (restore_body file name target i m w1) as [r w2] eqn:Hb; simpl in Hc, H2.
  destruct r as [x|e]; [injection Hr as <- <-; by apply (body_ran _ _ _ _ _ _ _ i f)|].
  assert (node_at (fsys w2) target = Some DirN) as Hd.
  { pose proof (mkdir_p_ok _ _ _ Ht Hm) as Hd. destruct Hc as [_ Hc].
    destruct target; [done|]. by apply Hc. }
  destruct (rollback_spec data name target i now Hdata Hg
    (bool_decide (node_at (fsys w) target = None)) w2 H2 Hd) as (r & w3 & Hrb & Hr3 & Hf3).
  assert ((r', w') = (Err (match r with Ok _ => e | Err o => OsErr o end), w3)) as [= -> ->].
  { rewrite <- Hr. unfold mbind, M_bind. rewrite Hrb. by destruct r as [[]|]. }
  by apply (body_failed _ _ _ _ _ _ _ f (fsys w2) e r w3).
Qed.

Lemma overlapping_none target data n m d :
  overlapping target data = None -> (n, m) ∈ data -> registered_dir (backend m) = Some d ->
  overlaps target d = false.
Proof.
  induction data as [|[n' m'] l IH]; simpl; [by intros _ ?%not_elem_of_nil|].
  intros Ho [[= -> ->]|Hin]%elem_of_cons Hd.
  - rewrite Hd in Ho. by destruct (overlaps target d).
  - destruct (registered_dir (backend m')) as [d'|]; [destruct (overlaps target d')|]; auto; done.
Qed.

Lemma restored_outside file name target now m data w r w' :
  restored file name target now m data w r w' -> outside target (fsys w) (fsys w').
Proof.
  assert (forall r f, mkdir_p target (fsys w) = (r, f) -> outside target (fsys w) f) as Hmk.
  { intros r0 f Hm. pose proof (mkdir_p_confined target target (fsys w)) as [Ho _]. by rewrite Hm in Ho. }
  intros [e f Hm|i f Hm _|i f x w2 Hm _ _ [Hc _]|f f2 e r0 w3 Hm [Hc _] _ H3]; apply Hmk in Hm; [done..| |].
  - by etransitivity.
  - etransitivity; [exact Hm|]. etransitivity; [exact Hc|].
    case_bool_decide; [by eapply removal_outside|]. by destruct H3 as [_ ->].
Qed.

(** The committing part of a restore changes nothing outside its target, and nothing at all
    when the target overlaps a registered directory. *)
Lemma restore_local_spares file name target force now data w :
  reg (rworld w) = Some (Doc (_registry_to_json data)) -> file_wf data -> Forall plain target ->
  let w' := snd (restore_local file name target force now w) in
  outside target (fsys w) (fsys w') /\
  (fsys w' = fsys w \/ overlapping target data = None).
Proof.
  intros Hreg Hdata Ht. cbv zeta.
  destruct (restore_cases data w Hreg Hdata file name target force now)
    as [[e ->]|[(Ho & _ & e & f & Hf & ->)|(m & _ & Hg & _ & Ho & ->)]].
  - split; [reflexivity|by left].
  - split; [by eapply removal_outside|by right].
  - split; [|by right]. etransitivity; [apply cleared_outside|].
    exact (restored_outside _ _ _ _ _ _ _ _ _ (restore_into_cases file name target now m data
      (mkHost (cleared target (fsys w)) (rworld w)) Hreg Hdata Hg Ht)).
Qed.

(** A path in a registered directory is not below a target that overlaps none. *)
Lemma registered_apart target data n m d p :
  overlapping target data = None -> (n, m) ∈ data -> registered_dir (backend m) = Some d ->
  d `prefix_of` p -> ~ target `prefix_of` p.
Proof.
  intros Ho Hin Hd Hp Htp. pose proof (overlapping_none _ _ _ _ _ Ho Hin Hd) as Hov. unfold overlaps in Hov.
  apply orb_false_iff in Hov as [H1%bool_decide_eq_false H2%bool_decide_eq_false].
  by destruct (prefix_weak_total target d p Htp Hp).
Qed.

(** What a failed restore leaves of a target that did not exist: nothing; all directories
    that were made, when no port index was left; or what the rollback could not remove. *)
Definition nothing_left (target : path) f : Prop := forall p, target `prefix_of` p -> f !! p = None.
Definition left_by_failure data (target : path) f (e : snap_error) f' : Prop :=
  nothing_left target f' \/
  (all_taken data /\ (exists i, e = RegErr (BadIndex (IndexTooLarge i))) /\ mkdir_p target f = (Ok tt, f')) \/
  (e = OsErr NotRemoved /\ exists l f2, l <> [] /\ remains f2 target = l /\ f' = rmtree_partly l target f2).

Lemma restore_local_fails file name target force now data w e w' :
  reg (rworld w) = Some (Doc (_registry_to_json data)) -> file_wf data ->
  Forall plain target -> fs_wf (fsys w) ->
  restore_local file name target force now w = (Err e, w') ->
  reg (rworld w') = reg (rworld w) /\
  (node_at (fsys w) target = None -> left_by_failure data target (fsys w) e (fsys w')).
Proof.
  intros Hreg Hdata Ht Hwf Hr.
  destruct (restore_cases data w Hreg Hdata file name target force now)
    as [[e' He]|[(Ho & Hn & e' & f & Hf & He)|(m & _ & Hg & _ & _ & He)]].
  { rewrite He in Hr. simplify_eq. split; [done|]. intros Hn. left. intros p Hp. by eapply wf_below. }
  { rewrite He in Hr. simplify_eq. split; [done|]. intros Hn'. congruence. }
  pose proof (restore_into_cases file name target now m data
    (mkHost (cleared target (fsys w)) (rworld w)) Hreg Hdata Hg Ht) as Hc.
  rewrite <- He, Hr in Hc. simpl in Hc. clear He Hr.
  assert (node_at (fsys w) target = None -> cleared target (fsys w) = fsys w) as Hcl
    by (intros Hn; unfold cleared; by rewrite Hn).
  inversion Hc as [e1 f Hm Hee Hw|i f Hm Hfull Hee Hw| |f f2 e1 r w3 Hm Hc2 Hr3 H3 Hee Hw]; subst; simpl in *.
  - split; [done|]. intros Hn. left. intros p Hp. rewrite Hcl in Hm by done.
    rewrite (mkdir_p_failed _ _ _ _ _ Ht Hm Hp). by eapply wf_below.
  - split; [done|]. intros Hn. right. left. rewrite Hcl in Hm by done. split; [done|]. split; [by exists i|done].
  - split; [congruence|]. intros Hn. rewrite Hcl, bool_decide_eq_true_2 in H3 by done.
    destruct r as [[]|o]; simpl in H3.
    + left. intros p Hp. by rewrite H3, lookup_rmtree, decide_True.
    + destruct H3 as (-> & l & Hl & Hrem & Hf). right. right. split; [done|]. by exists l, f2.
Qed.

Lemma restore_local_ok file name target force now data w r w' :
  reg (rworld w) = Some (Doc (_registry_to_json data)) -> file_wf data -> Forall plain target ->
  restore_local file name target force now w = (Ok r, w') ->
  exists manifest i text cfg,
    r = (target, cfg) /\ overlapping target data = None /\
    fst (read_manifest file w) = Ok manifest /\
    plus_full instance_name_char name = true /\ Dict.get name data = None /\
    least_free data i /\
    reg (rworld w') = Some (Doc (_registry_to_json (data ++
      [(name, mkInstanceMeta (RedroidBackendConfig (path_str target) (path_layout manifest)) i now)]))) /\
    fsys w' !! instance_yaml target = Some (FileN text) /\ parse_config text = Some cfg /\
    binder cfg <> binder_vm /\ staged name target i cfg (path_layout manifest) (fsys w') /\
    (exists n, fsys w' !! (target ++ ["frida-server"]) = Some n).
Proof.
  intros Hreg Hdata Ht Hr.
  destruct (restore_cases data w Hreg Hdata file name target force now)
    as [[e' He]|[(_ & _ & e' & f & _ & He)|(m & Hname & Hg & Hread & Ho & He)]]; [rewrite He in Hr; done..|].
  pose proof (restore_into_cases file name target now m data
    (mkHost (cleared target (fsys w)) (rworld w)) Hreg Hdata Hg Ht) as Hc.
  rewrite <- He, Hr in Hc. simpl in Hc. clear He Hr.
  inversion Hc as [| |i f x w2 Hm Hi Hb Hc2 Hee Hw|]; subst.
  apply (body_ok data name target i now Hdata Hg Ht) in Hb as (text & cfg & ? & ? & ? & ? & ? & ? & ?);
    [|done].
  exists m, i, text, cfg. rewrite Hread. by split_and!.
Qed.

(** ** [snapshot] *)

Lemma find_entry_ok root rows name meta sp :
  find_entry root rows = Ok (name, meta, sp) ->
  (name, meta) ∈ rows /\ exists d, backend meta = RedroidBackendConfig d sp /\ resolve cwd d = root.
Proof.
  induction rows as [|[n m] rows IH]; simpl; [done|].
  assert (find_entry root rows = Ok (name, meta, sp) ->
    (name, meta) ∈ (n, m) :: rows /\
    exists d, backend meta = RedroidBackendConfig d sp /\ resolve cwd d = root) as Hrec.
  { intros [? ?]%IH. split; [by right|done]. }
  destruct (backend m) as [d sp'|s|d|c k f|k raw] eqn:Hb; [|done| |done..]; case_decide as Hd;
    try done. intros [= <- <- <-]. split; [by left|by exists d].
Qed.

Lemma is_file_spec p w : is_file p w = true -> exists c, node_at (fsys w) p = Some (FileN c).
Proof. unfold is_file. destruct (node_at (fsys w) p) as [[]|]; naive_solver. Qed.

Lemma file_entry_content n c : content (file_entry n c) = c.
Proof.
  unfold content, file_entry. simpl. destruct (String.eqb_spec c "") as [->|]; [done|]. simpl.
  done.
Qed.

(** A snapshot can be identified by its archive: when [snapshot] succeeds, the instance
    directory belongs to a registered container instance, the archive lies at the
    destination with its suffix, and [read_manifest] of it — which restore starts
    with — yields what validating the manifest of that very row gives: its name, index,
    stealth paths and the configuration's lifecycle.  The registry is not changed. *)
Theorem snapshot_manifest root dest_dir dest_name created version data w dest w' :
  (forall a, read_archive (write_archive a) = a) ->
  reg (rworld w) = Some (Doc (_registry_to_json data)) -> file_wf data ->
  snapshot root dest_dir dest_name created version w = (Ok dest, w') ->
  dest = dest_dir ++ [_ensure_suffix dest_name] /\ rworld w' = rworld w /\
  exists name meta d sp lc,
    (name, meta) ∈ data /\ backend meta = RedroidBackendConfig d sp /\ resolve cwd d = root /\
    lc = _read_lifecycle (instance_yaml root) w /\
    fst (read_manifest dest w') =
      match manifest_of_json (_manifest_to_json (mkManifest name (index meta) created version sp lc)) with
      | Some m => Ok m
      | None => Err ManifestInvalid
      end.
Proof.
  intros Hcodec Hreg Hdata H. unfold snapshot in H.
  run_bind H has w0 H0. injection H0 as Hyaml <-.
  run_bind H u w1 H1. unfold lift in H1. injection H1 as ->%raise_if_ok%negb_false_iff <-.
  apply is_file_spec in Hyaml as [text Hyaml].
  rewrite node_at_cons in Hyaml by (by destruct root).
  run_bind H x w2 H2. unfold _find_registry_entry, on_reg in H2.
  apply M_bind_inv in H2 as [(l & w3 & H3 & H2)|(? & _ & ?)]; [|done].
  rewrite (list_written _ _ Hreg Hdata) in H3. injection H3 as <- <-.
  unfold lift in H2. injection H2 as Hf <-. destruct x as [[name meta] sp].
  apply find_entry_ok in Hf as (Hin & d & Hb & Hd). cbn beta iota zeta in H.
  run_bind H u1 w4 H4. apply on_fs_ok in H4 as [H4 Hr4]. cbn [fsys rworld] in H4, Hr4.
  run_bind H lc w5 H5. injection H5 as Hlc <-.
  assert (lc = _read_lifecycle (instance_yaml root) w) as Hlc'.
  { rewrite <- Hlc. pose proof (mkdir_p_files dest_dir _ _ _ Hyaml) as Hy. rewrite H4 in Hy.
    assert (instance_yaml root <> []) as Hne by (by destruct root).
    unfold _read_lifecycle, load_yaml, read_file. rewrite !node_at_cons by done.
    simpl in Hy. rewrite Hy, Hyaml. by destruct (parse_config text). }
  run_bind H u2 w6 H6.
  assert (rworld w6 = rworld w4) as Hr6.
  { unfold instance_lock in H6. run_bind H6 u7 w7 H7. apply on_fs_ok in H7 as [_ Hr7].
    run_bind H6 b w8 H8. injection H8 as _ <-. destruct b; [by injection H6 as _ <-|].
    apply on_fs_ok in H6 as [_ ?]. congruence. }
  run_bind H u3 w7 H7. apply on_fs_ok in H7 as [_ Hr7].
  run_bind H f w8 H8. injection H8 as <- <-.
  run_bind H u4 w9 H9. destruct u4. apply on_fs_ok in H9 as [Hw Hr9]. injection H as <- <-.
  apply write_file_ok in Hw as (Hfs & Hne & _).
  split; [done|]. split; [simpl in *; congruence|]. exists name, meta, d, sp, lc. split_and!; [done..|].
  unfold read_manifest, open_archive, mbind, M_bind, gets, lift, read_file.
  rewrite Hfs, node_at_cons, lookup_insert_eq by done. cbv beta iota. rewrite Hcodec.
  unfold _extract_manifest_bytes. simpl. unfold _add_manifest at 1.
  by rewrite file_entry_content.
Qed.
End facts.
