(* ===== verification/SnapshotArchive.v ===== *)
(** * Archives: packing and extracting are inverse, and extraction is bounded

    The members [snapshot] writes, extracted under the [data] filter into an empty
    directory, give the packed tree back: every file and directory of the instance but
    the regenerated ones and the archive itself, and the manifest.  Extracting any
    archive writes at most the decompression cap of data; the holes of sparse members are
    not counted. *)
From stdpp Require Import base list strings gmap sorting.
From Stdlib Require Import ZArith Lia Ascii.
From S2P Require Import Prelude PyStr Config Ports Registry HostFs Snapshot.
Local Open Scope stdpp_scope.
Local Open Scope Z_scope.

Section roundtrip.
Context `{P : Pydantic} {X : Externals}.
Implicit Types (f g : fs) (rel p root dest target : path) (base : Z).

(** ** Names of members *)

Definition arcname rel : string := "./" +:+ join "/" rel.

Lemma join_snoc sep l c : l <> [] -> join sep (l ++ [c]) = join sep l +:+ sep +:+ c.
Proof.
  induction l as [|a l IH]; [done|]. intros _. destruct l as [|b l].
  - simpl. done.
  - change (join sep ((a :: b :: l) ++ [c])) with (a +:+ sep +:+ join sep ((b :: l) ++ [c])).
    rewrite IH by done. change (join sep (a :: b :: l)) with (a +:+ sep +:+ join sep (b :: l)).
    by rewrite !app_assoc_str.
Qed.

Lemma arcname_snoc rel c : rel <> [] -> arcname (rel ++ [c]) = arcname rel +:+ "/" +:+ c.
Proof. intros Hr. unfold arcname. by rewrite join_snoc, app_assoc_str. Qed.

Lemma arcname_components rel : Forall plain rel -> rel <> [] -> components (arcname rel) = "." :: rel.
Proof.
  intros Hp Hne. unfold components, arcname.
  change ("./" +:+ join "/" rel) with ("." +:+ String "/"%char (join "/" rel)).
  rewrite split_on_app by (vm_compute; set_solver). f_equal. apply split_join; [done|].
  by apply plain_free.
Qed.

Lemma arcname_norm d rel : Forall plain rel -> rel <> [] -> norm d (components (arcname rel)) = d ++ rel.
Proof. intros Hp Hne. rewrite arcname_components by done. simpl. by apply norm_plain. Qed.

Lemma plain_nonempty c : plain c -> c <> "".
Proof. by intros (? & _) ->. Qed.

Lemma arcname_member rel : Forall plain rel -> rel <> [] ->
  member_components (arcname rel) = "." :: rel.
Proof.
  intros Hp Hne. unfold member_components. rewrite arcname_components by done.
  rewrite filter_cons_True by done. f_equal. clear Hne.
  induction Hp as [|c rel Hc _ IH]; [done|].
  rewrite filter_cons_True by (by apply plain_nonempty). by rewrite IH.
Qed.

(** ** What is packed *)

Definition entry_of rel (n : node) : entry :=
  match n with
  | FileN c => file_entry (arcname rel) c
  | DirN => dir_entry (arcname rel)
  end.

Section packing.
Variables (f : fs) (root dest : path).
Hypotheses (Hwf : fs_wf f) (Hdest : f !! dest <> Some DirN).

Lemma skip_dest_spec rel : Forall plain rel -> rel <> [] ->
  _skip_dest root dest (arcname rel) = bool_decide (root ++ rel = dest).
Proof. intros. unfold _skip_dest. by rewrite arcname_norm. Qed.

Lemma below_plain rel n : f !! (root ++ rel) = Some n -> Forall plain rel.
Proof. intros H. destruct (Hwf _ _ H) as (_ & _ & Hp). by apply Forall_app in Hp as [_ ?]. Qed.

Lemma below_dirs rel l n : l <> [] -> rel <> [] -> f !! (root ++ rel ++ l) = Some n ->
  f !! (root ++ rel) = Some DirN.
Proof.
  revert n. induction l as [|c l IH] using rev_ind; intros n Hl Hr Hn; [done|].
  replace (root ++ rel ++ l ++ [c]) with ((root ++ rel ++ l) ++ [c]) in Hn by (by rewrite <- !app_assoc).
  destruct (Hwf _ _ Hn) as (_ & Hd & _). rewrite parent_snoc, node_at_cons in Hd by (by destruct root, rel).
  destruct l as [|c' l]; [by rewrite app_nil_r in Hd|]. by eapply IH.
Qed.

(** The members [tar_add] emits below one path are the tree there. *)
Lemma tar_add_sound fuel rel en :
  rel <> [] -> Forall plain rel ->
  en ∈ tar_add fuel f root dest (root ++ rel) (arcname rel) ->
  exists l n, f !! (root ++ rel ++ l) = Some n /\ root ++ rel ++ l <> dest /\
    en = entry_of (rel ++ l) n.
Proof.
  revert rel. induction fuel as [|fuel IH]; intros rel Hne Hp; simpl; [by intros ?%not_elem_of_nil|].
  rewrite skip_dest_spec by done. case_bool_decide as Hd; [by intros ?%not_elem_of_nil|].
  rewrite node_at_cons by (by destruct root, rel).
  destruct (f !! (root ++ rel)) as [[|c]|] eqn:Hn; [| |by intros ?%not_elem_of_nil].
  - intros [->|Hin]%elem_of_cons.
    { exists [], DirN. by rewrite !app_nil_r. }
    apply list_elem_of_In, in_flat_map in Hin as (c & Hc & Hin).
    apply list_elem_of_In, elem_children in Hc as [n Hc]. rewrite <- app_assoc in Hc.
    rewrite <- arcname_snoc, <- app_assoc in Hin by done. apply list_elem_of_In in Hin.
    destruct (IH (rel ++ [c]) ltac:(by destruct rel) (below_plain _ _ Hc) Hin)
      as (l & n' & Hl & Hd' & ->).
    exists ([c] ++ l), n'. rewrite <- !app_assoc in Hl, Hd'. by rewrite <- !app_assoc.
  - intros [->|?%not_elem_of_nil]%elem_of_cons; [|done].
    exists [], (FileN c). by rewrite !app_nil_r.
Qed.

Lemma tar_add_complete fuel rel l n :
  rel <> [] -> (length l < fuel)%nat -> f !! (root ++ rel ++ l) = Some n ->
  root ++ rel ++ l <> dest ->
  entry_of (rel ++ l) n ∈ tar_add fuel f root dest (root ++ rel) (arcname rel).
Proof.
  revert rel l. induction fuel as [|fuel IH]; intros rel l Hne Hl Hn Hd; [lia|].
  pose proof (below_plain _ _ Hn) as Hp. pose proof Hp as [Hpr Hpl]%Forall_app. simpl.
  rewrite skip_dest_spec, node_at_cons by (by destruct root, rel || done).
  destruct l as [|c l].
  - rewrite !app_nil_r in *. rewrite bool_decide_eq_false_2, Hn by done.
    destruct n; simpl; [by left|by apply list_elem_of_singleton].
  - pose proof (below_dirs rel (c :: l) n ltac:(done) Hne Hn) as Hdir.
    rewrite bool_decide_eq_false_2 by congruence. rewrite Hdir. right.
    apply list_elem_of_In, in_flat_map. exists c.
    change (c :: l) with ([c] ++ l) in *. simpl in Hl.
    assert (is_Some (f !! (root ++ rel ++ [c]))) as Hc.
    { destruct l as [|c' l]; [by rewrite app_nil_r in Hn; eexists|].
      eexists. apply (below_dirs (rel ++ [c]) (c' :: l) n); [done|by destruct rel|].
      by rewrite <- app_assoc. }
    split; [apply list_elem_of_In, elem_children; by rewrite <- app_assoc|].
    rewrite <- arcname_snoc, <- app_assoc by done. apply list_elem_of_In.
    rewrite app_assoc. apply IH; [by destruct rel|lia|by rewrite <- app_assoc..].
Qed.

Lemma depth_bound p n : f !! p = Some n -> (length p < depth f)%nat.
Proof.
  intros Hn. unfold depth. apply Nat.lt_succ_r, max_list_elem_of_le.
  apply list_elem_of_In, in_map_iff. exists (p, n). split; [done|].
  by apply list_elem_of_In, elem_of_map_to_list.
Qed.

Variable m : Manifest.

(** What the archive holds at a path relative to its root. *)
Definition packed rel : option node :=
  match rel with
  | [] => None
  | c :: _ =>
      if decide (rel = [MANIFEST_FILENAME]) then Some (FileN (_manifest_to_json m))
      else if decide (c ∈ _EXCLUDED_TOP_LEVEL) then None
      else if decide (root ++ rel = dest) then None
      else f !! (root ++ rel)
  end.

Definition members : list entry := _add_manifest m :: _add_instance_tree f root dest.

Lemma manifest_entry : _add_manifest m = entry_of [MANIFEST_FILENAME] (FileN (_manifest_to_json m)).
Proof. done. Qed.

Lemma manifest_excluded : MANIFEST_FILENAME ∈ _EXCLUDED_TOP_LEVEL.
Proof. unfold _EXCLUDED_TOP_LEVEL. set_solver. Qed.

Lemma members_sound en : en ∈ members ->
  exists rel n, packed rel = Some n /\ Forall plain rel /\ rel <> [] /\ en = entry_of rel n.
Proof.
  unfold members. intros [->|Hin]%elem_of_cons.
  { exists [MANIFEST_FILENAME], (FileN (_manifest_to_json m)). split; [done|].
    split; [|done]. constructor; [|done]. apply (bool_decide_unpack _). vm_compute. exact I. }
  unfold _add_instance_tree in Hin. apply list_elem_of_In, in_flat_map in Hin as (c & Hc & Hin).
  apply list_elem_of_In, elem_children in Hc as [n0 Hc]. case_bool_decide as He; [done|].
  case_bool_decide as Hd; [done|]. apply list_elem_of_In in Hin.
  change ("./" +:+ c) with (arcname [c]) in Hin.
  apply tar_add_sound in Hin as (l & n & Hn & Hnd & ->); [|done|by eapply below_plain].
  exists ([c] ++ l), n. split; [|split; [by eapply below_plain|done]]. unfold packed. cbn [app].
  rewrite decide_False by (intros [= -> _]; apply He, manifest_excluded).
  by rewrite decide_False, decide_False.
Qed.

Lemma members_complete rel n : packed rel = Some n -> entry_of rel n ∈ members.
Proof.
  unfold packed. destruct rel as [|c l]; [done|]. unfold members.
  case_decide as Hm; [intros [= <-]; rewrite Hm; by left|]. case_decide as He; [done|].
  case_decide as Hd; [done|]. intros Hn. right. unfold _add_instance_tree.
  apply list_elem_of_In, in_flat_map. exists c.
  assert (f !! (root ++ [c]) = Some DirN \/ l = []) as Hc.
  { destruct l as [|c' l]; [by right|left]. by apply (below_dirs [c] (c' :: l) n). }
  split.
  - apply list_elem_of_In, elem_children. destruct Hc as [->| ->]; by eexists.
  - rewrite bool_decide_eq_false_2 by done. rewrite bool_decide_eq_false_2.
    + apply list_elem_of_In. change ("./" +:+ c) with (arcname [c]).
      apply (tar_add_complete _ [c]); [done| |done|done].
      pose proof (depth_bound _ _ Hn) as Hl. rewrite length_app in Hl. simpl in Hl. lia.
    + intros Heq. destruct Hc as [Hc| ->]; [congruence|done].
Qed.

Lemma packed_plain rel n : packed rel = Some n -> Forall plain rel /\ rel <> [].
Proof.
  intros Hn. split; [|by intros ->]. revert Hn. unfold packed. destruct rel as [|c l]; [done|].
  case_decide as Hm; [|repeat (case_decide; [done|]); apply below_plain].
  intros _. rewrite Hm. constructor; [|done]. apply (bool_decide_unpack _). vm_compute. exact I.
Qed.

(** The parents of what is packed are packed directories. *)
Lemma packed_parent rel c n : rel <> [] -> packed (rel ++ [c]) = Some n -> packed rel = Some DirN.
Proof.
  unfold packed. destruct rel as [|a l]; [done|]. intros _. cbn [app].
  rewrite decide_False by (intros [= _ ?]; by destruct l).
  case_decide as He; [done|]. case_decide as Hd; [done|]. intros Hn.
  assert (f !! (root ++ a :: l) = Some DirN) as Hdir by (by apply (below_dirs (a :: l) [c] n)).
  rewrite decide_False by (intros [= -> _]; apply He, manifest_excluded).
  rewrite decide_False; [done|]. congruence.
Qed.

Lemma packed_prefix rel l n : rel <> [] -> l <> [] -> packed (rel ++ l) = Some n ->
  packed rel = Some DirN.
Proof.
  intros Hr. revert n. induction l as [|c l IH] using rev_ind; intros n Hl Hn; [done|].
  rewrite app_assoc in Hn. apply packed_parent in Hn; [|by destruct rel].
  destruct l; [by rewrite app_nil_r in Hn|by eapply IH].
Qed.

(** ** Extracting it *)

Variable target : path.
Hypothesis header_nonneg : forall name, 0 <= header_bytes name.

Definition pieces_bytes (l : list string) : Z := foldr (fun s n => bytes_len s + n) 0 l.
Definition entry_bytes (en : entry) : Z := e_head en + pieces_bytes (e_data en) + e_pad en.

(** Below the target there is part of what is packed. *)
Record partial g : Prop := {
  pt_target : node_at g target = Some DirN;
  pt_sub : forall rel, rel <> [] ->
    g !! (target ++ rel) = None \/ g !! (target ++ rel) = packed rel }.

Lemma capped_ok n g tot : tot + n <= _MAX_EXTRACT_BYTES ->
  capped_read n (mkX g tot) = (Ok tt, mkX g (tot + n)).
Proof. intros Hn. unfold capped_read. simpl. destruct (Z.ltb_spec _MAX_EXTRACT_BYTES (tot + n)); [lia|done]. Qed.

Lemma removelast_dot rel : rel <> [] -> removelast ("." :: rel) = "." :: removelast rel.
Proof. by destruct rel. Qed.

Lemma removelast_take rel : removelast rel = take (length rel - 1) rel.
Proof.
  destruct rel as [|c l _] using rev_ind; [done|].
  by rewrite removelast_last, length_app, Nat.add_sub, take_app_length.
Qed.

(** The directories above a packed member. *)
Lemma parents_run rel n g :
  packed rel = Some n -> rel <> [] -> Forall plain rel -> partial g ->
  exists g', make_dirs target (removelast ("." :: rel)) g = (Ok (target ++ removelast rel), g') /\
    partial g' /\ node_at g' (target ++ removelast rel) = Some DirN /\
    g' !! (target ++ rel) = g !! (target ++ rel) /\
    (forall p x, g !! p = Some x -> g' !! p = Some x).
Proof.
  intros Hn Hne Hp [Hg Hsub]. rewrite removelast_dot by done.
  change (make_dirs target ("." :: removelast rel) g) with (make_dirs target (removelast rel) g).
  rewrite removelast_take. set (r := take (length rel - 1) rel).
  assert (forall k, (0 < k <= length r)%nat ->
    take k r <> [] /\ packed (take k r) = Some DirN /\ (length (take k r) < length rel)%nat) as Hpre.
  { intros k Hk. unfold r in *. rewrite length_take in Hk.
    rewrite take_take, Nat.min_l by lia.
    assert (length (take k rel) = k /\ length (drop k rel) = length rel - k)%nat as [Hl1 Hl2]
      by (rewrite length_take, length_drop; lia).
    assert (take k rel <> []) as H1 by (intros Heq; rewrite Heq in Hl1; simpl in Hl1; lia).
    assert (drop k rel <> []) as H2 by (intros Heq; rewrite Heq in Hl2; simpl in Hl2; lia).
    split_and!; [done| |lia]. apply (packed_prefix _ (drop k rel) n); [done..|].
    by rewrite take_drop. }
  destruct (make_dirs_run target r g) as (g' & Hm & Hin & Hout).
  { unfold r. by apply Forall_take. }
  { intros k Hk. destruct (Hpre k Hk) as (H1 & H2 & _).
    destruct (Hsub _ H1) as [?|Heq]; [by left|right]. by rewrite Heq. }
  exists g'. split; [done|].
  assert (forall p x, g !! p = Some x -> g' !! p = Some x) as Hmono.
  { intros p x Hx. destruct (Hout p) as [->|(k & Hk & ->)]; [done|]. rewrite (Hin k Hk).
    destruct (Hpre k Hk) as (H1 & H2 & _). destruct (Hsub _ H1) as [?|Heq]; congruence. }
  assert (node_at g' target = Some DirN) as Ht.
  { destruct target as [|a l] eqn:Et; [done|]. rewrite <- Et in *.
    rewrite node_at_cons in * by (by rewrite Et). by apply Hmono. }
  split_and!; [split; [done|]|..|done].
  - intros q Hq. destruct (Hout (target ++ q)) as [->|(k & Hk & Heq)]; [by apply Hsub|].
    apply (inj (app target)) in Heq as ->. right. rewrite (Hin k Hk). symmetry. by apply Hpre.
  - destruct (decide (r = [])) as [->|Hr]; [by rewrite app_nil_r|].
    rewrite node_at_cons by (by destruct target, r). rewrite <- (Hin (length r)).
    + by rewrite take_ge.
    + destruct r; simpl; [done|lia].
  - destruct (Hout (target ++ rel)) as [->|(k & Hk & Heq)]; [done|].
    apply (inj (app target)) in Heq. destruct (Hpre k Hk) as (_ & _ & Hl).
    rewrite <- Heq in Hl. lia.
Qed.

Lemma entry_bytes_of rel n :
  0 <= e_head (entry_of rel n) /\ 0 <= pieces_bytes (e_data (entry_of rel n)) /\
  0 <= e_pad (entry_of rel n).
Proof.
  assert (forall c, 0 <= bytes_len c) as Hb by (intros; unfold bytes_len; lia).
  destruct n as [|c]; simpl; split_and!; try apply header_nonneg; try lia.
  - destruct (String.eqb c ""); simpl; [lia|]. specialize (Hb c). lia.
  - apply Z.mod_pos_bound. lia.
Qed.

Lemma file_pieces rel c g tot :
  tot + pieces_bytes (e_data (entry_of rel (FileN c))) <= _MAX_EXTRACT_BYTES ->
  copy_pieces (target ++ rel) (e_data (entry_of rel (FileN c)))
    (mkX (<[target ++ rel := FileN ""]> g) tot) =
  (Ok tt, mkX (<[target ++ rel := FileN c]> g)
            (tot + pieces_bytes (e_data (entry_of rel (FileN c))))).
Proof.
  unfold entry_of, file_entry. cbn [e_data]. destruct (String.eqb_spec c "") as [->|Hc]; cbn.
  - by rewrite Z.add_0_r.
  - rewrite Z.add_0_r. intros Hb. unfold mbind, M_bind. rewrite capped_ok by done.
    unfold x_os, append_file, modify. cbn. by rewrite alter_insert_eq.
Qed.

(** One packed member, extracted over a part of the tree. *)
Lemma extract_one rel n g tot :
  packed rel = Some n -> rel <> [] -> Forall plain rel -> partial g ->
  tot + entry_bytes (entry_of rel n) <= _MAX_EXTRACT_BYTES ->
  exists g', extract_member target (entry_of rel n) (mkX g tot) =
      (Ok tt, mkX g' (tot + entry_bytes (entry_of rel n))) /\
    partial g' /\ g' !! (target ++ rel) = Some n /\
    (forall p x, g !! p = Some x -> g' !! p = Some x).
Proof.
  intros Hn Hne Hp Hg Hb. pose proof (entry_bytes_of rel n) as (Hb1 & Hb2 & Hb3).
  unfold entry_bytes in *.
  destruct (parents_run rel n g Hn Hne Hp Hg) as (g1 & Hm & Hg1 & Hpar & Hleaf & Hmono).
  assert (e_name (entry_of rel n) = arcname rel) as Hname by (by destruct n).
  assert (data_filter target (entry_of rel n) = Ok tt) as Hfil.
  { unfold data_filter. rewrite Hname, arcname_member by done. simpl.
    rewrite norm_plain by done. rewrite bool_decide_eq_true_2 by (by exists rel).
    by destruct n. }
  assert (g1 !! (target ++ rel) = None \/ g1 !! (target ++ rel) = Some n) as Hl1.
  { rewrite Hleaf, <- Hn. by apply Hg. }
  assert (forall x, x = Some n -> partial (<[target ++ rel := n]> g1)) as Hg2.
  { intros _ _. destruct Hg1 as [Ht Hs]. split.
    - destruct target as [|a l] eqn:Et; [done|]. rewrite <- Et in *.
      rewrite node_at_cons in * by (by rewrite Et). rewrite lookup_insert_ne; [done|].
      intros Heq%(f_equal length). rewrite length_app in Heq. destruct rel; simpl in *; [done|lia].
    - intros q Hq. destruct (decide (q = rel)) as [->|Hqr].
      + right. by rewrite lookup_insert_eq.
      + rewrite lookup_insert_ne; [by apply Hs|]. by intros ?%(inj (app target)). }
  assert (forall p x, g !! p = Some x -> <[target ++ rel := n]> g1 !! p = Some x) as Hmono2.
  { intros p x Hx%Hmono. destruct (decide (p = target ++ rel)) as [->|Hpn].
    - rewrite lookup_insert_eq. destruct Hl1; congruence.
    - by rewrite lookup_insert_ne. }
  exists (<[target ++ rel := n]> g1). split; [|split; [by eapply Hg2|]; split; [apply lookup_insert_eq|done]].
  set (en := entry_of rel n) in *. set (t1 := tot + e_head en).
  assert (x_os (make_dirs target (removelast ("." :: rel))) (mkX g t1) =
          (Ok (target ++ removelast rel), mkX g1 t1)) as Hx by (unfold x_os; simpl x_fs; by rewrite Hm).
  assert (norm (target ++ removelast rel) (drop (length ("." :: rel) - 1) ("." :: rel)) =
          target ++ rel) as Hleafp.
  { pose proof (make_dirs_ok _ _ _ _ _ Hm) as ->. rewrite <- norm_app, last_component.
    simpl. by apply norm_plain. }
  unfold extract_member. rewrite (M_bind_ok _ _ _ _ _ (capped_ok (e_head en) g tot ltac:(lia))).
  rewrite Hfil, lift_ok_bind. cbv beta zeta. rewrite Hname, arcname_member by done. fold t1.
  rewrite (M_bind_ok _ _ _ _ _ Hx), Hleafp.
  set (t2 := t1 + pieces_bytes (e_data en)).
  assert (make_member (target ++ rel) en (mkX g1 t1) = (Ok tt, mkX (<[target ++ rel := n]> g1) t2)) as Hbody.
  { assert (target ++ rel <> []) as Htr by (by destruct target, rel).
    destruct n as [|c].
    - change (x_os (mkdir_exist_ok (target ++ rel)) (mkX g1 t1) =
              (Ok tt, mkX (<[target ++ rel := DirN]> g1) t2)).
      unfold x_os, mkdir_exist_ok. cbn [x_fs x_total]. cbv beta. rewrite node_at_cons by done.
      unfold t2, en. cbn. rewrite Z.add_0_r.
      destruct Hl1 as [->|Hl1]; [done|]. rewrite Hl1. by rewrite insert_id.
    - assert (x_os (write_file (target ++ rel) "") (mkX g1 t1) =
              (Ok tt, mkX (<[target ++ rel := FileN ""]> g1) t1)) as Hw.
      { unfold x_os, write_file. cbn [x_fs x_total]. cbv beta. rewrite node_at_cons by done.
        replace (parent (target ++ rel)) with (target ++ removelast rel)
          by (unfold parent; by rewrite removelast_app).
        rewrite Hpar. by destruct Hl1 as [->| ->]. }
      change ((x_os (write_file (target ++ rel) "") ;; copy_pieces (target ++ rel) (e_data en))
                (mkX g1 t1) = (Ok tt, mkX (<[target ++ rel := FileN c]> g1) t2)).
      rewrite (M_bind_ok _ _ _ _ _ Hw). apply file_pieces. unfold t1, en in *. lia. }
  rewrite (M_bind_ok _ _ _ _ _ Hbody), capped_ok by (unfold t2, t1; lia).
  do 2 f_equal. unfold t2, t1. lia.
Qed.

Definition archive_bytes (l : list entry) : Z := foldr (fun en n => entry_bytes en + n) 0 l.

Definition is_packed (en : entry) : Prop := exists rel n,
  packed rel = Some n /\ Forall plain rel /\ rel <> [] /\ en = entry_of rel n.

Lemma archive_nonneg l : Forall is_packed l -> 0 <= archive_bytes l.
Proof.
  induction 1 as [|en l (rel & n & _ & _ & _ & ->) _ IH]; simpl; [lia|].
  pose proof (entry_bytes_of rel n). unfold entry_bytes. lia.
Qed.

(** All of them, in any order. *)
Lemma extract_list l g tot :
  Forall is_packed l -> partial g -> tot + archive_bytes l <= _MAX_EXTRACT_BYTES ->
  exists g', extract_all target l (mkX g tot) = (Ok tt, mkX g' (tot + archive_bytes l)) /\
    partial g' /\ (forall p x, g !! p = Some x -> g' !! p = Some x) /\
    (forall rel n, packed rel = Some n -> entry_of rel n ∈ l -> g' !! (target ++ rel) = Some n).
Proof.
  intros Hl. revert g tot. induction Hl as [|en l (rel & n & Hn & Hp & Hne & ->) Hl IH];
    intros g tot Hg Hb; simpl in *.
  { exists g. rewrite Z.add_0_r. split_and!; [done..|]. by intros ? ? _ ?%not_elem_of_nil. }
  pose proof (archive_nonneg l Hl) as Hb0.
  destruct (extract_one rel n g tot Hn Hne Hp Hg ltac:(lia)) as (g1 & H1 & Hg1 & Hin1 & Hk1).
  destruct (IH g1 _ Hg1 ltac:(by rewrite Z.add_assoc in Hb)) as (g2 & H2 & Hg2 & Hk2 & Hin2).
  exists g2. rewrite (M_bind_ok _ _ _ _ _ H1), H2, Z.add_assoc. split_and!; [done..|auto|].
  intros rel' n' Hn' [Heq|Hin]%elem_of_cons; [|by apply Hin2].
  apply Hk2. assert (rel' = rel) as ->.
  { apply packed_plain in Hn' as [Hp' Hne']. apply (f_equal e_name) in Heq.
    assert (arcname rel' = arcname rel) as Ha by (by destruct n', n).
    apply (f_equal components) in Ha. rewrite !arcname_components in Ha by done. congruence. }
  by simplify_eq.
Qed.

(** C27. Restoring what was packed gives it back: extracting the archive of an instance into
    an empty directory — when it is within the decompression cap — succeeds, and the
    directory then holds exactly the instance's tree with its contents, less the files
    [apply] regenerates, the lock and the archive being written, plus the manifest;
    whatever else is on the host is unchanged. *)
Theorem pack_extract_roundtrip g :
  node_at g target = Some DirN -> (forall rel, rel <> [] -> g !! (target ++ rel) = None) ->
  archive_bytes members + eof_bytes members <= _MAX_EXTRACT_BYTES ->
  0 <= eof_bytes members ->
  exists g' total,
    (extract_all target members ;; extract_end target (Eof (eof_bytes members))) (mkX g 0) =
      (Ok tt, mkX g' total) /\
    (forall rel, rel <> [] -> g' !! (target ++ rel) = packed rel) /\
    (forall p x, g !! p = Some x -> g' !! p = Some x).
Proof.
  intros Ht Hempty Hb Hpad.
  assert (Forall is_packed members) as Hall by (apply Forall_forall; intros en; apply members_sound).
  assert (partial g) as Hg by (split; [done|]; intros rel Hr; left; by apply Hempty).
  destruct (extract_list members g 0 Hall Hg ltac:(lia)) as (g' & He & [_ Hsub] & Hk & Hin).
  exists g', (0 + archive_bytes members + eof_bytes members).
  rewrite (M_bind_ok _ _ _ _ _ He). split; [apply capped_ok; lia|]. split; [|done].
  intros rel Hr. destruct (packed rel) as [n|] eqn:Hn.
  - apply Hin; [done|]. by apply members_complete.
  - destruct (Hsub rel Hr) as [H|H]; congruence.
Qed.
End packing.

(** ** The decompression cap *)

Definition node_bytes (n : node) : Z := match n with DirN => 0 | FileN c => bytes_len c end.

Lemma chars_length s : length (chars s) = String.length s.
Proof. induction s as [|c s IH]; [done|]. simpl. by rewrite <- IH. Qed.

(** The bytes of a text that are not zero. *)
Definition data_len (c : string) : Z := Z.of_nat (length (filter (fun x => x <> NUL) (chars c))).

(** A measure of all files together. *)
Definition fs_weight (weigh : string -> Z) f : Z :=
  map_fold (fun _ n acc => match n with DirN => 0 | FileN c => weigh c end + acc) 0 f.

(** The sizes of all files, and their bytes without the zeros. *)
Definition fs_bytes : fs -> Z := fs_weight bytes_len.
Definition fs_data : fs -> Z := fs_weight data_len.

Lemma data_len_put off s c : data_len (put off s c) <= data_len c + bytes_len s.
Proof.
  unfold data_len, bytes_len, put. destruct s as [|x s']; [simpl; lia|]. set (s := String x s').
  assert (forall n, filter (fun x => x <> NUL) (replicate n NUL) = []) as Hz
    by (intros n; induction n as [|n IH]; [done|]; simpl; rewrite filter_cons; by rewrite decide_False by tauto).
  assert (forall l : list ascii, (length (filter (fun x => x <> NUL) l) <= length l)%nat) as Hle
    by (intros l; apply length_filter).
  rewrite chars_of_chars, !filter_app, !length_app, take_app, filter_app, take_replicate, Hz, app_nil_r.
  rewrite <- drop_drop. set (l := chars c).
  assert (length (filter (fun x => x <> NUL) (drop (String.length s) (drop off l))) <=
    length (filter (fun x => x <> NUL) (drop off l)))%nat.
  { rewrite <- (take_drop (String.length s) (drop off l)) at 2. rewrite filter_app, length_app. lia. }
  assert (length (filter (fun x => x <> NUL) l) = length (filter (fun x => x <> NUL) (take off l)) +
    length (filter (fun x => x <> NUL) (drop off l)))%nat.
  { rewrite <- length_app, <- filter_app, take_drop. done. }
  specialize (Hle (chars s)). rewrite chars_length in Hle. lia.
Qed.

Lemma data_len_resize size c : data_len (resize size c) <= data_len c.
Proof.
  unfold data_len, resize. rewrite chars_of_chars, take_app, filter_app, take_replicate, length_app.
  assert (forall n, filter (fun x => x <> NUL) (replicate n NUL) = []) as ->
    by (intros n; induction n as [|n IH]; [done|]; simpl; rewrite filter_cons; by rewrite decide_False by tauto).
  rewrite <- (take_drop size (chars c)) at 2. rewrite filter_app, length_app. simpl. lia.
Qed.

Definition is_sparse (en : entry) : bool := match e_type en with Sparse _ _ => true | _ => false end.

(** Sizes of headers and padding are not negative; names, types and contents are free. *)
Definition entry_sizes_ok (en : entry) : Prop := 0 <= e_head en /\ 0 <= e_pad en.

Definition members_of (a : archive) : list entry :=
  entries a ++ match last_read a with FailsIn en _ => [en] | _ => [] end.

Definition archive_sizes_ok (a : archive) : Prop :=
  Forall entry_sizes_ok (members_of a) /\
  match last_read a with Eof pad => 0 <= pad | _ => True end.

Definition always {A} (I : xstate -> Prop) (m : M xstate snap_error A) : Prop :=
  keeps (fun _ _ => True) I m.

#[local] Instance trivial_pre : PreOrder (fun _ _ : xstate => True).
Proof. by split. Qed.

Lemma always_bind {A B} I (m : M xstate snap_error A) (k : A -> M xstate snap_error B) :
  always I m -> (forall a, always I (k a)) -> always I (m ≫= k).
Proof. by apply keeps_then, _. Qed.

Lemma always_pure {A} I (m : M xstate snap_error A) : (forall s, snd (m s) = s) -> always I m.
Proof. intros Hm. apply keeps_read; [apply _|auto]. Qed.

(** A measure to which no write adds more than its bytes; if [sparse], also the writes at an
    offset, and truncation adds nothing. *)
Section weight.
Variables (weigh : string -> Z) (sparse : bool).
Hypotheses (weigh_empty : weigh "" = 0) (weigh_nonneg : forall c, 0 <= weigh c)
  (weigh_app : forall c s, weigh (c +:+ s) <= weigh c + bytes_len s)
  (weigh_put : sparse = true -> forall off s c, weigh (put off s c) <= weigh c + bytes_len s)
  (weigh_resize : sparse = true -> forall size c, weigh (resize size c) <= weigh c).
Abbreviation W := (fs_weight weigh).
Abbreviation node_weight := (fun n => match n with DirN => 0 | FileN c => weigh c end).

Lemma weight_delete f p n : f !! p = Some n -> W f = node_weight n + W (delete p f).
Proof.
  intros Hn. unfold fs_weight.
  apply (map_fold_delete_L (fun _ n acc => node_weight n + acc)); [lia|done].
Qed.

Lemma weight_insert f p n : W (<[p := n]> f) = node_weight n + W (delete p f).
Proof. rewrite (weight_delete _ p n) by apply lookup_insert_eq. by rewrite delete_insert_eq. Qed.

Lemma node_weight_nonneg n : 0 <= node_weight n.
Proof. destruct n; [done|apply weigh_nonneg]. Qed.

Lemma weight_empty_node f p n : node_weight n = 0 -> W (<[p := n]> f) <= W f.
Proof.
  intros Hn. rewrite weight_insert, Hn. destruct (f !! p) as [n'|] eqn:Hp.
  - rewrite (weight_delete f p n' Hp). pose proof (node_weight_nonneg n'). lia.
  - by rewrite delete_id.
Qed.

Lemma weight_alter f p (upd : string -> string) k : (forall c, weigh (upd c) <= weigh c + k) -> 0 <= k ->
  W (alter (fun n => match n with FileN c => FileN (upd c) | DirN => DirN end) p f) <= W f + k.
Proof.
  intros Hg Hk. destruct (f !! p) as [n|] eqn:Hp.
  - rewrite <- (insert_id _ _ _ Hp) at 1. rewrite alter_insert_eq, weight_insert, (weight_delete _ _ _ Hp).
    destruct n as [|c]; [lia|]. specialize (Hg c). lia.
  - replace (alter _ p f) with f; [lia|]. apply map_eq. intros q.
    destruct (decide (p = q)) as [->|]; [by rewrite lookup_alter_eq, Hp|by rewrite lookup_alter_ne].
Qed.

Lemma make_dirs_weight d r f : W (snd (make_dirs d r f)) <= W f.
Proof.
  revert d f. induction r as [|c r IH]; intros d f; simpl; [lia|].
  destruct (is_dot c); [done|]. destruct (String.eqb c ".."); [done|].
  unfold mbind, M_bind, gets, modify, raise. simpl.
  destruct (node_at f (d ++ [c])) as [[]|]; simpl; [done|lia|].
  etransitivity; [apply IH|]. by apply weight_empty_node.
Qed.

(** [base] was there before; what was added came through the capped reader. *)
Definition accounted (base : Z) (s : xstate) : Prop :=
  W (x_fs s) <= base + x_total s /\ W (x_fs s) <= base + _MAX_EXTRACT_BYTES.

Lemma capped_accounted base n : 0 <= n -> always (accounted base) (capped_read n).
Proof.
  intros Hn s [H1 H2]. unfold capped_read, accounted. split; [done|].
  by destruct (_ <? _); simpl; split; [lia|..]; try lia.
Qed.

Lemma x_os_accounted {A} base (m : M fs os_error A) :
  (forall f, W (snd (m f)) <= W f) -> always (accounted base) (x_os m).
Proof.
  intros Hm s [H1 H2]. split; [done|]. specialize (Hm (x_fs s)). unfold x_os, accounted.
  destruct (m (x_fs s)) as [[] f]; simpl in *; lia.
Qed.

(** A read and a write of what was read. *)
Lemma piece_accounted base p (c : string) (w : M fs os_error unit) :
  (forall f, W (snd (w f)) <= W f + bytes_len c) ->
  always (accounted base) (capped_read (bytes_len c) ;; x_os w).
Proof.
  intros Hw s [H1 H2]. split; [done|]. unfold mbind, M_bind, capped_read.
  assert (0 <= bytes_len c) by (unfold bytes_len; lia).
  destruct (Z.ltb_spec _MAX_EXTRACT_BYTES (x_total s + bytes_len c)); unfold accounted; simpl; [lia|].
  specialize (Hw (x_fs s)). unfold x_os. cbn [x_fs]. destruct (w (x_fs s)) as [[] f]; simpl in *; lia.
Qed.

Lemma piece_then {A : Type} base p (c : string) (w : M fs os_error unit) (k : M xstate snap_error A) :
  (forall f, W (snd (w f)) <= W f + bytes_len c) -> always (accounted base) k ->
  always (accounted base) (capped_read (bytes_len c) ;; x_os w ;; k).
Proof.
  intros Hw Hk s Hs. pose proof (always_bind (accounted base)
    (capped_read (bytes_len c) ;; x_os w) (fun _ => k) (piece_accounted base p c w Hw) (fun _ => Hk) s Hs) as H.
  revert H. unfold mbind, M_bind. by destruct (capped_read _ s) as [[[]|e] s1].
Qed.

Lemma bytes_len_nonneg c : 0 <= bytes_len c.
Proof. unfold bytes_len. lia. Qed.

Lemma pieces_accounted base p l : always (accounted base) (copy_pieces p l).
Proof.
  induction l as [|c l IH]; simpl; [by apply always_pure|]. apply (piece_then base p); [|done].
  intros f. apply weight_alter; [intros c0; apply weigh_app|apply bytes_len_nonneg].
Qed.

Lemma copy_at_accounted base p off l : sparse = true -> always (accounted base) (copy_at p off l).
Proof.
  intros Hs. revert off. induction l as [|c l IH]; intros off; simpl; [by apply always_pure|].
  apply (piece_then base p); [|done].
  intros f. apply weight_alter; [intros c0; by apply weigh_put|apply bytes_len_nonneg].
Qed.

Lemma segments_accounted base p segs : sparse = true -> always (accounted base) (copy_segments p segs).
Proof.
  intros Hs. induction segs as [|[off l] segs IH]; simpl; [by apply always_pure|].
  apply always_bind; [by apply copy_at_accounted|done].
Qed.

Lemma write_file_weight p f : W (snd (write_file p "" f)) <= W f.
Proof.
  unfold write_file. destruct (node_at f p) as [[]|]; simpl; [lia|..];
    (destruct (node_at f (parent p)) as [[]|]; simpl; [by apply weight_empty_node|lia..]).
Qed.

Lemma mkdir_exist_ok_weight p f : W (snd (mkdir_exist_ok p f)) <= W f.
Proof.
  unfold mkdir_exist_ok. destruct (node_at f p) as [[]|]; simpl; [lia..|].
  by apply weight_empty_node.
Qed.

Lemma make_member_accounted base p en :
  (is_sparse en = true -> sparse = true) -> always (accounted base) (make_member p en).
Proof.
  intros Hen. unfold make_member, is_sparse in *.
  destruct (e_type en) as [|segs size| | |]; [| |apply x_os_accounted, mkdir_exist_ok_weight..];
    (apply always_bind; [apply x_os_accounted, write_file_weight|intros _]); [apply pieces_accounted|].
  apply always_bind; [by apply segments_accounted, Hen|intros _]. apply x_os_accounted.
  intros f. rewrite <- Z.add_0_r. apply weight_alter; [|done].
  intros c. rewrite Z.add_0_r. by apply weigh_resize, Hen.
Qed.

Definition allowed (en : entry) : Prop := entry_sizes_ok en /\ (is_sparse en = true -> sparse = true).

Lemma member_accounted base t en : allowed en -> always (accounted base) (extract_member t en).
Proof.
  intros [[Hh Hp] Hs]. unfold extract_member.
  apply always_bind; [by apply capped_accounted|intros _].
  apply always_bind; [by apply always_pure|intros _].
  apply always_bind; [apply x_os_accounted, make_dirs_weight|intros up].
  apply always_bind; [by apply make_member_accounted|intros _; by apply capped_accounted].
Qed.

Lemma extraction_accounted t a f :
  archive_sizes_ok a -> Forall (fun en => is_sparse en = true -> sparse = true) (members_of a) ->
  accounted (W f) (snd ((extract_all t (entries a) ;; extract_end t (last_read a)) (mkX f 0))).
Proof.
  intros [Hall Hend] Hsp. assert (Forall allowed (members_of a)) as Hok by (by apply Forall_and).
  unfold members_of in Hok. apply Forall_app in Hok as [Hok Hlast].
  refine (proj2 (always_bind (accounted (W f)) (extract_all t (entries a))
    (fun _ => extract_end t (last_read a)) _ _ (mkX f 0) _)).
  - clear -Hok weigh_empty weigh_nonneg weigh_app weigh_put weigh_resize.
    induction Hok as [|en l Hen _ IH]; simpl; [by apply always_pure|].
    apply always_bind; [by apply member_accounted|done].
  - intros _. destruct (last_read a) as [pad|e|en e]; simpl;
      [by apply capped_accounted|by apply always_pure|].
    apply Forall_cons in Hlast as [Hen _].
    apply always_bind; [by apply member_accounted|intros _; by apply always_pure].
  - unfold accounted. simpl. unfold _MAX_EXTRACT_BYTES. lia.
Qed.
End weight.

(** C34. A decompression bomb cannot fill the disk with data: whatever the names, contents and
    declared sizes of an archive's members, and however the extraction ends, the non-zero
    bytes of the files on the host have grown by at most the cap of 64 GiB, and by no more
    than the bytes that came off the stream; and so have the sizes of the files, when no
    member is sparse.  The holes of sparse members are not data and are not counted by the
    cap ([sparse_member_escapes_cap]); links that stay inside the destination are outside
    the model of an archive. *)
Theorem extraction_is_bounded t a f :
  archive_sizes_ok a ->
  let s := snd ((extract_all t (entries a) ;; extract_end t (last_read a)) (mkX f 0)) in
  (fs_data (x_fs s) <= fs_data f + x_total s /\
   fs_data (x_fs s) <= fs_data f + _MAX_EXTRACT_BYTES) /\
  (Forall (fun en => is_sparse en = false) (members_of a) ->
   fs_bytes (x_fs s) <= fs_bytes f + x_total s /\
   fs_bytes (x_fs s) <= fs_bytes f + _MAX_EXTRACT_BYTES).
Proof.
  intros Ha. cbv zeta. split.
  - apply (extraction_accounted data_len true); [done|unfold data_len; lia| | | |done|].
    + intros c s. unfold data_len, bytes_len. rewrite chars_app, filter_app, length_app.
      pose proof (length_filter (fun x => x <> NUL) (chars s)) as Hl. rewrite chars_length in Hl. lia.
    + intros _. apply data_len_put.
    + intros _. apply data_len_resize.
    + by apply Forall_true.
  - intros Hns. apply (extraction_accounted bytes_len false); [done|apply bytes_len_nonneg| |done|done|done|].
    + intros c s. unfold bytes_len. rewrite length_app_str. lia.
    + eapply Forall_impl; [exact Hns|]. intros en Hen. cbv beta. by rewrite Hen.
Qed.

(** One sparse member without data, behind a kilobyte of headers, makes a file of any size:
    the cap counts what comes off the stream, and a hole does not. *)
Theorem sparse_member_escapes_cap t f (size : nat) :
  node_at f t = Some DirN -> f !! (t ++ ["big"]) = None ->
  let a := mkArchive [mkEntry "./big" (Sparse [] size) 1024 [] 0] (Eof 0) in
  let '(r, s) := (extract_all t (entries a) ;; extract_end t (last_read a)) (mkX f 0) in
  r = Ok tt /\ x_total s = 1024 /\ fs_bytes (x_fs s) = fs_bytes f + Z.of_nat size.
Proof.
  intros Ht Hb. cbv zeta. cbn [entries last_read extract_all extract_end].
  set (en := mkEntry "./big" (Sparse [] size) 1024 [] 0). set (p := t ++ ["big"]).
  set (f1 := <[p := FileN ""]> f). set (f2 := <[p := FileN (resize size "")]> f).
  assert (p <> []) as Hp by (unfold p; by destruct t).
  assert (forall n g tot, tot + n <= _MAX_EXTRACT_BYTES -> capped_read n (mkX g tot) = (Ok tt, mkX g (tot + n))) as Hcap.
  { intros n g tot Hn. unfold capped_read. cbn [x_total x_fs]. by rewrite (proj2 (Z.ltb_ge _ _) Hn). }
  assert (make_member p en (mkX f 1024) = (Ok tt, mkX f2 1024)) as Hm.
  { assert (x_os (write_file p "") (mkX f 1024) = (Ok tt, mkX f1 1024)) as Hw.
    { unfold x_os, write_file. cbn [x_fs x_total]. rewrite node_at_cons by done. change (f !! p = None) in Hb. rewrite Hb.
      unfold p. rewrite parent_snoc, Ht. done. }
    unfold make_member. cbn [en e_type copy_segments]. rewrite (M_bind_ok _ _ _ _ _ Hw).
    unfold mbind, M_bind, mret, M_ret, x_os, update_file, modify. cbn [x_fs x_total].
    unfold f1. by rewrite alter_insert_eq. }
  assert (extract_member t en (mkX f 0) = (Ok tt, mkX f2 1024)) as He.
  { unfold extract_member. rewrite (M_bind_ok _ _ _ _ _ (Hcap 1024 f 0 ltac:(done))).
    assert (member_components (e_name en) = ["."; "big"]) as Hc by (by vm_compute).
    assert (norm t ["."; "big"] = p) as Hn by done.
    assert (data_filter t en = Ok tt) as Hf.
    { unfold data_filter. rewrite Hc, Hn, bool_decide_eq_true_2; [done|]. by eexists. }
    rewrite Hf, lift_ok_bind. cbv zeta. rewrite Hc. change (0 + 1024) with 1024.
    assert (x_os (make_dirs t (removelast ["."; "big"])) (mkX f 1024) = (Ok t, mkX f 1024)) as Hd by done.
    rewrite (M_bind_ok _ _ _ _ _ Hd). change (norm t (drop (length ["."; "big"] - 1) ["."; "big"])) with p.
    rewrite (M_bind_ok _ _ _ _ _ Hm). by rewrite (Hcap 0). }
  unfold mbind, M_bind, mret, M_ret. rewrite He. rewrite (Hcap 0) by done. split; [done|]. split; [done|].
  cbn [x_fs]. unfold f2, fs_bytes. rewrite (weight_insert bytes_len), delete_id by done.
  unfold resize, bytes_len. rewrite <- chars_length, chars_of_chars, length_take, length_app, length_replicate.
  simpl. lia.
Qed.
End roundtrip.
