(* ===== verification/SnapshotForce.v ===== *)
(** * Snapshots: what a forced restore risks, and concrete runs

    [restore_local] clears an occupied target before it extracts; these theorems state what
    is lost when something fails after that.  [SnapSample] instantiates the externals with
    a real codec; the last section applies the theorems of [SnapshotOps] and
    [SnapshotArchive] to concrete hosts. *)
From stdpp Require Import base list strings gmap sorting countable.
From Stdlib Require Import ZArith QArith Lia Ascii.
From S2P Require Import Prelude PyStr Config Ports Registry RegistryOps Render HostFs Snapshot SnapshotOps SnapshotArchive.
Local Open Scope stdpp_scope.
Local Open Scope Z_scope.

Section force.
Context `{P : Pydantic} `{L : !PydanticLaws P} {X : Externals}.

(** The checks [restore] makes before it touches the target all pass. *)
Record accepted (file : path) (name : string) (target : path)
    (data : list (string * InstanceMeta)) (w : host) : Prop := {
  ac_reg : reg (rworld w) = Some (Doc (_registry_to_json data));
  ac_wf : file_wf data;
  ac_name : plus_full instance_name_char name = true;
  ac_fresh : Dict.get name data = None;
  ac_manifest : is_ok (fst (read_manifest file w)) = true;
  ac_apart : overlapping target data = None;
  ac_target : Forall plain target /\ target <> [];
  ac_occupied : fsys w !! target = Some DirN /\ children (fsys w) target <> [];
  ac_index : index_free data;
  ac_removable : forall f, remains f target = [] }.

Lemma forced_runs file name target data w now :
  accepted file name target data w ->
  exists m, restore_local file name target true now w =
    restore_into file name target now m (mkHost (rmtree target (fsys w)) (rworld w)).
Proof.
  intros [Hreg Hwf Hname Hg Hm Ho [Ht Hne] [Hdir Hch] Hi Hrm].
  destruct (read_manifest file w) as [[m|e] w1] eqn:Hread; [|done]. clear Hm.
  pose proof (read_manifest_same file w) as Hs. rewrite Hread in Hs. simpl in Hs. subst w1.
  exists m. unfold restore_local, _validate_instance_name. rewrite Hname.
  change (raise_if (negb true) (InvalidName name)) with (Ok tt : result snap_error unit).
  rewrite lift_ok_bind.
  assert (on_reg (Registry.get name) w = (Ok (Dict.get name data), w)) as Hget.
  { unfold on_reg. rewrite (get_written _ _ _ Hreg Hwf). by destruct w. }
  rewrite (M_bind_ok _ _ _ _ _ Hget), Hg, lift_ok_bind, (M_bind_ok _ _ _ _ _ Hread).
  assert (_prepare_destination target true w =
          (Ok tt, mkHost (rmtree target (fsys w)) (rworld w))) as Hp.
  { destruct (prepare_cases data w Hreg Hwf target true) as [[e He]|[[_ He]|(_ & _ & e & f & Hf & _)]].
    - unfold _prepare_destination, rmtree_at, mbind, M_bind, gets, lift, on_reg, on_fs in He. simpl in He.
      rewrite node_at_cons, Hdir, (list_written _ _ Hreg Hwf), Ho in He by done. simpl in He.
      rewrite bool_decide_eq_true_2 in He by done. simpl in He.
      rewrite node_at_cons, Hdir, Hrm in He by done. done.
    - rewrite He. unfold cleared. rewrite node_at_cons, Hdir by done.
      by rewrite bool_decide_eq_true_2.
    - destruct Hf as (_ & l & Hl & Hr & _). by rewrite Hrm in Hr. }
  by rewrite (M_bind_ok _ _ _ _ _ Hp).
Qed.

(** Whatever makes a forced restore fail, its target is empty afterwards. *)
Lemma forced_failure_clears file name target data w now e w' :
  accepted file name target data w ->
  restore_local file name target true now w = (Err e, w') ->
  forall p, target `prefix_of` p -> fsys w' !! p = None.
Proof.
  intros Ha Hr p Hp. destruct (forced_runs _ _ _ _ _ now Ha) as [m He].
  destruct Ha as [Hreg Hwf _ Hg _ _ [Ht Hne] _ Hi Hrm].
  pose proof (restore_into_cases file name target now m data
    (mkHost (rmtree target (fsys w)) (rworld w)) Hreg Hwf Hg Ht) as Hc.
  rewrite <- He, Hr in Hc. simpl in Hc. clear He Hr.
  inversion Hc as [e1 f Hm Hee Hw|i f _ Hfull Hee Hw| |f f2 e1 r w3 _ _ _ H3 Hee Hw]; subst; simpl in *.
  - rewrite (mkdir_p_failed _ _ _ _ _ Ht Hm Hp), lookup_rmtree. by rewrite decide_True.
  - destruct Hi as (k & Hk & Hn). by destruct (Hn (Hfull k Hk)).
  - rewrite bool_decide_eq_true_2 in H3.
    2: { rewrite node_at_cons by done. by rewrite lookup_rmtree, decide_True. }
    destruct r as [[]|o]; simpl in H3.
    + by rewrite H3, lookup_rmtree, decide_True.
    + destruct H3 as (_ & l & Hl & Hr & _). by rewrite Hrm in Hr.
Qed.

(** A restore with [--force] into an occupied directory that fails after its checks — for
    whatever reason, a corrupt end of the archive included — loses everything that was
    in that directory. *)
Theorem forced_failure_loses_target file name target data w now e w' :
  accepted file name target data w ->
  restore_local file name target true now w = (Err e, w') ->
  forall p, target `prefix_of` p -> fsys w' !! p = None.
Proof. apply forced_failure_clears. Qed.

(** An archive that lies in the directory it is restored into is deleted by its own
    restore: with [--force] the manifest is read, the directory is cleared, and the
    extraction finds no archive any more — the command fails and the archive is gone. *)
Theorem forced_restore_deletes_its_archive file name target data w now :
  accepted file name target data w -> target `prefix_of` file ->
  exists e w', restore_local file name target true now w = (Err e, w') /\ fsys w' !! file = None.
Proof.
  intros Ha Hin. destruct (restore_local file name target true now w) as [[p|e] w'] eqn:Hr.
  2: { exists e, w'. split; [done|]. by eapply forced_failure_clears. }
  exfalso. destruct (forced_runs _ _ _ _ _ now Ha) as [m He].
  destruct Ha as [Hreg Hwf _ Hg _ _ [Ht Hne] _ Hi Hrm].
  pose proof (restore_into_cases file name target now m data
    (mkHost (rmtree target (fsys w)) (rworld w)) Hreg Hwf Hg Ht) as Hc.
  rewrite <- He, Hr in Hc. simpl in Hc. clear He Hr.
  inversion Hc as [| |i f u w2 Hm _ Hb _ Hee Hw|]; subst; simpl in *. unfold restore_body in Hb. run_bind Hb v w4 H4.
  unfold _extract_archive_into in H4. run_bind H4 a w5 H5. unfold open_archive in H5.
  run_bind H5 g w6 H6. injection H6 as <- <-. run_bind H5 text w7 H7.
  unfold lift in H7. simpl in H7. unfold read_file in H7.
  assert (file <> []) as Hf by (intros ->; by apply prefix_nil_inv in Hin).
  rewrite node_at_cons in H7 by done.
  pose proof (mkdir_p_confined (file ++ [""]) target (rmtree target (fsys w))) as [Hout _].
  rewrite Hm in Hout. simpl in Hout. destruct (Hout file) as [Hn|[_ Hn]].
  - intros Hp%prefix_length. rewrite length_app in Hp. simpl in Hp. lia.
  - rewrite Hn, lookup_rmtree, decide_True in H7 by done. by destruct (under_file _ _).
  - by rewrite Hn in H7.
Qed.
End force.

(** ** A concrete codec *)

Module SnapSample.
Import Sample.

#[export] Instance member_type_eq_dec : EqDecision member_type.
Proof. solve_decision. Defined.
#[export] Instance stream_error_eq_dec : EqDecision stream_error.
Proof. solve_decision. Defined.
#[export] Instance entry_eq_dec : EqDecision entry.
Proof. solve_decision. Defined.
#[export] Instance ending_eq_dec : EqDecision ending.
Proof. solve_decision. Defined.
#[export] Instance archive_eq_dec : EqDecision archive.
Proof. solve_decision. Defined.

#[export] Instance member_type_countable : Countable member_type.
Proof.
  refine (inj_countable' (fun t => match t with Reg => inl 0%nat | DirType => inl 1%nat
      | OutsideLink => inl 2%nat | Special => inl 3%nat | Sparse segs size => inr (segs, size) end)
    (fun n => match n with inl 0%nat => Reg | inl 1%nat => DirType | inl 2%nat => OutsideLink
      | inl _ => Special | inr (segs, size) => Sparse segs size end) _).
  by intros [].
Defined.
#[export] Instance stream_error_countable : Countable stream_error.
Proof.
  refine (inj_countable' (fun e => match e with ZstdErr => true | TarErr => false end)
    (fun b : bool => if b then ZstdErr else TarErr) _). by intros [].
Defined.
#[export] Instance entry_countable : Countable entry.
Proof.
  refine (inj_countable' (fun e => (e_name e, e_type e, e_head e, e_data e, e_pad e))
    (fun '(n, t, h, d, p) => mkEntry n t h d p) _). by intros [].
Defined.
#[export] Instance ending_countable : Countable ending.
Proof.
  refine (inj_countable'
    (fun e => match e with Eof p => inl p | Fails e => inr (None, e) | FailsIn en e => inr (Some en, e) end)
    (fun x : Z + (option entry * stream_error) => match x with
       | inl p => Eof p | inr (None, e) => Fails e | inr (Some en, e) => FailsIn en e end) _).
  by intros [].
Defined.
#[export] Instance archive_countable : Countable archive.
Proof.
  refine (inj_countable' (fun a => (entries a, last_read a)) (fun '(l, e) => mkArchive l e) _).
  by intros [].
Defined.

(** A positive number as text. *)
Fixpoint pos_text (p : positive) : string :=
  match p with
  | xH => ""
  | xO p => String "0"%char (pos_text p)
  | xI p => String "1"%char (pos_text p)
  end.

Fixpoint text_pos (s : string) : positive :=
  match s with
  | EmptyString => xH
  | String c s => if Ascii.eqb c "0"%char then xO (text_pos s) else xI (text_pos s)
  end.

Lemma text_pos_text p : text_pos (pos_text p) = p.
Proof. induction p as [p IH|p IH|]; simpl; [by rewrite IH..|done]. Qed.

Definition sample_yaml : string := "api_version: 3".
Definition sample_manifest : Manifest :=
  mkManifest "alpha" 0 "2026-01-01" "0.6" [("frida_bin", "/x/y")] durable.

#[export] Instance sample_externals : Externals := {|
  parse_config := fun s => if String.eqb s sample_yaml then Some InstanceConfig_default else None;
  manifest_of_json := fun s =>
    if String.eqb s (_manifest_to_json sample_manifest) then Some sample_manifest else None;
  read_archive := fun s => default (mkArchive [] (Fails ZstdErr)) (decode (text_pos s));
  write_archive := fun a => pos_text (encode a);
  header_bytes := fun _ => 512;
  eof_bytes := fun _ => 1024;
  Snapshot.float_repr := plain_repr; render_node := false; cwd := ["home"]; remains _ _ := [] |}.

Lemma sample_codec a : read_archive (write_archive a) = a.
Proof. simpl. by rewrite text_pos_text, decode_encode. Qed.

(** A host with one registered instance, and an archive of it. *)
Definition sample_data : list (string * InstanceMeta) :=
  [("beta", mkInstanceMeta (VmBackendConfig "/srv/beta") 0 (stamp "t0"))].
Definition sample_entries : list entry :=
  [_add_manifest sample_manifest; file_entry "./beetroot.yaml" sample_yaml;
   dir_entry "./data"; file_entry "./data/a" "hello"].
Definition sample_fs (a : archive) : fs :=
  list_to_map [(["srv"], DirN); (["srv"; "beta"], DirN); (["srv"; "beta"; "f"], FileN "live");
               (["out"], FileN (write_archive a));
               (["old"], DirN); (["old"; "notes"], FileN "precious")].
Definition sample_host (a : archive) : host :=
  mkHost (sample_fs a) (world_of (Some (Doc (_registry_to_json sample_data)))).
Definition good : archive := mkArchive sample_entries (Eof 1024).
Definition torn : archive := mkArchive [_add_manifest sample_manifest] (Fails ZstdErr).

Lemma sample_data_wf : file_wf sample_data.
Proof.
  split; [apply (bool_decide_unpack (Dict.wf _)); vm_compute; exact I|].
  by repeat constructor.
Qed.

Lemma sample_index : index_free sample_data.
Proof. exists 1. split; [vm_compute; by split|]. apply (bool_decide_unpack _). vm_compute. exact I. Qed.

Lemma plain_all (p : path) : forallb (fun c => bool_decide (plain c)) p = true -> Forall plain p.
Proof.
  induction p as [|c p IH]; [done|]. simpl. intros [Hc%bool_decide_eq_true Hp]%andb_true_iff.
  constructor; auto.
Qed.
End SnapSample.

Section witnesses.
Import Sample SnapSample.

(** A file system is a tree when each entry passes the test. *)
Definition fs_wfb (f : fs) : bool :=
  forallb (fun '(p, _) => bool_decide (p <> []) && bool_decide (node_at f (parent p) = Some DirN) &&
                          forallb (fun c => bool_decide (plain c)) p) (map_to_list f).

Lemma fs_wfb_ok f : fs_wfb f = true -> fs_wf f.
Proof.
  intros H p n Hn. apply elem_of_map_to_list, list_elem_of_In in Hn.
  pose proof (proj1 (forallb_forall _ _) H _ Hn) as Hp. simpl in Hp.
  apply andb_true_iff in Hp as [Hp H3]. apply andb_true_iff in Hp as [H1 H2].
  split; [by apply bool_decide_eq_true in H1|].
  split; [by apply bool_decide_eq_true in H2|by apply plain_all].
Qed.

Lemma forced_failure_loses_target_witness :
  let w := sample_host torn in
  exists e w', restore_local ["out"] "alpha" ["old"] true (stamp "t") w = (Err e, w') /\
    fsys w !! ["old"; "notes"] = Some (FileN "precious") /\ fsys w' !! ["old"; "notes"] = None.
Proof.
  assert (accepted ["out"] "alpha" ["old"] sample_data (sample_host torn)) as Ha.
  { split; try (vm_compute; reflexivity).
    - exact sample_data_wf.
    - split; [apply plain_all; reflexivity|discriminate].
    - split; [vm_compute; reflexivity|vm_compute; discriminate].
    - exact sample_index. }
  assert (fst (restore_local ["out"] "alpha" ["old"] true (stamp "t") (sample_host torn)) =
          Err (RawStream ZstdErr)) as He by (vm_compute; reflexivity).
  destruct (restore_local ["out"] "alpha" ["old"] true (stamp "t") (sample_host torn)) as [r w'] eqn:Hr.
  simpl in He. subst r. exists (RawStream ZstdErr), w'. split; [exact Hr|].
  split; [vm_compute; reflexivity|].
  apply (forced_failure_loses_target ["out"] "alpha" ["old"] sample_data (sample_host torn)
    (stamp "t") (RawStream ZstdErr) w' Ha Hr). by exists ["notes"].
Defined.

(** The archive at [/old/a.tar.zst], restored with [--force] into [/old]. *)
Definition inside_host : host :=
  mkHost (<[["old"; "a.tar.zst"] := FileN (write_archive good)]> (sample_fs good))
    (rworld (sample_host good)).

Lemma forced_restore_deletes_its_archive_witness :
  exists e w', restore_local ["old"; "a.tar.zst"] "alpha" ["old"] true (stamp "t") inside_host = (Err e, w') /\
    fsys w' !! ["old"; "a.tar.zst"] = None.
Proof.
  apply (forced_restore_deletes_its_archive ["old"; "a.tar.zst"] "alpha" ["old"] sample_data
    inside_host (stamp "t")); [|by exists ["a.tar.zst"]].
  split; try (vm_compute; reflexivity).
  - exact sample_data_wf.
  - split; [apply plain_all; reflexivity|discriminate].
  - split; [vm_compute; reflexivity|vm_compute; discriminate].
  - exact sample_index.
Defined.

Lemma extraction_is_bounded_witness :
  let s := snd ((extract_all ["new"] (entries torn) ;; extract_end ["new"] (last_read torn))
                  (mkX (sample_fs torn) 0)) in
  (fs_data (x_fs s) <= fs_data (sample_fs torn) + x_total s /\
   fs_data (x_fs s) <= fs_data (sample_fs torn) + _MAX_EXTRACT_BYTES) /\
  fs_bytes (x_fs s) <= fs_bytes (sample_fs torn) + x_total s /\
  fs_bytes (x_fs s) <= fs_bytes (sample_fs torn) + _MAX_EXTRACT_BYTES.
Proof.
  destruct (extraction_is_bounded ["new"] torn (sample_fs torn)) as [H1 H2].
  - split; [|exact I]. constructor; [|constructor]. split; vm_compute; discriminate.
  - split; [exact H1|]. apply H2. by repeat constructor.
Defined.

(** A sparse member of two segments: what lies between them is zero, and the size is the
    declared one. *)
Example sparse_member_extracted :
  let a := mkArchive [mkEntry "./s" (Sparse [(2, ["ab"; "c"]); (8, ["d"])]%nat 10) 1024 [] 509] (Eof 1024) in
  let '(r, s) := (extract_all ["new"] (entries a) ;; extract_end ["new"] (last_read a))
                   (mkX (<[["new"] := DirN]> ∅) 0) in
  r = Ok tt /\ x_total s = 2561 /\
  (match x_fs s !! ["new"; "s"] with Some (FileN c) => map nat_of_ascii (chars c) | _ => [] end) =
    [0; 0; 97; 98; 99; 0; 0; 0; 100; 0]%nat.
Proof. by vm_compute. Qed.

(** A registered instance, packed. *)
Definition source_fs : fs :=
  list_to_map [(["i"], DirN); (["i"; "beetroot.yaml"], FileN sample_yaml); (["i"; ".env"], FileN "X=1");
               (["i"; "data"], DirN); (["i"; "data"; "a"], FileN "hello");
               (["i"; "i.tar.zst"], FileN ""); (["new"], DirN)].

Lemma pack_extract_roundtrip_witness :
  let m := members source_fs ["i"] ["i"; "i.tar.zst"] sample_manifest in
  exists g' total,
    (extract_all ["new"] m ;; extract_end ["new"] (Eof (eof_bytes m))) (mkX source_fs 0) =
      (Ok tt, mkX g' total) /\
    g' !! ["new"; "data"; "a"] = Some (FileN "hello") /\ g' !! ["new"; ".env"] = None.
Proof.
  destruct (pack_extract_roundtrip source_fs ["i"] ["i"; "i.tar.zst"]
    ltac:(apply fs_wfb_ok; vm_compute; reflexivity) ltac:(vm_compute; discriminate)
    sample_manifest ["new"] ltac:(intros; vm_compute; discriminate) source_fs) as (g' & total & H1 & H2 & _).
  - vm_compute. reflexivity.
  - intros rel Hr. destruct (source_fs !! (["new"] ++ rel)) as [n|] eqn:Hn; [|reflexivity].
    apply elem_of_map_to_list in Hn. vm_compute in Hn. exfalso.
    repeat (apply elem_of_cons in Hn as [Hn|Hn]; [by simplify_eq|]).
    by apply not_elem_of_nil in Hn.
  - vm_compute. discriminate.
  - vm_compute. discriminate.
  - exists g', total. split; [exact H1|]. split.
    + etransitivity; [apply (H2 ["data"; "a"]); discriminate|vm_compute; reflexivity].
    + etransitivity; [apply (H2 [".env"]); discriminate|vm_compute; reflexivity].
Defined.

Definition source_host : host :=
  mkHost source_fs (world_of (Some (Doc (_registry_to_json
    [("alpha", mkInstanceMeta (RedroidBackendConfig "/i" [("frida_bin", "/x/y")]) 0 (stamp "t"))])))).

Lemma snapshot_manifest_witness :
  exists dest w', snapshot ["i"] ["i"] "alpha" "2026-01-01" "0.6" source_host = (Ok dest, w') /\
    dest = ["i"; "alpha.tar.zst"] /\ rworld w' = rworld source_host /\
    fst (read_manifest dest w') = Ok sample_manifest.
Proof.
  assert (fst (snapshot ["i"] ["i"] "alpha" "2026-01-01" "0.6" source_host) =
          Ok ["i"; "alpha.tar.zst"]) as He by (vm_compute; reflexivity).
  destruct (snapshot ["i"] ["i"] "alpha" "2026-01-01" "0.6" source_host) as [r w'] eqn:Hr.
  simpl in He. subst r. exists ["i"; "alpha.tar.zst"], w'. split; [reflexivity|].
  destruct (snapshot_manifest ["i"] ["i"] "alpha" "2026-01-01" "0.6"
    [("alpha", mkInstanceMeta (RedroidBackendConfig "/i" [("frida_bin", "/x/y")]) 0 (stamp "t"))]
    source_host ["i"; "alpha.tar.zst"] w' sample_codec eq_refl) as (H1 & H2 & n & mt & d & sp & lc & Hin & Hb & _ & Hlc & Hm);
    [|exact Hr|].
  - split; [apply (bool_decide_unpack (Dict.wf _)); vm_compute; exact I|by repeat constructor].
  - split; [exact H1|]. split; [exact H2|]. apply list_elem_of_singleton in Hin.
    injection Hin as -> ->. injection Hb as <- <-. rewrite Hm, Hlc. vm_compute. reflexivity.
Defined.
End witnesses.
