(* ===== verification/Api.v ===== *)
(** * [src/src/beetroot/api.py]: instances and the manager

    The [Instance] constructors and verbs and the listings of [Manager], composed from
    the components they call.  One [world] holds what all of them share: the file system
    and the registry ([Snapshot.host]), the caches of the bundled assets and the docker
    calls ([Compose]), the requests and notes of the downloaders ([Download]).  A method
    runs over the [Instance] object as well, since it changes its fields.  The advisory
    lock of an instance is its file only: one process runs at a time. *)
From stdpp Require Import base list strings gmap sorting.
From Stdlib Require Import ZArith QArith Lia Ascii.
From S2P Require Import Prelude PyStr Config Ports Registry Render HostFs Paths Compose Download ModulesDownload FridaDownload Snapshot.
Local Open Scope stdpp_scope.
Local Open Scope Z_scope.

Definition _MINIMAL_BEETROOT_YAML : string :=
  "api_version: " +:+ str_of_Z SUPPORTED_API_VERSION +:+ nl +:+
  "android:" +:+ nl +:+ "  version: " +:+ str_of_Z DEFAULT_ANDROID_VERSION +:+ nl.

Inductive api_note : Type :=
| NetworkStageFailed (name : string)
| InertFields (name : string) (fields : list inert_field)
| RootfsSkew (baked configured : Z).

(** ** World, objects and errors *)

Record world := mkApi {
  base : host;
  compose_cache : option path; vm_cache : option path; compose_calls : list call;
  requests_made : nat; dl_notes : list dl_note;
  printed : list api_note }.

(** The object; [i_index] is the cached property [index]. *)
Record Instance := mkInstance {
  i_name : string; i_root : path; i_cfg : InstanceConfig; i_index : option Z }.

Inductive api_error : Type :=
| Snap (e : snap_error) | Dl (e : dl_error) | Cmp (e : compose_error)
| LifecycleWithConfig                          (* ValueError *)
| NameInRegistry (name : string)               (* ValueError *)
| YamlThere (p : path)                         (* FileExistsError *)
| NoYamlFile (p : path)                        (* FileNotFoundError *)
| OverlapsPeer (name other : string)           (* ValueError *)
| NotFound (name : string)                     (* InstanceNotFoundError *)
| OrphanRow (name : string) (root : path)      (* InstanceNotFoundError *)
| Unregistered (root : path)                   (* InstanceNotFoundError *)
| NoRoot (e : root_error)
| NotConfirmed                                 (* ValueError *)
| NoFridaBlock (name : string)                 (* ValueError *)
| BadModule (e : cfg_error).                   (* ValidationError *)

(** [yaml.safe_dump(cfg.model_dump())]. *)
Class Dumper := { dump_config : InstanceConfig -> string }.

Definition w_fs (w : world) : fs := fsys (base w).
Definition w_reg (w : world) : Registry.world := rworld (base w).

Definition set_base (h : host) (w : world) : world :=
  mkApi h (compose_cache w) (vm_cache w) (compose_calls w) (requests_made w) (dl_notes w) (printed w).
Definition set_fs (f : fs) (w : world) : world := set_base (mkHost f (w_reg w)) w.

Definition net_of (w : world) : net := mkNet (w_fs w) (requests_made w) (dl_notes w).
Definition set_net (s : net) (w : world) : world :=
  mkApi (mkHost (nfs s) (w_reg w)) (compose_cache w) (vm_cache w) (compose_calls w)
    (requests s) (said s) (printed w).

Definition docker_of (w : world) : cworld :=
  mkCw (mkAssets (w_fs w) (compose_cache w) (vm_cache w)) (compose_calls w).
Definition set_docker (c : cworld) (w : world) : world :=
  mkApi (mkHost (c_fs c) (w_reg w)) (_BUNDLED_COMPOSE_CACHE (assets_of c))
    (_BUNDLED_VM_DIR_CACHE (assets_of c)) (calls c) (requests_made w) (dl_notes w) (printed w).

Abbreviation AM := (M world api_error).

Definition on_host {A} (m : M host snap_error A) : AM A := zoom base set_base Snap m.
Definition on_net {A} (m : DM A) : AM A := zoom net_of set_net Dl m.
Definition on_docker {A} (m : CM A) : AM A := zoom docker_of set_docker Cmp m.
Definition on_tree {A} (m : M fs os_error A) : AM A := on_host (on_fs m).
Definition print_note (n : api_note) : AM unit :=
  modify (fun w => mkApi (base w) (compose_cache w) (vm_cache w) (compose_calls w)
                     (requests_made w) (dl_notes w) (printed w ++ [n])).

(** [if p.exists(): shutil.rmtree(p)]. *)
Definition rmtree_if_there `{X : Externals} (p : path) : AM unit :=
  there ← gets (fun w => exists_at (w_fs w) p);
  if (there : bool) then on_tree (rmtree_at p) else mret tt.

Definition ports_of (idx : Z) (cfg : InstanceConfig) : AM (list ResolvedPort) :=
  on_host (resolved idx (ports cfg)).

Section api.
Context {P : Pydantic} {X : Externals} {Y : Layout} {W : Web} {H : FridaHost} {Z' : Lzma} {D : Docker} {U : Dumper}.
Variable fuel : nat.                           (* of the decompression loop *)

Definition rows_now : AM (list (string * InstanceMeta)) := on_host (on_reg list_instances).
Definition row_of (name : string) : AM (option InstanceMeta) := on_host (on_reg (Registry.get name)).

Definition write_yaml (p : path) (cfg : InstanceConfig) : AM unit :=
  on_tree (mkdir_p (parent p)) ;; on_tree (write_file p (dump_config cfg)).

(** ** Guards and staging *)

Definition _check_directory_overlap (name : string) (target_root : path) : AM unit :=
  rows ← rows_now;
  match overlapping target_root rows with
  | Some other => raise (OverlapsPeer name other)
  | None => mret tt
  end.

Definition _check_port_collisions (name : string) (new_ports : list ResolvedPort) : AM unit :=
  f ← gets w_fs;
  on_host (on_reg (assert_no_port_collision (sibling_yaml f) name new_ports)).

Definition stage_local (i : Instance) : AM unit :=
  on_host (_stage_local (i_name i) (i_root i) (i_cfg i)).

Definition _stage_network (i : Instance) : AM unit :=
  match frida (i_cfg i) with
  | Some fr =>
      _ ← on_net (frida_stage_for_instance fuel (i_root i) (frida_version fr) (frida_sha256 fr)
                    (binder (i_cfg i)));
      mret tt
  | None => mret tt
  end ;;
  _ ← on_net (stage_for_instance (i_root i) (modules (i_cfg i)));
  mret tt.

Definition _stage_network_soft (i : Instance) : AM unit :=
  catch (_stage_network i) (fun _ => print_note (NetworkStageFailed (i_name i))).

Definition _rollback_partial_create (name : string) (target_root : path) (created_dir : bool)
  : AM unit :=
  on_host (on_reg (remove name)) ;;
  if created_dir then rmtree_if_there target_root else mret tt.

Definition report_inert (cfg : InstanceConfig) (name : string) : AM unit :=
  match warn_inert_fields cfg with
  | Some l => print_note (InertFields name l)
  | None => mret tt
  end.

(** The backend a new row gets. *)
Definition backend_for (cfg : InstanceConfig) (root : path) : BackendConfig :=
  if bool_decide (binder cfg = binder_vm) then VmBackendConfig (path_str root)
  else RedroidBackendConfig (path_str root) [].

(** The common end of [create] and [register], from the allocation on. *)
Definition commit (i : Instance) (created_dir : bool) (now : datetime) : AM Instance :=
  idx ← on_host (on_reg (add_allocating (i_name i) None (Some (backend_for (i_cfg i) (i_root i))) now));
  rollback_on
    (new_ports ← ports_of idx (i_cfg i);
     _check_port_collisions (i_name i) new_ports ;;
     stage_local i)
    (_rollback_partial_create (i_name i) (i_root i) created_dir) ;;
  _stage_network_soft i ;;
  report_inert (i_cfg i) (i_name i) ;;
  mret i.

(** ** Constructors *)

Definition with_lifecycle (l : Lifecycle) (c : InstanceConfig) : InstanceConfig :=
  mkInstanceConfig (api_version c) l (android c) (display c) (resources c) (frida c) (modules c)
    (magisk c) (ports c) (binder c) (vm c).

(** [p] is the argument [path], as text. *)
Definition create (name : string) (p : option string) (cfg : option InstanceConfig)
    (lc : option Lifecycle) (now : datetime) : AM Instance :=
  on_host (lift (_validate_instance_name name)) ;;
  lift (raise_if (bool_decide (is_Some cfg) && bool_decide (is_Some lc)) LifecycleWithConfig) ;;
  known ← row_of name;
  lift (raise_if (bool_decide (is_Some known)) (NameInRegistry name)) ;;
  let target_root := resolve cwd (default name p) in
  let yaml_path := instance_yaml target_root in
  there ← gets (fun w => exists_at (w_fs w) yaml_path);
  lift (raise_if there (YamlThere yaml_path)) ;;
  _check_directory_overlap name target_root ;;
  let effective_cfg := default (with_lifecycle (default durable lc) InstanceConfig_default) cfg in
  created_dir ← gets (fun w => negb (exists_at (w_fs w) target_root));
  on_tree (mkdir_p target_root) ;;
  match cfg with
  | None =>
      let lifecycle_line := match lc with
                            | Some l => "lifecycle: " +:+ lifecycle_str l +:+ nl
                            | None => ""
                            end in
      on_tree (write_file yaml_path (_MINIMAL_BEETROOT_YAML +:+ lifecycle_line))
  | Some _ => write_yaml yaml_path effective_cfg
  end ;;
  commit (mkInstance name target_root effective_cfg None) created_dir now.

Definition register (p : string) (name : option string) (now : datetime) : AM Instance :=
  let target_root := resolve cwd p in
  let yaml_path := instance_yaml target_root in
  there ← gets (fun w => is_file_at (w_fs w) yaml_path);
  lift (raise_if (negb there) (NoYamlFile yaml_path)) ;;
  let resolved_name := default (path_name target_root) name in
  on_host (lift (_validate_instance_name resolved_name)) ;;
  known ← row_of resolved_name;
  lift (raise_if (bool_decide (is_Some known)) (NameInRegistry resolved_name)) ;;
  _check_directory_overlap resolved_name target_root ;;
  cfg ← on_host (load_yaml yaml_path);
  commit (mkInstance resolved_name target_root cfg None) false now.

(** [snapshot.restore]: the part that commits, then the soft network stage. *)
Definition restore (file : path) (dest_name : string) (target : path) (force : bool)
    (now : datetime) : AM path :=
  '(root, cfg) ← on_host (restore_local file dest_name target force now);
  _stage_network_soft (mkInstance dest_name root cfg None) ;;
  mret target.

Definition load (name : string) : AM Instance :=
  m ← row_of name;
  match m with
  | None => raise (NotFound name)
  | Some m =>
      match backend m with
      | RedroidBackendConfig p _ =>
          let root := resolve cwd p in
          cfg ← on_host (load_yaml (instance_yaml root));
          mret (mkInstance name root cfg None)
      | _ => raise (NotFound name)
      end
  end.

Definition from_meta (name : string) (b : BackendConfig) : AM Instance :=
  match b with
  | RedroidBackendConfig p _ =>
      let root := resolve cwd p in
      cfg ← catch (on_host (load_yaml (instance_yaml root))) (fun e =>
              match e with
              | Snap (ConfigFileErr NoSuchFile) => raise (OrphanRow name root)
              | _ => raise e
              end);
      mret (mkInstance name root cfg None)
  | _ => raise (NotFound name)
  end.

Fixpoint name_at (root : path) (rows : list (string * InstanceMeta)) : option string :=
  match rows with
  | [] => None
  | (n, m) :: rows' =>
      match backend m with
      | RedroidBackendConfig p _ => if decide (resolve cwd p = root) then Some n else name_at root rows'
      | _ => name_at root rows'
      end
  end.

(** [start] is the resolved argument. *)
Definition from_path (start : path) : AM Instance :=
  f ← gets w_fs;
  root ← lift (match instance_root f start with Ok r => Ok r | Err e => Err (NoRoot e) end);
  rows ← rows_now;
  match name_at root rows with
  | Some n =>
      cfg ← on_host (load_yaml (instance_yaml root));
      mret (mkInstance n root cfg None)
  | None => raise (Unregistered root)
  end.

(** ** Methods *)

Record obj := mkObj { self : Instance; env : world }.
Abbreviation IM := (M obj api_error).

Definition on_env {A} (m : AM A) : IM A := zoom env (fun w s => mkObj (self s) w) id m.
Definition me : IM Instance := gets self.
Definition set_self (g : Instance -> Instance) : IM unit := modify (fun s => mkObj (g (self s)) (env s)).
Definition set_cfg (c : InstanceConfig) : IM unit :=
  set_self (fun i => mkInstance (i_name i) (i_root i) c (i_index i)).

Definition _meta : IM InstanceMeta :=
  i ← me;
  m ← on_env (row_of (i_name i));
  match m with Some m => mret m | None => raise (NotFound (i_name i)) end.

Definition index_property : IM Z :=
  i ← me;
  match i_index i with
  | Some k => mret k
  | None =>
      m ← _meta;
      set_self (fun i => mkInstance (i_name i) (i_root i) (i_cfg i) (Some (Registry.index m))) ;;
      mret (Registry.index m)
  end.

Definition instance_ports : IM (list ResolvedPort) :=
  idx ← index_property; i ← me; on_env (ports_of idx (i_cfg i)).

(** What [up] and [apply] do before they stage. *)
Definition precheck : IM unit :=
  new_ports ← instance_ports;
  i ← me;
  on_env (_check_port_collisions (i_name i) new_ports).

Definition status : IM ComposeStatus := i ← me; on_env (on_docker (ps_status (i_name i) (i_root i))).

Definition instance_up : IM unit :=
  i ← me;
  complete ← gets (fun s => is_file_at (w_fs (env s)) (instance_compose_override (i_root i)) &&
                            is_file_at (w_fs (env s)) (instance_env (i_root i)));
  (if (complete : bool) then mret tt
   else precheck ;; i' ← me; on_env (stage_local i')) ;;
  on_env (on_docker (Compose.up (i_name i) (i_root i))).

Definition instance_down : IM unit :=
  i ← me; on_env (on_docker (Compose.down (i_name i) (i_root i) false)).

Definition instance_restart : IM unit := instance_down ;; instance_up.

Definition binder_str (b : Binder) : string :=
  match b with binder_auto => "auto" | binder_host => "host" | binder_vm => "vm" end.

Definition apply : IM unit :=
  i ← me;
  cfg ← on_env (on_host (load_yaml (instance_yaml (i_root i))));
  set_cfg cfg ;;
  precheck ;;
  i ← me;
  on_env (stage_local i) ;;
  _ ← on_env (on_host (on_reg (reconcile_backend_kind (i_name i) (binder_str (binder (i_cfg i))))));
  on_env (_stage_network i) ;;
  on_env (report_inert (i_cfg i) (i_name i)).

Definition _stage : IM unit := i ← me; on_env (stage_local i) ;; on_env (_stage_network i).

(** Not reserved: another process may take the index before it is used. *)
Definition _allocate_port_index : AM (option Z) :=
  used ← on_host (on_reg used_indices); mret (lowest_free_index used).

(** [Instance.snapshot]; the destination as [snapshot] of [snapshot.py] takes it. *)
Definition instance_snapshot (i : Instance) (dest_dir : path) (dest_name created version : string) : AM path :=
  on_host (Snapshot.snapshot (i_root i) dest_dir dest_name created version).

Definition lock_root (root : path) : AM unit := on_host (instance_lock root).

Definition _teardown_under_lock (name : string) (root : path) : AM unit :=
  compose_error ← catch (on_docker (Compose.down name root true) ;; mret None)
                    (fun e => match e with
                              | Cmp c => if is_ComposeError c then mret (Some e) else raise e
                              | _ => raise e
                              end);
  on_host (on_reg (remove name)) ;;
  rmtree_if_there root ;;
  match compose_error with Some e => raise e | None => mret tt end.

Definition destroy (yes : bool) : IM unit :=
  lift (raise_if (negb yes) NotConfirmed) ;;
  i ← me;
  there ← gets (fun s => exists_at (w_fs (env s)) (i_root i));
  (if (there : bool) then on_env (lock_root (i_root i)) else mret tt) ;;
  on_env (_teardown_under_lock (i_name i) (i_root i)).

Definition reset (yes : bool) : IM unit :=
  lift (raise_if (negb yes) NotConfirmed) ;;
  i ← me;
  on_env (lock_root (i_root i)) ;;
  on_env (on_docker (Compose.down (i_name i) (i_root i) false)) ;;
  on_env (rmtree_if_there (instance_data (i_root i))) ;;
  on_env (on_tree (mkdir_p (instance_data (i_root i)))).

Definition install_frida (version : option string) : IM unit :=
  i ← me;
  v ← lift (match version with
            | Some v => Ok v
            | None => match frida (i_cfg i) with
                      | Some fr => Ok (frida_version fr)
                      | None => Err (NoFridaBlock (i_name i))
                      end
            end);
  _ ← on_env (on_net (frida_stage_for_instance fuel (i_root i) v None (binder (i_cfg i))));
  mret tt.

Definition instance_logs (follow : bool) : IM unit :=
  i ← me; on_env (on_docker (Compose.logs (i_name i) (i_root i) follow)).

Definition with_modules (l : list Module_) (c : InstanceConfig) : InstanceConfig :=
  mkInstanceConfig (api_version c) (lifecycle c) (android c) (display c) (resources c) (frida c) l
    (magisk c) (ports c) (binder c) (vm c).

Definition add_module (source : string) (sha256 : option string) : IM unit :=
  let given := if starts_with "http://" source || starts_with "https://" source
               then mkModule (Some source) None sha256 else mkModule None (Some source) sha256 in
  new_module ← lift (match Module_validate given with Ok m => Ok m | Err e => Err (BadModule e) end);
  i ← me;
  let transient := with_modules (modules (i_cfg i) ++ [new_module]) (i_cfg i) in
  _ ← on_env (on_net (stage_for_instance (i_root i) (modules transient)));
  set_cfg transient ;;
  on_env (write_yaml (instance_yaml (i_root i)) transient).

(** ** The manager *)

Definition name_le (a b : string * InstanceMeta) : Prop := string_le a.1 b.1.
#[export] Instance name_le_dec a b : Decision (name_le a b).
Proof. unfold name_le. apply _. Defined.

Definition has_yaml_file (w : world) (p : string) : bool :=
  is_file_at (w_fs w) (instance_yaml (resolve cwd p)).

Fixpoint healthy (rows : list (string * InstanceMeta)) : AM (list Instance) :=
  match rows with
  | [] => mret []
  | (n, m) :: rows' =>
      match backend m with
      | RedroidBackendConfig p _ =>
          there ← gets (fun w => has_yaml_file w p);
          if (there : bool) then
            found ← catch (i ← load n; mret [i]) (fun _ => mret []);
            rest ← healthy rows';
            mret (found ++ rest)
          else healthy rows'
      | _ => healthy rows'
      end
  end.

Definition manager_list_instances : AM (list Instance) :=
  rows ← rows_now; healthy (merge_sort name_le rows).

Fixpoint orphans (rows : list (string * InstanceMeta)) : AM (list string) :=
  match rows with
  | [] => mret []
  | (n, m) :: rows' =>
      match backend m with
      | RedroidBackendConfig p _ =>
          there ← gets (fun w => has_yaml_file w p);
          parses ← (if (there : bool)
                    then catch (on_host (load_yaml (instance_yaml (resolve cwd p))) ;; mret true)
                           (fun _ => mret false)
                    else mret false);
          rest ← orphans rows';
          mret (if (parses : bool) then rest else n :: rest)
      | _ => orphans rows'
      end
  end.

Definition list_orphans : AM (list string) :=
  rows ← rows_now; l ← orphans rows; mret (merge_sort string_le l).
End api.
