(* ===== verification/ApiInv.v ===== *)
(** * The registry under the whole API

    Every constructor and verb of [Api], and [restore], as a transition on the registry:
    no command, however it ends and whatever object it is called on, lets two instances
    share a port index or have nested directories. *)
From stdpp Require Import base list strings gmap sorting relations.
From Stdlib Require Import ZArith QArith Lia.
From S2P Require Import Prelude PyStr Config Ports Registry RegistryOps Render HostFs Paths Compose Download ModulesDownload FridaDownload Snapshot SnapshotOps Api.
Local Open Scope stdpp_scope.
Local Open Scope Z_scope.

Section registry.
Context `{P : Pydantic} `{L : !PydanticLaws P} {X : Externals}.
Abbreviation RegistryFile := (list (string * InstanceMeta)).
Implicit Types (data : RegistryFile) (r : Registry.world).

(** The rows the file stands for; a missing file stands for none. *)
Definition holds data r : Prop :=
  (reg r = None /\ data = []) \/ reg r = Some (Doc (_registry_to_json data)).

Definition at_ (F : RegistryFile -> Prop) r : Prop :=
  exists data, holds data r /\ data_inv data /\ F data.

Lemma holds_opened data r : holds data r -> file_wf data ->
  exists r1, opened r = (Ok data, r1) /\ holds data r1.
Proof.
  intros [[Hn ->]|Hr] Hd.
  - exists (stored [] r). split; [by apply opened_missing|by right].
  - exists r. split; [by apply opened_written|by right].
Qed.

Lemma holds_list data r : holds data r -> file_wf data ->
  wp list_instances (fun d r' => d = data /\ holds data r') (fun _ r' => holds data r') r.
Proof.
  intros [[Hn ->]|Hr] Hd; unfold wp.
  - unfold list_instances. rewrite Hn. unfold mbind, M_bind, _check_v02_registry_at_cwd.
    rewrite Hn. assert (forall r', reg r' = None -> holds [] r') as Hh by (by left).
    destruct (v02_hint r); [by split; [|apply Hh]|].
    destruct (cwd_json r) as [[| |j]|]; try (by split; [|apply Hh]); try by apply Hh.
    destruct (v02_shape j); by split; [|apply Hh].
  - rewrite (list_written _ _ Hr Hd). by split; [|right].
Qed.

Lemma holds_get name data r : holds data r -> file_wf data ->
  wp (Registry.get name) (fun m r' => m = Dict.get name data /\ holds data r') (fun _ r' => holds data r') r.
Proof.
  intros Hr Hd. apply wp_bind. eapply wp_mono; [by apply holds_list| |done].
  intros d r' [-> ?]. by apply wp_ret.
Qed.

Lemma list_carries F : preserves (carries (at_ F)) list_instances.
Proof.
  intros r (data & Hr & Hd & HF). pose proof (holds_list data r Hr (di_wf _ Hd)) as H. unfold wp in H.
  destruct (list_instances r) as [[d|e] r1]; simpl; exists data; naive_solver.
Qed.

Lemma get_carries F name : preserves (carries (at_ F)) (Registry.get name).
Proof. apply preserves_bind; [apply _|apply list_carries|intros a; apply preserves_ret, _]. Qed.

(** A locked operation whose continuation, run on the rows it read, ends in [J]. *)
Lemma locked_carries {A} F (J : Registry.world -> Prop) (k : RegistryFile -> M Registry.world reg_error A) :
  (forall data r, holds data r -> data_inv data -> F data -> J (snd (k data r))) ->
  forall r, at_ F r -> J (snd ((_locked_exclusive ;; data ← _read; k data) r)).
Proof.
  intros Hk r (data & Hr & Hd & HF). destruct (holds_opened data r Hr (di_wf _ Hd)) as (r1 & Ho & Hr1).
  rewrite locked_then, Ho. by apply Hk.
Qed.

Lemma at_stored (F : RegistryFile -> Prop) data r : data_inv data -> F data -> at_ F (stored data r).
Proof. intros Hd HF. exists data. split; [by right|done]. Qed.

Lemma collision_carries F load name l :
  preserves (carries (at_ F)) (assert_no_port_collision load name l).
Proof.
  intros r Hr. unfold assert_no_port_collision. revert r Hr. apply (locked_carries F).
  intros data r Hr Hd HF. assert (at_ F r) by (by exists data).
  unfold mbind, M_bind, lift. destruct (_resolved_host_ports_from load data); [|done].
  by destruct (find_port_collision _ _) as [[[] ?]|].
Qed.

(** ** Disjoint directories *)

Definition dirs_disjoint data : Prop := forall n1 n2 m1 m2 d1 d2,
  (n1, m1) ∈ data -> (n2, m2) ∈ data -> n1 <> n2 ->
  registered_dir (backend m1) = Some d1 -> registered_dir (backend m2) = Some d2 ->
  overlaps d1 d2 = false.

Definition clear_of (target : path) data : Prop :=
  dirs_disjoint data /\ overlapping target data = None.

Abbreviation safe := (at_ dirs_disjoint).

Lemma clear_safe target r : at_ (clear_of target) r -> safe r.
Proof. intros (data & ? & ? & ? & _). by exists data. Qed.

Lemma overlaps_sym a b : overlaps a b = overlaps b a.
Proof. unfold overlaps. apply orb_comm. Qed.

Lemma elem_pop data name n m : (n, m) ∈ Dict.pop name data -> (n, m) ∈ data.
Proof.
  intros H. eapply elem_of_submseteq; [exact H|]. apply sublist_submseteq, Dict.pop_sublist.
Qed.

Lemma pop_disjoint data name : dirs_disjoint data -> dirs_disjoint (Dict.pop name data).
Proof. intros H n1 n2 m1 m2 d1 d2 H1%elem_pop H2%elem_pop. by apply H. Qed.

(** Rewriting a row on the same directory. *)
Lemma elem_set data name m n m' :
  Dict.wf data -> (n, m') ∈ Dict.set name m data -> (n = name /\ m' = m) \/ (n <> name /\ (n, m') ∈ data).
Proof.
  intros Hwf Hin. pose proof (Dict.elem_get n m' _ (Dict.wf_set _ _ _ Hwf) Hin) as Hg.
  destruct (decide (n = name)) as [->|Hne].
  - left. rewrite Dict.get_set_eq in Hg. by simplify_eq.
  - right. split; [done|]. rewrite Dict.get_set_ne in Hg by done. by apply Dict.get_Some_elem.
Qed.

Lemma set_disjoint data name m b :
  Dict.wf data -> Dict.get name data = Some m -> registered_dir b = registered_dir (backend m) ->
  dirs_disjoint data -> dirs_disjoint (Dict.set name (mkInstanceMeta b (index m) (created_at m)) data).
Proof.
  intros Hwf Hg Hb H n1 n2 m1 m2 d1 d2 H1 H2 Hne.
  apply Dict.get_Some_elem in Hg.
  apply (elem_set _ _ _ _ _ Hwf) in H1 as [[-> ->]|[_ H1]], H2 as [[-> ->]|[_ H2]]; simpl; rewrite ?Hb; eauto.
Qed.

Lemma add_disjoint data name m target :
  registered_dir (backend m) = Some target -> clear_of target data -> dirs_disjoint (data ++ [(name, m)]).
Proof.
  intros Hm [H Ho] n1 n2 m1 m2 d1 d2 H1 H2 Hne Hd1 Hd2.
  apply elem_of_app in H1 as [H1|H1], H2 as [H2|H2]; try apply list_elem_of_singleton in H1;
    try apply list_elem_of_singleton in H2; simplify_eq; [eauto| |].
  - rewrite overlaps_sym. by eapply overlapping_none.
  - by eapply overlapping_none.
Qed.

Lemma remove_carries name : preserves (carries safe) (remove name).
Proof.
  intros r Hr. unfold remove. revert r Hr. apply locked_carries. intros data r _ Hd Hj.
  by apply at_stored; [apply data_inv_pop|apply pop_disjoint].
Qed.

Lemma stealth_carries name sp : preserves (carries safe) (set_stealth_paths name sp).
Proof.
  intros r Hr. unfold set_stealth_paths. revert r Hr. apply locked_carries. intros data r Hr Hd Hj.
  assert (safe r) by (by exists data).
  destruct (Dict.get name data) as [m|] eqn:Hg; [|done].
  destruct (backend m) eqn:Hb; try done. apply at_stored; [by apply data_inv_set, redroid_ok|].
  apply set_disjoint; try done; [apply Hd|by rewrite Hb].
Qed.

Lemma reconcile_carries name b : preserves (carries safe) (reconcile_backend_kind name b).
Proof.
  intros r Hr. unfold reconcile_backend_kind. revert r Hr. apply locked_carries. intros data r Hr Hd Hj.
  assert (safe r) by (by exists data).
  destruct (Dict.get name data) as [m|] eqn:Hg; [|done].
  destruct (backend m) eqn:Hb; try done; destruct (String.eqb b "vm"); try done;
    (apply at_stored; [apply data_inv_set; auto using vm_ok, redroid_ok|]);
    (apply set_disjoint; [apply Hd|done|by rewrite Hb|done]).
Qed.

Lemma add_safe name b target now r :
  registered_dir b = Some target -> backend_ok b -> at_ (clear_of target) r ->
  safe (snd (add_allocating name None (Some b) now r)).
Proof.
  intros Hb Hok (data & Hr & Hd & Hc). destruct (holds_opened data r Hr (di_wf _ Hd)) as (r1 & Ho & Hr1).
  assert (safe r1) as Hs by (exists data; split_and!; [done..|apply Hc]).
  pose proof (add_allocating_cases name None (Some b) now r data r1 Ho) as H. simpl in H.
  destruct (Dict.mem name data) eqn:Hm; [by rewrite H|].
  destruct H as (i & Hi & Hn & _ & ->). case_decide; [|done]. simpl. apply at_stored.
  - apply data_inv_add; simpl; try done. unfold Dict.mem in Hm. by destruct (Dict.get name data).
  - by apply (add_disjoint data name (mkInstanceMeta b i now) target).
Qed.
End registry.

(** ** Every step of the API carries them along *)

Section api.
Context `{P : Pydantic} `{L : !PydanticLaws P} {X : Externals} {Y : Layout} {W : Web} {H : FridaHost} {Z' : Lzma} {D : Docker} {U : Dumper}.
Variable fuel : nat.
Abbreviation safe := (at_ dirs_disjoint).

Definition host_has (J : Registry.world -> Prop) (h : host) : Prop := J (rworld h).
Definition has (J : Registry.world -> Prop) (w : world) : Prop := J (w_reg w).
Definition obj_has (J : Registry.world -> Prop) (s : obj) : Prop := J (w_reg (env s)).

Section levels.
Variable J : Registry.world -> Prop.
Abbreviation host_carries := (preserves (carries (host_has J))).
Abbreviation api_carries := (preserves (carries (has J))).
Abbreviation obj_carries := (preserves (carries (obj_has J))).

Lemma host_on_reg {A} (m : M Registry.world reg_error A) :
  preserves (carries J) m -> host_carries (on_reg m).
Proof. intros Hm h. specialize (Hm (rworld h)). unfold on_reg. by destruct (m (rworld h)) as [[] ?]. Qed.

Lemma host_same {A} (m : M host snap_error A) :
  (forall h, rworld (snd (m h)) = rworld h) -> host_carries m.
Proof. intros Hm h. unfold carries, host_has. by rewrite Hm. Qed.

Lemma host_on_fs {A} (m : M fs os_error A) : host_carries (on_fs m).
Proof. apply host_same. intros h. unfold on_fs. by destruct (m (fsys h)) as [[] ?]. Qed.

Lemma host_load p : host_carries (load_yaml p).
Proof. apply host_same. intros h. by rewrite load_yaml_same. Qed.

Lemma host_resolved i l : host_carries (resolved i l).
Proof. apply preserves_lift, _. Qed.

Lemma host_rollback {A} (m : M host snap_error A) h :
  host_carries m -> host_carries h -> host_carries (rollback_on m h).
Proof.
  intros Hm Hh s Hs. unfold rollback_on. specialize (Hm s Hs). destruct (m s) as [[a|e] s1]; [done|].
  revert s1 Hm. change (preserves (carries (host_has J)) (h ;; raise e : M host snap_error A)).
  apply preserves_bind; [apply _|done|intros ?; apply preserves_raise, _].
Qed.

Lemma api_on_host {A} (m : M host snap_error A) : host_carries m -> api_carries (on_host m).
Proof. intros Hm. eapply preserves_zoom; [exact Hm|]. by intros s t Ht. Qed.

Lemma api_on_net {A} (m : DM A) : api_carries (on_net m).
Proof. intros w Hw. unfold on_net, zoom. destruct (m (net_of w)) as [[a|e] t]; exact Hw. Qed.

Lemma api_on_docker {A} (m : CM A) : api_carries (on_docker m).
Proof. intros w Hw. unfold on_docker, zoom. destruct (m (docker_of w)) as [[a|e] t]; exact Hw. Qed.

Lemma api_on_tree {A} (m : M fs os_error A) : api_carries (on_tree m).
Proof. apply api_on_host, host_on_fs. Qed.

Lemma api_note_printed n : api_carries (print_note n).
Proof. intros w Hw. exact Hw. Qed.

Lemma api_rollback {A} (m : M world api_error A) h :
  api_carries m -> api_carries h -> api_carries (rollback_on m h).
Proof.
  intros Hm Hh s Hs. unfold rollback_on. specialize (Hm s Hs). destruct (m s) as [[a|e] s1]; [done|].
  revert s1 Hm. change (preserves (carries (has J)) (h ;; raise e : M world api_error A)).
  apply preserves_bind; [apply _|done|intros ?; apply preserves_raise, _].
Qed.

Lemma obj_on_env {A} (m : M world api_error A) : api_carries m -> obj_carries (on_env m).
Proof. intros Hm. eapply preserves_zoom; [exact Hm|]. by intros s t Ht. Qed.

Lemma obj_set_self g : obj_carries (set_self g).
Proof. intros s Hs. exact Hs. Qed.
End levels.

Lemma host_list F : preserves (carries (host_has (at_ F))) (on_reg list_instances).
Proof. apply host_on_reg, list_carries. Qed.
Lemma host_get F n : preserves (carries (host_has (at_ F))) (on_reg (Registry.get n)).
Proof. apply host_on_reg, get_carries. Qed.

#[local] Hint Resolve preserves_ret preserves_raise preserves_lift preserves_gets host_on_fs host_load
  host_resolved host_list host_get api_on_net api_on_docker api_on_tree api_note_printed
  obj_set_self : carry.
#[local] Hint Extern 1 (PreOrder _) => apply _ : carry.

(** Sequences, branches and handlers of steps that carry the predicate. *)
Ltac carry :=
  repeat (cbn beta iota zeta; first
    [ solve [auto with carry]
    | apply preserves_bind; [apply _| |intros ?]
    | apply preserves_catch; [apply _| |intros ?]
    | apply host_rollback | apply api_rollback | apply api_on_host | apply obj_on_env
    | apply host_on_reg | case_match ]).

Lemma stage_local_carries F name root cfg :
  preserves (carries (host_has (at_ F))) (_stage_local name root cfg).
Proof. unfold _stage_local, stage_empty. carry. Qed.

Lemma all_ports_carries F load :
  preserves (carries (at_ F)) (all_resolved_host_ports load).
Proof. apply preserves_bind; [apply _|apply list_carries|intros ?; apply preserves_lift, _]. Qed.

#[local] Hint Resolve stage_local_carries all_ports_carries remove_carries stealth_carries
  reconcile_carries collision_carries list_carries get_carries : carry.

Lemma extract_carries J file target : preserves (carries (host_has J)) (_extract_archive_into file target).
Proof.
  apply preserves_bind; [apply _| |intros a; apply preserves_bind; [apply _| |intros ?; carry]].
  - apply host_same. intros h. by rewrite open_archive_same.
  - apply host_same. intros h. apply through_cap_reg.
Qed.
#[local] Hint Resolve extract_carries : carry.

Lemma restore_body_carries file name target i m :
  preserves (carries (host_has safe)) (restore_body file name target i m).
Proof. unfold restore_body, _check_restored_port_collision, instance_load. carry. Qed.

Lemma modify_fs J (g : host -> host) :
  (forall h, rworld (g h) = rworld h) -> preserves (carries (host_has J)) (modify g : M host snap_error unit).
Proof. intros Hg. apply host_same. intros h. apply Hg. Qed.

(** The allocation, from a state in which the directory is clear. *)
Lemma add_then_carries {A} name b target now (k : Z -> M host snap_error A) h :
  registered_dir b = Some target -> backend_ok b ->
  (forall i, preserves (carries (host_has safe)) (k i)) ->
  host_has (at_ (clear_of target)) h ->
  host_has safe (snd ((on_reg (add_allocating name None (Some b) now) ≫= k) h)).
Proof.
  intros Hb Hok Hk Hh. pose proof (add_safe name b target now _ Hb Hok Hh) as Hs.
  unfold mbind, M_bind, on_reg. destruct (add_allocating _ _ _ _ (rworld h)) as [[i|e] r]; [|done].
  by apply Hk.
Qed.

Lemma host_clear_safe target h : host_has (at_ (clear_of target)) h -> host_has safe h.
Proof. apply clear_safe. Qed.

Lemma restore_into_safe file name target now m h :
  Forall plain target -> host_has (at_ (clear_of target)) h ->
  host_has safe (snd (restore_into file name target now m h)).
Proof.
  intros Ht Hh. unfold restore_into, mbind at 1, M_bind, gets.
  pose proof (host_on_fs (at_ (clear_of target)) (mkdir_p target) h Hh) as H1.
  unfold mbind at 1, M_bind. destruct (on_fs (mkdir_p target) h) as [[[]|e] h1]; simpl in H1;
    [|by eapply host_clear_safe].
  eapply add_then_carries; [|apply redroid_ok| |exact H1].
  - simpl. by rewrite path_str_resolve.
  - intros i. apply host_rollback; [apply restore_body_carries|]. unfold restore_rollback. carry.
Qed.

(** The guard: past it the directory is clear of every registered one. *)
Lemma prepare_clears target force h :
  host_has safe h ->
  wp (_prepare_destination target force) (fun _ => host_has (at_ (clear_of target)))
    (fun _ => host_has safe) h.
Proof.
  intros (data & Hr & Hd & Hj). unfold _prepare_destination. apply wp_bind, wp_gets, wp_bind, wp_lift.
  2: { intros e _. by exists data. }
  intros occ _. apply wp_bind. pose proof (holds_list data _ Hr (di_wf _ Hd)) as Hl.
  unfold wp, on_reg in *. destruct (list_instances (rworld h)) as [[d|e] r]; [|by exists data].
  destruct Hl as [-> Hl]. assert (forall h', rworld h' = r -> host_has safe h') as Hs
    by (intros h' Hh'; exists data; by rewrite Hh').
  destruct (overlapping target data) eqn:Ho; [by apply Hs|].
  assert (forall h', rworld h' = r -> host_has (at_ (clear_of target)) h') as Hc
    by (intros h' Hh'; exists data; by rewrite Hh').
  destruct occ; [|by apply Hc]. destruct force; [|by apply Hs]. simpl.
  pose proof (host_on_fs (at_ (clear_of target)) (rmtree_at target) _ (Hc (mkHost (fsys h) r) eq_refl)) as Hrm.
  destruct (on_fs (rmtree_at target) (mkHost (fsys h) r)) as [[u|e] h1]; [exact Hrm|by eapply host_clear_safe].
Qed.

Lemma restore_local_safe file name target force now h :
  Forall plain target -> host_has safe h -> host_has safe (snd (restore_local file name target force now h)).
Proof.
  intros Ht Hh.
  enough (wp (restore_local file name target force now) (fun _ => host_has safe) (fun _ => host_has safe) h) as Hw.
  { unfold wp in Hw. by destruct (restore_local file name target force now h) as [[] ?]. }
  unfold restore_local. apply wp_bind. eapply wp_mono; [apply wp_carries; [apply preserves_lift, _|exact Hh]| |done].
  intros [] h1 H1. apply wp_bind. eapply wp_mono; [apply wp_carries; [apply host_get|exact H1]| |done].
  intros known h2 H2. apply wp_bind. eapply wp_mono; [apply wp_carries; [apply preserves_lift, _|exact H2]| |done].
  intros [] h3 H3. apply wp_bind. eapply wp_mono; [apply (wp_carries (host_has safe))| |done]; [|exact H3|].
  { apply host_same. intros h'. by rewrite read_manifest_same. }
  intros m h4 H4. apply wp_bind. eapply wp_mono; [by apply prepare_clears| |done].
  intros [] h5 H5. pose proof (restore_into_safe file name target now m h5 Ht H5) as H6.
  unfold wp. by destruct (restore_into _ _ _ _ _ h5) as [[] ?].
Qed.

(** ** The commands *)

Hypothesis cwd_plain : Forall plain cwd.

Lemma load_carries F n : preserves (carries (has (at_ F))) (load n).
Proof. unfold load, row_of. carry. Qed.

Lemma overlap_clears name target w :
  has safe w ->
  wp (_check_directory_overlap name target) (fun _ => has (at_ (clear_of target))) (fun _ => has safe) w.
Proof.
  intros (data & Hr & Hd & Hj). unfold _check_directory_overlap, rows_now, on_host.
  apply wp_bind, wp_zoom. pose proof (holds_list data _ Hr (di_wf _ Hd)) as Hl.
  unfold wp, on_reg, w_reg in *. destruct (list_instances (rworld (base w))) as [[d|e] r]; [|by exists data].
  destruct Hl as [-> Hl]. destruct (overlapping target data) eqn:Ho; by exists data.
Qed.

Lemma backend_for_dir cfg root : Forall plain root ->
  registered_dir (backend_for cfg root) = Some root /\ backend_ok (backend_for cfg root).
Proof.
  intros Hp. unfold backend_for. case_bool_decide; (split;
    [simpl; by rewrite path_str_resolve|by apply vm_ok || apply redroid_ok]).
Qed.

Lemma rollback_carries name root c :
  preserves (carries (has safe)) (_rollback_partial_create name root c).
Proof. unfold _rollback_partial_create, rmtree_if_there. carry. Qed.

Lemma commit_safe i c now w :
  Forall plain (i_root i) -> has (at_ (clear_of (i_root i))) w -> has safe (snd (commit fuel i c now w)).
Proof.
  intros Hp Hw. destruct (backend_for_dir (i_cfg i) (i_root i) Hp) as [Hb Hok].
  pose proof (add_safe (i_name i) _ _ now _ Hb Hok Hw) as Hs.
  unfold commit, mbind at 1, M_bind, on_host, zoom, on_reg. fold (w_reg w).
  destruct (add_allocating _ _ _ _ (w_reg w)) as [[idx|e] r]; [|exact Hs]. simpl in Hs.
  set (w1 := set_base _ w). assert (has safe w1) as H1 by exact Hs. clearbody w1. revert w1 H1.
  change (preserves (carries (has safe))
    (rollback_on (new_ports ← ports_of idx (i_cfg i); _check_port_collisions (i_name i) new_ports ;; stage_local i)
       (_rollback_partial_create (i_name i) (i_root i) c) ;;
     _stage_network_soft fuel i ;; report_inert (i_cfg i) (i_name i) ;; mret i)).
  apply preserves_bind; [apply _| |intros _].
  - apply api_rollback; [|apply rollback_carries]. unfold ports_of, _check_port_collisions, stage_local. carry.
  - unfold _stage_network_soft, _stage_network, report_inert. carry.
Qed.

(** From a guard on, [create] and [register] end in a safe state. *)
Lemma wp_safe {A} (m : M world api_error A) w :
  wp m (fun _ => has safe) (fun _ => has safe) w -> has safe (snd (m w)).
Proof. unfold wp. by destruct (m w) as [[] ?]. Qed.

Lemma wp_commit i c now w :
  Forall plain (i_root i) -> has (at_ (clear_of (i_root i))) w ->
  wp (commit fuel i c now) (fun _ => has safe) (fun _ => has safe) w.
Proof.
  intros Hp Hw. pose proof (commit_safe i c now w Hp Hw) as Hs. unfold wp.
  by destruct (commit fuel i c now w) as [[] ?].
Qed.

(** A step that carries what holds, inside a [wp]. *)
Ltac step_carry Hw :=
  apply wp_bind; eapply wp_mono;
  [apply wp_carries; [|exact Hw]; carry
  |clear Hw; intros ? ? Hw
  |try (intros ? ? Hx; exact Hx); try (intros ? ? Hx; exact (clear_safe _ _ Hx))].

Lemma create_safe name p cfg lc now w :
  has safe w -> has safe (snd (create fuel name p cfg lc now w)).
Proof.
  intros Hw. apply wp_safe. unfold create, row_of.
  do 5 step_carry Hw.
  step_carry Hw.
  apply wp_bind. eapply wp_mono; [by apply overlap_clears| |done]. clear Hw. intros [] w1 Hw.
  assert (Forall plain (resolve cwd (default name p))) as Hp by (by apply resolve_plain).
  step_carry Hw. step_carry Hw.
  apply wp_bind. eapply wp_mono; [apply wp_carries; [|exact Hw]| |].
  { unfold write_yaml. destruct cfg; carry. }
  - intros [] w2 H2. by apply wp_commit.
  - intros e w2 H2. exact (clear_safe _ _ H2).
Qed.

Lemma register_safe p name now w : has safe w -> has safe (snd (register fuel p name now w)).
Proof.
  intros Hw. apply wp_safe. unfold register, row_of.
  do 5 step_carry Hw.
  apply wp_bind. eapply wp_mono; [by apply overlap_clears| |done]. clear Hw. intros [] w1 Hw.
  step_carry Hw. apply wp_commit; [by apply resolve_plain|done].
Qed.

Lemma from_path_carries F start : preserves (carries (has (at_ F))) (from_path start).
Proof. unfold from_path, rows_now. carry. Qed.

Lemma healthy_carries F rows : preserves (carries (has (at_ F))) (healthy rows).
Proof. induction rows as [|[n m] rows IH]; simpl; [|unfold load, row_of]; carry; exact IH. Qed.

Lemma orphans_carries F rows : preserves (carries (has (at_ F))) (orphans rows).
Proof. induction rows as [|[n m] rows IH]; simpl; carry; exact IH. Qed.

(** ** Methods *)

Inductive verb : Type :=
| VUp | VDown | VRestart | VStatus | VApply | VDestroy (yes : bool) | VReset (yes : bool)
| VInstallFrida (version : option string) | VLogs (follow : bool)
| VAddModule (source : string) (sha256 : option string).

Definition run_verb (v : verb) (s : obj) : obj :=
  match v with
  | VUp => snd (instance_up s)
  | VDown => snd (instance_down s)
  | VRestart => snd (instance_restart s)
  | VStatus => snd (status s)
  | VApply => snd (apply fuel s)
  | VDestroy yes => snd (destroy yes s)
  | VReset yes => snd (reset yes s)
  | VInstallFrida v => snd (install_frida fuel v s)
  | VLogs f => snd (instance_logs f s)
  | VAddModule src d => snd (add_module src d s)
  end.

Lemma precheck_carries : preserves (carries (obj_has safe)) precheck.
Proof.
  unfold precheck, instance_ports, index_property, _meta, me, row_of, ports_of, _check_port_collisions.
  carry.
Qed.
#[local] Hint Resolve precheck_carries : carry.

Lemma up_carries : preserves (carries (obj_has safe)) instance_up.
Proof. unfold instance_up, me, stage_local. carry. Qed.
#[local] Hint Resolve up_carries : carry.

Lemma down_carries : preserves (carries (obj_has safe)) instance_down.
Proof. unfold instance_down, me. carry. Qed.

Lemma lock_carries root : preserves (carries (has safe)) (lock_root root).
Proof. unfold lock_root, instance_lock. carry. Qed.
#[local] Hint Resolve lock_carries down_carries : carry.

Lemma teardown_carries name root : preserves (carries (has safe)) (_teardown_under_lock name root).
Proof. unfold _teardown_under_lock, rmtree_if_there. carry. Qed.
#[local] Hint Resolve teardown_carries : carry.

Lemma run_verb_safe v s : obj_has safe s -> obj_has safe (run_verb v s).
Proof.
  enough (forall A (m : M obj api_error A), preserves (carries (obj_has safe)) m ->
    obj_has safe s -> obj_has safe (snd (m s))) as Hm.
  { intros Hs. destruct v; simpl; apply Hm; try exact Hs.
    - carry.
    - carry.
    - unfold instance_restart. carry.
    - unfold status, me. carry.
    - unfold apply, me, set_cfg, stage_local, _stage_network, report_inert. carry.
    - unfold destroy, me. carry.
    - unfold reset, me, rmtree_if_there. carry.
    - unfold install_frida, me. carry.
    - unfold instance_logs, me. carry.
    - unfold add_module, me, set_cfg, write_yaml. carry. }
  intros A m Hm. exact (Hm s).
Qed.

(** ** Reachable states *)

(** A verb may run on any object, also one that is out of date or was built by hand. *)
Inductive command : Type :=
| Create (name : string) (p : option string) (cfg : option InstanceConfig) (lc : option Lifecycle)
    (now : datetime)
| Register (p : string) (name : option string) (now : datetime)
| Restore (file : path) (name : string) (target : path) (force : bool) (now : datetime)
| ListInstances | ListOrphans
| Verb (i : Instance) (v : verb).

Definition run_command (c : command) (w : world) : world :=
  match c with
  | Create n p cfg lc t => snd (create fuel n p cfg lc t w)
  | Register p n t => snd (register fuel p n t w)
  | Restore file n target force t => snd (restore fuel file n target force t w)
  | ListInstances => snd (manager_list_instances w)
  | ListOrphans => snd (list_orphans w)
  | Verb i v => env (run_verb v (mkObj i w))
  end.

(** A path given to [restore] is resolved. *)
Definition command_ok (c : command) : Prop :=
  match c with Restore _ _ target _ _ => Forall plain target | _ => True end.

Inductive api_step : world -> world -> Prop :=
| do_command c w : command_ok c -> api_step w (run_command c w).

Lemma restore_safe file name target force now w :
  Forall plain target -> has safe w -> has safe (snd (restore fuel file name target force now w)).
Proof.
  intros Ht Hw. pose proof (restore_local_safe file name target force now (base w) Ht Hw) as Hs.
  unfold restore, mbind at 1, M_bind, on_host, zoom.
  destruct (restore_local file name target force now (base w)) as [[[root cfg]|e] h]; [|exact Hs].
  assert (has safe (set_base h w)) as H1 by exact Hs. generalize dependent (set_base h w).
  change (preserves (carries (has safe)) (_stage_network_soft fuel (mkInstance name root cfg None) ;; mret target)).
  unfold _stage_network_soft, _stage_network. carry.
Qed.

Lemma command_safe c w : command_ok c -> has safe w -> has safe (run_command c w).
Proof.
  intros Hc Hw. destruct c as [n p cfg lc t|p n t|file n target force t| | |i v]; simpl.
  - by apply create_safe.
  - by apply register_safe.
  - by apply restore_safe.
  - revert w Hw. change (preserves (carries (has safe)) manager_list_instances).
    unfold manager_list_instances, rows_now.
    apply preserves_bind; [apply _|carry|intros rows; apply healthy_carries].
  - revert w Hw. change (preserves (carries (has safe)) list_orphans).
    unfold list_orphans, rows_now. apply preserves_bind; [apply _|carry|intros rows].
    apply preserves_bind; [apply _|apply orphans_carries|intros l; apply preserves_ret, _].
  - by apply (run_verb_safe v (mkObj i w)).
Qed.

Lemma reachable_safe w0 w : reg (w_reg w0) = None -> rtc api_step w0 w -> has safe w.
Proof.
  intros H0 Hsteps. assert (has safe w0) as Hs.
  { exists []. split; [by left|]. split; [apply data_inv_nil|]. intros n1 n2 m1 m2 d1 d2 Hin. set_solver. }
  clear H0. induction Hsteps as [|w1 w2 w3 [c w1' Hc] _ IH]; [done|]. by apply IH, command_safe.
Qed.

(** C1. No two instances ever share a port index or have nested directories: starting without
    a registry file, after any sequence of creations, registrations, restores, listings
    and verbs on any objects, however each of them ends, the registry reads as rows with
    distinct names, whose indices are distinct and in range and whose directories are
    neither equal nor inside one another. *)
Theorem instances_never_overlap w0 w :
  reg (w_reg w0) = None -> rtc api_step w0 w ->
  exists data, holds data (w_reg w) /\ Dict.wf data /\
    forall n1 n2 m1 m2, (n1, m1) ∈ data -> (n2, m2) ∈ data -> n1 <> n2 ->
      index m1 <> index m2 /\ 0 <= index m1 <= _MAX_PORT_INDEX /\
      forall d1 d2, registered_dir (backend m1) = Some d1 -> registered_dir (backend m2) = Some d2 ->
        ~ d1 `prefix_of` d2.
Proof.
  intros H0 Hsteps. destruct (reachable_safe w0 w H0 Hsteps) as (data & Hr & Hd & Hj).
  exists data. split; [done|]. split; [apply Hd|]. intros n1 n2 m1 m2 H1 H2 Hne. split_and!.
  - intros Heq. apply Hne. by eapply indices_distinct.
  - eapply index_in_range; [exact Hd|exact H1].
  - eapply index_in_range; [exact Hd|exact H1].
  - intros d1 d2 Hd1 Hd2 Hp. pose proof (Hj _ _ _ _ _ _ H1 H2 Hne Hd1 Hd2) as Ho.
    unfold overlaps in Ho. apply orb_false_iff in Ho as [Ho _]. by apply bool_decide_eq_false in Ho.
Qed.
End api.
