(* ===== verification/ApiOps.v ===== *)
(** * The verbs of the API: what they change and what they leave

    Which files a verb may touch, and the functional specifications of the constructors
    and of the destructive verbs, over [Api]. *)
From stdpp Require Import base list strings gmap sorting relations.
From Stdlib Require Import ZArith QArith Lia.
From S2P Require Import Prelude PyStr Config Ports Registry RegistryOps Render HostFs Paths Compose Download ModulesDownload FridaDownload Snapshot SnapshotOps Api ApiInv.
Local Open Scope stdpp_scope.
Local Open Scope Z_scope.

(** Only what is under [ts] changes, and the directory [root] stays one. *)
Definition guards (root : path) (ts : list path) (f f' : fs) : Prop :=
  within ts f f' /\ (node_at f root = Some DirN -> node_at f' root = Some DirN).

#[export] Instance guards_preorder root ts : PreOrder (guards root ts).
Proof.
  split; [by split; [reflexivity|]|]. intros f g h [H1 H2] [H3 H4].
  split; [by transitivity g|auto].
Qed.

Definition dirs_stay (f f' : fs) : Prop := forall p, f !! p = Some DirN -> f' !! p = Some DirN.

Lemma dirs_stay_at f f' p : dirs_stay f f' -> node_at f p = Some DirN -> node_at f' p = Some DirN.
Proof. intros Hd Hp. destruct p; [done|]. by apply Hd. Qed.

Lemma guards_of root ts ps f f' :
  Forall (fun p => Exists (fun t => t `prefix_of` p) ts) ps ->
  only ps f f' -> dirs_stay f f' -> guards root ts f f'.
Proof. intros Hp Ho Hd. split; [by eapply only_within|by apply dirs_stay_at]. Qed.

Lemma write_stay p c f : dirs_stay f (snd (write_file p c f)).
Proof. exact (proj2 (write_file_confined p p c f ltac:(reflexivity))). Qed.

Lemma mkdir_stay p f : dirs_stay f (snd (mkdir_p p f)).
Proof. exact (proj2 (mkdir_p_confined p p f)). Qed.

Lemma append_stay p c f : dirs_stay f (snd (append_file p c f)).
Proof. exact (proj2 (confined_append p f p c ltac:(reflexivity))). Qed.

Lemma unlink_stay p f : dirs_stay f (snd (unlink_missing_ok p f)).
Proof.
  intros q Hq. unfold unlink_missing_ok, unlink.
  destruct (node_at f p) as [[|c]|] eqn:Hp; [done| |by destruct (under_file f p)]. simpl.
  rewrite lookup_delete_ne; [done|]. intros ->. destruct q; [done|]. simpl in Hp. congruence.
Qed.

Lemma replace_stay a b f : dirs_stay f (snd (replace a b f)).
Proof.
  intros q Hq. unfold replace. destruct (node_at f a) as [[|c]|] eqn:Ha; [done| |done].
  pose proof (write_stay b c f q Hq) as Hw. destruct (write_file b c f) as [[|] f']; [|done].
  simpl in *. case_decide; [done|]. rewrite lookup_delete_ne; [done|].
  intros ->. destruct q; [done|]. simpl in Ha. congruence.
Qed.

Lemma mkstemp_stay `{T : TempNames} `{TL : !TempNamesLaws T} d pre suf f :
  dirs_stay f (snd (mkstemp d pre suf f)) /\ only [d ++ [temp_name f d pre suf]] f (snd (mkstemp d pre suf f)).
Proof.
  destruct (mkstemp d pre suf f) as [[t|e] f'] eqn:Hm.
  - apply mkstemp_ok in Hm as (Ht & Hf & -> & _). simpl. rewrite <- Ht. split; [|apply only_insert].
    intros q Hq. rewrite lookup_insert_ne; [done|]. congruence.
  - apply mkstemp_err in Hm as ->. split; [by intros q|reflexivity].
Qed.

Section docker.
Context {Y : Layout} `{YL : !LayoutLaws Y} {D : Docker} `{DL : !DockerLaws D}.
Variable root : path.

(** Where the bundled template may be materialised. *)
Definition template_dirs : list path := [user_cache_dir "templates"; extract_dir].
Definition docker_dirs : list path := root :: template_dirs.

Definition assets_guard (a b : assets) : Prop := guards root docker_dirs (a_fs a) (a_fs b).
Definition docker_guard (a b : cworld) : Prop := guards root docker_dirs (c_fs a) (c_fs b).

#[export] Instance assets_guard_pre : PreOrder assets_guard.
Proof. split; [intros a; red; reflexivity|]. intros a b c H1 H2. red. by etransitivity. Qed.
#[export] Instance docker_guard_pre : PreOrder docker_guard.
Proof. split; [intros a; red; reflexivity|]. intros a b c H1 H2. red. by etransitivity. Qed.

Lemma afs_guard {A} (m : M fs os_error A) :
  (forall f, guards root docker_dirs f (snd (m f))) -> preserves assets_guard (on_afs m).
Proof.
  intros Hm. apply (preserves_zoom _ (guards root docker_dirs)); [exact Hm|]. by intros s t Ht.
Qed.

Lemma finally_guard {A} (m : M assets os_error A) h :
  preserves assets_guard m -> preserves assets_guard h -> preserves assets_guard (finally m h).
Proof.
  intros Hm Hh s. specialize (Hm s). unfold finally. destruct (m s) as [r s1]. specialize (Hh s1).
  destruct (h s1) as [[a|e] s2]; simpl in *; by etransitivity.
Qed.

Definition inside (p : path) : Prop := Exists (fun t => t `prefix_of` p) docker_dirs.

Lemma inside_below p q : inside p -> p `prefix_of` q -> inside q.
Proof.
  unfold inside. intros Hp Hq. eapply Exists_impl; [exact Hp|]. intros t Ht. simpl in *. etransitivity; [exact Ht|exact Hq].
Qed.

Lemma mkstemp_guard d pre suf : inside d ->
  forall f, guards root docker_dirs f (snd (mkstemp d pre suf f)).
Proof.
  intros Hd f. destruct (mkstemp_stay d pre suf f) as [Hs Ho]. eapply guards_of; [|exact Ho|exact Hs].
  constructor; [|constructor]. eapply inside_below; [exact Hd|]. by eexists.
Qed.

Lemma append_guard p c : inside p -> forall f, guards root docker_dirs f (snd (append_file p c f)).
Proof. intros Hp f. eapply guards_of; [|apply only_append|apply append_stay]. by apply Forall_singleton. Qed.
Lemma unlink_guard p : inside p -> forall f, guards root docker_dirs f (snd (unlink_missing_ok p f)).
Proof. intros Hp f. eapply guards_of; [|apply unlink_missing_ok_only|apply unlink_stay]. by apply Forall_singleton. Qed.
Lemma replace_guard a b : inside a -> inside b -> forall f, guards root docker_dirs f (snd (replace a b f)).
Proof. intros Ha Hb f. eapply guards_of; [|apply replace_only|apply replace_stay]. by apply Forall_cons; split; [|apply Forall_singleton]. Qed.
Lemma mkdir_guard p : forall f, guards root docker_dirs f (snd (mkdir_p p f)).
Proof. intros f. eapply guards_of; [|apply mkdir_p_only|apply mkdir_stay]. constructor. Qed.

Lemma mkstemp_inside d pre suf s p :
  inside d -> fst (on_afs (mkstemp d pre suf) s) = Ok p -> inside p.
Proof.
  intros Hd. unfold on_afs, zoom. destruct (mkstemp _ _ _ _) as [[t|e] f] eqn:Hm; [|done].
  intros [= <-]. apply mkstemp_ok in Hm as (-> & _). eapply inside_below; [exact Hd|]. by eexists.
Qed.

Lemma atomic_guard target pieces : inside (parent target) -> inside target ->
  forall f, guards root docker_dirs f (snd (_atomic_write_bytes target pieces f)).
Proof.
  intros Hp Ht. change (preserves (guards root docker_dirs) (_atomic_write_bytes target pieces)).
  apply (preserves_bind_post _ (fun t => inside t)).
  - exact (mkstemp_guard _ _ _ Hp).
  - intros f p Hm. destruct (mkstemp _ _ _ f) as [[t|e] f'] eqn:Hmk; [|done]. injection Hm as <-.
    apply mkstemp_ok in Hmk as (-> & _). eapply inside_below; [exact Hp|]. by eexists.
  - intros t Hin. apply preserves_catch; [apply _| |intros e].
    + unfold _atomic_calls. induction pieces as [|c l IH]; simpl.
      * apply preserves_bind; [apply _|exact (replace_guard _ _ Hin Ht)|intros ?; apply preserves_ret, _].
      * apply preserves_bind; [apply _|exact (append_guard _ _ Hin)|intros ?; exact IH].
    + apply preserves_bind; [apply _|exact (unlink_guard _ Hin)|intros ?; apply preserves_raise, _].
Qed.

Lemma with_as_file_guard {A} name (body : path -> M assets os_error A) :
  (forall p, preserves assets_guard (body p)) -> preserves assets_guard (with_as_file name body).
Proof.
  intros Hb. unfold with_as_file. destruct (resource_path name); [done|].
  assert (inside extract_dir) as Hin by (apply Exists_cons_tl, Exists_cons_tl, Exists_cons_hd; reflexivity).
  apply (preserves_bind_post _ (fun t => inside t)).
  - apply afs_guard. exact (mkstemp_guard _ _ _ Hin).
  - intros s p. by apply mkstemp_inside.
  - intros t Ht. apply preserves_bind; [apply _|apply afs_guard; exact (append_guard _ _ Ht)|intros _].
    apply finally_guard; [apply Hb|apply afs_guard; exact (unlink_guard _ Ht)].
Qed.

Lemma template_guard : preserves assets_guard bundled_compose_file.
Proof.
  assert (inside (user_cache_dir "templates")) as Hc
    by (apply Exists_cons_tl, Exists_cons_hd; reflexivity).
  unfold bundled_compose_file, _materialise_bundled_compose.
  apply preserves_bind; [apply _|apply preserves_gets, _|intros [p|]; [apply preserves_ret, _|]].
  apply preserves_bind; [apply _| |intros [p|c]; [apply preserves_ret, _|]].
  { apply with_as_file_guard. intros p. apply preserves_bind; [apply _|apply preserves_gets, _|intros [|]].
    - apply preserves_bind; [apply _|intros s; red; reflexivity|intros _; apply preserves_ret, _].
    - apply preserves_bind; [apply _|intros s; red; reflexivity|intros c; apply preserves_ret, _]. }
  apply preserves_bind; [apply _|apply afs_guard; exact (mkdir_guard _)|intros _].
  apply preserves_bind; [apply _| |intros _].
  - unfold write_if_changed. apply preserves_bind; [apply _|apply preserves_gets, _|intros there].
    apply preserves_bind; [apply _| |intros old].
    + destruct there; [|apply preserves_ret, _].
      apply preserves_bind; [apply _|intros s; red; reflexivity|intros c'; apply preserves_ret, _].
    + case_decide; [apply preserves_ret, _|]. apply afs_guard. apply atomic_guard.
      * unfold parent. by rewrite removelast_last.
      * eapply inside_below; [exact Hc|]. by eexists.
  - apply preserves_bind; [apply _|intros s; red; reflexivity|intros _; apply preserves_ret, _].
Qed.

Lemma spawn_guard cmd : preserves docker_guard (spawn cmd root).
Proof.
  intros w. unfold spawn. destruct (node_at (c_fs w) root) as [[|c]|] eqn:Hr; try (red; reflexivity).
  set (k := mkCall cmd root). pose proof (docker_confined (calls w) k (c_fs w)) as Hc.
  pose proof (docker_keeps_root (calls w) k (c_fs w) Hr) as Hk.
  destruct (docker_run (calls w) k (c_fs w)) as [o f]. simpl in *. split; [|done].
  intros q Hq. apply Hc. by apply Forall_cons in Hq as [? _].
Qed.

Lemma docker_on_assets {A} (m : M assets os_error A) :
  preserves assets_guard m -> preserves docker_guard (on_assets m).
Proof. intros Hm. eapply preserves_zoom; [exact Hm|]. by intros s t Ht. Qed.

Lemma run_guard name args : preserves docker_guard (Compose.run name root args).
Proof.
  unfold Compose.run. apply preserves_bind; [apply _| |intros base; apply spawn_guard].
  unfold _base_cmd, _ensure_docker.
  apply preserves_bind; [apply _|apply preserves_lift, _|intros _].
  apply preserves_bind; [apply _|apply docker_on_assets, template_guard|intros t].
  apply preserves_bind; [apply _|apply preserves_gets, _|intros o; apply preserves_ret, _].
Qed.

Lemma check_exit_guard v name o : preserves docker_guard (check_exit v name o).
Proof. unfold check_exit. destruct o; [destruct (_ =? _)|]; auto with beetroot typeclass_instances. Qed.

Lemma down_guard name v : preserves docker_guard (Compose.down name root v).
Proof. apply preserves_bind; [apply _|apply run_guard|intros o; apply check_exit_guard]. Qed.
Lemma up_guard name : preserves docker_guard (Compose.up name root).
Proof. apply preserves_bind; [apply _|apply run_guard|intros o; apply check_exit_guard]. Qed.
End docker.

Section verbs.
Context `{P : Pydantic} `{L : !PydanticLaws P} {X : Externals} {Y : Layout} `{YL : !LayoutLaws Y} {W : Web} {H : FridaHost} {Z' : Lzma} {D : Docker} `{DL : !DockerLaws D} {U : Dumper}.
Variable fuel : nat.
Abbreviation RegistryFile := (list (string * InstanceMeta)).
Implicit Types (data : RegistryFile) (w : world) (i : Instance) (root : path) (ts : list path).

(** The registry stays and only what is under [ts] changes. *)
Definition calm (root : path) (ts : list path) w w' : Prop :=
  guards root ts (w_fs w) (w_fs w') /\ w_reg w' = w_reg w.

#[export] Instance calm_preorder root ts : PreOrder (calm root ts).
Proof.
  split; [intros w; split; [reflexivity|done]|]. intros a b c [H1 H2] [H3 H4].
  split; [by etransitivity|congruence].
Qed.

Lemma docker_calm {A} root (m : M cworld compose_error A) :
  preserves (docker_guard root) m -> preserves (calm root (docker_dirs root)) (on_docker m).
Proof. intros Hm. eapply preserves_zoom; [exact Hm|]. by intros w t Ht. Qed.

Lemma tree_calm {A} root ts (m : M fs os_error A) :
  (forall f, guards root ts f (snd (m f))) -> preserves (calm root ts) (on_tree m).
Proof.
  intros Hm w. unfold on_tree, on_host, on_fs, zoom. specialize (Hm (w_fs w)). unfold w_fs in Hm.
  by destruct (m (fsys (base w))) as [[a|e] f].
Qed.

Lemma lock_calm root : preserves (calm root (docker_dirs root)) (lock_root root).
Proof.
  assert (forall p, root `prefix_of` p ->
    Forall (fun p => Exists (fun t => t `prefix_of` p) (docker_dirs root)) [p]) as Hin
    by (intros p Hp; apply Forall_singleton; by apply Exists_cons_hd).
  intros w. unfold lock_root, instance_lock, on_host, zoom, mbind, M_bind, gets, on_fs.
  assert (guards root (docker_dirs root) (w_fs w) (snd (mkdir_p root (w_fs w)))) as Hm
    by (eapply guards_of; [|apply mkdir_p_only|apply mkdir_stay]; constructor).
  unfold w_fs in Hm. destruct (mkdir_p root (fsys (base w))) as [[[]|e] f]; simpl in *; [|done].
  destruct (is_file _ _); [done|]. cbn [fsys rworld]. set (p := root ++ [INSTANCE_LOCK_FILENAME]).
  pose proof (write_file_only p "" f) as Ho. pose proof (write_stay p "" f) as Hs.
  assert (guards root (docker_dirs root) f (snd (write_file p "" f))) as Hw
    by (eapply guards_of; [apply Hin; by eexists|exact Ho|exact Hs]).
  destruct (write_file p "" f) as [[u|e] f']; simpl in *; (split; [exact (transitivity Hm Hw)|done]).
Qed.

(** A file system without the tree under [root], otherwise changed under [ts] only. *)
Definition removed (root : path) (ts : list path) (f f' : fs) : Prop :=
  within ts f f' /\ forall p, root `prefix_of` p -> f' !! p = None.

Lemma remove_run name data r : holds data r -> file_wf data ->
  exists r', remove name r = (Ok tt, r') /\ holds (Dict.pop name data) r'.
Proof.
  intros Hr Hd. destruct (holds_opened data r Hr Hd) as (r1 & Ho & _).
  unfold remove. rewrite locked_then, Ho. exists (stored (Dict.pop name data) r1). split; [done|by right].
Qed.

(** The directory with what could not be removed of it; else changed under [ts] only. *)
Definition half_removed (root : path) (ts : list path) (f f' : fs) : Prop :=
  within ts f f' /\ node_at f' root = Some DirN /\
  exists g l, l <> [] /\ remains g root = l /\ f' = rmtree_partly l root g.
Definition not_removed : api_error := Snap (OsErr NotRemoved).

(** Removing a directory that is there: it goes, or some of it cannot be removed. *)
Lemma rmtree_there root ts w :
  In root ts -> node_at (w_fs w) root = Some DirN ->
  exists f, (rmtree_if_there root w = (Ok tt, set_fs f w) /\ f = rmtree root (w_fs w) /\
               removed root ts (w_fs w) f) \/
            (rmtree_if_there root w = (Err not_removed, set_fs f w) /\ half_removed root ts (w_fs w) f).
Proof.
  intros Hin Hd. destruct (rmtree_at_run root (w_fs w) Hd) as (r & f & Hrun & Hrm). exists f.
  assert (within ts (w_fs w) f) as Hw.
  { intros q Hq. rewrite Forall_forall in Hq. apply (removal_outside root _ _ _ Hrm), Hq.
    by apply list_elem_of_In. }
  assert (rmtree_if_there root w =
    (match r with Ok _ => Ok tt | Err e => Err (Snap (OsErr e)) end, set_fs f w)) as Hgo.
  { unfold rmtree_if_there, mbind, M_bind, gets, exists_at. rewrite bool_decide_eq_true_2 by (by rewrite Hd).
    unfold on_tree, on_host, on_fs, zoom. unfold w_fs in Hrun. rewrite Hrun. by destruct r as [[]|]. }
  destruct r as [[]|e]; [left|right].
  - split; [done|]. split; [done|]. split; [done|]. intros p Hp. by rewrite Hrm, lookup_rmtree, decide_True.
  - destruct Hrm as (-> & l & Hl & Hrem & Hf). split; [done|]. split; [done|].
    split; [|by exists (w_fs w), l]. by rewrite Hf, rmtree_partly_root.
Qed.

(** What [destroy] raises once everything is gone. *)
Definition compose_failure (r : result api_error unit) : Prop :=
  exists c, r = Err (Cmp c) /\ is_ComposeError c = true.

Lemma teardown_spec name root data w :
  holds data (w_reg w) -> file_wf data -> node_at (w_fs w) root = Some DirN ->
  let r := _teardown_under_lock name root w in
  (holds (Dict.pop name data) (w_reg (snd r)) /\
   (removed root (docker_dirs root) (w_fs w) (w_fs (snd r)) /\ (fst r = Ok tt \/ compose_failure (fst r)) \/
    half_removed root (docker_dirs root) (w_fs w) (w_fs (snd r)) /\ fst r = Err not_removed)) \/
  (calm root (docker_dirs root) w (snd r) /\ exists e, fst r = Err e /\ ~ compose_failure (fst r)).
Proof.
  intros Hr Hd Hroot. cbv zeta. unfold _teardown_under_lock.
  set (m := catch _ _). set (k := fun _ : option api_error => _).
  pose proof (docker_calm root _ (down_guard root name true) w) as Hc.
  assert (forall e w1, calm root (docker_dirs root) w w1 -> (e = None \/ exists c, e = Some (Cmp c) /\ is_ComposeError c = true) ->
    exists r2 w2, k e w1 = (r2, w2) /\ holds (Dict.pop name data) (w_reg w2) /\
      (removed root (docker_dirs root) (w_fs w) (w_fs w2) /\ r2 = match e with Some x => Err x | None => Ok tt end \/
       half_removed root (docker_dirs root) (w_fs w) (w_fs w2) /\ r2 = Err not_removed)) as Hk.
  { intros e w1 [[Hw Hdir] Hr1] _. unfold k. rewrite <- Hr1 in Hr.
    destruct (remove_run name data _ Hr Hd) as (r2 & Hrm & Hr2).
    assert (on_host (on_reg (remove name)) w1 = (Ok tt, set_base (mkHost (w_fs w1) r2) w1)) as Hrun.
    { unfold on_host, on_reg, zoom. unfold w_reg in Hrm. by rewrite Hrm. }
    rewrite (M_bind_ok _ _ _ _ _ Hrun). set (w1' := set_base _ w1).
    destruct (rmtree_there root (docker_dirs root) w1') as (f & [(Hrt & _ & Ht & Hg)|(Hrt & Ht & Hdn & Hl)]);
      [by left|by apply Hdir|..].
    - rewrite (M_bind_ok _ _ _ _ _ Hrt). exists (match e with Some x => Err x | None => Ok tt end), (set_fs f w1'). split; [by destruct e|].
      split; [exact Hr2|]. left. split; [|done]. split; [|exact Hg]. etransitivity; [exact Hw|exact Ht].
    - rewrite (M_bind_err _ _ _ _ _ Hrt). eexists _, (set_fs f w1'). split; [done|].
      split; [exact Hr2|]. right. split; [|done]. split; [|by split]. etransitivity; [exact Hw|exact Ht]. }
  assert (m w = match on_docker (Compose.down name root true) w with
                | (Ok _, w1) => (Ok None, w1)
                | (Err (Cmp c), w1) => if is_ComposeError c then (Ok (Some (Cmp c)), w1) else (Err (Cmp c), w1)
                | (Err e, w1) => (Err e, w1)
                end) as Hm.
  { unfold m, catch, mbind, M_bind. destruct (on_docker _ w) as [[u|e] w1]; [done|].
    destruct e; try done. by destruct (is_ComposeError e). }
  remember ((m ≫= k) w) as r eqn:Hreq. unfold mbind at 1, M_bind in Hreq. rewrite Hm in Hreq. clear Hm.
  destruct (on_docker (Compose.down name root true) w) as [[u|e] w1] eqn:Hrun; simpl in Hc.
  - destruct (Hk None w1 Hc (or_introl eq_refl)) as (r2 & w2 & Hkw & H1 & H2).
    simpl in Hreq. rewrite Hkw in Hreq. subst r. simpl. left. split; [exact H1|].
    destruct H2 as [[H2 ->]|H2]; [left|by right]. split; [exact H2|by left].
  - unfold on_docker, zoom in Hrun. destruct (Compose.down name root true (docker_of w)) as [[u|c] t]; [done|].
    injection Hrun as <- _. destruct (is_ComposeError c) eqn:Hce.
    + destruct (Hk (Some (Cmp c)) w1 Hc) as (r2 & w2 & Hkw & H1 & H2); [right; by exists c|].
      simpl in Hreq. rewrite Hkw in Hreq. subst r. simpl. left. split; [exact H1|].
      destruct H2 as [[H2 ->]|H2]; [left|by right]. split; [exact H2|]. right. by exists c.
    + subst r. right. split; [exact Hc|]. exists (Cmp c). split; [done|]. intros (c' & [= <-] & ?). congruence.
Qed.

Lemma destroy_cases i data w :
  holds data (w_reg w) -> file_wf data -> node_at (w_fs w) (i_root i) = Some DirN ->
  let r := destroy true (mkObj i w) in
  (holds (Dict.pop (i_name i) data) (w_reg (env (snd r))) /\
   (removed (i_root i) (docker_dirs (i_root i)) (w_fs w) (w_fs (env (snd r))) /\
    (fst r = Ok tt \/ compose_failure (fst r)) \/
    half_removed (i_root i) (docker_dirs (i_root i)) (w_fs w) (w_fs (env (snd r))) /\ fst r = Err not_removed)) \/
  (calm (i_root i) (docker_dirs (i_root i)) w (env (snd r)) /\ exists e, fst r = Err e /\ ~ compose_failure (fst r)).
Proof.
  intros Hr Hd Hroot. cbv zeta. remember (destroy true (mkObj i w)) as r eqn:Hrun.
  unfold destroy, me in Hrun. change (raise_if (negb true) NotConfirmed) with (Ok tt : result api_error unit) in Hrun.
  rewrite lift_ok_bind in Hrun. unfold mbind, M_bind, gets, on_env, zoom in Hrun. cbn [self env] in Hrun.
  unfold exists_at in Hrun. rewrite bool_decide_eq_true_2 in Hrun by (by rewrite Hroot).
  change (env (mkObj i w)) with w in Hrun. pose proof (lock_calm (i_root i) w) as Hl.
  destruct (lock_root (i_root i) w) as [[u|e] w1] eqn:Hlock; simpl in Hrun, Hl.
  - destruct Hl as [[Hw Hk] Hr1]. rewrite <- Hr1 in Hr.
    pose proof (teardown_spec (i_name i) (i_root i) data w1 Hr Hd (Hk Hroot)) as Ht. cbv zeta in Ht.
    destruct (_teardown_under_lock (i_name i) (i_root i) w1) as [r2 w2].
    assert (r = (r2, mkObj i w2)) as -> by (subst r; by destruct r2).
    cbn [env fst snd] in *.
    destruct Ht as [(H1 & [[[H2 H3] H4]|[[H2 H3] H4]])|([H1 H2] & H3)]; [left|left|right].
    + split; [exact H1|]. left. split; [|exact H4]. split; [etransitivity; [exact Hw|exact H2]|exact H3].
    + split; [exact H1|]. right. split; [|exact H4]. split; [etransitivity; [exact Hw|exact H2]|exact H3].
    + split; [|exact H3]. split; [etransitivity; [exact (conj Hw Hk)|exact H1]|congruence].
  - subst r. right. split; [exact Hl|]. exists (id e). split; [done|]. intros (c & [= ->] & _).
    unfold lock_root, on_host, zoom in Hlock. by destruct (instance_lock _ _) as [[] ?].
Qed.
End verbs.
