(* ===== verification/ApiPeers.v ===== *)
(** * No verb touches another instance

    Whatever a verb does and however it ends, it changes files only in the directory of
    its own instance and in the per-user caches, and no registry row but its own. *)
From stdpp Require Import base list strings gmap sorting relations.
From Stdlib Require Import ZArith QArith Lia.
From S2P Require Import Prelude PyStr Config Ports Registry RegistryOps Render HostFs Paths Compose Download ModulesDownload FridaDownload Snapshot SnapshotOps Api ApiInv ApiOps.
Local Open Scope stdpp_scope.
Local Open Scope Z_scope.

Section peers.
Context `{P : Pydantic} `{L : !PydanticLaws P} {X : Externals} {Y : Layout} `{YL : !LayoutLaws Y} {W : Web} `{WL : !WebLaws W} {H : FridaHost} {Z' : Lzma} {D : Docker} `{DL : !DockerLaws D} {U : Dumper}.
Variable fuel : nat.
Abbreviation RegistryFile := (list (string * InstanceMeta)).
Variables (root : path) (name other : string) (row : option InstanceMeta).
Hypothesis Hother : other <> name.

(** The caches: of the downloads, of the bundled template, and temporary files. *)
Definition cache_dirs : list path := [frida_cache_dir; _module_cache_dir] ++ template_dirs.
Definition own_dirs : list path := root :: cache_dirs.

Hypothesis Hfrida : apart frida_cache_dir root.
Hypothesis Hmodules : apart _module_cache_dir (instance_modules root).

(** What the other row is. *)
Definition other_row (data : RegistryFile) : Prop := Dict.get other data = row.
Abbreviation J := (at_ other_row).

Definition host_spares (h h' : host) : Prop :=
  within own_dirs (fsys h) (fsys h') /\ carries (host_has J) h h'.
Definition spares (w w' : world) : Prop :=
  within own_dirs (w_fs w) (w_fs w') /\ carries (has J) w w'.
Definition obj_spares (s s' : obj) : Prop := spares (env s) (env s').
Definition ours (s : obj) : Prop := i_root (self s) = root /\ i_name (self s) = name.

#[local] Instance host_spares_pre : PreOrder host_spares.
Proof. split; [by split|]. intros a b c [H1 H2] [H3 H4]. split; by etransitivity. Qed.
#[local] Instance spares_pre : PreOrder spares.
Proof. split; [by split|]. intros a b c [H1 H2] [H3 H4]. split; by etransitivity. Qed.
#[local] Instance obj_spares_pre : PreOrder obj_spares.
Proof. split; [intros a; red; reflexivity|]. intros a b c H1 H2. red. by etransitivity. Qed.

(** ** Steps *)

Lemma own_only ps f f' :
  Forall (fun p => root `prefix_of` p) ps -> only ps f f' -> within own_dirs f f'.
Proof.
  intros Hp. apply only_within. eapply Forall_impl; [exact Hp|]. intros p Hpp. apply Exists_cons_hd. exact Hpp.
Qed.

Lemma within_mono ts ts' f f' : ts ⊆ ts' -> within ts f f' -> within ts' f f'.
Proof.
  intros Hs Hw q Hq. apply Hw. rewrite Forall_forall in Hq |- *. intros t Ht. by apply Hq, Hs.
Qed.

Lemma hs_same {A} (m : M host snap_error A) : (forall h, snd (m h) = h) -> preserves host_spares m.
Proof. intros Hm h. rewrite Hm. reflexivity. Qed.

Lemma hs_fs {A} (m : M fs os_error A) :
  (forall f, within own_dirs f (snd (m f))) -> preserves host_spares (on_fs m).
Proof.
  intros Hm h. specialize (Hm (fsys h)). unfold on_fs. destruct (m (fsys h)) as [[a|e] f]; (split; [exact Hm|intros Hx; exact Hx]).
Qed.

Lemma hs_reg {A} (m : M Registry.world reg_error A) :
  preserves (carries J) m -> preserves host_spares (on_reg m).
Proof.
  intros Hm h. split; [by rewrite on_reg_fs|]. by apply host_on_reg.
Qed.

Lemma hs_mkdir p : preserves host_spares (on_fs (mkdir_p p)).
Proof. apply hs_fs. intros f. eapply (own_only []); [constructor|apply mkdir_p_only]. Qed.

Lemma hs_write p c : root `prefix_of` p -> preserves host_spares (on_fs (write_file p c)).
Proof.
  intros Hp. apply hs_fs. intros f. eapply (own_only [p]); [by apply Forall_singleton|apply write_file_only].
Qed.

Lemma hs_lock : preserves host_spares (instance_lock root).
Proof.
  unfold instance_lock. apply preserves_bind; [apply _|apply hs_mkdir|intros ?].
  apply preserves_bind; [apply _|apply preserves_gets, _|intros [|]]; [apply preserves_ret, _|].
  apply hs_write. by eexists.
Qed.

Lemma hs_stage n cfg : preserves host_spares (_stage_local n root cfg).
Proof.
  assert (forall x, root `prefix_of` root ++ [x]) as Hx by (intros x; by eexists).
  unfold _stage_local, stage_empty.
  apply preserves_bind; [apply _|apply hs_reg, get_carries|intros [m|]; [|apply preserves_raise, _]].
  apply preserves_bind; [apply _|apply preserves_lift, _|intros new].
  do 2 (apply preserves_bind; [apply _|apply hs_mkdir|intros _]).
  do 2 (apply preserves_bind; [apply _|apply hs_write, Hx|intros _]).
  apply preserves_bind; [apply _|apply preserves_gets, _|intros real].
  case_match; [|apply preserves_ret, _].
  apply preserves_bind; [apply _|apply hs_mkdir|intros _]. apply hs_write, Hx.
Qed.

Lemma sp_host {A} (m : M host snap_error A) : preserves host_spares m -> preserves spares (on_host m).
Proof. intros Hm. eapply preserves_zoom; [exact Hm|]. intros w h Hh. exact Hh. Qed.

Lemma sp_load p : preserves spares (on_host (load_yaml p)).
Proof. apply sp_host, hs_same. intros h. apply load_yaml_same. Qed.

Lemma sp_ports i cfg : preserves spares (ports_of i cfg).
Proof. by apply sp_host, hs_same. Qed.

Lemma sp_row n : preserves spares (row_of n).
Proof. apply sp_host, hs_reg, get_carries. Qed.

Lemma sp_docker {A} (m : M cworld compose_error A) :
  preserves (docker_guard root) m -> preserves spares (on_docker m).
Proof.
  intros Hm w. pose proof (docker_calm root m Hm w) as [[Hw _] Hr]. split.
  - eapply within_mono; [|exact Hw]. unfold docker_dirs, own_dirs, cache_dirs. set_solver.
  - unfold carries, has. by rewrite Hr.
Qed.

Lemma sp_net {A} (m : M net dl_error A) :
  (forall s, within own_dirs (nfs s) (nfs (snd (m s)))) -> preserves spares (on_net m).
Proof.
  intros Hm w. split; [|exact (api_on_net _ m w)]. specialize (Hm (net_of w)). unfold on_net, zoom.
  by destruct (m (net_of w)) as [[a|e] t].
Qed.

Lemma sp_modules l : preserves spares (on_net (stage_for_instance root l)).
Proof.
  apply sp_net. intros s. pose proof (staging_within root l s Hmodules) as Hw. red in Hw.
  intros q Hq. apply Hw. unfold own_dirs, cache_dirs in Hq. simpl in Hq.
  apply Forall_cons in Hq as [Hr [_ [Hm _]%Forall_cons]%Forall_cons]. apply Forall_cons. split; [done|]. apply Forall_singleton.
  intros Hp. apply Hr. etransitivity; [|exact Hp]. by eexists.
Qed.

Lemma sp_frida v d b : preserves spares (on_net (frida_stage_for_instance fuel root v d b)).
Proof.
  apply sp_net. intros s. pose proof (frida_stage_wp fuel root v d b s Hfrida) as Hw. unfold wp in Hw.
  assert (forall tag a, Exists (fun t => t `prefix_of` cached_binary tag a) own_dirs) as Hc
    by (intros tag a; apply Exists_cons_tl, Exists_cons_hd; by eexists).
  assert (Exists (fun t => t `prefix_of` instance_frida root) own_dirs) as Hi
    by (apply Exists_cons_hd; by eexists).
  destruct (frida_stage_for_instance fuel root v d b s) as [[p|e] s'].
  - destruct Hw as (_ & _ & tag & Ho). eapply only_within; [|exact Ho]. by repeat apply Forall_cons; auto.
  - destruct Hw as (tag & Ho). eapply only_within; [|exact Ho]. by apply Forall_singleton.
Qed.

Lemma sp_network i : i_root i = root -> preserves spares (_stage_network fuel i).
Proof.
  intros Hi. unfold _stage_network. rewrite Hi. apply preserves_bind; [apply _| |intros _].
  - destruct (frida (i_cfg i)); [|apply preserves_ret, _].
    apply preserves_bind; [apply _|apply sp_frida|intros _; apply preserves_ret, _].
  - apply preserves_bind; [apply _|apply sp_modules|intros _; apply preserves_ret, _].
Qed.

Lemma sp_collisions l : preserves spares (_check_port_collisions name l).
Proof.
  unfold _check_port_collisions. apply preserves_bind; [apply _|apply preserves_gets, _|intros f].
  apply sp_host, hs_reg, collision_carries.
Qed.

Lemma sp_rmtree p : root `prefix_of` p -> preserves spares (rmtree_if_there p).
Proof.
  intros Hp. unfold rmtree_if_there.
  apply preserves_bind; [apply _|apply preserves_gets, _|intros [|]; [|apply preserves_ret, _]].
  apply sp_host, hs_fs. intros f. destruct (node_at f p) as [[|c]|] eqn:Hn;
    [|unfold rmtree_at; rewrite Hn; reflexivity..].
  destruct (rmtree_at_run p f Hn) as (r & f' & -> & Hrm).
  intros q Hq. apply (removal_outside p f _ _ Hrm). apply Forall_cons in Hq as [Hq _]. intros Hpq. apply Hq.
  by etransitivity.
Qed.

Lemma sp_note n : preserves spares (print_note n).
Proof. intros w. split; [reflexivity|]. apply api_note_printed. Qed.

Lemma sp_inert cfg n : preserves spares (report_inert cfg n).
Proof. unfold report_inert. destruct (warn_inert_fields cfg); [apply sp_note|apply preserves_ret, _]. Qed.

Lemma sp_write_yaml cfg : preserves spares (write_yaml (instance_yaml root) cfg).
Proof.
  unfold write_yaml. apply preserves_bind; [apply _|apply sp_host, hs_mkdir|intros _].
  apply sp_host, hs_write. by eexists.
Qed.

(** The two operations that change rows change their own. *)
Lemma sp_remove : preserves spares (on_host (on_reg (remove name))).
Proof.
  apply sp_host, hs_reg. intros r Hr. unfold remove. revert r Hr. apply locked_carries.
  intros data r _ Hd Ho. apply at_stored; [by apply data_inv_pop|]. unfold other_row.
  by rewrite Dict.get_pop_ne.
Qed.

Lemma sp_reconcile b : preserves spares (on_host (on_reg (reconcile_backend_kind name b))).
Proof.
  apply sp_host, hs_reg. intros r Hr. unfold reconcile_backend_kind. revert r Hr. apply locked_carries.
  intros data r Hr Hd Ho. assert (J r) by (by exists data).
  destruct (Dict.get name data) as [m|] eqn:Hg; [|done].
  destruct (backend m) eqn:Hb; try done; destruct (String.eqb b "vm"); try done;
    (apply at_stored; [apply data_inv_set; auto using vm_ok, redroid_ok|]);
    unfold other_row; by rewrite Dict.get_set_ne.
Qed.

Lemma sp_teardown : preserves spares (_teardown_under_lock name root).
Proof.
  unfold _teardown_under_lock. apply preserves_bind; [apply _| |intros e].
  - apply preserves_catch; [apply _| |intros e].
    + apply preserves_bind; [apply _|apply sp_docker, down_guard|intros _; apply preserves_ret, _].
    + destruct e; try apply preserves_raise, _. case_match; [apply preserves_ret, _|apply preserves_raise, _].
  - apply preserves_bind; [apply _|apply sp_remove|intros _].
    apply preserves_bind; [apply _|by apply sp_rmtree|intros _].
    destruct e; [apply preserves_raise, _|apply preserves_ret, _].
Qed.

(** ** Verbs *)

Abbreviation spare := (keeps obj_spares ours).

Lemma kp_env {A} (m : M world api_error A) : preserves spares m -> spare (on_env m).
Proof.
  intros Hm s Hs. specialize (Hm (env s)). unfold on_env, zoom. by destruct (m (env s)) as [[a|e] w].
Qed.

Lemma kp_same {A} (m : M obj api_error A) : (forall s, snd (m s) = s) -> spare m.
Proof. intros Hm. apply keeps_read; [apply _|auto]. Qed.

Lemma kp_set g : (forall i, i_root (g i) = i_root i /\ i_name (g i) = i_name i) -> spare (set_self g).
Proof.
  intros Hg s [H1 H2]. split; [red; simpl; reflexivity|]. destruct (Hg (self s)) as [H3 H4].
  split; simpl; congruence.
Qed.

(** The continuation of [me] runs on our instance. *)
Lemma kp_me {A} (k : Instance -> M obj api_error A) :
  (forall i, i_root i = root -> i_name i = name -> spare (k i)) -> spare (i ← me; k i).
Proof.
  intros Hk. apply (keeps_bind_post _ _ (fun i => i_root i = root /\ i_name i = name)).
  - by apply kp_same.
  - intros s i [H1 H2] [= <-]. done.
  - intros i [H1 H2]. by apply Hk.
Qed.

Lemma kp_index : spare index_property.
Proof.
  apply kp_me. intros i Hi Hn. destruct (i_index i); [by apply kp_same|].
  apply keeps_then; [apply _| |intros m].
  - apply kp_me. intros i' _ _. apply keeps_then; [apply _|apply kp_env, sp_row|intros [m|]; by apply kp_same].
  - apply keeps_then; [apply _|by apply kp_set|intros _; by apply kp_same].
Qed.

Lemma kp_precheck : spare precheck.
Proof.
  unfold precheck, instance_ports. apply keeps_then; [apply _| |intros l].
  - apply keeps_then; [apply _|apply kp_index|intros idx]. apply kp_me. intros i _ _. apply kp_env, sp_ports.
  - apply kp_me. intros i _ ->. apply kp_env, sp_collisions.
Qed.

Lemma kp_stage i : i_root i = root -> spare (on_env (stage_local i)).
Proof. intros Hi. apply kp_env, sp_host. rewrite Hi. apply hs_stage. Qed.

Lemma kp_up : spare instance_up.
Proof.
  apply kp_me. intros i Hi Hn. apply keeps_then; [apply _|by apply kp_same|intros [|]].
  - apply keeps_then; [apply _|by apply kp_same|intros _]. rewrite Hi. apply kp_env, sp_docker, up_guard.
  - apply keeps_then; [apply _| |intros _; rewrite Hi; apply kp_env, sp_docker, up_guard].
    apply keeps_then; [apply _|apply kp_precheck|intros _]. apply kp_me. intros i' Hi' _. by apply kp_stage.
Qed.

Lemma kp_down : spare instance_down.
Proof. apply kp_me. intros i Hi Hn. rewrite Hi. apply kp_env, sp_docker, down_guard. Qed.

Lemma kp_status : spare status.
Proof.
  apply kp_me. intros i Hi Hn. rewrite Hi. apply kp_env, sp_docker. unfold ps_status.
  apply preserves_catch; [apply docker_guard_pre| |intros e; case_match; [apply preserves_ret|apply preserves_raise]; apply docker_guard_pre].
  apply preserves_bind; [apply docker_guard_pre|apply run_guard|intros o; apply preserves_ret, docker_guard_pre].
Qed.

Lemma kp_apply : spare (apply fuel).
Proof.
  apply kp_me. intros i Hi Hn. apply keeps_then; [apply _|apply kp_env, sp_load|intros cfg].
  apply keeps_then; [apply _|by apply kp_set|intros _].
  apply keeps_then; [apply _|apply kp_precheck|intros _].
  apply kp_me. intros i2 Hi2 Hn2. apply keeps_then; [apply _|by apply kp_stage|intros _].
  apply keeps_then; [apply _|rewrite Hn2; apply kp_env, sp_reconcile|intros _].
  apply keeps_then; [apply _|by apply kp_env, sp_network|intros _]. apply kp_env, sp_inert.
Qed.

Lemma kp_destroy yes : spare (destroy yes).
Proof.
  unfold destroy. apply keeps_then; [apply _|by apply kp_same|intros _]. apply kp_me. intros i Hi Hn.
  rewrite Hi, Hn. apply keeps_then; [apply _|by apply kp_same|intros there].
  apply keeps_then; [apply _| |intros _; apply kp_env, sp_teardown].
  destruct there; [|by apply kp_same]. apply kp_env, sp_host, hs_lock.
Qed.

Lemma kp_reset yes : spare (reset yes).
Proof.
  unfold reset. apply keeps_then; [apply _|by apply kp_same|intros _]. apply kp_me. intros i Hi Hn.
  rewrite Hi. apply keeps_then; [apply _|apply kp_env, sp_host, hs_lock|intros _].
  apply keeps_then; [apply _|apply kp_env, sp_docker, down_guard|intros _].
  apply keeps_then; [apply _|apply kp_env, sp_rmtree; by eexists|intros _].
  apply kp_env, sp_host, hs_mkdir.
Qed.

Lemma kp_add_module src d : spare (add_module src d).
Proof.
  unfold add_module. apply keeps_then; [apply _|by apply kp_same|intros m]. apply kp_me. intros i Hi Hn.
  rewrite Hi. apply keeps_then; [apply _|apply kp_env, sp_modules|intros _].
  apply keeps_then; [apply _|by apply kp_set|intros _]. apply kp_env, sp_write_yaml.
Qed.

Lemma kp_verb v s : ours s -> obj_spares s (run_verb fuel v s).
Proof.
  enough (forall A (m : M obj api_error A), spare m -> ours s -> obj_spares s (snd (m s))) as Hm.
  { intros Hs. destruct v; simpl; apply Hm; try exact Hs; auto using kp_up, kp_down, kp_status, kp_apply,
      kp_destroy, kp_reset, kp_add_module.
    - unfold instance_restart. apply keeps_then; [apply _|apply kp_down|intros _; apply kp_up].
    - apply kp_me. intros i Hi Hn. apply keeps_then; [apply _|by apply kp_same|intros v].
      apply keeps_then; [apply _|rewrite Hi; apply kp_env, sp_frida|intros _; by apply kp_same].
    - apply kp_me. intros i Hi Hn. rewrite Hi. apply kp_env, sp_docker. unfold logs.
      destruct follow; (apply preserves_bind; [apply docker_guard_pre|apply run_guard|intros o]);
        [apply preserves_ret, docker_guard_pre|apply check_exit_guard]. }
  intros A m Hm Hs. by destruct (Hm s Hs).
Qed.
End peers.

Section theorem.
Context `{P : Pydantic} `{L : !PydanticLaws P} {X : Externals} {Y : Layout} `{YL : !LayoutLaws Y} {W : Web} `{WL : !WebLaws W} {H : FridaHost} {Z' : Lzma} {D : Docker} `{DL : !DockerLaws D} {U : Dumper}.
Hypothesis cwd_plain : Forall plain cwd.

Lemma apart_sub (a b c : path) : apart a b -> b `prefix_of` c -> apart a c.
Proof.
  intros Hab Hbc. split; [by eapply apart_below|]. intros Hca. destruct Hab as [_ Hab]. apply Hab.
  by etransitivity.
Qed.

(** C3. A verb never reaches another instance: in every state the commands can lead to,
    whatever verb runs on a registered instance, and however it ends, the row of every
    other instance stays as it is, and so does every file and directory in its
    directory — provided neither directory contains, or lies in, one of the caches. *)
Theorem verbs_spare_peers fuel w0 w data i v m n m' d :
  reg (w_reg w0) = None -> rtc (api_step fuel) w0 w -> fst (list_instances (w_reg w)) = Ok data ->
  (i_name i, m) ∈ data -> registered_dir (backend m) = Some (i_root i) ->
  (n, m') ∈ data -> n <> i_name i -> registered_dir (backend m') = Some d ->
  Forall (fun t => apart t (i_root i) /\ apart t d) cache_dirs ->
  let w' := env (run_verb fuel v (mkObj i w)) in
  (exists data', holds data' (w_reg w') /\ Dict.get n data' = Some m') /\
  forall p x, d `prefix_of` p -> w_fs w !! p = Some x -> w_fs w' !! p = Some x.
Proof.
  intros H0 Hsteps Hr Hi Hdir Hn Hne Hd Hcaches w'. subst w'.
  destruct (reachable_safe fuel cwd_plain w0 w H0 Hsteps) as (data0 & Hr0 & Hinv & Hj).
  pose proof (holds_list data0 _ Hr0 (di_wf _ Hinv)) as Hl. unfold wp in Hl.
  destruct (list_instances (w_reg w)) as [[dt|e] r]; simplify_eq/=. destruct Hl as [<- _].
  assert (Dict.get n data = Some m') as Hg by (apply Dict.elem_get; [apply Hinv|done]).
  assert (forall t, t ∈ cache_dirs -> apart t (i_root i) /\ apart t d) as Hc
    by (intros t Ht; rewrite Forall_forall in Hcaches; by apply Hcaches).
  assert (obj_spares (i_root i) n (Some m') (mkObj i w) (run_verb fuel v (mkObj i w))) as [Hw Hrow].
  { apply (kp_verb fuel (i_root i) (i_name i)); [done| | |done].
    - apply Hc. unfold cache_dirs. set_solver.
    - apply (apart_sub _ (i_root i)); [apply Hc; unfold cache_dirs; set_solver|]. unfold instance_modules. by eexists. }
  split.
  - destruct Hrow as (data' & Hr' & _ & Hg'); [by exists data|]. by exists data'.
  - intros p x Hp Hx. destruct (Hw p) as [->|[Hnone _]]; [|done|simpl in Hnone; congruence].
    unfold own_dirs. apply Forall_cons. split.
    + pose proof (Hj _ _ _ _ _ _ Hi Hn (not_eq_sym Hne) Hdir Hd) as Ho. unfold overlaps in Ho.
      apply orb_false_iff in Ho as [H1%bool_decide_eq_false H2%bool_decide_eq_false].
      by apply (apart_below _ d).
    + apply Forall_forall. intros t Ht. destruct (Hc t Ht) as [_ Hap]. by eapply apart_below.
Qed.
End theorem.
