(* ===== verification/ApiSpecs.v ===== *)
(** * What the constructors and verbs of the API achieve

    Functional specifications over [Api]: creation with its rollback, the staged files,
    start, application of an edited configuration, destruction, and the partition of the
    registry into healthy instances and orphans. *)
From stdpp Require Import base list strings gmap sorting relations.
From Stdlib Require Import ZArith QArith Lia.
From S2P Require Import Prelude PyStr Config Ports Registry RegistryOps Render HostFs Paths Compose Download ModulesDownload FridaDownload Snapshot SnapshotOps Api ApiInv ApiOps ApiPeers.
Local Open Scope stdpp_scope.
Local Open Scope Z_scope.

Section specs.
Context `{P : Pydantic} `{L : !PydanticLaws P} {X : Externals} {Y : Layout} `{YL : !LayoutLaws Y} {W : Web} `{WL : !WebLaws W} {H : FridaHost} {Z' : Lzma} {D : Docker} `{DL : !DockerLaws D} {U : Dumper}.
Variable fuel : nat.
Abbreviation RegistryFile := (list (string * InstanceMeta)).
Implicit Types (data : RegistryFile) (w : world) (i : Instance) (h : host) (root : path) (cfg : InstanceConfig).

(** ** Staging *)

Definition stealth_of (m : InstanceMeta) : option (list (string * string)) :=
  match backend m with RedroidBackendConfig _ sp => Some sp | _ => None end.

(** The files [docker compose] reads are those of this configuration and row. *)
Definition rendered (name : string) root cfg (m : InstanceMeta) (f : fs) : Prop :=
  f !! instance_env root =
    Some (FileN (render_env float_repr render_node name cfg (stealth_of m))) /\
  exists new, fst (resolve_ports (index m) (ports cfg) false) = Ok new /\
    f !! instance_compose_override root = Some (FileN (render_compose_ports_override new)).

Lemma rendered_frame name root cfg m f f' :
  (forall x c, x = ".env" \/ x = "compose.override.yaml" ->
     f !! (root ++ [x]) = Some (FileN c) -> f' !! (root ++ [x]) = Some (FileN c)) ->
  rendered name root cfg m f -> rendered name root cfg m f'.
Proof.
  intros Hf (He & new & Hnew & Ho). split; [apply Hf; auto|]. exists new. split; [done|]. apply Hf; auto.
Qed.

Lemma wp_on_fs {A} (m : M fs os_error A) (Q : A -> host -> Prop) (R : snap_error -> host -> Prop) h :
  (forall a f, m (fsys h) = (Ok a, f) -> Q a (mkHost f (rworld h))) ->
  (forall e f, m (fsys h) = (Err e, f) -> R (OsErr e) (mkHost f (rworld h))) -> wp (on_fs m) Q R h.
Proof. intros HQ HR. unfold wp, on_fs. destruct (m (fsys h)) as [[a|e] f]; auto. Qed.

Lemma snoc_inj root (x y : string) : root ++ [x] = root ++ [y] -> x = y.
Proof. by intros [_ ?]%app_inj_tail. Qed.

Lemma stage_local_wp name root cfg data m h :
  holds data (rworld h) -> file_wf data -> Dict.get name data = Some m ->
  wp (_stage_local name root cfg)
    (fun _ h' => rendered name root cfg m (fsys h') /\ holds data (rworld h'))
    (fun _ h' => holds data (rworld h')) h.
Proof.
  intros Hr Hd Hg. unfold _stage_local. apply wp_bind.
  pose proof (holds_get name data _ Hr Hd) as Hget. unfold wp, on_reg in *.
  destruct (Registry.get name (rworld h)) as [[m'|e] r]; [|done]. destruct Hget as [-> Hr1]. rewrite Hg.
  change (wp (new_ports ← resolved (index m) (ports cfg);
      on_fs (mkdir_p (root ++ ["data"])) ;; on_fs (mkdir_p (root ++ ["modules"])) ;;
      on_fs (write_file (root ++ [".env"]) (render_env float_repr render_node name cfg (stealth_of m))) ;;
      on_fs (write_file (root ++ [_COMPOSE_OVERRIDE_FILENAME]) (render_compose_ports_override new_ports)) ;;
      real ← gets (fun h => has_real_binary root (fsys h));
      if bool_decide (frida cfg = None) || negb real then stage_empty root else mret tt)
    (fun _ h' => rendered name root cfg m (fsys h') /\ holds data (rworld h'))
    (fun _ h' => holds data (rworld h')) (mkHost (fsys h) r)).
  apply wp_bind, wp_lift; [|done]. intros new Hnew.
  assert (fst (resolve_ports (index m) (ports cfg) false) = Ok new) as Hres
    by (clear -Hnew; destruct (fst (resolve_ports (index m) (ports cfg) false)); [by injection Hnew as ->|done]).
  apply wp_bind, wp_on_fs; [|done]. intros _ f1 _. apply wp_bind, wp_on_fs; [|done]. intros _ f2 _.
  apply wp_bind, wp_on_fs; [|done]. intros [] f3 [Hf3 _]%write_file_ok.
  apply wp_bind, wp_on_fs; [|done]. intros [] f4 [Hf4 _]%write_file_ok. cbn [fsys rworld] in Hf3, Hf4.
  assert (rendered name root cfg m f4) as Hren.
  { split; [|exists new; split; [done|]]; unfold instance_env, instance_compose_override, _COMPOSE_OVERRIDE_FILENAME in *;
      rewrite Hf4; [|apply lookup_insert_eq].
    rewrite lookup_insert_ne by (by intros ?%snoc_inj). rewrite Hf3. apply lookup_insert_eq. }
  apply wp_bind, wp_gets. destruct (_ || _); [|by apply wp_ret]. unfold stage_empty.
  apply wp_bind, wp_on_fs; [|done]. intros u f5 Hf5. apply wp_on_fs; [|done].
  intros [] f6 [Hf6 _]%write_file_ok. cbn [fsys rworld] in *. split; [|done].
  eapply rendered_frame; [|exact Hren]. intros x c Hx Hc. rewrite Hf6.
  rewrite lookup_insert_ne by (intros ?%snoc_inj; naive_solver).
  pose proof (mkdir_p_same root _ _ _ Hc) as Hk. by rewrite Hf5 in Hk.
Qed.

Lemma stage_local_stay name root cfg h :
  dirs_stay (fsys h) (fsys (snd (_stage_local name root cfg h))).
Proof.
  set (R := fun a b => dirs_stay (fsys a) (fsys b)).
  assert (PreOrder R) as HR by (split; [intros a p Hp; exact Hp|intros a b c H1 H2 p Hp; by apply H2, H1]).
  assert (forall A (m : M host snap_error A), (forall h, fsys (snd (m h)) = fsys h) -> preserves R m) as Hsame
    by (intros A m Hm a; unfold R; rewrite Hm; by intros p).
  assert (forall A (m : M fs os_error A), (forall f, dirs_stay f (snd (m f))) -> preserves R (on_fs m)) as Hfs.
  { intros A m Hm a. unfold R, on_fs. specialize (Hm (fsys a)). by destruct (m (fsys a)) as [[] ?]. }
  revert h. change (preserves R (_stage_local name root cfg)). unfold _stage_local, stage_empty.
  apply preserves_bind; [done|apply Hsame, on_reg_fs|intros [m|]; [|by apply preserves_raise]].
  apply preserves_bind; [done|by apply preserves_lift|intros new].
  do 2 (apply preserves_bind; [done|apply Hfs, mkdir_stay|intros _]).
  do 2 (apply preserves_bind; [done|apply Hfs; intros f; apply write_stay|intros _]).
  apply preserves_bind; [done|by apply preserves_gets|intros real].
  destruct (_ || _); [|by apply preserves_ret].
  apply preserves_bind; [done|apply Hfs, mkdir_stay|intros _; apply Hfs; intros f; apply write_stay].
Qed.

(** ** The network stage *)

(** Apart from the caches of the downloads. *)
Definition off_caches root : Prop := apart frida_cache_dir root /\ apart _module_cache_dir root.

(** The registry and the rendered files stay. *)
Definition keeps_rendered root w w' : Prop :=
  w_reg w' = w_reg w /\
  forall x c, x = ".env" \/ x = "compose.override.yaml" ->
    w_fs w !! (root ++ [x]) = Some (FileN c) -> w_fs w' !! (root ++ [x]) = Some (FileN c).

#[local] Instance keeps_rendered_pre root : PreOrder (keeps_rendered root).
Proof. split; [by split|]. intros a b c [H1 H2] [H3 H4]. split; [congruence|auto]. Qed.

Lemma net_rendered {A} root (m : M net dl_error A) :
  (forall s x c, x = ".env" \/ x = "compose.override.yaml" ->
     nfs s !! (root ++ [x]) = Some (FileN c) -> nfs (snd (m s)) !! (root ++ [x]) = Some (FileN c)) ->
  preserves (keeps_rendered root) (on_net m).
Proof.
  intros Hm w. unfold on_net, zoom. specialize (Hm (net_of w)).
  destruct (m (net_of w)) as [[a|e] t]; (split; [done|exact Hm]).
Qed.

Lemma modules_keep root (l : list Module_) : apart _module_cache_dir root ->
  preserves (keeps_rendered root) (on_net (stage_for_instance root l)).
Proof.
  intros Hmod. apply net_rendered. intros s x c Hx.
  assert (within [_module_cache_dir; instance_modules root] (nfs s)
    (nfs (snd (stage_for_instance root l s)))) as Hw.
  { apply staging_within, (apart_sub _ root); [done|]. unfold instance_modules. by eexists. }
  apply (within_file _ _ _ _ _ Hw). apply Forall_cons. split.
  - eapply apart_below; [exact Hmod|]. by eexists.
  - apply Forall_singleton. intros [q Hq]. unfold instance_modules in Hq. rewrite <- app_assoc in Hq.
    apply (inj (app root)) in Hq. naive_solver.
Qed.

Lemma network_keeps i : off_caches (i_root i) ->
  preserves (keeps_rendered (i_root i)) (_stage_network fuel i).
Proof.
  intros [Hf Hmod]. unfold _stage_network.
  apply preserves_bind; [apply _| |intros _].
  - destruct (frida (i_cfg i)) as [fr|]; [|apply preserves_ret, _].
    apply preserves_bind; [apply _| |intros _; apply preserves_ret, _].
    apply net_rendered. intros s x c Hx Hc.
    pose proof (frida_stage_wp fuel (i_root i) (frida_version fr) (frida_sha256 fr) (binder (i_cfg i)) s Hf) as Hw.
    unfold wp in Hw. assert (forall tag a, i_root i ++ [x] <> cached_binary tag a) as Hne.
    { intros tag a Heq. apply (apart_below _ _ (i_root i ++ [x]) Hf); [by eexists|].
      rewrite Heq. unfold cached_binary. by eexists. }
    assert (i_root i ++ [x] <> instance_frida (i_root i)) as Hnf
      by (intros ?%snoc_inj; naive_solver).
    destruct (frida_stage_for_instance _ _ _ _ _ s) as [[p|e] s'].
    + destruct Hw as (_ & _ & tag & Ho). eapply only_file; [exact Ho| |exact Hc].
      specialize (Hne tag (Some (resolve_frida_arch (binder (i_cfg i))))). set_solver.
    + destruct Hw as (tag & Ho). eapply only_file; [exact Ho| |exact Hc].
      specialize (Hne tag (Some (resolve_frida_arch (binder (i_cfg i))))). set_solver.
  - apply preserves_bind; [apply _|by apply modules_keep|intros _; apply preserves_ret, _].
Qed.

Lemma note_keeps root n : preserves (keeps_rendered root) (print_note n).
Proof. intros w. by split. Qed.

(** The soft stage and the advisory never raise. *)
Lemma soft_wp i w : off_caches (i_root i) ->
  wp (_stage_network_soft fuel i ;; report_inert (i_cfg i) (i_name i))
    (fun _ w' => keeps_rendered (i_root i) w w') (fun _ _ => False) w.
Proof.
  intros Hoff. pose proof (network_keeps i Hoff w) as Hk. unfold _stage_network_soft, report_inert.
  apply wp_bind, wp_catch. unfold wp. destruct (_stage_network fuel i w) as [[[]|e] w1]; simpl in Hk |- *;
    (destruct (warn_inert_fields (i_cfg i)); simpl; [split; apply Hk|exact Hk]).
Qed.

(** ** Creation *)

Lemma pop_app data name m : Dict.get name data = None -> Dict.pop name (data ++ [(name, m)]) = data.
Proof.
  induction data as [|[n m'] data IH]; simpl; [by rewrite decide_True|].
  case_decide; [done|]. intros Hg. by rewrite IH.
Qed.

Lemma get_app data name m : Dict.get name data = None -> Dict.get name (data ++ [(name, m)]) = Some m.
Proof. intros Hg. rewrite <- (Dict.set_fresh name m) by done. apply Dict.get_set_eq. Qed.

Definition new_row i (idx : Z) (now : datetime) : InstanceMeta :=
  mkInstanceMeta (backend_for (i_cfg i) (i_root i)) idx now.

(** What a successful registration leaves. *)
Definition registered_as data i now w' : Prop := exists idx,
  least_free data idx /\ holds (data ++ [(i_name i, new_row i idx now)]) (w_reg w') /\
  rendered (i_name i) (i_root i) (i_cfg i) (new_row i idx now) (w_fs w').

(** The rollback could not remove all of the directory. *)
Definition rollback_gave_up root (e : api_error) (w' : world) : Prop :=
  e = not_removed /\ exists g l, l <> [] /\ remains g root = l /\ w_fs w' = rmtree_partly l root g.

(** What a failed one leaves: the rows as they were, and of a directory that was made for
    it nothing — unless it cannot be removed, or no port index was left, which is not
    rolled back. *)
Definition rolled_back data i (created : bool) (w : world) (e : api_error) (w' : world) : Prop :=
  holds data (w_reg w') /\
  ((exists k, e = Snap (RegErr (BadIndex (IndexTooLarge k)))) /\ w_fs w' = w_fs w \/
   (created = true -> forall p, i_root i `prefix_of` p -> w_fs w' !! p = None) \/
   rollback_gave_up (i_root i) e w').

Lemma rollback_wp data i created idx now w :
  data_inv data -> Dict.get (i_name i) data = None ->
  file_wf (data ++ [(i_name i, new_row i idx now)]) ->
  holds (data ++ [(i_name i, new_row i idx now)]) (w_reg w) ->
  node_at (w_fs w) (i_root i) = Some DirN ->
  wp (_rollback_partial_create (i_name i) (i_root i) created)
    (fun _ w' => holds data (w_reg w') /\ (created = true -> forall p, i_root i `prefix_of` p -> w_fs w' !! p = None))
    (fun e w' => holds data (w_reg w') /\ rollback_gave_up (i_root i) e w') w.
Proof.
  intros Hd Hg Hwf Hr Hdir. destruct (remove_run (i_name i) _ _ Hr Hwf) as (r & Hrm & Hr').
  rewrite pop_app in Hr' by done. unfold _rollback_partial_create.
  assert (on_host (on_reg (remove (i_name i))) w = (Ok tt, set_base (mkHost (w_fs w) r) w)) as Hrun.
  { unfold on_host, on_reg, zoom. unfold w_reg in Hrm. by rewrite Hrm. }
  apply wp_bind. unfold wp at 1. rewrite Hrun. set (w1 := set_base _ w). destruct created; [|by apply wp_ret].
  destruct (rmtree_there (i_root i) [i_root i] w1) as (f & [(Hrt & _ & _ & Hgone)|(Hrt & _ & _ & g & l & Hl)]);
    [by left|exact Hdir|..]; unfold wp; rewrite Hrt; (split; [exact Hr'|]).
  - intros _. exact Hgone.
  - split; [done|]. by exists g, l.
Qed.

Lemma collision_holds data f name l r : holds data r -> file_wf data ->
  holds data (snd (assert_no_port_collision (sibling_yaml f) name l r)).
Proof.
  intros Hr Hd. destruct (holds_opened data r Hr Hd) as (r1 & Ho & Hr1).
  unfold assert_no_port_collision. rewrite locked_then, Ho. unfold mbind, M_bind, lift.
  destruct (_resolved_host_ports_from _ _); [|done]. by destruct (find_port_collision _ _) as [[[] ?]|].
Qed.

Lemma commit_wp i created now data w :
  holds data (w_reg w) -> data_inv data -> Dict.get (i_name i) data = None ->
  Forall plain (i_root i) -> off_caches (i_root i) -> node_at (w_fs w) (i_root i) = Some DirN ->
  wp (commit fuel i created now) (fun i' w' => i' = i /\ registered_as data i now w')
    (rolled_back data i created w) w.
Proof.
  intros Hr Hd Hg Hp Hoff Hdir. unfold commit.
  destruct (backend_for_dir (i_cfg i) (i_root i) Hp) as [_ Hok].
  destruct (holds_opened data _ Hr (di_wf _ Hd)) as (r1 & Ho & Hr1).
  pose proof (add_allocating_cases (i_name i) None (Some (backend_for (i_cfg i) (i_root i))) now _ data r1 Ho) as Ha.
  simpl in Ha. unfold Dict.mem in Ha. rewrite Hg in Ha. destruct Ha as (idx & H0 & Hn & Hb & Ha).
  apply wp_bind. unfold wp at 1, on_host, zoom, on_reg. fold (w_reg w). rewrite Ha. case_decide as Hmax.
  2: { split; [exact Hr1|]. left. by split; [eexists|]. }
  set (m := new_row i idx now). fold m. set (w1 := set_base _ w).
  assert (holds (data ++ [(i_name i, m)]) (w_reg w1)) as Hr2 by (by right).
  assert (file_wf (data ++ [(i_name i, m)])) as Hwf.
  { apply (di_wf _ (data_inv_add data (i_name i) m Hd Hg Hok Hn ltac:(simpl; lia))). }
  assert (node_at (w_fs w1) (i_root i) = Some DirN) as Hdir1 by exact Hdir.
  clearbody w1. clear Ho Hr1 Ha Hr.
  set (body := new_ports ← ports_of idx (i_cfg i); _check_port_collisions (i_name i) new_ports ;; stage_local i).
  assert (wp body (fun _ w2 => rendered (i_name i) (i_root i) (i_cfg i) m (w_fs w2) /\
      holds (data ++ [(i_name i, m)]) (w_reg w2) /\ node_at (w_fs w2) (i_root i) = Some DirN)
    (fun _ w2 => holds (data ++ [(i_name i, m)]) (w_reg w2) /\ node_at (w_fs w2) (i_root i) = Some DirN) w1) as Hbody.
  { destruct w1 as [[f r] cc vc dc rq nt pr]. cbn [w_reg w_fs base fsys rworld] in *.
    unfold body, ports_of, _check_port_collisions, on_host. apply wp_bind, wp_zoom.
    unfold resolved, lift. destruct (fst (resolve_ports idx (ports (i_cfg i)) false)) as [new|pe]; [|done].
    apply wp_bind, wp_bind, wp_gets, wp_zoom. unfold on_reg. cbn [set_base base fsys rworld w_fs].
    assert (holds (data ++ [(i_name i, m)])
      (snd (assert_no_port_collision (sibling_yaml f) (i_name i) new r))) as Hq by (by apply collision_holds).
    destruct (assert_no_port_collision _ _ _ r) as [[[]|re] r2]; [|by split]. apply wp_zoom. cbn [set_base base].
    pose proof (stage_local_wp (i_name i) (i_root i) (i_cfg i) _ m (mkHost f r2) Hq Hwf (get_app _ _ _ Hg)) as Hs.
    pose proof (stage_local_stay (i_name i) (i_root i) (i_cfg i) (mkHost f r2)) as Hst.
    unfold wp in Hs. destruct (_stage_local _ _ _ (mkHost f r2)) as [[[]|e] h2]; simpl in *.
    - destruct Hs. split_and!; try done. by eapply dirs_stay_at.
    - split; [done|]. by eapply dirs_stay_at. }
  apply wp_bind. unfold wp at 1, rollback_on. unfold wp in Hbody.
  destruct (body w1) as [[[]|e] w2].
  - destruct Hbody as (Hren & Hr3 & _). pose proof (soft_wp i w2 Hoff) as Hs.
    unfold wp, mbind, M_bind in Hs |- *. destruct (_stage_network_soft fuel i w2) as [[[]|e3] w3]; [|done].
    destruct (report_inert (i_cfg i) (i_name i) w3) as [[[]|e4] w4]; [|done]. simpl. split; [done|].
    destruct Hs as [Hreg Hfiles]. exists idx. split; [by split_and!|]. split; [by rewrite Hreg|].
    by eapply rendered_frame.
  - destruct Hbody as [Hr3 Hdir3].
    pose proof (rollback_wp data i created idx now w2 Hd Hg Hwf Hr3 Hdir3) as Hrb.
    unfold wp in Hrb. unfold mbind, M_bind.
    destruct (_rollback_partial_create (i_name i) (i_root i) created w2) as [[[]|e3] w3];
      destruct Hrb as [Hr4 Hgone]; (split; [exact Hr4|]); right; [by left|by right].
Qed.

(** Steps before the registration leave the file system and the rows alone. *)
Definition untouched data (w w' : world) : Prop := w_fs w' = w_fs w /\ holds data (w_reg w').

Lemma wp_row_of name data w (Q : option InstanceMeta -> world -> Prop) (R : api_error -> world -> Prop) :
  holds data (w_reg w) -> file_wf data ->
  (forall w', untouched data w w' -> Q (Dict.get name data) w') ->
  (forall e w', untouched data w w' -> R e w') -> wp (row_of name) Q R w.
Proof.
  intros Hr Hd HQ HR. unfold row_of, on_host. apply wp_zoom. unfold on_reg. fold (w_reg w).
  pose proof (holds_get name data _ Hr Hd) as Hg. unfold wp in Hg.
  destruct (Registry.get name (w_reg w)) as [[m|e] r].
  - destruct Hg as [-> Hr']. by apply HQ.
  - by apply HR.
Qed.

Lemma wp_overlap name target data w (Q : unit -> world -> Prop) (R : api_error -> world -> Prop) :
  holds data (w_reg w) -> file_wf data ->
  (forall w', untouched data w w' -> overlapping target data = None -> Q tt w') ->
  (forall e w', untouched data w w' -> R e w') -> wp (_check_directory_overlap name target) Q R w.
Proof.
  intros Hr Hd HQ HR. unfold _check_directory_overlap, rows_now, on_host.
  apply wp_bind, wp_zoom. unfold on_reg. fold (w_reg w).
  pose proof (holds_list data _ Hr Hd) as Hl. unfold wp in Hl.
  destruct (list_instances (w_reg w)) as [[d|e] r]; [|by apply HR]. destruct Hl as [-> Hr'].
  destruct (overlapping target data) eqn:Ho; [by apply HR|by apply HQ].
Qed.

Lemma wp_on_tree {A} (m : M fs os_error A) w (Q : A -> world -> Prop) (R : api_error -> world -> Prop) :
  (forall a f, m (w_fs w) = (Ok a, f) -> Q a (set_fs f w)) ->
  (forall e f, m (w_fs w) = (Err e, f) -> R (Snap (OsErr e)) (set_fs f w)) -> wp (on_tree m) Q R w.
Proof.
  intros HQ HR. unfold on_tree, on_host. apply wp_zoom. unfold on_fs. unfold w_fs in *.
  destruct (m (fsys (base w))) as [[a|e] f]; [by apply HQ|by apply HR].
Qed.

Lemma untouched_trans data w w1 w2 : untouched data w w1 -> untouched data w1 w2 -> untouched data w w2.
Proof. intros [H1 _] [H2 ?]. split; [congruence|done]. Qed.

(** ** The constructors *)

Hypothesis cwd_plain : Forall plain cwd.

Definition created_as (name : string) (p : option string) (cfg : option InstanceConfig)
    (lc : option Lifecycle) : Instance :=
  mkInstance name (resolve cwd (default name p))
    (default (with_lifecycle (default durable lc) InstanceConfig_default) cfg) None.

(** Below [root] there is at most a configuration. *)
Definition bare (root : path) (f : fs) : Prop := forall p,
  root `prefix_of` p -> p <> root -> p <> instance_yaml root -> f !! p = None.

(** What a failed creation leaves of the rows, and of a directory that did not exist. *)
Definition no_debris data root (w : world) (e : api_error) (w' : world) : Prop :=
  holds data (w_reg w') /\
  (node_at (w_fs w) root = None ->
   (forall p, root `prefix_of` p -> w_fs w' !! p = None) \/
   ((exists o, e = Snap (OsErr o)) \/ exists k, e = Snap (RegErr (BadIndex (IndexTooLarge k)))) /\
     bare root (w_fs w') \/
   rollback_gave_up root e w').

(** C4. [create]: when it returns, the name is valid and was free, the directory neither
    contains nor lies in that of another instance, one row was added — with the backend
    the binder asks for, the directory and the least free port index — and [.env] and
    the compose override are rendered for it, whatever became of the downloads.  When it
    raises, the rows are as before, and of a directory that did not exist nothing is
    left, with two exceptions: after an [OSError] (making the directory and writing its
    configuration are not rolled back), and when no port index was left, the directory and
    at most the configuration may stay; and when the rollback cannot remove the directory,
    what it could not remove stays. *)
Theorem create_registers_or_rolls_back name p (cfg : option InstanceConfig) lc now data w :
  let i := created_as name p cfg lc in
  holds data (w_reg w) -> data_inv data -> fs_wf (w_fs w) -> off_caches (i_root i) ->
  match create fuel name p cfg lc now w with
  | (Ok i', w') =>
      i' = i /\ plus_full instance_name_char name = true /\ Dict.get name data = None /\
      overlapping (i_root i) data = None /\ registered_as data i now w'
  | (Err e, w') => no_debris data (i_root i) w e w'
  end.
Proof.
  intros i Hr Hd Hwf Hoff. set (root := i_root i) in *. pose proof (di_wf _ Hd) as Hdw.
  assert (Forall plain root) as Hp by (by apply resolve_plain).
  assert (forall e w1, untouched data w w1 -> no_debris data root w e w1) as Hun.
  { intros e w1 [Hf Hr1]. split; [done|]. intros Hn. left. intros q Hq. rewrite Hf. by eapply wf_below. }
  enough (wp (create fuel name p cfg lc now) (fun i' w' => i' = i /\ plus_full instance_name_char name = true /\
      Dict.get name data = None /\ overlapping root data = None /\ registered_as data i now w')
    (fun e w' => no_debris data root w e w') w) as Hw.
  { unfold wp in Hw. by destruct (create fuel name p cfg lc now w) as [[]]. }
  assert (untouched data w w) as H0 by (by split).
  assert (forall v : world, set_base (base v) v = v) as Hsb by (by intros []).
  unfold create. apply wp_bind. unfold on_host at 1. apply wp_zoom. unfold _validate_instance_name, lift, raise_if.
  destruct (plus_full instance_name_char name) eqn:Hname; simpl; rewrite Hsb; [|by apply Hun].
  apply wp_bind, wp_lift; [intros [] _|intros e _; by apply Hun].
  apply wp_bind, (wp_row_of name data); [done..| |intros e w1 H1; by apply Hun]. intros w1 H1.
  apply wp_bind, wp_lift; [intros [] Hk%raise_if_ok|intros e _; by apply Hun].
  assert (Dict.get name data = None) as Hg by (apply bool_decide_eq_false in Hk; by apply eq_None_not_Some).
  apply wp_bind, wp_gets, wp_bind, wp_lift; [intros [] _|intros e _; by apply Hun].
  change (resolve cwd (default name p)) with root.
  apply wp_bind, (wp_overlap name root data); [apply H1|done| |intros e w2 H2; apply Hun; by eapply untouched_trans].
  intros w2 H2 Ho. apply (untouched_trans _ _ _ _ H1) in H2. destruct H2 as [Hf2 Hr2].
  assert (forall f, node_at (w_fs w) root = None -> (forall q, root `prefix_of` q -> q <> root -> f !! q = w_fs w2 !! q) ->
    bare root f) as Hbare.
  { intros f Hn Hq p' Hp' Hne _. rewrite Hq, Hf2 by done. by eapply wf_below. }
  assert (forall r f, mkdir_p root (w_fs w2) = (r, f) -> node_at (w_fs w) root = None -> bare root f) as Hmkb.
  { intros r f Hm Hn. apply Hbare; [done|]. intros q Hq Hne.
    pose proof (mkdir_p_below root q (w_fs w2) Hq Hne) as Hb. by rewrite Hm in Hb. }
  apply wp_bind, wp_gets, wp_bind, wp_on_tree.
  2: { intros e f Hm. split; [exact Hr2|]. intros Hn. right. left. split; [left; by eexists|by eapply Hmkb]. }
  intros [] f3 Hmk. apply wp_bind.
  assert (node_at f3 root = Some DirN) as Hdir3 by (by eapply mkdir_p_ok).
  set (created := negb (exists_at (w_fs w2) root)).
  set (slim := fun f => node_at (w_fs w) root = None -> bare root f).
  assert (slim f3) as Hb3 by (intros Hn; by eapply Hmkb).
  apply (wp_mono _ (fun _ w4 => w_reg w4 = w_reg w2 /\ node_at (w_fs w4) root = Some DirN /\ slim (w_fs w4)) _
    (fun e w4 => w_reg w4 = w_reg w2 /\ (exists o, e = Snap (OsErr o)) /\ slim (w_fs w4))).
  - assert (forall c w3, w_reg w3 = w_reg w2 -> node_at (w_fs w3) root = Some DirN -> slim (w_fs w3) ->
      wp (on_tree (write_file (instance_yaml root) c))
        (fun _ w4 => w_reg w4 = w_reg w2 /\ node_at (w_fs w4) root = Some DirN /\ slim (w_fs w4))
        (fun e w4 => w_reg w4 = w_reg w2 /\ (exists o, e = Snap (OsErr o)) /\ slim (w_fs w4)) w3) as Hwrite.
    { intros c w3 Hr3 Hd3 Hb. apply wp_on_tree.
      - intros [] f Hw. split; [done|]. pose proof (write_stay (instance_yaml root) c (w_fs w3)) as Hs. rewrite Hw in Hs.
        split; [by eapply dirs_stay_at|]. apply write_file_ok in Hw as [-> _].
        intros Hn q Hq Hqr Hqy. change (w_fs (set_fs ?g _)) with g. rewrite lookup_insert_ne by done. by apply Hb.
      - intros e f Hw. split; [done|]. split; [by eexists|].
        assert (f = w_fs w3) as -> by (unfold write_file in Hw; by repeat case_match; simplify_eq). exact Hb. }
    destruct cfg as [c|]; [|by apply Hwrite]. unfold write_yaml.
    assert (forall r f, mkdir_p root f3 = (r, f) -> slim f) as Hmk3.
    { intros r f Hm Hn q Hq Hqr Hqy. pose proof (mkdir_p_below root q f3 Hq Hqr) as Hb. rewrite Hm in Hb.
      simpl in Hb. rewrite Hb. by apply Hb3. }
    assert (parent (instance_yaml root) = root) as -> by (unfold instance_yaml; apply parent_snoc).
    apply wp_bind, wp_on_tree; change (w_fs (set_fs f3 w2)) with f3.
    + intros [] f Hmk2. apply Hwrite; [done| |by eapply Hmk3].
      pose proof (mkdir_stay root f3) as Hs. rewrite Hmk2 in Hs. by eapply dirs_stay_at.
    + intros e f Hm. split; [done|]. split; [by eexists|by eapply Hmk3].
  - intros [] w4 (Hr4 & Hd4 & Hb4). rewrite <- Hr4 in Hr2.
    eapply wp_mono; [by apply (commit_wp i created now data w4)| |].
    + intros i' w5 [-> Hreg]. by split_and!.
    + intros e w5 [Hr5 [[[k ->] Hf5]|[Hgone|Hup]]]; (split; [done|]); intros Hn.
      * right. left. split; [right; by exists k|]. rewrite Hf5. by apply Hb4.
      * left. apply Hgone. unfold created, exists_at. rewrite Hf2, Hn. done.
      * by right; right.
  - intros e w4 (Hr4 & [o ->] & Hb4). split; [by rewrite Hr4|]. intros Hn. right. left.
    split; [left; by exists o|by apply Hb4].
Qed.

(** ** Adoption *)

Definition staged_files root : list path :=
  [instance_env root; instance_compose_override root; instance_frida root].

Lemma stage_local_only name root cfg h :
  only (staged_files root) (fsys h) (fsys (snd (_stage_local name root cfg h))).
Proof.
  set (R := fun a b => only (staged_files root) (fsys a) (fsys b)).
  assert (PreOrder R) as HR.
  { split; [intros a; red; reflexivity|]. intros a b c H1 H2. red. by transitivity (fsys b). }
  assert (forall A (m : M host snap_error A), (forall h, fsys (snd (m h)) = fsys h) -> preserves R m) as Hsame
    by (intros A m Hm a; unfold R; rewrite Hm; reflexivity).
  assert (forall A (m : M fs os_error A), (forall f, only (staged_files root) f (snd (m f))) ->
    preserves R (on_fs m)) as Hfs.
  { intros A m Hm a. unfold R, on_fs. specialize (Hm (fsys a)). by destruct (m (fsys a)) as [[] ?]. }
  assert (forall p, preserves R (on_fs (mkdir_p p))) as Hmk.
  { intros p. apply Hfs. intros f. eapply only_mono; [|apply mkdir_p_only]. set_solver. }
  assert (forall p c, p ∈ staged_files root -> preserves R (on_fs (write_file p c))) as Hw.
  { intros p c Hp. apply Hfs. intros f. eapply only_mono; [|apply write_file_only]. set_solver. }
  revert h. change (preserves R (_stage_local name root cfg)). unfold _stage_local, stage_empty.
  apply preserves_bind; [done|apply Hsame, on_reg_fs|intros [m|]; [|by apply preserves_raise]].
  apply preserves_bind; [done|by apply preserves_lift|intros new].
  do 2 (apply preserves_bind; [done|apply Hmk|intros _]).
  apply preserves_bind; [done|apply Hw; unfold staged_files; by left|intros _].
  apply preserves_bind; [done|apply Hw; unfold staged_files; right; by left|intros _].
  apply preserves_bind; [done|by apply preserves_gets|intros real].
  destruct (_ || _); [|by apply preserves_ret].
  apply preserves_bind; [done|apply Hmk|intros _]. apply Hw. unfold staged_files. right. right. by left.
Qed.

Lemma on_host_fs {A} (m : M host snap_error A) w :
  w_fs (snd (on_host m w)) = fsys (snd (m (base w))).
Proof. unfold on_host, zoom. by destruct (m (base w)) as [[] ?]. Qed.

(** An adoption that fails has written nothing but the staged files. *)
Lemma commit_err_only i now w e w' :
  off_caches (i_root i) -> commit fuel i false now w = (Err e, w') ->
  only (staged_files (i_root i)) (w_fs w) (w_fs w').
Proof.
  intros Hoff Hc. set (R := fun a b => only (staged_files (i_root i)) (w_fs a) (w_fs b)).
  assert (PreOrder R) as HR.
  { split; [intros a; red; reflexivity|]. intros a b c H1 H2. red. by transitivity (w_fs b). }
  assert (forall A (m : M Registry.world reg_error A), preserves R (on_host (on_reg m))) as Hreg
    by (intros A m a; unfold R; rewrite on_host_fs, on_reg_fs; reflexivity).
  assert (preserves R (_rollback_partial_create (i_name i) (i_root i) false)) as Hrb
    by (apply preserves_bind; [done|apply Hreg|intros _; by apply preserves_ret]).
  enough (wp (commit fuel i false now) (fun _ _ => True) (fun _ w' => R w w') w) as Hw.
  { unfold wp in Hw. by rewrite Hc in Hw. }
  clear Hc. unfold commit. apply wp_bind.
  eapply wp_mono; [apply (proj1 (preserves_wp R _)), Hreg| |done]. intros idx w1 H1. apply wp_bind.
  set (body := new_ports ← ports_of idx (i_cfg i); _check_port_collisions (i_name i) new_ports ;; stage_local i).
  assert (preserves R body) as Hbody.
  { unfold body, ports_of, _check_port_collisions, stage_local.
    apply preserves_bind; [done|intros a; unfold R; rewrite on_host_fs; reflexivity|intros new].
    apply preserves_bind; [done| |intros _; intros a; unfold R; rewrite on_host_fs; apply stage_local_only].
    apply preserves_bind; [done|by apply preserves_gets|intros f; apply Hreg]. }
  apply (wp_mono _ (fun _ w2 => R w1 w2) _ (fun _ w2 => R w1 w2)).
  - specialize (Hbody w1). unfold wp, rollback_on. destruct (body w1) as [[[]|e1] w2]; [exact Hbody|].
    simpl in Hbody. pose proof (Hrb w2) as H2. unfold mbind, M_bind.
    destruct (_rollback_partial_create _ _ _ w2) as [[[]|e2] w3]; simpl in *; by transitivity w2.
  - intros _ w2 _. pose proof (soft_wp i w2 Hoff) as Hs. unfold wp, mbind, M_bind in Hs |- *.
    destruct (_stage_network_soft fuel i w2) as [[[]|e3] w3]; [|done].
    by destruct (report_inert (i_cfg i) (i_name i) w3) as [[[]|e4] w4].
  - intros e1 w2 H2. by transitivity w1.
Qed.

(** C10. [register]: when it returns, the directory held a configuration that parses, was
    not in or above that of another instance, and is registered under a free valid name
    as [create] registers it.  When it raises, the rows are as before and every file of
    the directory is still there, unchanged but for the three it renders. *)
Theorem register_adopts_or_rolls_back p (name : option string) now data w :
  let root := resolve cwd p in
  let n := default (path_name root) name in
  holds data (w_reg w) -> data_inv data -> fs_wf (w_fs w) -> off_caches root ->
  match register fuel p name now w with
  | (Ok i, w') =>
      (exists text cfg, i = mkInstance n root cfg None /\
         w_fs w !! instance_yaml root = Some (FileN text) /\ parse_config text = Some cfg) /\
      plus_full instance_name_char n = true /\ Dict.get n data = None /\
      overlapping root data = None /\ registered_as data i now w'
  | (Err _, w') =>
      holds data (w_reg w') /\
      forall q c, q ∉ staged_files root -> w_fs w !! q = Some (FileN c) -> w_fs w' !! q = Some (FileN c)
  end.
Proof.
  intros root n Hr Hd Hwf Hoff. pose proof (di_wf _ Hd) as Hdw.
  assert (Forall plain root) as Hp by (by apply resolve_plain).
  set (failed := fun w' : world => holds data (w_reg w') /\
    forall q c, q ∉ staged_files root -> w_fs w !! q = Some (FileN c) -> w_fs w' !! q = Some (FileN c)).
  assert (forall w1, untouched data w w1 -> failed w1) as Hun
    by (intros w1 [Hf Hr1]; split; [done|]; intros q c _; by rewrite Hf).
  assert (untouched data w w) as H0 by (by split).
  assert (forall v : world, set_base (base v) v = v) as Hsb by (by intros []).
  enough (wp (register fuel p name now) (fun i w' =>
      (exists text cfg, i = mkInstance n root cfg None /\
         w_fs w !! instance_yaml root = Some (FileN text) /\ parse_config text = Some cfg) /\
      plus_full instance_name_char n = true /\ Dict.get n data = None /\
      overlapping root data = None /\ registered_as data i now w') (fun _ w' => failed w') w) as Hw.
  { unfold wp in Hw. by destruct (register fuel p name now w) as [[]]. }
  unfold register. fold root. apply wp_bind, wp_gets, wp_bind, wp_lift; [|intros e _; by apply Hun].
  intros [] Hthere%raise_if_ok%negb_false_iff.
  apply wp_bind. unfold on_host at 1. apply wp_zoom. unfold _validate_instance_name, lift, raise_if. fold n.
  destruct (plus_full instance_name_char n) eqn:Hname; simpl; rewrite Hsb; [|by apply Hun].
  apply wp_bind, (wp_row_of n data); [done..| |intros e w1 H1; by apply Hun]. intros w1 H1.
  apply wp_bind, wp_lift; [intros [] Hk%raise_if_ok|intros e _; by apply Hun].
  assert (Dict.get n data = None) as Hg by (apply bool_decide_eq_false in Hk; by apply eq_None_not_Some).
  apply wp_bind, (wp_overlap n root data); [apply H1|done| |intros e w2 H2; apply Hun; by eapply untouched_trans].
  intros w2 H2 Ho. apply (untouched_trans _ _ _ _ H1) in H2. pose proof H2 as [Hf2 Hr2].
  apply wp_bind. unfold on_host. apply wp_zoom.
  destruct (load_yaml (instance_yaml root) (base w2)) as [[cfg|e] h2] eqn:Hload.
  2: { pose proof (load_yaml_same (instance_yaml root) (base w2)) as Hs. rewrite Hload in Hs. simpl in Hs. subst h2.
       rewrite Hsb. by apply Hun. }
  apply load_yaml_ok in Hload as [-> (text & Hy & Hparse)]. rewrite Hsb.
  rewrite node_at_cons in Hy by (unfold instance_yaml; by destruct root).
  set (i := mkInstance n root cfg None).
  assert (node_at (w_fs w2) root = Some DirN) as Hdir.
  { assert (w_fs w2 !! instance_yaml root = Some (FileN text)) as Hy2 by exact Hy.
    rewrite Hf2 in Hy2 |- *. destruct (Hwf _ _ Hy2) as (_ & Hpar & _). unfold instance_yaml in Hpar.
    by rewrite parent_snoc in Hpar. }
  pose proof (commit_wp i false now data w2 Hr2 Hd Hg Hp Hoff Hdir) as Hc.
  unfold wp in Hc |- *. destruct (commit fuel i false now w2) as [[i'|e] w3] eqn:Hcommit.
  - destruct Hc as [-> Hreg]. split_and!; try done. exists text, cfg. split_and!; [done| |done].
    assert (w_fs w2 !! instance_yaml root = Some (FileN text)) as Hy2 by exact Hy. by rewrite Hf2 in Hy2.
  - destruct Hc as [Hr3 _]. split; [done|]. intros q c Hq Hqc.
    pose proof (commit_err_only i now w2 e w3 Hoff Hcommit) as Honly.
    eapply only_file; [exact Honly|done|]. by rewrite Hf2.
Qed.
End specs.
