(* ===== verification/ApiVerbs.v ===== *)
(** * What the verbs and listings of the API achieve

    Functional specifications over [Api]: the partition of the registry into instances and
    orphans, destruction, the start of a container with its published ports, the
    application of an edited configuration and the addition of a module. *)
From stdpp Require Import base list strings gmap sorting relations.
From Stdlib Require Import ZArith QArith Lia.
From S2P Require Import Prelude PyStr Config Ports Registry RegistryOps Render HostFs Paths Compose Download ModulesDownload FridaDownload Snapshot SnapshotOps Api ApiInv ApiOps ApiPeers ApiSpecs.
Local Open Scope stdpp_scope.
Local Open Scope Z_scope.

Section listing.
Context `{P : Pydantic} `{L : !PydanticLaws P} {X : Externals}.
Abbreviation RegistryFile := (list (string * InstanceMeta)).
Implicit Types (data rows : RegistryFile) (w : world) (i : Instance).

(** The instance a redroid row stands for, when its configuration parses. *)
Definition instance_of w (row : string * InstanceMeta) : option Instance :=
  match backend row.2 with
  | RedroidBackendConfig p _ =>
      match fst (load_yaml (instance_yaml (resolve cwd p)) (base w)) with
      | Ok cfg => Some (mkInstance row.1 (resolve cwd p) cfg None)
      | Err _ => None
      end
  | _ => None
  end.

Definition is_redroid (row : string * InstanceMeta) : Prop :=
  match backend row.2 with RedroidBackendConfig _ _ => True | _ => False end.
#[local] Instance is_redroid_dec row : Decision (is_redroid row).
Proof. unfold is_redroid. destruct (backend row.2); apply _. Defined.

Definition orphan_of w (row : string * InstanceMeta) : option string :=
  match backend row.2, instance_of w row with
  | RedroidBackendConfig _ _, None => Some row.1
  | _, _ => None
  end.

Lemma on_host_read {A} (m : M host snap_error A) w :
  snd (m (base w)) = base w ->
  on_host m w = (match fst (m (base w)) with Ok a => Ok a | Err e => Err (Snap e) end, w).
Proof.
  unfold on_host, zoom. destruct (m (base w)) as [[a|e] h]; simpl; intros ->; by destruct w.
Qed.

Lemma on_reg_read {A} (m : M Registry.world reg_error A) w r :
  m (w_reg w) = (Ok r, w_reg w) -> on_host (on_reg m) w = (Ok r, w).
Proof.
  intros Hm. unfold w_reg in Hm. rewrite on_host_read; unfold on_reg; rewrite Hm; [done|]. by destruct (base w).
Qed.

Lemma load_read p w :
  on_host (load_yaml p) w =
    (match fst (load_yaml p (base w)) with Ok c => Ok c | Err e => Err (Snap e) end, w).
Proof. apply on_host_read, load_yaml_same. Qed.

(** A configuration that parses is a file. *)
Lemma load_is_file p cfg w :
  fst (load_yaml (instance_yaml (resolve cwd p)) (base w)) = Ok cfg -> has_yaml_file w p = true.
Proof.
  intros Hl. destruct (load_yaml _ (base w)) as [r h] eqn:H. simpl in Hl. subst r.
  apply load_yaml_ok in H as (_ & text & Hn & _). unfold has_yaml_file, is_file_at, w_fs. by rewrite Hn.
Qed.

Section written.
Variables (data : RegistryFile) (w : world).
Hypothesis Hreg : reg (w_reg w) = Some (Doc (_registry_to_json data)).
Hypothesis Hwf : file_wf data.

Lemma rows_read : rows_now w = (Ok data, w).
Proof. apply on_reg_read. by apply list_written. Qed.

Lemma row_read name : row_of name w = (Ok (Dict.get name data), w).
Proof.
  apply on_reg_read. unfold Registry.get. by rewrite (M_bind_ok _ _ _ _ _ (list_written _ _ Hreg Hwf)).
Qed.

Lemma load_run n m p sp :
  Dict.get n data = Some m -> backend m = RedroidBackendConfig p sp ->
  load n w = (match fst (load_yaml (instance_yaml (resolve cwd p)) (base w)) with
              | Ok cfg => Ok (mkInstance n (resolve cwd p) cfg None)
              | Err e => Err (Snap e)
              end, w).
Proof.
  intros Hg Hb. unfold load. rewrite (M_bind_ok _ _ _ _ _ (row_read n)), Hg, Hb. cbv zeta.
  unfold mbind, M_bind. rewrite load_read. by destruct (fst _).
Qed.

Lemma healthy_run rows :
  (forall n m, (n, m) ∈ rows -> Dict.get n data = Some m) ->
  healthy rows w = (Ok (omap (instance_of w) rows), w).
Proof.
  induction rows as [|[n m] rows IH]; intros Hin; [done|].
  assert (healthy rows w = (Ok (omap (instance_of w) rows), w)) as Hrest
    by (apply IH; intros; apply Hin; by right).
  assert (Dict.get n data = Some m) as Hg by (apply Hin; by left).
  cbn [healthy omap list_omap]. unfold instance_of at 1. cbn [fst snd].
  destruct (backend m) as [p sp|s|p|c k f|k raw] eqn:Hb; try exact Hrest.
  unfold mbind at 1, M_bind, gets.
  pose proof (load_is_file p) as Hfile. pose proof (load_run n m p sp Hg Hb) as Hl.
  destruct (fst (load_yaml (instance_yaml (resolve cwd p)) (base w))) as [cfg|e] eqn:Hload.
  - rewrite (Hfile cfg w) by done. unfold catch, mbind, M_bind. rewrite Hl; simpl; by rewrite Hrest.
  - destruct (has_yaml_file w p); [|exact Hrest]. unfold catch, mbind, M_bind. rewrite Hl; simpl; by rewrite Hrest.
Qed.

Lemma orphans_run rows : orphans rows w = (Ok (omap (orphan_of w) rows), w).
Proof.
  induction rows as [|[n m] rows IH]; [done|].
  cbn [orphans omap list_omap]. unfold orphan_of at 1, instance_of at 1. cbn [fst snd].
  destruct (backend m) as [p sp|s|p|c k f|k raw] eqn:Hb; try exact IH.
  unfold mbind at 1, M_bind, gets.
  pose proof (load_is_file p) as Hfile. pose proof (load_read (instance_yaml (resolve cwd p)) w) as Hl.
  destruct (fst (load_yaml (instance_yaml (resolve cwd p)) (base w))) as [cfg|e] eqn:Hload.
  - rewrite (Hfile cfg w) by done. unfold catch, mbind, M_bind, mret, M_ret. rewrite Hl; simpl; by rewrite IH.
  - unfold catch, mbind, M_bind, mret, M_ret. destruct (has_yaml_file w p); [rewrite Hl|]; simpl; by rewrite IH.
Qed.
End written.

Lemma names_split w data :
  map i_name (omap (instance_of w) data) ++ omap (orphan_of w) data ≡ₚ map fst (filter is_redroid data).
Proof.
  induction data as [|row data IH]; [done|]. cbn [omap list_omap]. rewrite filter_cons.
  assert (forall i, instance_of w row = Some i -> i_name i = row.1 /\ is_redroid row) as Hi.
  { unfold instance_of, is_redroid. intros i. destruct (backend row.2); [|done..].
    destruct (fst _); [|done]. by intros [= <-]. }
  assert (orphan_of w row = match instance_of w row with
                            | Some _ => None
                            | None => if decide (is_redroid row) then Some row.1 else None
                            end) as ->.
  { unfold orphan_of. case_decide as Hk; unfold is_redroid in Hk;
      destruct (backend row.2), (instance_of w row); done. }
  destruct (instance_of w row) as [i|].
  - destruct (Hi i eq_refl) as [Hn Hk]. rewrite decide_True by done. simpl. rewrite Hn. by constructor.
  - case_decide; [|exact IH]. simpl. rewrite <- IH. by rewrite Permutation_middle.
Qed.

(** [list_instances] and [list_orphans] partition the redroid rows: neither raises nor
    changes anything, every redroid row is named by exactly one of the two, rows of other
    kinds by none, and the instances listed carry the directory of their row and the
    configuration that is in it. *)
Theorem listings_partition_rows data w :
  reg (w_reg w) = Some (Doc (_registry_to_json data)) -> file_wf data ->
  exists l o, manager_list_instances w = (Ok l, w) /\ list_orphans w = (Ok o, w) /\
    map i_name l ++ o ≡ₚ map fst (filter is_redroid data) /\
    (forall i, i ∈ l -> exists m p sp text,
       (i_name i, m) ∈ data /\ backend m = RedroidBackendConfig p sp /\ i_root i = resolve cwd p /\
       node_at (w_fs w) (instance_yaml (i_root i)) = Some (FileN text) /\
       parse_config text = Some (i_cfg i)).
Proof.
  intros Hr Hd. pose proof (rows_read data w Hr Hd) as Hrows.
  assert (forall n m, (n, m) ∈ merge_sort name_le data -> Dict.get n data = Some m) as Hin.
  { intros n m. rewrite merge_sort_Permutation. apply Dict.elem_get, Hd. }
  exists (omap (instance_of w) (merge_sort name_le data)), (merge_sort string_le (omap (orphan_of w) data)).
  split_and!.
  - unfold manager_list_instances. rewrite (M_bind_ok _ _ _ _ _ Hrows). by apply (healthy_run data).
  - unfold list_orphans. rewrite (M_bind_ok _ _ _ _ _ Hrows). unfold mbind, M_bind. by rewrite orphans_run.
  - rewrite merge_sort_Permutation, <- names_split. f_equiv. by rewrite merge_sort_Permutation.
  - intros i ([n m] & Hnm & Hi)%list_elem_of_omap. rewrite merge_sort_Permutation in Hnm.
    unfold instance_of in Hi. cbn [fst snd] in Hi. destruct (backend m) as [p sp| | | |] eqn:Hb; try done.
    destruct (load_yaml _ (base w)) as [[cfg|e] h] eqn:Hl; simplify_eq/=.
    apply load_yaml_ok in Hl as (_ & text & ? & ?). by exists m, p, sp, text.
Qed.
End listing.

Section verbs.
Context `{P : Pydantic} `{L : !PydanticLaws P} {X : Externals} {Y : Layout} `{YL : !LayoutLaws Y} {W : Web} `{WL : !WebLaws W} {H : FridaHost} {Z' : Lzma} {D : Docker} `{DL : !DockerLaws D} {U : Dumper}.
Variable fuel : nat.
Abbreviation RegistryFile := (list (string * InstanceMeta)).
Implicit Types (data : RegistryFile) (w : world) (i : Instance) (root : path) (cfg : InstanceConfig) (s : obj).

(** ** Destruction *)

(** [destroy] on an instance whose directory is there.  Either the row alone is gone from
    the registry, nothing is left under the directory, and it returned or raises docker's
    failure; or the row is gone and some of the directory could not be removed, which it
    raises; or it raises something else, before anything was removed: the registry is
    as it was and the directory still there.  Outside the directory and the two places
    the compose template is written to, no file changes either way. *)
Theorem destroy_spec i data w :
  holds data (w_reg w) -> file_wf data -> node_at (w_fs w) (i_root i) = Some DirN ->
  let '(r, s') := destroy true (mkObj i w) in
  within (docker_dirs (i_root i)) (w_fs w) (w_fs (env s')) /\
  ((r = Ok tt \/ compose_failure r) /\ holds (Dict.pop (i_name i) data) (w_reg (env s')) /\
     (forall p, i_root i `prefix_of` p -> w_fs (env s') !! p = None) \/
   r = Err not_removed /\ holds (Dict.pop (i_name i) data) (w_reg (env s')) /\
     half_removed (i_root i) (docker_dirs (i_root i)) (w_fs w) (w_fs (env s')) \/
   (exists e, r = Err e /\ ~ compose_failure r) /\ w_reg (env s') = w_reg w /\
     node_at (w_fs (env s')) (i_root i) = Some DirN).
Proof.
  intros Hr Hd Hroot. pose proof (destroy_cases i data w Hr Hd Hroot) as Hc. cbv zeta in Hc.
  destruct (destroy true (mkObj i w)) as [r s']. cbn [fst snd] in Hc.
  destruct Hc as [(H1 & [[[H2 H3] H4]|[H2 H4]])|([[H1 H2] H3] & H4)].
  - split; [done|]. by left.
  - split; [apply H2|]. right. by left.
  - split; [done|]. right. right. split_and!; [done..|by apply H2].
Qed.

(** When the directory is gone already, [destroy] cannot clear the row: docker is
    spawned in the missing directory, which raises before the row is touched. *)
Theorem destroy_missing_root_keeps_row i w t :
  docker_found = true -> compose_cache w = Some t -> exists_at (w_fs w) t = true ->
  node_at (w_fs w) (i_root i) = None ->
  destroy true (mkObj i w) = (Err (Cmp (ComposeOs NoSuchFile)), mkObj i w).
Proof.
  intros Hd Hc Ht Hroot.
  assert (Compose.down (i_name i) (i_root i) true (docker_of w) =
    (Err (ComposeOs NoSuchFile), docker_of w)) as Hdown.
  { unfold Compose.down, Compose.run. apply M_bind_err.
    rewrite (M_bind_ok _ _ _ _ _ (base_cmd_cached (i_name i) (i_root i) (docker_of w) t Hd Hc Ht)).
    unfold spawn. change (c_fs (docker_of w)) with (w_fs w). by rewrite Hroot. }
  assert (_teardown_under_lock (i_name i) (i_root i) w = (Err (Cmp (ComposeOs NoSuchFile)), w)) as Htear.
  { assert (set_docker (docker_of w) w = w) as Hw by (by destruct w as [[] ? ? ? ? ? ?]).
    unfold _teardown_under_lock. apply M_bind_err. unfold catch, mbind, M_bind, on_docker, zoom.
    by rewrite Hdown, Hw. }
  unfold destroy, me. change (raise_if (negb true) NotConfirmed) with (Ok tt : result api_error unit).
  rewrite lift_ok_bind. unfold mbind, M_bind, gets, on_env, zoom. cbn [self env].
  unfold exists_at. rewrite bool_decide_eq_false_2 by (rewrite Hroot; by intros []).
  unfold mret, M_ret. cbn [env]. by rewrite Htear.
Qed.

(** ** Starting the container *)









(** *** The stage before the start *)

Lemma wp_on_env {A} (m : AM A) s (Q : A -> obj -> Prop) (R : api_error -> obj -> Prop) :
  wp m (fun a w => Q a (mkObj (self s) w)) (fun e w => R e (mkObj (self s) w)) (env s) ->
  wp (on_env m) Q R s.
Proof. intros Hm. apply wp_zoom. unfold wp in Hm. by destruct (m (env s)) as [[a|e] w]. Qed.

(** The object but for its cached index, the files and the rows stay. *)
Definition kept data s s' : Prop :=
  untouched data (env s) (env s') /\ i_name (self s') = i_name (self s) /\
  i_root (self s') = i_root (self s) /\ i_cfg (self s') = i_cfg (self s).

Lemma kept_trans data s1 s2 s3 : kept data s1 s2 -> kept data s2 s3 -> kept data s1 s3.
Proof.
  intros (Ha & ? & ? & ?) (Hb & ? & ? & ?). split_and!; try congruence. by eapply untouched_trans.
Qed.

Lemma untouched_reg {A} data (m : M Registry.world reg_error A) w (Q : A -> world -> Prop) (R : api_error -> world -> Prop) :
  holds data (snd (m (w_reg w))) ->
  (forall a w', untouched data w w' -> Q a w') -> (forall e w', untouched data w w' -> R e w') ->
  wp (on_host (on_reg m)) Q R w.
Proof.
  intros Hm HQ HR. unfold on_host. apply wp_zoom. unfold on_reg. fold (w_reg w).
  destruct (m (w_reg w)) as [[a|e] r]; [by apply HQ|by apply HR].
Qed.

Lemma precheck_kept data s : holds data (w_reg (env s)) -> file_wf data ->
  wp precheck (fun _ => kept data s) (fun _ => kept data s) s.
Proof.
  intros Hr Hd. assert (forall s', kept data s s' -> holds data (w_reg (env s'))) as Hh by (by intros s' [[]]).
  unfold precheck, instance_ports. apply wp_bind, wp_bind.
  apply (wp_mono _ (fun _ => kept data s) _ (fun _ => kept data s)); [| |done].
  { unfold index_property, me. apply wp_bind, wp_gets. destruct (i_index (self s)); [by apply wp_ret|].
    unfold _meta, me. apply wp_bind, wp_bind, wp_gets, wp_bind, wp_on_env, (wp_row_of _ data); [done..| |];
      intros; try destruct (Dict.get _ _); split_and!; done. }
  intros idx s1 H1. unfold me. apply wp_bind, wp_gets, wp_on_env. unfold ports_of, on_host. apply wp_zoom.
  unfold resolved, lift. destruct s1 as [i1 w1].
  assert (kept data s (mkObj i1 (set_base (base w1) w1))) as H2 by (by destruct w1).
  destruct (fst (resolve_ports _ _ false)) as [new|e]; simpl; [|done].
  apply wp_bind, wp_gets, wp_on_env. unfold _check_port_collisions. apply wp_bind, wp_gets. cbn [self env].
  apply (untouched_reg data); [by apply collision_holds; [apply (Hh _ H2)|]| |];
    intros ? w2 Hw; (eapply kept_trans; [exact H2|by split_and!]).
Qed.

Lemma stage_wp i data w :
  holds data (w_reg w) -> file_wf data ->
  wp (stage_local i) (fun _ w' => exists m, Dict.get (i_name i) data = Some m /\
      rendered (i_name i) (i_root i) (i_cfg i) m (w_fs w') /\ holds data (w_reg w'))
    (fun _ w' => holds data (w_reg w')) w.
Proof.
  intros Hr Hd. unfold stage_local, on_host. apply wp_zoom.
  destruct (Dict.get (i_name i) data) as [m|] eqn:Hg.
  - pose proof (stage_local_wp (i_name i) (i_root i) (i_cfg i) data m (base w) Hr Hd Hg) as Hs. unfold wp in Hs.
    destruct (_stage_local _ _ _ (base w)) as [[[]|e] h]; [|exact Hs]. exists m. by split.
  - pose proof (holds_get (i_name i) data _ Hr Hd) as Hget. unfold wp in Hget.
    unfold _stage_local, mbind, M_bind, on_reg. fold (w_reg w).
    destruct (Registry.get (i_name i) (w_reg w)) as [[m'|e] r]; [|exact Hget].
    destruct Hget as [-> Hr']. rewrite Hg. exact Hr'.
Qed.




(** ** Applying an edited configuration *)

(** The network stage fails with a download error only. *)
Lemma network_wp i w : off_caches (i_root i) ->
  wp (_stage_network fuel i) (fun _ w' => keeps_rendered (i_root i) w w')
    (fun e w' => keeps_rendered (i_root i) w w' /\ exists d, e = Dl d) w.
Proof.
  intros Hoff. assert (forall A (m : DM A) w, wp (on_net m) (fun _ _ => True) (fun e _ => exists d, e = Dl d) w) as Hnet.
  { intros A m v. apply wp_zoom. destruct (m (net_of v)) as [[a|d] t]; [done|by exists d]. }
  pose proof (network_keeps fuel i Hoff w) as Hk.
  enough (wp (_stage_network fuel i) (fun _ _ => True) (fun e _ => exists d, e = Dl d) w) as Hw.
  { unfold wp in *. by destruct (_stage_network fuel i w) as [[[]|e] w']. }
  unfold _stage_network. apply wp_bind.
  apply (wp_mono _ (fun _ _ => True) _ (fun e _ => exists d, e = Dl d)); [|intros _ w1 _|done].
  - destruct (frida (i_cfg i)) as [fr|]; [|by apply wp_ret].
    apply wp_bind. eapply wp_mono; [apply Hnet|intros; by apply wp_ret|auto].
  - apply wp_bind. eapply wp_mono; [apply Hnet|intros; by apply wp_ret|auto].
Qed.

(** The row of [name] after the backend kind followed the binder [b]. *)
Definition row_follows (b : Binder) (m m' : InstanceMeta) : Prop :=
  index m' = index m /\ created_at m' = created_at m /\
  match directory_of (backend m) with
  | Some p => directory_of (backend m') = Some p /\ is_vm_row (backend m') = bool_decide (b = binder_vm)
  | None => m' = m
  end.

Lemma reconcile_wp (name : string) (b : Binder) data m w :
  holds data (w_reg w) -> file_wf data -> Dict.get name data = Some m ->
  wp (on_host (on_reg (reconcile_backend_kind name (binder_str b))))
    (fun _ w' => w_fs w' = w_fs w /\ exists data' m', holds data' (w_reg w') /\
       Dict.get name data' = Some m' /\ row_follows b m m' /\
       forall n, n <> name -> Dict.get n data' = Dict.get n data) (fun _ _ => False) w.
Proof.
  intros Hr Hd Hg. destruct (holds_opened data _ Hr Hd) as (r1 & Ho & Hr1).
  pose proof (reconcile_cases name (binder_str b) _ data r1 Ho) as Hc. rewrite Hg in Hc.
  assert (String.eqb (binder_str b) "vm" = bool_decide (b = binder_vm)) as Hb by (by destruct b).
  rewrite Hb in Hc. unfold on_host. apply wp_zoom. unfold on_reg. fold (w_reg w). unfold row_follows.
  assert (forall m', m' = m -> index m' = index m /\ created_at m' = created_at m) as Hsame by (by intros ? ->).
  destruct (directory_of (backend m)) as [p|] eqn:Hdir.
  - destruct (Bool.eqb _ _) eqn:Heq.
    + rewrite Hc. split; [done|]. exists data, m. apply Bool.eqb_prop in Heq. by split_and!.
    + destruct Hc as (m' & data' & -> & Hg' & Hvm & Hp & Hi & Hca & Hrest). split; [done|].
      exists data', m'. split_and!; try done. by right.
  - rewrite Hc. split; [done|]. exists data, m. by split_and!.
Qed.

(** Steps that raise no download error. *)
Definition no_dl {S A} (m : M S api_error A) : Prop := forall (s : S) d, fst (m s) <> Err (Dl d).

Lemma no_dl_bind {S A B} (m : M S api_error A) (k : A -> M S api_error B) :
  no_dl m -> (forall a, no_dl (k a)) -> no_dl (m ≫= k).
Proof.
  intros Hm Hk s d. specialize (Hm s d). unfold mbind, M_bind.
  destruct (m s) as [[a|e] s1]; [apply Hk|simpl in *; congruence].
Qed.
Lemma no_dl_host {A} (m : M host snap_error A) : no_dl (on_host m).
Proof. intros w d. unfold on_host, zoom. by destruct (m (base w)) as [[] ?]. Qed.
Lemma no_dl_env {A} (m : AM A) : no_dl m -> no_dl (on_env m).
Proof.
  intros Hm s d. specialize (Hm (env s) d). unfold on_env, zoom.
  destruct (m (env s)) as [[a|e] w]; [done|]. unfold id. simpl in *. congruence.
Qed.
Lemma no_dl_gets {S A} (f : S -> A) : no_dl (gets f). Proof. done. Qed.
Lemma no_dl_ret {S A} (a : A) : no_dl (mret a : M S api_error A). Proof. done. Qed.

Lemma precheck_no_dl : no_dl precheck.
Proof.
  unfold precheck, instance_ports, index_property, _meta, me, row_of, ports_of, _check_port_collisions.
  apply no_dl_bind; [apply no_dl_bind; [apply no_dl_bind; [done|intros i]|intros k]|intros l].
  - destruct (i_index i); [done|]. apply no_dl_bind; [|done]. apply no_dl_bind; [done|intros j].
    apply no_dl_bind; [apply no_dl_env, no_dl_host|by intros []].
  - apply no_dl_bind; [done|intros i; apply no_dl_env, no_dl_host].
  - apply no_dl_bind; [done|intros i; apply no_dl_env, no_dl_bind; [done|intros f; apply no_dl_host]].
Qed.

Lemma wp_no_dl {S A} (m : M S api_error A) (Q : A -> S -> Prop) (R : api_error -> S -> Prop) (s : S) :
  no_dl m -> wp m Q R s -> wp m Q (fun e (t : S) => R e t /\ forall d, e <> Dl d) s.
Proof.
  intros Hm. specialize (Hm s). unfold wp. destruct (m s) as [[a|e] s1]; [done|].
  intros He. split; [done|]. intros d ->. by apply (Hm d).
Qed.

(** What [apply] has done by the time it turns to the network. *)
Definition applied data i w s' : Prop := exists text cfg m data' m',
  node_at (w_fs w) (instance_yaml (i_root i)) = Some (FileN text) /\ parse_config text = Some cfg /\
  i_cfg (self s') = cfg /\ Dict.get (i_name i) data = Some m /\
  rendered (i_name i) (i_root i) cfg m (w_fs (env s')) /\
  holds data' (w_reg (env s')) /\ Dict.get (i_name i) data' = Some m' /\
  row_follows (binder cfg) m m' /\ forall n, n <> i_name i -> Dict.get n data' = Dict.get n data.

(** C11. [apply] makes the registry and the rendered files agree with the edited configuration
    before it touches the network: when it returns, and also when a download failed, the
    files are rendered from the configuration on disk and the row has the backend kind
    that its binder asks for, on the same directory and index.  When it raises anything
    else the rows are as before. *)
Theorem apply_flips_before_fetch i data w :
  holds data (w_reg w) -> file_wf data -> off_caches (i_root i) ->
  match apply fuel (mkObj i w) with
  | (Ok _, s') | (Err (Dl _), s') => applied data i w s'
  | (Err _, s') => holds data (w_reg (env s'))
  end.
Proof.
  intros Hr Hd Hoff. enough (wp (apply fuel) (fun _ => applied data i w) (fun e s' =>
      holds data (w_reg (env s')) /\ (forall d, e <> Dl d) \/ applied data i w s' /\ exists d, e = Dl d) (mkObj i w)) as Hw.
  { unfold wp in Hw. destruct (apply fuel (mkObj i w)) as [[[]|e] s']; [done|].
    destruct e; destruct Hw as [[? Hne]|[? [d' ?]]]; naive_solver. }
  unfold apply, me. apply wp_bind, wp_gets, wp_bind, wp_on_env. cbn [self env]. unfold wp at 1. rewrite load_read.
  destruct (load_yaml (instance_yaml (i_root i)) (base w)) as [[cfg|e] h] eqn:Hl; [|by left].
  apply load_yaml_ok in Hl as (_ & text & Hy & Hparse). cbn [fst]. apply wp_bind, wp_modify. cbn [self env].
  set (s0 := mkObj (mkInstance (i_name i) (i_root i) cfg (i_index i)) w).
  apply wp_bind. eapply wp_mono; [apply wp_no_dl, (precheck_kept data s0); [apply precheck_no_dl|done..]| |].
  2: { intros e s1 [[[_ Hr1] _] He]. by left. }
  intros _ s1 ([Hf Hr1] & Hn & Hrt & Hc). cbn [s0 self env i_name i_root i_cfg] in Hf, Hn, Hrt, Hc.
  apply wp_bind, wp_gets, wp_bind, wp_on_env.
  eapply wp_mono; [apply wp_no_dl, (stage_wp _ data); [apply no_dl_host|done..]| |].
  2: { intros e w2 [Hr2 He]. by left. }
  intros _ w2 (m & Hg & Hren & Hr2). rewrite Hn, Hrt, Hc in *.
  apply wp_bind, wp_on_env. cbn [env].
  eapply wp_mono; [by apply (reconcile_wp (i_name i) (binder cfg) data m)| |done].
  intros _ w3 (Hf3 & data' & m' & Hr3 & Hg' & Hrow & Hrest). cbn [self].
  assert (forall w4, keeps_rendered (i_root i) w3 w4 -> applied data i w (mkObj (self s1) w4)) as Happ.
  { intros w4 [Hreg4 Hfiles]. exists text, cfg, m, data', m'. cbn [self env]. rewrite Hreg4.
    split_and!; try done. eapply rendered_frame; [exact Hfiles|]. by rewrite Hf3. }
  pose proof (network_wp (self s1) w3) as Hnet. rewrite Hrt in Hnet. specialize (Hnet Hoff).
  apply wp_bind, wp_on_env. cbn [self env].
  eapply wp_mono; [exact Hnet| |intros e w4 [Hk He]; right; split; [by apply Happ|done]].
  intros [] w4 Hk. cbn beta in Hk. apply wp_on_env. unfold report_inert. cbn [self env].
  destruct (warn_inert_fields _); [|by apply wp_ret, Happ]. apply wp_modify, Happ. exact Hk.
Qed.

(** ** Adding a module *)

(** The configuration with the new module at its end. *)
Definition extended_by (source : string) (sha256 : option string) cfg (cfg' : InstanceConfig) : Prop :=
  exists new, cfg' = with_modules (modules cfg ++ [new]) cfg /\
    Module_validate (if starts_with "http://" source || starts_with "https://" source
                     then mkModule (Some source) None sha256 else mkModule None (Some source) sha256) = Ok new.

Lemma write_yaml_wp p cfg w :
  wp (write_yaml p cfg) (fun _ w' => w_fs w' !! p = Some (FileN (dump_config cfg)))
    (fun e _ => exists o, e = Snap (OsErr o)) w.
Proof.
  unfold write_yaml. apply wp_bind, wp_on_tree; [|intros e f _; by exists e]. intros [] f _.
  apply wp_on_tree; [|intros e f' _; by exists e]. intros [] f' [Hf' _]%write_file_ok.
  change (f' !! p = Some (FileN (dump_config cfg))). rewrite Hf'. apply lookup_insert_eq.
Qed.

(** [add_module] stages first: when the entry is refused or a module cannot be staged,
    the object is unchanged and [beetroot.yaml] keeps its text; when it returns, both hold
    the old configuration with the new entry at the end of its modules. *)
Theorem add_module_stages_first source sha256 i w text :
  apart _module_cache_dir (i_root i) -> w_fs w !! instance_yaml (i_root i) = Some (FileN text) ->
  match add_module source sha256 (mkObj i w) with
  | (Ok _, s') => extended_by source sha256 (i_cfg i) (i_cfg (self s')) /\
      w_fs (env s') !! instance_yaml (i_root i) = Some (FileN (dump_config (i_cfg (self s'))))
  | (Err (Snap (OsErr _)), s') => extended_by source sha256 (i_cfg i) (i_cfg (self s'))
  | (Err _, s') => self s' = i /\ w_fs (env s') !! instance_yaml (i_root i) = Some (FileN text)
  end.
Proof.
  intros Hap Hy. set (given := if starts_with "http://" source || starts_with "https://" source
    then mkModule (Some source) None sha256 else mkModule None (Some source) sha256).
  set (unchanged := fun s' : obj => self s' = i /\ w_fs (env s') !! instance_yaml (i_root i) = Some (FileN text)).
  enough (wp (add_module source sha256)
    (fun _ s' => extended_by source sha256 (i_cfg i) (i_cfg (self s')) /\
      w_fs (env s') !! instance_yaml (i_root i) = Some (FileN (dump_config (i_cfg (self s')))))
    (fun e s' => (exists o, e = Snap (OsErr o)) /\ extended_by source sha256 (i_cfg i) (i_cfg (self s')) \/
      (forall o, e <> Snap (OsErr o)) /\ unchanged s') (mkObj i w)) as Hw.
  { unfold wp in Hw. destruct (add_module source sha256 (mkObj i w)) as [[[]|e] s']; [done|].
    destruct Hw as [[[o ->] ?]|[Hne ?]]; [done|]. destruct e as [[]| | | | | | | | | | | | | |]; naive_solver. }
  unfold add_module, me. fold given. apply wp_bind. destruct (Module_validate given) as [new|e] eqn:Hnew.
  2: { apply wp_lift; [done|]. intros e' [= <-]. by right. }
  apply wp_ret, wp_bind, wp_gets, wp_bind, wp_on_env. cbn [self env].
  set (cfg := with_modules (modules (i_cfg i) ++ [new]) (i_cfg i)).
  assert (extended_by source sha256 (i_cfg i) cfg) as Hext by (by exists new).
  apply (wp_mono _ (fun _ _ => True) _ (fun e w' => (forall o, e <> Snap (OsErr o)) /\ unchanged (mkObj i w'))).
  - assert (apart _module_cache_dir (instance_modules (i_root i))) as Hm
      by (apply (apart_sub _ (i_root i)); [done|]; unfold instance_modules; by eexists).
    pose proof (staging_within (i_root i) (modules cfg) (net_of w) Hm) as Hw.
    apply wp_zoom. destruct (stage_for_instance _ _ (net_of w)) as [[u|e] t]; [done|].
    split; [done|]. split; [done|]. apply (within_file _ _ _ _ _ Hw); [|exact Hy].
    apply Forall_cons. split; [eapply apart_below; [exact Hap|]; by eexists|].
    apply Forall_singleton. intros [l Hl]. unfold instance_yaml, instance_modules in Hl.
    rewrite <- app_assoc in Hl. by apply (inj (app (i_root i))) in Hl.
  - intros _ w1 _. apply wp_bind, wp_modify, wp_on_env. cbn [self env].
    eapply wp_mono; [apply write_yaml_wp|by split|intros e w2 He; by left].
  - intros e w1 [He Hu]. by right.
Qed.
End verbs.
