(* ===== verification/ApiSample.v ===== *)
(** * The API on a concrete machine

    Instances of every interface the API is stated over, with their laws, a machine on
    which two instances are created, and the theorems of the API at work on it. *)
From stdpp Require Import base list strings gmap sorting relations.
From Stdlib Require Import ZArith QArith Lia.
From S2P Require Import Prelude PyStr Config Ports Registry RegistryOps Render HostFs Paths Compose Download ModulesDownload FridaDownload Snapshot SnapshotOps SnapshotForce Api ApiInv ApiOps ApiPeers ApiSpecs ApiVerbs.
Local Open Scope stdpp_scope.
Local Open Scope Z_scope.

Module ApiSample.
Import Sample DlSample FridaSample.

Definition parses (s : string) : bool := starts_with "api_version" s.

#[export] Instance machine_externals : Externals := {|
  parse_config s := if parses s then Some InstanceConfig_default else None;
  manifest_of_json := @manifest_of_json SnapSample.sample_externals;
  read_archive := @read_archive SnapSample.sample_externals;
  write_archive := @write_archive SnapSample.sample_externals;
  header_bytes := @header_bytes SnapSample.sample_externals;
  eof_bytes := @eof_bytes SnapSample.sample_externals;
  Snapshot.float_repr := @Snapshot.float_repr SnapSample.sample_externals;
  render_node := false; cwd := ["home"]; remains _ _ := [] |}.

(** A docker that always succeeds and leaves the files alone. *)
#[export] Instance quiet_docker : Docker := {|
  docker_bin := "docker"; docker_found := true;
  docker_run _ _ f := (Exited 0 "" "", f); json_loads _ := None |}.

#[export] Instance quiet_laws : DockerLaws quiet_docker.
Proof. by split. Qed.

#[export] Instance machine_web : Web := network.
#[export] Instance machine_web_laws : WebLaws machine_web := network_laws.

#[export] Instance header_dumper : Dumper := {| dump_config _ := "api_version: 3" |}.

Lemma cwd_plain : Forall plain cwd.
Proof. apply SnapSample.plain_all. by vm_compute. Qed.

Definition files0 : fs :=
  list_to_map [(["home"], DirN); (["home"; "u"], DirN); (["pkg"], DirN); (["tmp"], DirN);
               (["pkg"; "compose.yaml"], FileN "services:")].
Definition w0 : world := mkApi (mkHost files0 (world_of None)) None None [] 0 [] [].

Definition make (name : string) (w : world) : world :=
  run_command 100 (Create name None None None (stamp "t0")) w.
Definition w1 : world := make "alpha" w0.
Definition w2 : world := make "beta" w1.

(** ** Two instances *)

Definition row (name : string) (i : Z) : string * InstanceMeta :=
  (name, mkInstanceMeta (RedroidBackendConfig ("/home/" +:+ name) []) i (stamp "t0")).
Definition both : list (string * InstanceMeta) := [row "alpha" 0; row "beta" 1].
Definition object (name : string) : Instance :=
  mkInstance name ["home"; name] InstanceConfig_default None.

Lemma rows_of_w2 : reg (w_reg w2) = Some (Doc (_registry_to_json both)).
Proof. vm_compute. reflexivity. Qed.

Lemma w2_reached : rtc (api_step 100) w0 w2.
Proof.
  assert (forall name w, api_step 100 w (make name w)) as Hstep by (intros name w; by apply do_command).
  exact (rtc_l _ _ _ _ (Hstep "alpha" w0) (rtc_once _ _ (Hstep "beta" w1))).
Qed.

(** What a decision procedure settles. *)
Ltac by_decision := apply (bool_decide_unpack _); vm_compute; exact I.

Lemma row_ok name i : backend_ok (backend (row name i).2).
Proof. apply redroid_ok. Qed.

Lemma both_inv : data_inv both.
Proof.
  change both with (([] ++ [row "alpha" 0]) ++ [row "beta" 1]).
  apply data_inv_add; [apply data_inv_add; [apply data_inv_nil|..]|..];
    try apply row_ok; try reflexivity; try (split; vm_compute; congruence); by_decision.
Qed.

Lemma apart_of p q : bool_decide (~ p `prefix_of` q /\ ~ q `prefix_of` p) = true -> apart p q.
Proof. intros H. apply bool_decide_eq_true in H. exact H. Qed.

Ltac apart_all := repeat constructor; by_decision.

Lemma instances_never_overlap_witness : exists data,
  holds data (w_reg w2) /\ Dict.wf data /\
  forall n1 n2 m1 m2, (n1, m1) ∈ data -> (n2, m2) ∈ data -> n1 <> n2 ->
    index m1 <> index m2 /\ 0 <= index m1 <= _MAX_PORT_INDEX /\
    forall d1 d2, registered_dir (backend m1) = Some d1 -> registered_dir (backend m2) = Some d2 ->
      ~ d1 `prefix_of` d2.
Proof. exact (instances_never_overlap 100 cwd_plain w0 w2 eq_refl w2_reached). Defined.

(** Destroying alpha leaves beta's configuration alone. *)
Lemma verbs_spare_peers_witness :
  let w := env (run_verb 100 (VDestroy true) (mkObj (object "alpha") w2)) in
  w_fs w !! ["home"; "beta"; "beetroot.yaml"] = Some (FileN _MINIMAL_BEETROOT_YAML).
Proof.
  destruct (verbs_spare_peers cwd_plain 100 w0 w2 both (object "alpha") (VDestroy true) (row "alpha" 0).2
    "beta" (row "beta" 1).2 ["home"; "beta"] eq_refl w2_reached) as [_ Hfiles].
  - rewrite (list_written _ _ rows_of_w2 (di_wf _ both_inv)). reflexivity.
  - by left.
  - vm_compute. reflexivity.
  - right. by left.
  - done.
  - vm_compute. reflexivity.
  - apart_all.
  - apply Hfiles; [by eexists ["beetroot.yaml"]|]. vm_compute. reflexivity.
Defined.

(** ** Constructors *)

Lemma off_caches_here name : bool_decide (apart frida_cache_dir ["home"; name]) &&
  bool_decide (apart _module_cache_dir ["home"; name]) = true -> off_caches ["home"; name].
Proof. intros [H1%bool_decide_eq_true H2%bool_decide_eq_true]%andb_true_iff. by split. Qed.

Lemma create_registers_witness : exists w',
  create 100 "alpha" None None None (stamp "t0") w0 = (Ok (object "alpha"), w') /\
  registered_as [] (object "alpha") (stamp "t0") w'.
Proof.
  pose proof (create_registers_or_rolls_back 100 cwd_plain "alpha" None None None (stamp "t0") [] w0
    (or_introl (conj eq_refl eq_refl)) data_inv_nil
    ltac:(apply SnapshotForce.fs_wfb_ok; vm_compute; reflexivity)
    ltac:(apply (off_caches_here "alpha"); vm_compute; reflexivity)) as H.
  assert (fst (create 100 "alpha" None None None (stamp "t0") w0) = Ok (object "alpha")) as Hr
    by (vm_compute; reflexivity).
  destruct (create 100 "alpha" None None None (stamp "t0") w0) as [[i'|e] w']; [|discriminate].
  exists w'. injection Hr as ->. split; [reflexivity|]. apply H.
Defined.

(** A directory with a configuration, of no instance. *)
Definition found : world :=
  set_fs (<[["home"; "old"] := DirN]> (<[["home"; "old"; "beetroot.yaml"] := FileN "api_version: 8"]> files0)) w0.

Lemma register_adopts_witness : exists w',
  register 100 "old" None (stamp "t0") found = (Ok (object "old"), w') /\
  registered_as [] (object "old") (stamp "t0") w'.
Proof.
  pose proof (register_adopts_or_rolls_back 100 cwd_plain "old" None (stamp "t0") [] found
    (or_introl (conj eq_refl eq_refl)) data_inv_nil
    ltac:(apply SnapshotForce.fs_wfb_ok; vm_compute; reflexivity)
    ltac:(apply (off_caches_here "old"); vm_compute; reflexivity)) as H.
  assert (fst (register 100 "old" None (stamp "t0") found) = Ok (object "old")) as Hr
    by (vm_compute; reflexivity).
  destruct (register 100 "old" None (stamp "t0") found) as [[i'|e] w']; [|discriminate].
  exists w'. injection Hr as ->. split; [reflexivity|]. apply H.
Defined.

(** ** Verbs *)

Lemma holds_both : holds both (w_reg w2).
Proof. right. exact rows_of_w2. Qed.

Lemma listings_witness : exists l o, manager_list_instances w2 = (Ok l, w2) /\
  list_orphans w2 = (Ok o, w2) /\ map i_name l ++ o ≡ₚ ["alpha"; "beta"].
Proof.
  destruct (listings_partition_rows both w2 rows_of_w2 (di_wf _ both_inv)) as (l & o & H1 & H2 & H3 & _).
  exists l, o. split_and!; [exact H1|exact H2|exact H3].
Defined.

Lemma destroy_spec_witness : exists s',
  destroy true (mkObj (object "alpha") w2) = (Ok tt, s') /\
  holds [row "beta" 1] (w_reg (env s')) /\
  forall p, ["home"; "alpha"] `prefix_of` p -> w_fs (env s') !! p = None.
Proof.
  pose proof (destroy_spec (object "alpha") both w2 holds_both (di_wf _ both_inv)
    ltac:(vm_compute; reflexivity)) as H.
  assert (fst (destroy true (mkObj (object "alpha") w2)) = Ok tt) as Hr by (vm_compute; reflexivity).
  destruct (destroy true (mkObj (object "alpha") w2)) as [r s']. simpl in Hr. subst r.
  exists s'. split; [reflexivity|]. destruct H as [_ [(_ & Hh & Hgone)|[([=] & _)|([e [[=] _]] & _)]]].
  split; [exact Hh|exact Hgone].
Defined.

(** The directory of alpha was removed by hand. *)
Definition emptied : world :=
  mkApi (mkHost (rmtree ["home"; "alpha"] (w_fs w2)) (w_reg w2)) (Some ["pkg"; "compose.yaml"]) None [] 0 [] [].

Lemma destroy_missing_root_witness :
  destroy true (mkObj (object "alpha") emptied) =
    (Err (Cmp (ComposeOs NoSuchFile)), mkObj (object "alpha") emptied).
Proof.
  apply (destroy_missing_root_keeps_row (object "alpha") emptied ["pkg"; "compose.yaml"]);
    vm_compute; reflexivity.
Defined.


Lemma apply_flips_witness : exists s',
  Api.apply 100 (mkObj (object "alpha") w2) = (Ok tt, s') /\ applied both (object "alpha") w2 s'.
Proof.
  pose proof (apply_flips_before_fetch 100 (object "alpha") both w2 holds_both (di_wf _ both_inv)
    ltac:(apply (off_caches_here "alpha"); vm_compute; reflexivity)) as H.
  assert (fst (Api.apply 100 (mkObj (object "alpha") w2)) = Ok tt) as Hr by (vm_compute; reflexivity).
  destruct (Api.apply 100 (mkObj (object "alpha") w2)) as [[[]|e] s']; [|discriminate].
  exists s'. split; [reflexivity|exact H].
Defined.

(** A module nobody serves: the configuration stays. *)
Lemma add_module_witness : exists e s',
  add_module "https://example.org/gone.zip" None (mkObj (object "alpha") w2) = (Err (Dl e), s') /\
  self s' = object "alpha" /\
  w_fs (env s') !! ["home"; "alpha"; "beetroot.yaml"] = Some (FileN _MINIMAL_BEETROOT_YAML).
Proof.
  pose proof (add_module_stages_first "https://example.org/gone.zip" None (object "alpha") w2
    _MINIMAL_BEETROOT_YAML ltac:(by_decision) ltac:(vm_compute; reflexivity)) as H.
  assert (match fst (add_module "https://example.org/gone.zip" None (mkObj (object "alpha") w2)) with
          | Err (Dl _) => true | _ => false end = true) as Hr by (vm_compute; reflexivity).
  destruct (add_module "https://example.org/gone.zip" None (mkObj (object "alpha") w2)) as [[[]|e] s'];
    [discriminate|]. destruct e; try discriminate. exists e, s'. split; [reflexivity|exact H].
Defined.
End ApiSample.
