(* ===== verification/RestoreSpecs.v ===== *)
(** * What [restore] achieves

    [Api.restore] as a whole: the part that commits, whose cases are in [SnapshotOps], and
    the soft network stage that follows it.  The frame of a restore, what a failed one
    leaves, and what a successful one establishes; with their witnesses. *)
From stdpp Require Import base list strings gmap sorting relations.
From Stdlib Require Import ZArith QArith Lia.
From S2P Require Import Prelude PyStr Config Ports Registry RegistryOps Render HostFs Paths Compose Download ModulesDownload FridaDownload Snapshot SnapshotOps SnapshotForce Api ApiInv ApiOps ApiPeers ApiSpecs ApiSample.
Local Open Scope stdpp_scope.
Local Open Scope Z_scope.

Section restore.
Context `{P : Pydantic} `{L : !PydanticLaws P} {X : Externals} {Y : Layout} `{YL : !LayoutLaws Y} {W : Web} `{WL : !WebLaws W} {H : FridaHost} {Z' : Lzma}.
Variable fuel : nat.
Abbreviation RegistryFile := (list (string * InstanceMeta)).
Implicit Types (data : RegistryFile) (w : world) (i : Instance) (h : host) (root target : path).

(** ** No directory disappears while modules are staged *)

Definition net_stays : net -> net -> Prop := fun s s' => dirs_stay (nfs s) (nfs s').
#[local] Instance net_stays_pre : PreOrder net_stays.
Proof. split; [intros s q Hq; exact Hq|]. intros a b c H1 H2 q Hq. by apply H2, H1. Qed.
Abbreviation calm := (preserves net_stays).

Lemma calm_fs {A} (m : M fs os_error A) : (forall f, dirs_stay f (snd (m f))) -> calm (on_nfs m).
Proof. intros Hm. apply (preserves_zoom _ dirs_stay); [exact Hm|]. intros s f Hs. exact Hs. Qed.

Lemma calm_urlopen u : calm (urlopen u).
Proof. intros s q Hq. unfold urlopen. by destruct (web (requests s) u). Qed.

Lemma calm_sha256 p : calm (sha256_of p).
Proof. intros s. unfold sha256_of. by destruct (read_file p (nfs s)). Qed.

Lemma calm_copyfile a b : calm (copyfile a b).
Proof.
  intros s. unfold copyfile. case_decide; [reflexivity|]. destruct (read_file a (nfs s)); [|reflexivity].
  apply calm_fs, write_stay.
Qed.

Lemma calm_mkstemp d : calm (on_nfs (mkstemp d "" ".tmp")).
Proof. apply calm_fs. intros f. apply mkstemp_stay. Qed.

Ltac calm := repeat first
  [ apply preserves_bind; [apply _| |intros ?] | apply preserves_catch; [apply _| |intros ?]
  | apply calm_fs; intros ?; solve [apply mkdir_stay|apply append_stay|apply unlink_stay|apply replace_stay]
  | apply calm_urlopen | apply calm_sha256 | apply calm_copyfile | apply calm_mkstemp
  | apply preserves_ret, _ | apply preserves_raise, _ | apply preserves_lift, _ | apply preserves_gets, _
  | case_match ].

Lemma calm_read_into tmp b : calm (read_into tmp b).
Proof.
  unfold read_into. generalize "" as got. induction (body_chunks b) as [|c l IH]; intros got; simpl; calm. apply IH.
Qed.

Lemma calm_resolve m root : calm (_resolve m root).
Proof.
  unfold _resolve, _fetch_url, _resolve_path, verify_sha256, cleaning, mapped, check_length.
  calm; apply calm_read_into.
Qed.

Lemma unlink_dirs p : forall f, dirs_stay f (snd (unlink p f)).
Proof.
  intros f q Hq. unfold unlink. destruct (node_at f p) as [[|c]|] eqn:Hp; [done| |by destruct (under_file f p)]. simpl.
  rewrite lookup_delete_ne; [done|]. intros ->. destruct q; [done|]. simpl in Hp. congruence.
Qed.

Lemma calm_unlink_all target l : calm (unlink_all target l).
Proof. induction l as [|n l IH]; simpl; calm; [|exact IH]. apply calm_fs, unlink_dirs. Qed.

Lemma calm_stage_modules root target used k l : calm (stage_modules root target used k l).
Proof.
  revert used k. induction l as [|m l IH]; intros used k; simpl; [calm|].
  apply preserves_bind; [apply _|apply calm_resolve|intros src].
  apply preserves_bind; [apply _|apply calm_copyfile|intros _].
  apply preserves_bind; [apply _|apply IH|intros staged]. apply preserves_ret, _.
Qed.

Lemma calm_stage root l : calm (stage_for_instance root l).
Proof.
  apply preserves_bind; [apply _|calm|intros _]. apply preserves_bind; [apply _|calm|intros stale].
  apply preserves_bind; [apply _|apply calm_unlink_all|intros _]. apply calm_stage_modules.
Qed.

(** ** The network stage *)

(** Where it writes: the caches, the module directory, and the Frida file. *)
Definition stage_places root : list path :=
  [frida_cache_dir; _module_cache_dir; instance_modules root; instance_frida root].

(** It keeps the registry, files elsewhere, the module directory, and that there is a
    Frida file. *)
Record stage_keeps root w w' : Prop := {
  sk_reg : w_reg w' = w_reg w;
  sk_files : within (stage_places root) (w_fs w) (w_fs w');
  sk_modules : w_fs w !! (root ++ ["modules"]) = Some DirN -> w_fs w' !! (root ++ ["modules"]) = Some DirN;
  sk_frida : is_Some (w_fs w !! (root ++ ["frida-server"])) -> is_Some (w_fs w' !! (root ++ ["frida-server"])) }.

#[local] Instance stage_keeps_pre root : PreOrder (stage_keeps root).
Proof.
  split; [intros w; split; try done; reflexivity|].
  intros a b c [H1 H2 H3 H4] [H5 H6 H7 H8]. split; [congruence|by etransitivity|auto..].
Qed.

Lemma keeps_same root w w' : w_fs w' = w_fs w -> w_reg w' = w_reg w -> stage_keeps root w w'.
Proof. intros Hf Hr. split; [done|rewrite Hf; reflexivity|by rewrite Hf..]. Qed.

Lemma keeps_net {A} root (m : M net dl_error A) :
  (forall s, within (stage_places root) (nfs s) (nfs (snd (m s))) /\
     (nfs s !! (root ++ ["modules"]) = Some DirN -> nfs (snd (m s)) !! (root ++ ["modules"]) = Some DirN) /\
     (is_Some (nfs s !! (root ++ ["frida-server"])) -> is_Some (nfs (snd (m s)) !! (root ++ ["frida-server"])))) ->
  preserves (stage_keeps root) (on_net m).
Proof.
  intros Hm w. destruct (Hm (net_of w)) as (H1 & H2 & H3). unfold on_net, zoom.
  by destruct (m (net_of w)) as [[a|e] t].
Qed.

Lemma only_some ps f f' q : only ps f f' -> q ∉ ps -> is_Some (f !! q) -> f' !! q = f !! q.
Proof. intros Ho Hq [n Hn]. destruct (Ho q Hq) as [->|[? _]]; congruence. Qed.

Lemma not_cached root tag a x : apart frida_cache_dir root -> root ++ [x] <> cached_binary tag a.
Proof.
  intros Hf Heq. apply (apart_below _ _ (root ++ [x]) Hf); [by eexists|]. rewrite Heq. unfold cached_binary. by eexists.
Qed.

Lemma keeps_frida root v d b : apart frida_cache_dir root ->
  preserves (stage_keeps root) (on_net (frida_stage_for_instance fuel root v d b)).
Proof.
  intros Hf. apply keeps_net. intros s.
  pose proof (frida_stage_wp fuel root v d b s Hf) as Hw. unfold wp in Hw.
  assert (forall ps f, (forall q, q ∈ ps -> frida_cache_dir `prefix_of` q \/ q = instance_frida root) ->
    only ps (nfs s) f -> within (stage_places root) (nfs s) f) as Hin.
  { intros ps f Hps. apply only_within, Forall_forall. intros q [Hq|Hq]%Hps; unfold stage_places.
    - by apply Exists_cons_hd.
    - do 3 apply Exists_cons_tl. apply Exists_cons_hd. by rewrite Hq. }
  assert (forall tag a, frida_cache_dir `prefix_of` cached_binary tag a) as Hc by (intros; by eexists).
  assert (root ++ ["modules"] <> instance_frida root) as Hm by (intros ?%snoc_inj; done).
  destruct (frida_stage_for_instance _ _ _ _ _ s) as [[p|e] s'].
  - destruct Hw as (_ & (c & Hfr & _) & tag & Ho). split_and!; [|intros Hd|intros _; by eexists].
    + eapply Hin; [|exact Ho]. intros q Hq. set_solver.
    + simpl. rewrite (only_some _ _ _ _ Ho); [done| |by eexists].
      pose proof (not_cached root tag (Some (resolve_frida_arch b)) "modules" Hf). set_solver.
  - destruct Hw as (tag & Ho). assert (forall x, root ++ [x] ∉ [cached_binary tag (Some (resolve_frida_arch b))]) as Hn.
    { intros x. pose proof (not_cached root tag (Some (resolve_frida_arch b)) x Hf). set_solver. }
    split_and!; [|intros Hd|intros Hd]; simpl.
    + eapply Hin; [|exact Ho]. intros q Hq. set_solver.
    + rewrite (only_some _ _ _ _ Ho); [done|apply Hn|by eexists].
    + by rewrite (only_some _ _ _ _ Ho (Hn _) Hd).
Qed.

Lemma keeps_modules root l : apart _module_cache_dir root ->
  preserves (stage_keeps root) (on_net (stage_for_instance root l)).
Proof.
  intros Hm. apply keeps_net. intros s.
  assert (within [_module_cache_dir; instance_modules root] (nfs s) (nfs (snd (stage_for_instance root l s)))) as Hw.
  { apply staging_within, (apart_sub _ root); [done|]. by eexists. }
  split_and!.
  - eapply within_mono; [|exact Hw]. unfold stage_places. set_solver.
  - apply (calm_stage root l s).
  - intros [n Hn]. destruct (Hw (root ++ ["frida-server"])) as [->|[? _]]; [|by eexists|congruence].
    apply Forall_cons. split; [eapply apart_below; [exact Hm|by eexists]|]. apply Forall_singleton.
    intros [q Hq]. unfold instance_modules in Hq. rewrite <- app_assoc in Hq. apply (inj (app root)) in Hq. naive_solver.
Qed.

(** The soft stage never raises. *)
Lemma soft_run i w : off_caches (i_root i) ->
  exists w', _stage_network_soft fuel i w = (Ok tt, w') /\ stage_keeps (i_root i) w w'.
Proof.
  intros [Hf Hm].
  assert (preserves (stage_keeps (i_root i)) (_stage_network fuel i)) as Hk.
  { unfold _stage_network. apply preserves_bind; [apply _| |intros _].
    - destruct (frida (i_cfg i)); [|apply preserves_ret, _].
      apply preserves_bind; [apply _|by apply keeps_frida|intros _; apply preserves_ret, _].
    - apply preserves_bind; [apply _|by apply keeps_modules|intros _; apply preserves_ret, _]. }
  specialize (Hk w). unfold _stage_network_soft, catch. destruct (_stage_network fuel i w) as [[[]|e] w1]; [by exists w1|].
  eexists. split; [reflexivity|]. simpl in Hk. etransitivity; [exact Hk|]. by apply keeps_same.
Qed.

(** ** The whole *)

(** A restore fails as its committing part does; after the commit comes the stage. *)
Lemma restore_run file name target force now data w :
  reg (w_reg w) = Some (Doc (_registry_to_json data)) -> file_wf data -> Forall plain target -> off_caches target ->
  match restore_local file name target force now (base w) with
  | (Ok _, h) => exists w', restore fuel file name target force now w = (Ok target, w') /\
                            stage_keeps target (set_base h w) w'
  | (Err e, h) => restore fuel file name target force now w = (Err (Snap e), set_base h w)
  end.
Proof.
  intros Hr Hd Ht Hoff. destruct (restore_local file name target force now (base w)) as [[[root cfg]|e] h] eqn:Hl.
  - destruct (restore_local_ok file name target force now data (base w) _ _ Hr Hd Ht Hl)
      as (_ & _ & _ & cfg' & [= -> ->] & _).
    destruct (soft_run (mkInstance name target cfg' None) (set_base h w) Hoff) as (w' & Hs & Hk).
    exists w'. split; [|exact Hk]. unfold restore, mbind at 1, M_bind, on_host, zoom. rewrite Hl.
    unfold mbind, M_bind. by rewrite Hs.
  - unfold restore, mbind at 1, M_bind, on_host, zoom. by rewrite Hl.
Qed.

(** C25. A restore touches nothing but its target and the two download caches, whatever the
    archive holds and however it ends, the network stage after its commit included: outside
    these three directories no file and no directory is changed or removed (at most empty
    directories appear on the way), and everything in the directory of a registered
    instance, of any name and backend kind, is left exactly as it was, but for caches kept in
    there — under [--force] too, and wherever the target lies, as long as it does not overlap
    the caches. *)
Theorem restore_spares_the_rest file name target force now data w :
  reg (w_reg w) = Some (Doc (_registry_to_json data)) -> file_wf data ->
  Forall plain target -> off_caches target ->
  let w' := snd (restore fuel file name target force now w) in
  within [target; frida_cache_dir; _module_cache_dir] (w_fs w) (w_fs w') /\
  (forall n m d p x, (n, m) ∈ data -> registered_dir (backend m) = Some d -> d `prefix_of` p ->
     ~ frida_cache_dir `prefix_of` p -> ~ _module_cache_dir `prefix_of` p ->
     w_fs w !! p = Some x -> w_fs w' !! p = Some x).
Proof.
  intros Hr Hd Ht Hoff w'. destruct (restore_local_spares file name target force now data (base w) Hr Hd Ht) as [Ho Hov].
  pose proof (restore_run file name target force now data w Hr Hd Ht Hoff) as Hrun.
  assert (exists f, outside target (w_fs w) f /\ (w_fs w' = w_fs w \/ overlapping target data = None) /\
    within (stage_places target) f (w_fs w')) as (f & H1 & H2 & H3).
  { subst w'. destruct (restore_local file name target force now (base w)) as [r h] eqn:Hl.
    cbn [snd] in Ho, Hov. exists (fsys h). split; [exact Ho|]. destruct r as [x|e].
    - destruct Hrun as (w1 & -> & Hk). split; [right|apply (sk_files _ _ _ Hk)].
      destruct x as [root cfg]. by destruct (restore_local_ok file name target force now data (base w) _ _ Hr Hd Ht Hl)
        as (_ & _ & _ & _ & _ & ? & _).
    - rewrite Hrun. split; [|reflexivity]. destruct Hov as [Hs|Hs]; [left; exact Hs|right; exact Hs]. }
  assert (within [target; frida_cache_dir; _module_cache_dir] (w_fs w) (w_fs w')) as Hall.
  { transitivity f; intros q [Hq [Hf [Hm _]%Forall_cons]%Forall_cons]%Forall_cons; [by apply H1|].
    apply H3. unfold stage_places. repeat (apply Forall_cons; split; [try done|]); [..|by constructor];
      intros Hp; apply Hq; (etransitivity; [by eexists|exact Hp]). }
  split; [exact Hall|]. intros n m d p x Hin Hdir Hp Hf Hm Hx. destruct H2 as [->|Hno]; [done|].
  pose proof (registered_apart _ _ _ _ _ _ Hno Hin Hdir Hp) as Hnp.
  destruct (Hall p) as [->|[? _]]; [|done|congruence]. by repeat (apply Forall_cons; split; [done|]).
Qed.

(** C26. A failed restore rolls back: whatever made it fail — and the network stage is never
    what did — the registry file is the one that was there, and if the target did not
    exist nothing of it is left, with two exceptions: when no port index was left, which is
    found out before the [try] block, the directories that were made stay; and when the
    rollback cannot remove the directory, what it could not remove stays. *)
Theorem failed_restore_rolls_back file name target force now data w e w' :
  reg (w_reg w) = Some (Doc (_registry_to_json data)) -> file_wf data ->
  Forall plain target -> off_caches target -> fs_wf (w_fs w) ->
  restore fuel file name target force now w = (Err e, w') ->
  reg (w_reg w') = reg (w_reg w) /\
  exists e0, e = Snap e0 /\
    (node_at (w_fs w) target = None -> left_by_failure data target (w_fs w) e0 (w_fs w')).
Proof.
  intros Hr Hd Ht Hoff Hwf He. pose proof (restore_run file name target force now data w Hr Hd Ht Hoff) as Hrun.
  destruct (restore_local file name target force now (base w)) as [[x|e0] h] eqn:Hl.
  - destruct Hrun as (w1 & Hrun & _). congruence.
  - rewrite Hrun in He. injection He as <- <-.
    destruct (restore_local_fails file name target force now data (base w) e0 h Hr Hd Ht Hwf Hl) as [H1 H2].
    split; [exact H1|]. by exists e0.
Qed.

(** What a file outside the places of the network stage keeps. *)
Lemma stage_file root w w' x n :
  off_caches root -> stage_keeps root w w' -> x <> "modules" -> x <> "frida-server" ->
  w_fs w !! (root ++ [x]) = Some n -> w_fs w' !! (root ++ [x]) = Some n.
Proof.
  intros [Hf Hm] Hk Hx1 Hx2 Hn. destruct (sk_files _ _ _ Hk (root ++ [x])) as [->|[? _]]; [|done|congruence].
  assert (root `prefix_of` root ++ [x]) as Hp by (by eexists).
  assert (forall y, x <> y -> ~ root ++ [y] `prefix_of` root ++ [x]) as Hne.
  { intros y Hy [q Hq]. rewrite <- app_assoc in Hq. apply (inj (app root)) in Hq. naive_solver. }
  unfold stage_places. repeat (apply Forall_cons; split); [by eapply apart_below..|by apply Hne|by apply Hne|constructor].
Qed.

(** C31. A restore that succeeds: the archive's manifest was read, the name is valid and was
    not registered, and the target overlaps no registered directory; the instance is
    registered now, as a container instance at the target, with the least free port index
    and the manifest's stealth paths, every other row as before; the directory holds a
    configuration that parses, is not for the micro-VM and whose ports resolve; and
    [.env], the compose override, the two directories and the Frida file are staged for it —
    whatever became of the downloads of the network stage. *)
Theorem restore_ok file name target force now data w p w' :
  reg (w_reg w) = Some (Doc (_registry_to_json data)) -> file_wf data ->
  Forall plain target -> off_caches target ->
  restore fuel file name target force now w = (Ok p, w') ->
  p = target /\
  exists manifest (i : Z) text cfg,
    fst (read_manifest file (base w)) = Ok manifest /\
    plus_full instance_name_char name = true /\ Dict.get name data = None /\
    overlapping target data = None /\ least_free data i /\
    reg (w_reg w') = Some (Doc (_registry_to_json (data ++
      [(name, mkInstanceMeta (RedroidBackendConfig (path_str target) (path_layout manifest)) i now)]))) /\
    w_fs w' !! instance_yaml target = Some (FileN text) /\ parse_config text = Some cfg /\
    binder cfg <> binder_vm /\ staged name target i cfg (path_layout manifest) (w_fs w') /\
    (exists n, w_fs w' !! (target ++ ["frida-server"]) = Some n).
Proof.
  intros Hr Hd Ht Hoff Hok. pose proof (restore_run file name target force now data w Hr Hd Ht Hoff) as Hrun.
  destruct (restore_local file name target force now (base w)) as [[x|e0] h] eqn:Hl; [|congruence].
  destruct Hrun as (w1 & Hrun & Hk). rewrite Hrun in Hok. injection Hok as <- <-. split; [done|].
  destruct (restore_local_ok file name target force now data (base w) _ _ Hr Hd Ht Hl)
    as (m & i & text & cfg & -> & Ho & H1 & H2 & H3 & H4 & H5 & H6 & H7 & H8 & [S1 (new & S2 & S3) S4 S5] & n & H9).
  exists m, i, text, cfg. split_and!; try done.
  - by rewrite (sk_reg _ _ _ Hk).
  - by apply (stage_file target _ _ "beetroot.yaml" _ Hoff Hk).
  - split; [by apply (stage_file target _ _ ".env" _ Hoff Hk)| |by apply (stage_file target _ _ "data" _ Hoff Hk)|].
    + exists new. split; [done|]. by apply (stage_file target _ _ _COMPOSE_OVERRIDE_FILENAME _ Hoff Hk).
    + by apply (sk_modules _ _ _ Hk).
  - apply (sk_frida _ _ _ Hk). by eexists.
Qed.

(** When no port index is left, a restore into a directory that does not exist fails and
    leaves the directory: it is made, and the allocation fails, before the [try] block. *)
Theorem full_registry_leaves_target file name target force now data w m f :
  reg (w_reg w) = Some (Doc (_registry_to_json data)) -> file_wf data ->
  Forall plain target -> off_caches target -> all_taken data ->
  plus_full instance_name_char name = true -> Dict.get name data = None ->
  fst (read_manifest file (base w)) = Ok m -> overlapping target data = None ->
  node_at (w_fs w) target = None -> mkdir_p target (w_fs w) = (Ok tt, f) ->
  exists k w', restore fuel file name target force now w = (Err (Snap (RegErr (BadIndex (IndexTooLarge k)))), w') /\
    w_fs w' = f /\ node_at (w_fs w') target = Some DirN.
Proof.
  intros Hr Hd Ht Hoff Hfull Hn Hg Hm Ho Hnone Hmk.
  pose proof (restore_run file name target force now data w Hr Hd Ht Hoff) as Hrun.
  assert (exists k, restore_local file name target force now (base w) =
    (Err (RegErr (BadIndex (IndexTooLarge k))), mkHost f (rworld (base w)))) as [k Hl].
  { destruct (add_restored data (mkHost f (rworld (base w))) Hr Hd name target now Hg) as [(i & (Hi & Hni & _) & _)|(_ & k & Ha)].
    { by destruct (Hni (Hfull i Hi)). }
    assert (forall v, mkHost (fsys v) (rworld v) = v) as Heta by (by intros []).
    exists k. unfold restore_local, _validate_instance_name, raise_if. rewrite Hn. cbn [negb].
    rewrite lift_ok_bind.
    assert (on_reg (Registry.get name) (base w) = (Ok None, base w)) as Hget.
    { unfold on_reg. rewrite (get_written _ _ _ Hr Hd), Hg. by rewrite Heta. }
    rewrite (M_bind_ok _ _ _ _ _ Hget). rewrite lift_ok_bind.
    pose proof (read_manifest_same file (base w)) as Hsame.
    destruct (read_manifest file (base w)) as [r h] eqn:Hread. simpl in Hm, Hsame. subst r h.
    rewrite (M_bind_ok _ _ _ _ _ Hread).
    assert (_prepare_destination target force (base w) = (Ok tt, base w)) as Hp.
    { unfold w_fs in Hnone. unfold w_reg in Hr. unfold _prepare_destination, mbind, M_bind, gets, lift, on_reg. simpl.
      rewrite Hnone, (list_written _ _ Hr Hd). simpl. rewrite Ho. by rewrite Heta. }
    rewrite (M_bind_ok _ _ _ _ _ Hp). unfold restore_into. unfold mbind at 1, M_bind at 1, gets.
    assert (on_fs (mkdir_p target) (base w) = (Ok tt, mkHost f (rworld (base w)))) as Hof.
    { unfold on_fs. unfold w_fs in Hmk. by rewrite Hmk. }
    rewrite (M_bind_ok _ _ _ _ _ Hof).
    match goal with |- (?a ≫= _) _ = _ => assert (a (mkHost f (rworld (base w))) =
      (Err (RegErr (BadIndex (IndexTooLarge k))), mkHost f (rworld (base w)))) as Hadd end.
    { unfold on_reg. cbn [rworld fsys]. cbn [rworld] in Ha. by rewrite Ha. }
    by rewrite (M_bind_err _ _ _ _ _ Hadd). }
  rewrite Hl in Hrun. exists k. eexists. split; [exact Hrun|]. split; [done|].
  exact (mkdir_p_ok _ _ _ Ht Hmk).
Qed.
End restore.

(** ** A restore on a concrete machine *)

Module RestoreSample.
Import Sample SnapSample DlSample FridaSample ApiSample.

(** The archived configuration lists a module to download; a full removal of what is below
    [stubborn] fails. *)
Definition externals_with (stubborn : path) : Externals := {|
  parse_config s := if parses s then Some (mkInstanceConfig SUPPORTED_API_VERSION durable Android_default Display_default
    Resources_default None [mkModule (Some "https://example.org/a.zip") None None] Magisk_default _default_port_mappings
    (binder InstanceConfig_default) Vm_default) else None;
  manifest_of_json := @manifest_of_json SnapSample.sample_externals;
  read_archive := @read_archive SnapSample.sample_externals;
  write_archive := @write_archive SnapSample.sample_externals;
  header_bytes := @header_bytes SnapSample.sample_externals;
  eof_bytes := @eof_bytes SnapSample.sample_externals;
  Snapshot.float_repr := @Snapshot.float_repr SnapSample.sample_externals;
  render_node := false; cwd := ["home"];
  remains _ p := if bool_decide (p = stubborn) then [p ++ ["beetroot.yaml"]] else [] |}.
#[local] Instance restore_externals : Externals := externals_with [].

Definition machine (a : archive) : world := mkApi (sample_host a) None None [] 0 [] [].
Definition restore_new {X : Externals} (a : archive) := restore 100 ["out"] "alpha" ["new"] false (stamp "t") (machine a).

Lemma off_new : off_caches ["new"].
Proof. split; by_decision. Qed.

Lemma plain_new : Forall plain ["new"].
Proof. by apply plain_all. Qed.

(** The module is fetched into the cache and staged; the other instance is as it was. *)
Lemma restore_spares_the_rest_witness :
  let w' := snd (restore_new good) in
  within [["new"]; frida_cache_dir; _module_cache_dir] (w_fs (machine good)) (w_fs w') /\
  w_fs w' !! ["srv"; "beta"; "f"] = Some (FileN "live") /\
  w_fs w' !! ["new"; "modules"; "a.zip"] = Some (FileN "AAAA") /\
  w_fs w' !! _module_cache_dir = Some DirN.
Proof.
  destruct (restore_spares_the_rest 100 ["out"] "alpha" ["new"] false (stamp "t") sample_data
    (machine good) eq_refl sample_data_wf plain_new off_new) as [H1 H2].
  split; [exact H1|]. split; [|split; vm_compute; reflexivity].
  apply (H2 "beta" (mkInstanceMeta (VmBackendConfig "/srv/beta") 0 (stamp "t0")) ["srv"; "beta"]).
  - left.
  - vm_compute. reflexivity.
  - by exists ["f"].
  - by_decision.
  - by_decision.
  - vm_compute. reflexivity.
Defined.

(** The archive breaks after its manifest: nothing remains of the restore. *)
Lemma failed_restore_rolls_back_witness :
  exists e w', restore_new torn = (Err (Snap e), w') /\
    reg (w_reg w') = reg (w_reg (machine torn)) /\ nothing_left ["new"] (w_fs w').
Proof.
  assert (fst (restore_new torn) = Err (Snap (RawStream ZstdErr))) as He by (vm_compute; reflexivity).
  destruct (restore_new torn) as [r w'] eqn:Hr. simpl in He. subst r.
  exists (RawStream ZstdErr), w'. split; [reflexivity|].
  destruct (failed_restore_rolls_back 100 ["out"] "alpha" ["new"] false (stamp "t") sample_data
    (machine torn) (Snap (RawStream ZstdErr)) w' eq_refl sample_data_wf plain_new off_new
    ltac:(apply fs_wfb_ok; vm_compute; reflexivity) Hr) as (H1 & e0 & [= <-] & H2).
  split; [exact H1|]. destruct H2 as [H2|[(_ & (i & H2) & _)|(H2 & _)]]; [vm_compute; reflexivity|exact H2|discriminate..].
Defined.

(** The same when a file of the new directory cannot be removed: the row goes, the file
    stays, and the error is that of the removal. *)
Example stubborn_rollback :
  let '(r, w') := restore_new (X := externals_with ["new"])
    (mkArchive [_add_manifest sample_manifest; file_entry "./beetroot.yaml" sample_yaml] (Fails ZstdErr)) in
  r = Err (Snap (OsErr NotRemoved)) /\
  reg (w_reg w') = Some (Doc (_registry_to_json sample_data)) /\
  w_fs w' !! ["new"; "beetroot.yaml"] = Some (FileN sample_yaml).
Proof. vm_compute. auto. Qed.

Lemma restore_ok_witness : exists w' manifest (i : Z) text cfg,
  restore_new good = (Ok ["new"], w') /\
  fst (read_manifest ["out"] (sample_host good)) = Ok manifest /\ least_free sample_data i /\
  w_fs w' !! ["new"; "beetroot.yaml"] = Some (FileN text) /\ parse_config text = Some cfg /\
  SnapshotOps.staged "alpha" ["new"] i cfg (path_layout manifest) (w_fs w').
Proof.
  assert (fst (restore_new good) = Ok ["new"]) as He by (vm_compute; reflexivity).
  destruct (restore_new good) as [r w'] eqn:Hr. simpl in He. subst r.
  destruct (restore_ok 100 ["out"] "alpha" ["new"] false (stamp "t") sample_data (machine good)
    ["new"] w' eq_refl sample_data_wf plain_new off_new Hr)
    as (_ & m & i & text & cfg & H1 & _ & _ & _ & H2 & _ & H3 & H4 & _ & H5 & _).
  exists w', m, i, text, cfg. split; [reflexivity|]. split; [exact H1|]. auto.
Defined.
End RestoreSample.
