(* ===== verification/ApiRaces.v ===== *)
(** * Two processes that create instances at once

    [RegistrySer] shows that the registry calls of several processes behave as if one
    came after the other.  [create] of [api.py] makes several such calls, and its guard
    against nested directories is a call of its own: here two creators both pass it. *)
From stdpp Require Import base list strings gmap relations.
From Stdlib Require Import ZArith Lia.
From S2P Require Import Prelude PyStr Config Ports Registry RegistryOps RegistryLock RegistryConc RegistrySer.
From S2P Require Import Render HostFs Snapshot SnapshotForce Api ApiInv ApiSample.
Local Open Scope stdpp_scope.
Local Open Scope Z_scope.
Import Sample ApiSample.

(** The registry calls of [Instance.create]: is the name free, does the directory overlap
    another, the row. *)
Definition creator_calls (name root : string) : list reg_op :=
  [OpList; OpList; OpAdd name None (Some (RedroidBackendConfig root [])) (stamp "t0")].
Definition creator (name root : string) : proc :=
  mkProc (creator_calls name root) None None [] fresh_local.
Definition outer_and_inner : system :=
  mkSystem None None [creator "outer" "/srv/x"; creator "inner" "/srv/x/y"].
Definition raced : system := schedule turns outer_and_inner.

Definition both_rows : list (string * InstanceMeta) :=
  [("outer", mkInstanceMeta (RedroidBackendConfig "/srv/x" []) 0 (stamp "t0"));
   ("inner", mkInstanceMeta (RedroidBackendConfig "/srv/x/y" []) 1 (stamp "t0"))].

(** What process [i] was told lets its directory through [_check_directory_overlap]. *)
Definition guard_passed (target : path) (l : list (reg_op * result conc_error answer)) : bool :=
  forallb (fun '(_, r) =>
    match r with Ok (TheRows rows) => bool_decide (overlapping target rows = None) | _ => true end) l.

(** The calls in turns: both creators list an empty registry, so both directories pass the
    guard; both rows are then written, one inside the directory of the other. *)
Theorem overlap_guard_races :
  rtc sys_step outer_and_inner raced /\ Forall finished (procs raced) /\
  (exists l1 l2, log <$> procs raced = [l1; l2] /\
     guard_passed ["srv"; "x"] l1 = true /\ guard_passed ["srv"; "x"; "y"] l2 = true) /\
  file raced = stored_as (Some both_rows) /\ ~ dirs_disjoint both_rows.
Proof.
  split; [apply schedule_steps|]. split; [by vm_compute; repeat constructor|].
  split; [eexists _, _; vm_compute; by repeat split|]. split; [by vm_compute|].
  intros H.
  assert (overlaps ["srv"; "x"] ["srv"; "x"; "y"] = false) as E; [|by vm_compute in E].
  eapply (H "outer" "inner"); [by left|by right; left|done..].
Qed.

(** One after the other: the second creator's guard names the first. *)
Example in_sequence_refused :
  let s := schedule (concat (replicate 40 [0; 0; 0]) ++ concat (replicate 40 [1; 1]))%nat outer_and_inner in
  exists l1 l2, log <$> procs s = [l1; l2] /\
    guard_passed ["srv"; "x"] l1 = true /\ guard_passed ["srv"; "x"; "y"] l2 = false.
Proof. eexists _, _. vm_compute. by repeat split. Qed.

