(* ===== verification/Qemu.v ===== *)
(** * The micro-VM's emulator process ([vm/qemu.py])

    Accelerator and vCPU resolution, the QEMU command line, and [QemuProcess]: a
    detached process known to later commands only by a pidfile.  The process table
    belongs to the operating system: between any two system calls of the program
    the environment may change it, so process exit and PID reuse are explicit. *)
From stdpp Require Import base list strings gmap.
From Stdlib Require Import ZArith Lia Ascii.
From S2P Require Import Prelude PyStr Config.
Local Open Scope stdpp_scope.
Local Open Scope Z_scope.

Inductive ResolvedAccel : Type := kvm | tcg.
#[export] Instance ResolvedAccel_eq_dec : EqDecision ResolvedAccel.
Proof. solve_decision. Defined.

Inductive qemu_error : Type :=
| CrossArchKvm (machine : string)      (* QemuLaunchError *)
| NoDevKvm                             (* QemuLaunchError *)
| AlreadyRunning (pid : option Z)      (* QemuLaunchError *)
| LaunchFailed (binary : string)       (* QemuLaunchError *)
| PidOverflow (pid : Z)                (* OverflowError out of os.kill *)
| OutOfFuel.
#[export] Instance qemu_error_eq_dec : EqDecision qemu_error.
Proof. solve_decision. Defined.

(** ** Accelerator and vCPU count *)

Definition GUEST_ARCH_MACHINES : list string := ["x86_64"; "amd64"].

Definition host_is_guest_arch (machine : string) : bool :=
  bool_decide (lower machine ∈ GUEST_ARCH_MACHINES).

(** [_dev_kvm_usable] is [os.access] of [/dev/kvm]. *)
Definition detect_accel (machine : string) (dev_kvm_usable : bool) (requested : Accel)
  : result qemu_error ResolvedAccel :=
  match requested with
  | accel_tcg => Ok tcg
  | _ =>
      if negb (host_is_guest_arch machine) then
        match requested with
        | accel_kvm => Err (CrossArchKvm machine)
        | _ => Ok tcg
        end
      else
        match requested with
        | accel_kvm => if negb dev_kvm_usable then Err NoDevKvm else Ok kvm
        | _ => Ok (if dev_kvm_usable then kvm else tcg)
        end
  end.

(** [_affinity_cpu_count]: [sched_getaffinity] when the platform has it, else
    [os.cpu_count], which may not know. *)
Definition _affinity_cpu_count (affinity : option (list Z)) (cpu_count : option Z) : Z :=
  match affinity with
  | Some cpus => Z.max 1 (Z.of_nat (length cpus))
  | None => Z.max 1 (match cpu_count with Some 0 | None => 1 | Some n => n end)
  end.

Record core_scan := mkCoreScan {
  scan_phys : option string; scan_core : option string; scan_cores : gset (string * string) }.

(** The record-and-reset at the end of one processor's block. *)
Definition record_core (s : core_scan) : core_scan :=
  mkCoreScan None None
    match scan_phys s, scan_core s with
    | Some p, Some c => scan_cores s ∪ {[ (p, c) ]}
    | _, _ => scan_cores s
    end.

Definition scan_line (s : core_scan) (line : string) : core_scan :=
  match partition_on ":" line with
  | (_, None) => record_core s
  | (key, Some value) =>
      if String.eqb (strip key) "physical id" then
        mkCoreScan (Some (strip value)) (scan_core s) (scan_cores s)
      else if String.eqb (strip key) "core id" then
        mkCoreScan (scan_phys s) (Some (strip value)) (scan_cores s)
      else s
  end.

(** [len(cores) or None]; [cpuinfo] is [None] where the file cannot be read. *)
Definition _cpuinfo_physical_cores (cpuinfo : option string) : option Z :=
  text ← cpuinfo;
  let s := record_core (fold_left scan_line (splitlines text) (mkCoreScan None None ∅)) in
  match size (scan_cores s) with O => None | n => Some (Z.of_nat n) end.

Definition host_physical_cores affinity cpu_count cpuinfo : Z :=
  let logical := _affinity_cpu_count affinity cpu_count in
  match _cpuinfo_physical_cores cpuinfo with
  | None => Z.max 1 logical
  | Some physical => Z.max 1 (Z.min physical logical)
  end.

Definition resolve_smp affinity cpu_count cpuinfo (configured : Smp) : Z :=
  match configured with
  | smp_auto => host_physical_cores affinity cpu_count cpuinfo
  | smp_count n => n
  end.

(** ** The command line *)

Definition _GUEST_ADB_PORT : Z := 5555.
Inductive DiskFormat : Type := raw | qcow2.
Definition format_name (f : DiskFormat) : string :=
  match f with raw => "raw" | qcow2 => "qcow2" end.

Definition hostfwd (host_adb_port : Z) : string :=
  "hostfwd=tcp:127.0.0.1:" +:+ str_of_Z host_adb_port +:+ "-:" +:+ str_of_Z _GUEST_ADB_PORT.

Definition drive (rootfs : string) (disk_format : DiskFormat) (disk_cache : option string)
  : string :=
  "file=" +:+ rootfs +:+ ",format=" +:+ format_name disk_format +:+ ",if=virtio" +:+
  match disk_cache with Some c => ",cache=" +:+ c | None => "" end.

Definition build_qemu_argv (qemu_bin : string) (accel : ResolvedAccel)
    (kernel rootfs : string) (smp memory_mib host_adb_port : Z)
    (disk_format : DiskFormat) (disk_cache monitor_socket loadvm : option string)
  : list string :=
  let accel_args :=
    match accel with
    | kvm => ["-accel"; "kvm"; "-cpu"; "host"]
    | tcg => ["-accel"; "tcg,thread=multi,tb-size=1024"; "-cpu"; "max"]
    end in
  [qemu_bin; "-M"; "q35"] ++ accel_args ++
  ["-smp"; str_of_Z smp; "-m"; str_of_Z memory_mib; "-nographic"; "-display"; "none";
   "-no-reboot"; "-kernel"; kernel; "-drive"; drive rootfs disk_format disk_cache;
   "-netdev"; "user,id=net0," +:+ hostfwd host_adb_port;
   "-device"; "virtio-net-pci,netdev=net0"] ++
  match monitor_socket with
  | Some m => ["-monitor"; "unix:" +:+ m +:+ ",server,nowait"]
  | None => []
  end ++
  match loadvm with Some t => ["-loadvm"; t] | None => [] end ++
  ["-append"; "console=ttyS0 root=/dev/vda rw init=/init panic=1 mitigations=off"].

(** ** The host *)

Inductive signal : Type := SIG0 | SIGTERM | SIGKILL.
#[export] Instance signal_eq_dec : EqDecision signal.
Proof. solve_decision. Defined.

Record proc := mkProc { p_argv : list string; p_signalable : bool }.
#[export] Instance proc_eq_dec : EqDecision proc.
Proof. solve_decision. Defined.

Notation ptable := (gmap Z proc).

(** [sent] logs the signals delivered (signal 0 delivers nothing), with the process
    each one reached. *)
Record host := mkHost {
  procs : ptable; pidfile : option string; console_log : option string;
  clock : Z; calls : nat; sent : list (Z * signal * option proc) }.

(** What the operating system contributes: how other processes change the table
    before the [n]-th system call, how much longer than asked the [n]-th call
    sleeps (milliseconds), the PID a spawn gets ([None] where it fails), and the
    answer of [kill] for a process group. *)
Class OS := {
  env : nat -> ptable -> ptable;
  oversleep : nat -> Z;
  spawn_pid : nat -> ptable -> list string -> option Z;
  group_kill : Z -> option bool }.

(** PIDs are positive C integers and a new process gets a free one.  Nothing is said of
    what other processes do between two system calls: any of them may exit, and its PID
    may be another's by the next call. *)
Class OSLaws (os : OS) : Prop := {
  env_positive n t pid p : env n t !! pid = Some p -> 0 < pid < 2 ^ 31;
  oversleep_nonneg n : 0 <= oversleep n;
  spawn_free n t argv pid : spawn_pid n t argv = Some pid -> t !! pid = None /\ 0 < pid < 2 ^ 31 }.

(** ** [QemuProcess] *)

(** [int(text)]: surrounding whitespace, a sign, digits with single underscores
    between them, at most 4300 digits. *)
Definition digits_with_underscores (s : string) : option Z :=
  let parts := split_on "_" s in
  let digits := join "" parts in
  if forallb (plus_full is_digit) parts && (String.length digits <=? 4300)%nat
  then Z_of_digits digits else None.

Definition py_int (text : string) : option Z :=
  match strip text with
  | String c r =>
      if ascii_dec c "-" then Z.opp <$> digits_with_underscores r
      else if ascii_dec c "+" then digits_with_underscores r
      else digits_with_underscores (String c r)
  | EmptyString => None
  end.

Definition read_pid (h : host) : option Z := text ← pidfile h; py_int text.

Definition nul : ascii := ascii_of_nat 0.

(** The kernel's [cmdline]: every argument followed by a NUL byte. *)
Definition cmdline (argv : list string) : string :=
  fold_right (fun a rest => a +:+ String nul rest) "" argv.

(** The two substring tests of [_pid_is_qemu]; no port for an orphan. *)
Definition cmdline_is_qemu (host_adb_port : option Z) (text : string) : bool :=
  let names_qemu := contains "qemu-system" text in
  match host_adb_port with
  | None => names_qemu
  | Some port =>
      names_qemu && contains ("hostfwd=tcp:127.0.0.1:" +:+ str_of_Z port +:+ "-") text
  end.

Section qemu_process.
Context {os : OS}.
Abbreviation Q := (M host qemu_error).

(** Another system call: the environment has run since the last one. *)
Definition tick : Q unit := modify (fun h =>
  mkHost (env (calls h) (procs h)) (pidfile h) (console_log h) (clock h) (S (calls h)) (sent h)).

Definition _read_proc_cmdline (pid : Z) : Q (option string) :=
  tick ;; gets (fun h => cmdline ∘ p_argv <$> procs h !! pid).

Definition _pid_is_qemu (port : option Z) (pid : Z) : Q bool :=
  text ← _read_proc_cmdline pid;
  mret match text with Some t => cmdline_is_qemu port t | None => false end.

Inductive kill_result : Type := delivered | ESRCH | EPERM.

Definition log_signal (pid : Z) (sig : signal) (p : option proc) (h : host) : host :=
  mkHost (procs h) (pidfile h) (console_log h) (clock h) (calls h)
    match sig with SIG0 => sent h | _ => sent h ++ [(pid, sig, p)] end.

(** [os.kill]; a PID that is no C [int] raises [OverflowError], a non-positive one
    names a process group. *)
Definition os_kill (pid : Z) (sig : signal) : Q kill_result :=
  if decide (- 2 ^ 31 <= pid < 2 ^ 31) then
    tick ;;
    if decide (pid <= 0) then
      match group_kill pid with
      | None => mret ESRCH
      | Some false => mret EPERM
      | Some true => modify (log_signal pid sig None) ;; mret delivered
      end
    else
      t ← gets procs;
      match t !! pid with
      | None => mret ESRCH
      | Some p =>
          if p_signalable p then modify (log_signal pid sig (Some p)) ;; mret delivered
          else mret EPERM
      end
  else raise (PidOverflow pid).

Definition is_running (port : option Z) : Q bool :=
  pid ← gets read_pid;
  match pid with
  | None => mret false
  | Some pid =>
      r ← os_kill pid SIG0;
      match r with
      | ESRCH => mret false
      | _ => _pid_is_qemu port pid
      end
  end.

Definition set_pidfile (t : option string) (h : host) : host :=
  mkHost (procs h) t (console_log h) (clock h) (calls h) (sent h).
Definition truncate_console (h : host) : host :=
  mkHost (procs h) (pidfile h) (Some "") (clock h) (calls h) (sent h).
Definition add_proc (pid : Z) (argv : list string) (h : host) : host :=
  mkHost (<[pid := mkProc argv true]> (procs h)) (pidfile h) (console_log h) (clock h)
    (calls h) (sent h).

Definition start (port : option Z) (argv : list string) : Q Z :=
  running ← is_running port;
  if running : bool then pid ← gets read_pid; raise (AlreadyRunning pid)
  else
    modify truncate_console ;;
    tick ;;
    spawned ← gets (fun h => spawn_pid (calls h) (procs h) argv);
    match spawned with
    | None => raise (LaunchFailed (default "" (head argv)))
    | Some pid =>
        modify (add_proc pid argv) ;;
        modify (set_pidfile (Some (str_of_Z pid))) ;;
        mret pid
    end.

(** Milliseconds. *)
Definition _TERM_GRACE : Z := 5000.
Definition _TERM_POLL : Z := 100.

Definition sleep (ms : Z) : Q unit :=
  modify (fun h =>
    mkHost (procs h) (pidfile h) (console_log h) (clock h + ms + oversleep (calls h))
      (calls h) (sent h)) ;;
  tick.

(** The poll loop of [_escalate_if_alive]: [false] where it returned early. *)
Fixpoint poll (fuel : nat) (port : option Z) (pid deadline : Z) : Q bool :=
  match fuel with
  | O => raise OutOfFuel
  | S fuel =>
      now ← gets clock;
      if now <? deadline then
        ours ← _pid_is_qemu port pid;
        if negb ours then mret false
        else sleep _TERM_POLL ;; poll fuel port pid deadline
      else mret true
  end.

(** Enough for every poll of the grace window. *)
Definition poll_fuel : nat := 51.

Definition _escalate_if_alive (port : option Z) (pid : Z) : Q unit :=
  now ← gets clock;
  expired ← poll poll_fuel port pid (now + _TERM_GRACE);
  if negb expired then mret tt
  else
    ours ← _pid_is_qemu port pid;
    if ours : bool then os_kill pid SIGKILL ;; mret tt else mret tt.

(** The [if pid is not None and self._pid_is_qemu(pid)] statement of [terminate]. *)
Definition signal_recorded (port : option Z) (pid : option Z) : Q bool :=
  match pid with
  | None => mret false
  | Some pid =>
      ours ← _pid_is_qemu port pid;
      if ours : bool then
        r ← os_kill pid SIGTERM;
        match r with
        | delivered => _escalate_if_alive port pid ;; mret true
        | _ => mret false
        end
      else mret false
  end.

Definition terminate (port : option Z) : Q bool :=
  pid ← gets read_pid;
  signalled ← signal_recorded port pid;
  modify (set_pidfile None) ;;
  mret signalled.
End qemu_process.

(** ** Whose process is it? *)

Lemma contains_cmdline n argv :
  nul ∉ chars n -> n <> "" -> contains n (cmdline argv) = existsb (contains n) argv.
Proof.
  intros Hn Hne. induction argv as [|a argv IH]; cbn [cmdline fold_right existsb].
  - by destruct n.
  - rewrite contains_sep by done. by f_equal.
Qed.

(** The part of the identity needle that no other argument can hold. *)
Definition loopback : string := "127.0.0.1:".

Definition no_loopback (s : string) : Prop := contains loopback s = false.

Lemma contains_number s z : 0 <= z -> contains (String "." s) (str_of_Z z) = false.
Proof. intros. apply contains_free. by apply str_of_Z_free. Qed.

Lemma no_loopback_number z : 0 <= z -> no_loopback (str_of_Z z).
Proof.
  intros Hz. apply not_true_is_false. intros H.
  apply (contains_part "127" (String "." "0.0.1:") "") in H. by rewrite contains_number in H.
Qed.

Lemma no_loopback_skip a b : "1"%char ∉ chars a -> no_loopback b -> no_loopback (a +:+ b).
Proof. intros Ha Hb. unfold no_loopback, loopback. by rewrite contains_skip. Qed.

Lemma no_loopback_sep a c b :
  c ∉ chars loopback -> no_loopback a -> no_loopback b -> no_loopback (a +:+ String c b).
Proof. intros Hc Ha Hb. unfold no_loopback. rewrite contains_sep by done. by rewrite Ha, Hb. Qed.

Ltac by_chars := apply (bool_decide_unpack _); vm_compute; exact I.

Lemma no_loopback_drive rootfs f cache :
  no_loopback rootfs -> no_loopback (default "" cache) -> no_loopback (drive rootfs f cache).
Proof.
  intros Hr Hc. unfold drive. apply no_loopback_skip; [by_chars|].
  apply (no_loopback_sep rootfs ","); [by_chars|done|].
  destruct cache as [c|].
  - destruct f; [change (no_loopback ("format=raw,if=virtio,cache=" +:+ c))
                |change (no_loopback ("format=qcow2,if=virtio,cache=" +:+ c))];
      by (apply no_loopback_skip; [by_chars|]).
  - by destruct f.
Qed.

(** The strings of a launch that the user or the host chooses. *)
Definition launch_strings qemu_bin kernel rootfs (cache monitor loadvm : option string)
  : list string :=
  [qemu_bin; kernel; rootfs; default "" cache; default "" monitor; default "" loadvm].

Definition needle (port : Z) : string := "hostfwd=tcp:127.0.0.1:" +:+ str_of_Z port +:+ "-".

Lemma needle_clean port : 0 <= port -> nul ∉ chars (needle port).
Proof.
  intros Hp. unfold needle. rewrite !chars_app, !not_elem_of_app.
  split; [by_chars|]. split; [by apply str_of_Z_free|by_chars].
Qed.

Lemma needle_loopback port s : no_loopback s -> contains (needle port) s = false.
Proof.
  intros Hs. apply not_true_is_false. intros H.
  apply (contains_part "hostfwd=tcp:" loopback (str_of_Z port +:+ "-")) in H. congruence.
Qed.

Lemma needle_netdev q p : 0 <= q -> 0 <= p ->
  contains (needle q) ("user,id=net0," +:+ hostfwd p) = bool_decide (q = p).
Proof.
  intros Hq Hp. unfold needle, hostfwd.
  change ("hostfwd=tcp:127.0.0.1:" +:+ str_of_Z q +:+ "-")
    with (String "h" ("ostfwd=tcp:127.0.0.1:" +:+ str_of_Z q +:+ "-")).
  rewrite contains_skip by by_chars.
  change ("hostfwd=tcp:127.0.0.1:" +:+ str_of_Z p +:+ "-:" +:+ str_of_Z _GUEST_ADB_PORT)
    with (String "h" ("ostfwd=tcp:127.0.0.1:" +:+ str_of_Z p +:+ "-:5555")).
  cbn [contains]. rewrite contains_free, orb_false_r.
  2:{ rewrite !chars_app, !not_elem_of_app. split; [by_chars|].
      split; [by apply str_of_Z_free|by_chars]. }
  apply eq_bool_prop_intro. rewrite bool_decide_spec, Is_true_true.
  rewrite prefix_cons, prefix_spec. split.
  - intros [_ [r H]]. rewrite app_assoc_str in H. apply app_inv_head in H.
    rewrite app_assoc_str in H.
    change ("-:5555") with (String "-" ":5555") in H.
    change ("-" +:+ r) with (String "-" r) in H.
    apply app_sep_inj in H as [H _]; try by apply str_of_Z_free.
    symmetry. by apply str_of_Z_inj.
  - intros ->. split; [done|]. exists ":5555". by rewrite !app_assoc_str.
Qed.

(** The identity check recognises a launch by its forwarded port and by nothing
    else: QEMU started for port [p] passes the check for port [q] exactly when the
    binary's name tells it is QEMU and [q = p], for every other knob of the command
    line, as long as no path of the launch contains a loopback address. *)
Theorem launch_identity qemu_bin accel kernel rootfs smp mem p f cache monitor loadvm q :
  Forall no_loopback (launch_strings qemu_bin kernel rootfs cache monitor loadvm) ->
  0 <= smp -> 0 <= mem -> 0 <= p -> 0 <= q ->
  let argv := build_qemu_argv qemu_bin accel kernel rootfs smp mem p f cache monitor loadvm in
  cmdline_is_qemu (Some q) (cmdline argv)
  = contains "qemu-system" (cmdline argv) && bool_decide (q = p).
Proof.
  intros Hs Hsmp Hmem Hp Hq argv. unfold cmdline_is_qemu. f_equal.
  rewrite contains_cmdline by (done || by apply needle_clean). fold (needle q).
  unfold launch_strings in Hs. rewrite !Forall_cons in Hs.
  destruct Hs as (Hb & Hk & Hr & Hc & Hm & Hl & _).
  assert (forall l, Forall no_loopback l -> existsb (contains (needle q)) l = false) as Hno.
  { induction 1; simpl; [done|]. by rewrite needle_loopback. }
  subst argv. unfold build_qemu_argv.
  rewrite !existsb_app.
  rewrite (Hno (match loadvm with Some t => ["-loadvm"; t] | None => [] end)).
  2:{ destruct loadvm; repeat constructor; done. }
  rewrite (Hno (match monitor with Some m => _ | None => [] end)).
  2:{ destruct monitor as [m|]; [|constructor].
      apply Forall_cons. split; [done|]. apply Forall_singleton.
      apply no_loopback_skip; [by_chars|]. apply (no_loopback_sep m ","); [by_chars|done|done]. }
  rewrite (Hno [qemu_bin; _; _]) by (by repeat constructor).
  rewrite (Hno (match accel with kvm => _ | tcg => _ end)) by (destruct accel; by repeat constructor).
  rewrite (Hno ["-append"; _]) by (by repeat constructor).
  cbn [existsb]. rewrite needle_netdev by done.
  rewrite !(needle_loopback q (str_of_Z _)) by (by apply no_loopback_number).
  rewrite (needle_loopback q kernel), (needle_loopback q (drive _ _ _)) by (done || by apply no_loopback_drive).
  rewrite !needle_loopback by done. cbn [orb]. by rewrite !orb_false_r.
Qed.

(** ** Running the operations *)

Section runs.
Context {os : OS} (laws : OSLaws os).
Implicit Types (h : host) (port : option Z) (pid : Z).

Definition ticked h : host :=
  mkHost (env (calls h) (procs h)) (pidfile h) (console_log h) (clock h) (S (calls h)) (sent h).

(** The table entry names this instance's QEMU. *)
Definition ours port (o : option proc) : bool :=
  match o with Some p => cmdline_is_qemu port (cmdline (p_argv p)) | None => false end.

Lemma pid_is_qemu_run port pid h :
  _pid_is_qemu port pid h = (Ok (ours port (procs (ticked h) !! pid)), ticked h).
Proof.
  unfold _pid_is_qemu, _read_proc_cmdline, tick, modify, gets, mbind, M_bind, mret, M_ret.
  fold (ticked h). by destruct (procs (ticked h) !! pid).
Qed.

Lemma os_kill_run pid sig h : 0 < pid < 2 ^ 31 ->
  os_kill pid sig h =
    match procs (ticked h) !! pid with
    | None => (Ok ESRCH, ticked h)
    | Some p =>
        if p_signalable p then (Ok delivered, log_signal pid sig (Some p) (ticked h))
        else (Ok EPERM, ticked h)
    end.
Proof.
  intros Hp. unfold os_kill. rewrite decide_True by lia.
  unfold tick, modify, gets, mbind, M_bind, mret, M_ret. fold (ticked h).
  rewrite decide_False by lia. destruct (procs (ticked h) !! pid) as [p|]; [|done].
  by destruct (p_signalable p).
Qed.

Lemma ticked_positive h pid p : procs (ticked h) !! pid = Some p -> 0 < pid < 2 ^ 31.
Proof. apply env_positive. Qed.

(** The process table [k] system calls after [h], when the program itself starts and
    reaps nothing. *)
Fixpoint table_at h (k : nat) : ptable :=
  match k with O => procs h | S k => env (calls h + k) (table_at h k) end.

(** [h'] is some such calls later. *)
Definition later h h' : Prop := exists k, calls h' = (calls h + k)%nat /\ procs h' = table_at h k.

Lemma later_refl h : later h h.
Proof. exists O. split; [lia|done]. Qed.

Lemma later_ticked h h' h'' : later h h' -> calls h'' = S (calls h') ->
  procs h'' = env (calls h') (procs h') -> later h h''.
Proof. intros (k & Hc & Hp) Hc' Hp'. exists (S k). simpl. rewrite <- Hc, <- Hp. split; [lia|done]. Qed.

Lemma poll_S fuel port pid deadline :
  poll (S fuel) port pid deadline =
    (now ← gets clock;
     if now <? deadline then
       ours ← _pid_is_qemu port pid;
       if negb ours then mret false else sleep _TERM_POLL ;; poll fuel port pid deadline
     else mret true).
Proof. done. Qed.

(** The poll loop always ends within its fuel, signals nobody, and says truly why
    it ended. *)
Lemma poll_run fuel port pid deadline h0 h :
  deadline - clock h <= 100 * Z.of_nat fuel -> later h0 h ->
  exists b h', poll (S fuel) port pid deadline h = (Ok b, h') /\
    sent h' = sent h /\ pidfile h' = pidfile h /\ later h0 h' /\
    (b = false -> ours port (procs h' !! pid) = false) /\
    (b = true -> deadline <= clock h').
Proof.
  revert h. induction fuel as [|fuel IH]; intros h Hf Hl; rewrite poll_S;
    rewrite (M_bind_ok (gets clock) _ h (clock h) h) by done.
  - destruct (Z.ltb_spec (clock h) deadline) as [|Hd]; [lia|].
    exists true, h. repeat split; try done; lia.
  - destruct (Z.ltb_spec (clock h) deadline) as [Hd|Hd].
    + rewrite (M_bind_ok _ _ _ _ _ (pid_is_qemu_run port pid h)).
      assert (later h0 (ticked h)) as Hl1 by (by eapply later_ticked).
      destruct (ours port (procs (ticked h) !! pid)) eqn:Ho; cbn [negb].
      * set (h1 := ticked (mkHost (procs (ticked h)) (pidfile h) (console_log h)
            (clock h + _TERM_POLL + oversleep (calls (ticked h))) (calls (ticked h)) (sent h))).
        assert (sleep _TERM_POLL (ticked h) = (Ok tt, h1)) as Hs by done.
        rewrite (M_bind_ok _ _ _ _ _ Hs).
        assert (later h0 h1) as Hl2 by (by apply (later_ticked h0 (ticked h))).
        destruct (IH h1) as (b & h' & -> & Hsent & Hpf & Hb); [|done|].
        { unfold h1. cbn [ticked clock]. unfold _TERM_POLL.
          pose proof (oversleep_nonneg (calls (ticked h))). lia. }
        exists b, h'. rewrite Hsent, Hpf. tauto.
      * exists false, (ticked h). done.
    + exists true, h. done.
Qed.

(** Signals sent to the recorded PID right after an identity check: at one system call
    since [h] the PID was held by this instance's QEMU, and the signal went to whoever
    held it at the very next call. *)
Definition checked_signal port pid h (s : Z * signal * option proc) : Prop :=
  s.1.1 = pid /\ exists k q, ours port (table_at h k !! pid) = true /\
    table_at h (S k) !! pid = Some q /\ s.2 = Some q.

(** Signals that reached this instance's QEMU. *)
Definition own_signal port pid (s : Z * signal * option proc) : Prop :=
  s.1.1 = pid /\ exists q, s.2 = Some q /\ ours port (Some q) = true.

(** No PID passes from one process to another between two consecutive system calls. *)
Definition no_rebind : Prop := forall n t pid p q,
  t !! pid = Some p -> env n t !! pid = Some q -> q = p.

Lemma checked_own port pid h s : no_rebind -> checked_signal port pid h s -> own_signal port pid s.
Proof.
  intros Hn (Hp & k & q & Ho & Hq & Hs). split; [done|]. exists q. split; [done|].
  destruct (table_at h k !! pid) as [p|] eqn:Hk; [|done]. by rewrite (Hn _ _ _ _ _ Hk Hq).
Qed.

(** No process of ours that could be signalled is left at the PID. *)
Definition settled port pid h : Prop :=
  forall q, procs h !! pid = Some q -> ours port (Some q) = true -> p_signalable q = false.

Lemma settled_not_ours port pid h : ours port (procs h !! pid) = false -> settled port pid h.
Proof. intros Ho q Hq. rewrite Hq in Ho. congruence. Qed.

(** A signal right after a successful identity check. *)
Lemma checked_kill port pid sig h0 h :
  0 < pid < 2 ^ 31 -> ours port (procs h !! pid) = true -> sig <> SIG0 -> later h0 h ->
  exists r h', os_kill pid sig h = (Ok r, h') /\ pidfile h' = pidfile h /\ clock h' = clock h /\
    later h0 h' /\
    match r with
    | delivered => exists s, checked_signal port pid h0 (pid, sig, s) /\ sent h' = sent h ++ [(pid, sig, s)]
    | _ => sent h' = sent h /\ settled port pid h'
    end.
Proof.
  intros Hp Ho Hsig Hl. rewrite os_kill_run by done.
  assert (later h0 (ticked h)) as Hl1 by (by eapply later_ticked).
  destruct (procs (ticked h) !! pid) as [q|] eqn:Hq.
  - destruct (p_signalable q) eqn:Hs; eexists _, _; (split; [reflexivity|]);
      (split; [done|]); (split; [done|]); (split; [exact Hl1|]).
    + exists (Some q). split; [|by destruct sig].
      split; [done|]. destruct Hl as (k & Hc & Ht). exists k, q. simpl. rewrite <- Hc, <- Ht. done.
    + split; [done|]. intros q' Hq'. congruence.
  - eexists _, _. split; [reflexivity|]. do 2 (split; [done|]). split; [exact Hl1|]. split; [done|].
    intros q' Hq'. cbn in Hq', Hq. congruence.
Qed.

Lemma escalate_run port pid h0 h :
  0 < pid < 2 ^ 31 -> later h0 h ->
  exists h' l, _escalate_if_alive port pid h = (Ok tt, h') /\ pidfile h' = pidfile h /\
    sent h' = sent h ++ l /\
    (l = [] /\ settled port pid h' \/
     exists s, l = [(pid, SIGKILL, s)] /\ checked_signal port pid h0 (pid, SIGKILL, s) /\
       clock h + _TERM_GRACE <= clock h').
Proof.
  intros Hp Hl0. unfold _escalate_if_alive.
  rewrite (M_bind_ok (gets clock) _ h (clock h) h) by done.
  destruct (poll_run 50 port pid (clock h + _TERM_GRACE) h0 h) as (b & h1 & Hrun & Hs & Hf & Hl1 & Hn & Hd).
  { unfold _TERM_GRACE. lia. }
  { done. }
  change poll_fuel with 51%nat. rewrite (M_bind_ok _ _ _ _ _ Hrun).
  destruct b; cbn [negb].
  2:{ exists h1, []. rewrite app_nil_r. repeat split; try done. left. split; [done|].
      by apply settled_not_ours, Hn. }
  rewrite (M_bind_ok _ _ _ _ _ (pid_is_qemu_run port pid h1)).
  destruct (ours port (procs (ticked h1) !! pid)) eqn:Ho.
  2:{ exists (ticked h1), []. rewrite app_nil_r. repeat split; try done.
      left. split; [done|]. by apply settled_not_ours. }
  destruct (checked_kill port pid SIGKILL h0 (ticked h1)) as (r & h2 & Hk & Hpf & Hc & _ & Hr);
    [done..|by eapply later_ticked|].
  rewrite (M_bind_ok _ _ _ _ _ Hk).
  destruct r; [destruct Hr as (s & Hown & Hsent)|destruct Hr as [Hsent Hset]..].
  - exists h2, [(pid, SIGKILL, s)]. split_and!; [done|by rewrite Hpf|by rewrite Hsent, <- Hs|].
    right. exists s. split; [done|]. split; [done|]. rewrite Hc. by apply Hd.
  - exists h2, []. rewrite app_nil_r. split_and!; [done|by rewrite Hpf|by rewrite Hsent|by left].
  - exists h2, []. rewrite app_nil_r. split_and!; [done|by rewrite Hpf|by rewrite Hsent|by left].
Qed.

(** The outcomes of a termination, by the signals [l] it delivered between [h] and [h']. *)
Definition outcome port pid h h' (l : list (Z * signal * option proc)) : Prop :=
  Forall (checked_signal port pid h) l /\ (no_rebind -> Forall (own_signal port pid) l) /\
  (map (fun s => s.1.2) l = [] /\ settled port pid h' \/
   map (fun s => s.1.2) l = [SIGTERM] /\ settled port pid h' \/
   map (fun s => s.1.2) l = [SIGTERM; SIGKILL] /\ clock h + _TERM_GRACE <= clock h').

Lemma outcome_intro port pid h h' l : Forall (checked_signal port pid h) l ->
  (map (fun s => s.1.2) l = [] /\ settled port pid h' \/
   map (fun s => s.1.2) l = [SIGTERM] /\ settled port pid h' \/
   map (fun s => s.1.2) l = [SIGTERM; SIGKILL] /\ clock h + _TERM_GRACE <= clock h') ->
  outcome port pid h h' l.
Proof.
  intros Hl H. split; [done|]. split; [|done]. intros Hn. eapply Forall_impl; [exact Hl|].
  intros s. by apply checked_own.
Qed.

Lemma signal_recorded_run port (recorded : option Z) h :
  exists b h' l, signal_recorded port recorded h = (Ok b, h') /\ sent h' = sent h ++ l /\
    (b = true <-> l <> []) /\ (recorded = None -> l = []) /\
    forall p, recorded = Some p -> outcome port p h h' l.
Proof.
  destruct recorded as [pid|]; cbn [signal_recorded].
  2:{ eexists _, _, []. rewrite app_nil_r. repeat split; done. }
  rewrite (M_bind_ok _ _ _ _ _ (pid_is_qemu_run port pid h)).
  destruct (ours port (procs (ticked h) !! pid)) eqn:Ho.
  2:{ eexists _, _, []. rewrite app_nil_r. do 4 (split; [done|]).
      intros ? [= <-]. apply outcome_intro; [done|]. left. split; [done|]. by apply settled_not_ours. }
  assert (0 < pid < 2 ^ 31) as Hp.
  { unfold ours in Ho. case_match eqn:Hq; [|done]. by eapply ticked_positive. }
  assert (later h (ticked h)) as Hlt by (by eapply later_ticked; [apply later_refl|..]).
  destruct (checked_kill port pid SIGTERM h (ticked h)) as (r & h1 & Hk & Hpf & Hc & Hl1 & Hr); try done.
  rewrite (M_bind_ok _ _ _ _ _ Hk).
  destruct r; [destruct Hr as (s & Hown & Hsent)|destruct Hr as [Hsent Hset]..].
  - destruct (escalate_run port pid h h1 Hp Hl1) as (h2 & l & He & Hpf2 & Hs2 & Hl).
    rewrite (M_bind_ok _ _ _ _ _ He).
    eexists _, _, ((pid, SIGTERM, s) :: l). split; [reflexivity|].
    split; [rewrite Hs2, Hsent; cbn; by rewrite <- app_assoc|]. split; [done|]. split; [done|].
    intros ? [= <-]. destruct Hl as [[-> Hset]|(s' & -> & Hown' & Hclk)].
    + apply outcome_intro; [by apply Forall_singleton|]. right. left. done.
    + apply outcome_intro; [by apply Forall_cons, conj, Forall_singleton|].
      right. right. split; [done|]. rewrite Hc in Hclk. exact Hclk.
  - eexists _, _, []. rewrite app_nil_r. do 4 (split; [done|]).
    intros ? [= <-]. apply outcome_intro; [done|]. by left.
  - eexists _, _, []. rewrite app_nil_r. do 4 (split; [done|]).
    intros ? [= <-]. apply outcome_intro; [done|]. by left.
Qed.

Lemma terminate_run port h :
  exists b h' l, terminate port h = (Ok b, h') /\ pidfile h' = None /\ sent h' = sent h ++ l /\
    (b = true <-> l <> []) /\ (read_pid h = None -> l = []) /\
    forall pid, read_pid h = Some pid -> outcome port pid h h' l.
Proof.
  unfold terminate. rewrite (M_bind_ok (gets read_pid) _ h (read_pid h) h) by done.
  destruct (signal_recorded_run port (read_pid h) h) as (b & h1 & l & Hrun & Hs & Hb & Hn & Ho).
  rewrite (M_bind_ok _ _ _ _ _ Hrun). exists b, (set_pidfile None h1), l. auto 7.
Qed.

(** C16. [terminate] always returns, within the grace window, whatever other processes do
    meanwhile.  It sends at most one SIGTERM and then at most one SIGKILL, the latter not
    before the grace window is over, and only to the recorded PID; each right after a
    system call at which the process of that PID passed the identity check — with the
    port, the check of this instance's QEMU; without it, that of any QEMU.  Whoever holds
    the PID at the next call gets the signal: that is the process that was checked unless
    the PID is freed and given away between the two calls.  Afterwards the pidfile is gone,
    and either SIGKILL was delivered or no signallable process that passes the check holds
    the PID; without a recorded PID nothing is signalled. *)
Theorem terminate_spec port h :
  exists b h' l, terminate port h = (Ok b, h') /\ pidfile h' = None /\ sent h' = sent h ++ l /\
    (b = true <-> l <> []) /\ (read_pid h = None -> l = []) /\
    forall pid, read_pid h = Some pid -> outcome port pid h h' l.
Proof. exact (terminate_run port h). Qed.
End runs.

(** ** Starting, observing, losing the process *)

Lemma py_int_str z : 0 <= z < 2 ^ 31 -> py_int (str_of_Z z) = Some z.
Proof.
  intros Hz. assert (all_chars is_digit (str_of_Z z) = true) as Hd by (apply str_of_Z_digits; lia).
  unfold py_int. rewrite strip_none.
  2:{ revert Hd. apply all_chars_impl. intros c. unfold is_digit, in_range, is_space.
      rewrite andb_true_iff, !Nat.leb_le, negb_true_iff, orb_false_iff, !andb_false_iff,
        !Nat.leb_gt. change (code "0") with 48%nat. change (code "9") with 57%nat. lia. }
  assert (digits_with_underscores (str_of_Z z) = Some z) as Hw.
  { unfold digits_with_underscores. rewrite split_on_free by (apply str_of_Z_free; [lia|done]).
    cbn [forallb join]. rewrite andb_true_r.
    assert (plus_full is_digit (str_of_Z z) = true) as ->.
    { apply plus_full_spec. split; [apply str_of_Z_nonempty; lia|done]. }
    assert (String.length (str_of_Z z) <= 32)%nat as Hl.
    { destruct z as [|p|p]; [vm_compute; lia| |lia].
      pose proof (str_of_Z_length p) as Hl.
      assert (p < 2 ^ 31)%positive as Hp by lia.
      apply Pos.size_nat_monotone in Hp. change (Pos.size_nat (2 ^ 31)) with 32%nat in Hp. lia. }
    rewrite (proj2 (Nat.leb_le _ _)); [apply Z_of_digits_str; lia|].
    eapply Nat.le_trans; [exact Hl|]. apply Nat.leb_le. vm_compute. reflexivity. }
  destruct (str_of_Z z) as [|c r] eqn:Hs; [done|].
  unfold all_chars in Hd. change (chars (String c r)) with (c :: chars r) in Hd.
  cbn [forallb] in Hd. apply andb_true_iff in Hd as [Hc _].
  destruct (ascii_dec c "-") as [->|]; [done|]. by destruct (ascii_dec c "+") as [->|].
Qed.

Section observe.
Context {os : OS} (laws : OSLaws os).
Implicit Types (h : host) (port : option Z) (pid : Z).

Lemma is_running_run port h :
  is_running port h =
    match read_pid h with
    | None => (Ok false, h)
    | Some pid =>
        match os_kill pid SIG0 h with
        | (Ok ESRCH, h1) => (Ok false, h1)
        | (Ok _, h1) => (Ok (ours port (procs (ticked h1) !! pid)), ticked h1)
        | (Err e, h1) => (Err e, h1)
        end
    end.
Proof.
  unfold is_running. rewrite (M_bind_ok (gets read_pid) _ h (read_pid h) h) by done.
  destruct (read_pid h) as [pid|]; [|done]. unfold mbind at 1, M_bind at 1.
  destruct (os_kill pid SIG0 h) as [[[]|e] h1]; try done; apply pid_is_qemu_run.
Qed.

(** A started process that is still in the table at the next two system calls. *)
Definition survives pid p h : Prop :=
  procs (ticked h) !! pid = Some p /\ procs (ticked (ticked h)) !! pid = Some p.

Lemma is_running_survivor port h pid p :
  read_pid h = Some pid -> survives pid p h ->
  exists h', is_running port h = (Ok (cmdline_is_qemu port (cmdline (p_argv p))), h') /\
    pidfile h' = pidfile h /\ procs h' = procs (ticked (ticked h)) /\ sent h' = sent h.
Proof.
  intros Hpid [H1 H2]. rewrite is_running_run, Hpid.
  rewrite os_kill_run by (by eapply (ticked_positive laws)). rewrite H1.
  destruct (p_signalable p); (eexists; split; [f_equal; f_equal|done]);
    cbn [log_signal procs ticked] in *; change (procs (ticked (ticked h)) !! pid = Some p) in H2;
    cbn [ticked procs calls] in H2; unfold ticked, log_signal; cbn [procs calls]; by rewrite H2.
Qed.

Lemma start_ok_inv port argv h pid h' :
  start port argv h = (Ok pid, h') ->
  exists h0, is_running port h = (Ok false, h0) /\ 0 < pid < 2 ^ 31 /\
    procs (ticked h0) !! pid = None /\
    h' = set_pidfile (Some (str_of_Z pid)) (add_proc pid argv (ticked (truncate_console h0))).
Proof.
  unfold start. intros H. apply M_bind_inv in H as [(b & h0 & Hr & H)|(e & _ & [=])].
  destruct b; [by unfold raise, mbind, M_bind, gets in H|].
  exists h0. split; [done|].
  unfold tick, modify, gets, mbind, M_bind, mret, M_ret in H.
  change (env (calls (truncate_console h0)) (procs (truncate_console h0)))
    with (procs (ticked h0)) in H.
  cbn [calls procs truncate_console] in H.
  destruct (spawn_pid _ _ argv) as [p|] eqn:Hs; [|done].
  injection H as <- <-. apply (spawn_free (OSLaws := laws)) in Hs as [Hf Hp]. auto.
Qed.

(** What a successful [start] leaves behind: it found no running VM, the pidfile
    names a fresh PID that runs exactly the given command line, the console log is
    fresh and nobody was signalled; and a later command sees the VM as running, and
    refuses to start a second one, as long as the process lives and its command
    line passes the identity check. *)
Theorem start_spec port argv h pid h' :
  start port argv h = (Ok pid, h') ->
  (exists h0, is_running port h = (Ok false, h0) /\ procs (ticked h0) !! pid = None) /\
  read_pid h' = Some pid /\ procs h' !! pid = Some (mkProc argv true) /\
  console_log h' = Some "" /\
  (survives pid (mkProc argv true) h' -> cmdline_is_qemu port (cmdline argv) = true ->
   exists h1, is_running port h' = (Ok true, h1) /\
     forall argv2, fst (start port argv2 h') = Err (AlreadyRunning (Some pid))).
Proof.
  intros (h0 & Hr & Hp & Hf & Hh)%start_ok_inv.
  assert (read_pid h' = Some pid) as Hpid.
  { rewrite Hh. apply py_int_str. lia. }
  split; [eauto|]. split; [done|]. split; [rewrite Hh; cbn; by rewrite lookup_insert_eq|].
  split; [by rewrite Hh|]. intros Hs Hq.
  destruct (is_running_survivor port h' pid _ Hpid Hs) as (h1 & Hrun & Hpf & _).
  cbn [p_argv] in Hrun. rewrite Hq in Hrun. exists h1. split; [done|]. intros argv2.
  unfold start. rewrite (M_bind_ok _ _ _ _ _ Hrun). unfold mbind, M_bind, gets, raise, read_pid.
  cbn [fst]. by rewrite Hpf, <- Hpid.
Qed.

(** A QEMU whose command line nowhere says [qemu-system] — another binary chosen
    with [BEETROOT_QEMU_BIN], such as [/usr/libexec/qemu-kvm] — is lost as soon as it
    is started: no command sees it as running, and [terminate] reports nothing to
    do, signals nobody and deletes the only record of its PID. *)
Theorem renamed_binary_is_orphaned port argv h pid h' :
  start port argv h = (Ok pid, h') -> survives pid (mkProc argv true) h' ->
  contains "qemu-system" (cmdline argv) = false ->
  (exists h1, is_running port h' = (Ok false, h1)) /\
  (exists h2, terminate port h' = (Ok false, h2) /\ sent h2 = sent h' /\ pidfile h2 = None /\
     procs h2 !! pid = Some (mkProc argv true)).
Proof.
  intros Hstart Hs Hq. pose proof Hstart as (h0 & _ & Hp & _ & Hh)%start_ok_inv.
  assert (read_pid h' = Some pid) as Hpid by (rewrite Hh; apply py_int_str; lia).
  assert (cmdline_is_qemu port (cmdline argv) = false) as Hid.
  { unfold cmdline_is_qemu. rewrite Hq. by destruct port. }
  split.
  - destruct (is_running_survivor port h' pid _ Hpid Hs) as (h1 & Hrun & _).
    cbn [p_argv] in Hrun. rewrite Hid in Hrun. eauto.
  - unfold terminate. rewrite (M_bind_ok (gets read_pid) _ h' (read_pid h') h') by done.
    rewrite Hpid. cbn [signal_recorded].
    destruct Hs as [H1 _]. unfold mbind, M_bind. rewrite pid_is_qemu_run, H1.
    cbn [ours p_argv]. rewrite Hid. eexists. split; [reflexivity|]. auto.
Qed.

(** A pidfile holding an integer that is no PID is not treated as no process:
    every observation raises [OverflowError], so the VM cannot be started again
    before [terminate] has removed the file, which it does without a signal. *)
Theorem oversized_pid_raises port argv h pid :
  read_pid h = Some pid -> 2 ^ 31 <= pid ->
  is_running port h = (Err (PidOverflow pid), h) /\
  start port argv h = (Err (PidOverflow pid), h) /\
  exists h', terminate port h = (Ok false, h') /\ sent h' = sent h /\ pidfile h' = None.
Proof.
  intros Hpid Hbig.
  assert (is_running port h = (Err (PidOverflow pid), h)) as Hr.
  { rewrite is_running_run, Hpid. unfold os_kill. by rewrite decide_False by lia. }
  split; [done|]. split; [unfold start; by rewrite (M_bind_err _ _ _ _ _ Hr)|].
  unfold terminate. rewrite (M_bind_ok (gets read_pid) _ h (read_pid h) h) by done.
  rewrite Hpid. cbn [signal_recorded]. unfold mbind, M_bind. rewrite pid_is_qemu_run.
  destruct (procs (ticked h) !! pid) eqn:Hp; [apply (ticked_positive laws) in Hp; lia|].
  eexists. split; [reflexivity|]. auto.
Qed.
End observe.

(** ** Resolution *)

(** An explicit [kvm] is honoured or refused, never replaced by emulation: KVM is
    chosen exactly when it was not ruled out by the request, the host is of the
    guest's architecture and the device is usable; emulation exactly when it was
    asked for or [auto] had no usable KVM; an error only for an explicit [kvm]. *)
Theorem detect_accel_spec machine usable requested :
  let can_kvm := host_is_guest_arch machine && usable in
  (detect_accel machine usable requested = Ok kvm <-> requested <> accel_tcg /\ can_kvm = true) /\
  (detect_accel machine usable requested = Ok tcg <->
   requested = accel_tcg \/ requested = accel_auto /\ can_kvm = false) /\
  (is_ok (detect_accel machine usable requested) = false <->
   requested = accel_kvm /\ can_kvm = false).
Proof.
  unfold detect_accel. destruct requested, (host_is_guest_arch machine), usable; simpl; naive_solver.
Qed.

(** A processor of [/proc/cpuinfo]: its fields, one line each, then a blank line. *)
Notation block := (list (string * string)).
Definition field_line (f : string * string) : string := f.1 +:+ String ":" f.2.
Definition block_lines (b : block) : list string := map field_line b ++ [""].
Definition render_cpuinfo (bs : list block) : string :=
  join (String newline "") (concat (map block_lines bs)) +:+ String newline "".

Definition last_field (key : string) (acc : option string) (b : block) : option string :=
  fold_left (fun acc '(k, v) => if String.eqb (strip k) key then Some (strip v) else acc) b acc.

Definition block_core (b : block) : option (string * string) :=
  p ← last_field "physical id" None b; c ← last_field "core id" None b; Some (p, c).

Definition block_ok (b : block) : Prop :=
  Forall (fun f => ":"%char ∉ chars f.1 /\ newline ∉ chars f.1 /\ newline ∉ chars f.2) b.

Lemma partition_sep c s t : c ∉ chars s -> partition_on c (s +:+ String c t) = (s, Some t).
Proof.
  induction s as [|d s IH]; intros H.
  - rewrite app_empty_str. simpl. by destruct (ascii_dec c c).
  - rewrite app_cons_str. cbn in H |- *. destruct (ascii_dec d c) as [->|]; [set_solver|].
    by rewrite IH by set_solver.
Qed.

Lemma scan_fields b p c cores :
  block_ok b ->
  fold_left scan_line (map field_line b) (mkCoreScan p c cores)
  = mkCoreScan (last_field "physical id" p b) (last_field "core id" c b) cores.
Proof.
  intros Hb. revert p c. induction Hb as [|[k v] b (Hk & _) _ IH]; intros p c; [done|].
  assert (scan_line (mkCoreScan p c cores) (field_line (k, v))
    = mkCoreScan (if String.eqb (strip k) "physical id" then Some (strip v) else p)
        (if String.eqb (strip k) "core id" then Some (strip v) else c) cores) as Hs.
  { unfold scan_line, field_line. rewrite partition_sep by done. cbn [fst snd].
    destruct (String.eqb_spec (strip k) "physical id") as [->|]; [done|].
    by destruct (String.eqb_spec (strip k) "core id"). }
  cbn [map fold_left]. by rewrite Hs, IH.
Qed.

Lemma scan_block b cores : block_ok b ->
  fold_left scan_line (block_lines b) (mkCoreScan None None cores)
  = mkCoreScan None None (cores ∪ list_to_set (omap block_core [b])).
Proof.
  intros Hb. unfold block_lines. rewrite fold_left_app, scan_fields by done.
  cbn [fold_left]. unfold scan_line, record_core, block_core. cbn [partition_on omap list_omap].
  destruct (last_field "physical id" None b) as [p|]; cbn; [|f_equal; set_solver].
  destruct (last_field "core id" None b) as [c|]; cbn; f_equal; set_solver.
Qed.

Lemma scan_blocks bs cores : Forall block_ok bs ->
  fold_left scan_line (concat (map block_lines bs)) (mkCoreScan None None cores)
  = mkCoreScan None None (cores ∪ list_to_set (omap block_core bs)).
Proof.
  intros Hbs. revert cores. induction Hbs as [|b bs Hb _ IH]; intros cores.
  - cbn. f_equal. set_solver.
  - cbn [map concat]. rewrite fold_left_app, scan_block, IH by done. f_equal.
    change (b :: bs) with ([b] ++ bs). rewrite omap_app, list_to_set_app_L. set_solver.
Qed.

Lemma splitlines_lines l :
  l <> [] -> Forall (fun w => newline ∉ chars w) l ->
  splitlines (join (String newline "") l +:+ String newline "") = l.
Proof.
  intros Hne Hl. unfold splitlines.
  assert (split_on newline (join (String newline "") l +:+ String newline "") = l ++ [""]) as ->.
  { induction Hl as [|w l Hw Hl IH]; [done|]. destruct l as [|w' l].
    - cbn [join]. by rewrite split_on_app.
    - change (join (String newline "") (w :: w' :: l))
        with (w +:+ String newline (join (String newline "") (w' :: l))).
      rewrite app_assoc_str, app_cons_str, split_on_app by done. by rewrite IH by done. }
  rewrite rev_app_distr. cbn. by rewrite rev_involutive.
Qed.

(** [vm.smp: auto] is the number of distinct physical cores the kernel lists
    (hyper-threads of one core counted once), capped by the CPUs this process may
    use, and at least one; without topology fields it is the CPU count. *)
Theorem auto_smp_counts_cores affinity cpu_count bs :
  bs <> [] -> Forall block_ok bs ->
  let cores := size (list_to_set (omap block_core bs) : gset (string * string)) in
  let logical := _affinity_cpu_count affinity cpu_count in
  1 <= logical /\
  resolve_smp affinity cpu_count (Some (render_cpuinfo bs)) smp_auto
  = if decide (cores = O) then logical else Z.min (Z.of_nat cores) logical.
Proof.
  intros Hne Hbs cores logical.
  assert (1 <= logical) as Hl by (unfold logical, _affinity_cpu_count; destruct affinity; lia).
  split; [done|]. unfold resolve_smp, host_physical_cores, _cpuinfo_physical_cores.
  fold logical. unfold render_cpuinfo. cbn [mbind option_bind].
  rewrite splitlines_lines.
  - rewrite scan_blocks by done. cbn [record_core scan_phys scan_core scan_cores].
    rewrite union_empty_l_L. fold cores. destruct cores eqn:Hc.
    + rewrite decide_True by done. lia.
    + rewrite decide_False by done. lia.
  - destruct bs as [|[|f b] bs]; done.
  - clear -Hbs. induction Hbs as [|b bs Hb _ IH]; cbn [map concat]; [constructor|].
    apply Forall_app. split; [|done]. apply Forall_app. split; [|repeat constructor; by_chars].
    apply Forall_map. eapply Forall_impl; [exact Hb|]. intros [k v] (_ & Hk & Hv).
    unfold field_line. cbn in Hk, Hv |- *.
    change (newline ∉ chars (k +:+ (":" +:+ v))). rewrite !chars_app, !not_elem_of_app.
    split; [done|]. split; [by_chars|done].
Qed.

(** ** Concrete runs *)

(** The recorded processes live through the first [lifetime] system calls. *)
Definition sample_os (lifetime : nat) : OS := {|
  env n t := if (n <? lifetime)%nat then filter (fun '(pid, _) => 0 < pid < 2 ^ 31) t else ∅;
  oversleep _ := 0;
  spawn_pid _ t _ := if decide (t !! 4242 = None) then Some 4242 else None;
  group_kill _ := Some true |}.

Lemma sample_laws lifetime : OSLaws (sample_os lifetime).
Proof.
  split.
  - intros n t pid p. unfold env, sample_os. destruct (n <? lifetime)%nat; [|by rewrite lookup_empty].
    rewrite map_lookup_filter_Some. by intros [_ ?].
  - done.
  - intros n t argv pid. cbn. case_decide; [|done]. intros [= <-]. split; [done|lia].
Qed.

Definition sample_argv (binary : string) (port : Z) : list string :=
  build_qemu_argv binary tcg "/k/bzImage" "/k/rootfs.img" 4 8192 port raw None None None.
Definition sample_host : host := mkHost ∅ None None 0 0 [].
Definition running_host : host :=
  mkHost {[ 77 := mkProc (sample_argv "qemu-system-x86_64" 5555) true ]} (Some "77") None 0 0 [].

Lemma launch_identity_witness :
  cmdline_is_qemu (Some 5555) (cmdline (sample_argv "qemu-system-x86_64" 5555)) = true /\
  cmdline_is_qemu (Some 555) (cmdline (sample_argv "qemu-system-x86_64" 5555)) = false.
Proof.
  split; unfold sample_argv; (rewrite launch_identity; [by vm_compute|by repeat constructor|lia..]).
Defined.

(** A guest that ignores SIGTERM is killed; one that exits meanwhile is not. *)
Lemma terminate_spec_witness :
  (exists b h' l, terminate (os := sample_os 1000) (Some 5555) running_host = (Ok b, h') /\
     sent h' = l /\ outcome (os := sample_os 1000) (Some 5555) 77 running_host h' l) /\
  map (fun s => s.1.2) (sent (snd (terminate (os := sample_os 1000) (Some 5555) running_host)))
    = [SIGTERM; SIGKILL] /\
  map (fun s => s.1.2) (sent (snd (terminate (os := sample_os 20) (Some 5555) running_host)))
    = [SIGTERM] /\
  map (fun s => s.1.2) (sent (snd (terminate (os := sample_os 1000) (Some 5565) running_host)))
    = [].
Proof.
  split; [|by vm_compute].
  destruct (terminate_spec (sample_laws 1000) (Some 5555) running_host)
    as (b & h' & l & Hrun & _ & Hs & _ & _ & Ho).
  exists b, h', l. split; [exact Hrun|]. split; [exact Hs|]. apply Ho. by vm_compute.
Defined.

(** Between the identity check and the SIGTERM the VM exits and its PID goes to another
    program of the user. *)
Definition sshd : proc := mkProc ["sshd"] true.
Definition reusing_os : OS := {|
  env n t := if decide (n = 1%nat) then {[ 77 := sshd ]} else filter (fun '(pid, _) => 0 < pid < 2 ^ 31) t;
  oversleep _ := 0;
  spawn_pid _ t _ := None;
  group_kill _ := Some true |}.

Lemma reusing_laws : OSLaws reusing_os.
Proof.
  split; [|done..].
  intros n t pid p. unfold env, reusing_os. case_decide.
  - intros [<- _]%lookup_singleton_Some. lia.
  - rewrite map_lookup_filter_Some. by intros [_ ?].
Qed.

(** The identity check does not keep a signal from a process that reused the PID: the
    check and the kill are two system calls. *)
Theorem reused_pid_is_signalled :
  OSLaws reusing_os /\ cmdline_is_qemu (Some 5555) (cmdline (p_argv sshd)) = false /\
  sent (snd (terminate (os := reusing_os) (Some 5555) running_host)) = [(77, SIGTERM, Some sshd)].
Proof. split; [exact reusing_laws|]. by vm_compute. Qed.

(** Without a port the VM of another instance passes the check: a stale pidfile of an
    orphan whose PID went to a neighbour's VM takes that one down. *)
Theorem orphan_teardown_kills_neighbour :
  let neighbour := mkProc (sample_argv "qemu-system-x86_64" 5565) true in
  let h := mkHost {[ 77 := neighbour ]} (Some "77") None 0 0 [] in
  cmdline_is_qemu (Some 5555) (cmdline (p_argv neighbour)) = false /\
  sent (snd (terminate (os := sample_os 20) None h)) = [(77, SIGTERM, Some neighbour)] /\
  sent (snd (terminate (os := sample_os 20) (Some 5555) h)) = [].
Proof. by vm_compute. Qed.

Definition started (binary : string) : host :=
  snd (start (os := sample_os 1000) (Some 5555) (sample_argv binary 5555) sample_host).

Lemma started_ok binary :
  start (os := sample_os 1000) (Some 5555) (sample_argv binary 5555) sample_host
  = (Ok 4242, started binary).
Proof. reflexivity. Qed.

Lemma started_survives binary :
  survives (os := sample_os 1000) 4242 (mkProc (sample_argv binary 5555) true) (started binary).
Proof. split; reflexivity. Qed.

Lemma start_spec_witness :
  read_pid (started "qemu-system-x86_64") = Some 4242 /\
  fst (is_running (os := sample_os 1000) (Some 5555) (started "qemu-system-x86_64")) = Ok true.
Proof.
  destruct (start_spec (sample_laws 1000) _ _ _ _ _ (started_ok "qemu-system-x86_64"))
    as (_ & Hpid & _ & _ & Hrun).
  split; [exact Hpid|].
  destruct (Hrun (started_survives _)) as (h1 & H & _); [by vm_compute|by rewrite H].
Defined.

Lemma renamed_binary_is_orphaned_witness :
  fst (is_running (os := sample_os 1000) (Some 5555) (started "/usr/libexec/qemu-kvm")) = Ok false /\
  fst (terminate (os := sample_os 1000) (Some 5555) (started "/usr/libexec/qemu-kvm")) = Ok false.
Proof.
  destruct (renamed_binary_is_orphaned (sample_laws 1000) _ _ _ _ _
    (started_ok "/usr/libexec/qemu-kvm") (started_survives _)) as ((h1 & H1) & (h2 & H2 & _));
    [by vm_compute|]. by rewrite H1, H2.
Defined.

Lemma oversized_pid_raises_witness :
  is_running (os := sample_os 10) None (set_pidfile (Some "99999999999") sample_host)
  = (Err (PidOverflow 99999999999), set_pidfile (Some "99999999999") sample_host).
Proof.
  apply (oversized_pid_raises (sample_laws 10) None [] _ 99999999999); [by vm_compute|lia].
Defined.

(** Four hyper-threads on two cores. *)
Definition sample_cpuinfo : list block :=
  [[("processor	", " 0"); ("physical id	", " 0"); ("core id		", " 0")];
   [("processor	", " 1"); ("physical id	", " 0"); ("core id		", " 1")];
   [("processor	", " 2"); ("physical id	", " 0"); ("core id		", " 0")];
   [("processor	", " 3"); ("physical id	", " 0"); ("core id		", " 1")]].

Lemma auto_smp_counts_cores_witness :
  resolve_smp (Some [0; 1; 2; 3]) None (Some (render_cpuinfo sample_cpuinfo)) smp_auto = 2.
Proof.
  destruct (auto_smp_counts_cores (Some [0; 1; 2; 3]) None sample_cpuinfo) as [_ H]; [done| |].
  - repeat (apply Forall_cons; split); try apply Forall_nil_2;
      repeat (apply Forall_cons; split); try apply Forall_nil_2; repeat split; by_chars.
  - rewrite H. by vm_compute.
Defined.
