(* ===== verification/BootCache.v ===== *)
(** * Warm-start checkpoints of the micro-VM ([vm/boot_cache.py])

    The overlay's identity digest and its sidecar, the memoized file hash, the
    overlay disk itself (a backing file and the snapshots written into it), and the
    monitor conversation that takes a snapshot.

    SHA-256 and the external programs ([qemu-img], QEMU's monitor) are parameters.
    A snapshot carries, as a ghost, the digest input of the launch it was taken of. *)
From stdpp Require Import base list strings gmap.
From Stdlib Require Import ZArith Lia Ascii.
From S2P Require Import Prelude PyStr Config Ports Qemu.
Local Open Scope stdpp_scope.
Local Open Scope Z_scope.

Definition SNAPSHOT_TAG : string := "beetroot-boot".
Definition _OVERLAY_NAME : string := "vm-overlay.qcow2".
Definition _MONITOR_NAME : string := "qemu-monitor.sock".
Definition _OVERLAY_KEY_NAME : string := "vm-overlay.cache-key".
Definition _IDENTITY_HEX_LEN : nat := 16.

Definition in_dir (dir name : string) : string := dir +:+ "/" +:+ name.
Definition overlay_path (dir : string) : string := in_dir dir _OVERLAY_NAME.
Definition monitor_path (dir : string) : string := in_dir dir _MONITOR_NAME.
Definition overlay_key_path (dir : string) : string := in_dir dir _OVERLAY_KEY_NAME.

(** [Path.name]. *)
Definition basename (path : string) : string := default "" (last (split_on "/" path)).

(** ** The digest input *)

Definition nul_terminated (l : list string) : string :=
  fold_right (fun a rest => a +:+ String nul rest) "" l.

Definition accel_name (a : ResolvedAccel) : string :=
  match a with kvm => "kvm" | tcg => "tcg" end.

(** Everything an identity speaks of: each file's name and content digest, in the
    order they are folded in, the geometry and the accelerator. *)
Record inputs := mkInputs {
  i_files : list (string * string); i_smp : Z; i_mem : Z; i_accel : ResolvedAccel }.

Definition preimage (i : inputs) : string :=
  nul_terminated (concat (map (fun '(n, d) => [n; d]) (i_files i)) ++
    [str_of_Z (i_smp i); str_of_Z (i_mem i); accel_name (i_accel i)]).

(** Tuple order on (name, digest): [sorted] is stable. *)
Definition tuple_lt (a b : string * string) : bool :=
  String.ltb a.1 b.1 || (String.eqb a.1 b.1 && String.ltb a.2 b.2).

Definition sort_two (a b : string * string) : list (string * string) :=
  if tuple_lt b a then [b; a] else [a; b].

(** ** State *)

Record file := mkFile { f_bytes : string; f_mtime : Z }.
Definition f_size (f : file) : Z := Z.of_nat (String.length (f_bytes f)).

(** A qcow2 overlay: the raw image behind it and the internal snapshots, each with
    its tag and the digest input of the machine it was taken of. *)
Record disk := mkDisk { d_backing : string; d_snaps : list (string * string) }.

Inductive vm_note : Type :=
| StaleCheckpoint | ResumingSnapshot | DataRevert | ColdBooting | WarmResumeFailed
| NotBooted | Cached | CheckpointFailed | RootfsVersionSkew (baked configured : Z).

(** A launch through the overlay: the snapshot it resumes, the overlay it found, and
    the digest input of what it boots. *)
Record launch_record := mkLaunch {
  l_loadvm : option string; l_overlay : option disk; l_preimage : string }.

(** One instance's directory, the host, the process-wide hash memo, and — a ghost —
    the history of launches through the overlay. *)
Record vmw := mkVmw {
  vm_host : host;
  fs : gmap string file;
  hash_cache : gmap (string * Z * Z) string;
  overlay : option disk;
  overlay_key : option string;
  monitor_socket : bool;
  warm_fail_console : option string;
  vm_notes : list vm_note;
  launches : list launch_record }.

Inductive vm_error : Type :=
| QemuErr (e : qemu_error)
| ArtifactUnset (label : string)          (* QemuLaunchError *)
| ArtifactMissing (label : string)        (* QemuLaunchError *)
| ImgMissing                              (* QemuLaunchError *)
| ImgFailed (code : Z)                    (* QemuLaunchError *)
| VmExited                                (* QemuLaunchError *)
| AdbTimeout (budget : Z)                 (* QemuLaunchError *)
| FileNotFound (path : string)            (* FileNotFoundError *)
| AdbNotInstalled
| OutOfSync
| NoAdbPort                               (* KeyError *)
| PortErr (e : port_error)
| VmOutOfFuel.

Definition set_host (h : host) (w : vmw) : vmw :=
  mkVmw h (fs w) (hash_cache w) (overlay w) (overlay_key w) (monitor_socket w)
    (warm_fail_console w) (vm_notes w) (launches w).
Definition set_fs f (w : vmw) : vmw :=
  mkVmw (vm_host w) f (hash_cache w) (overlay w) (overlay_key w) (monitor_socket w)
    (warm_fail_console w) (vm_notes w) (launches w).
Definition set_hash_cache c (w : vmw) : vmw :=
  mkVmw (vm_host w) (fs w) c (overlay w) (overlay_key w) (monitor_socket w)
    (warm_fail_console w) (vm_notes w) (launches w).
Definition set_overlay o (w : vmw) : vmw :=
  mkVmw (vm_host w) (fs w) (hash_cache w) o (overlay_key w) (monitor_socket w)
    (warm_fail_console w) (vm_notes w) (launches w).
Definition set_overlay_key k (w : vmw) : vmw :=
  mkVmw (vm_host w) (fs w) (hash_cache w) (overlay w) k (monitor_socket w)
    (warm_fail_console w) (vm_notes w) (launches w).
Definition set_monitor b (w : vmw) : vmw :=
  mkVmw (vm_host w) (fs w) (hash_cache w) (overlay w) (overlay_key w) b
    (warm_fail_console w) (vm_notes w) (launches w).
Definition set_warm_fail c (w : vmw) : vmw :=
  mkVmw (vm_host w) (fs w) (hash_cache w) (overlay w) (overlay_key w) (monitor_socket w)
    c (vm_notes w) (launches w).
Definition add_note n (w : vmw) : vmw :=
  mkVmw (vm_host w) (fs w) (hash_cache w) (overlay w) (overlay_key w) (monitor_socket w)
    (warm_fail_console w) (vm_notes w ++ [n]) (launches w).

Definition log_launch l (w : vmw) : vmw :=
  mkVmw (vm_host w) (fs w) (hash_cache w) (overlay w) (overlay_key w) (monitor_socket w)
    (warm_fail_console w) (vm_notes w) (launches w ++ [l]).

Abbreviation VM := (M vmw vm_error).

(** [str.split()]: the runs of characters between whitespace. *)
Fixpoint split_by (p : ascii -> bool) (s : string) : list string :=
  match s with
  | EmptyString => [EmptyString]
  | String d s' =>
      if p d then EmptyString :: split_by p s'
      else match split_by p s' with
           | w :: ws => String d w :: ws
           | [] => [String d EmptyString]
           end
  end.
Definition split_ws (s : string) : list string := filter (fun w => w <> "") (split_by is_space s).

(** [any(tag in line.split() for line in stdout.splitlines())]. *)
Definition listed (tag stdout : string) : bool :=
  existsb (fun line => bool_decide (tag ∈ split_ws line)) (splitlines stdout).

(** The answers of the external programs, by the number of system calls so far. *)
Inductive img_result : Type := img_ok | img_missing | img_failed (code : Z).

(** What the monitor socket delivers before it reports EOF: a chunk of bytes, or
    [None] where the receive fails (reset, timeout).  [s_saved]: QEMU completed the
    snapshot the command asked for. *)
Abbreviation chunks := (list (option string)).
Record session := mkSession {
  s_banner : chunks; s_send_ok : bool; s_reply : chunks; s_saved : bool }.

Class Tools := {
  sha256 : string -> string;
  img_create : nat -> img_result;
  img_list : nat -> disk -> option string;
  monitor_session : nat -> option session }.

(** Documented behaviour: [hexdigest] is 64 hexadecimal digits, and [qemu-img
    snapshot -l] lists no snapshot the image does not hold. *)
Class ToolsLaws (T : Tools) : Prop := {
  sha256_hex s : all_chars is_hex (sha256 s) = true /\ String.length (sha256 s) = 64%nat;
  img_list_sound n d out : img_list n d = Some out ->
    listed SNAPSHOT_TAG out = true -> SNAPSHOT_TAG ∈ (d_snaps d).*1 }.

(** ** The monitor conversation *)

(** The whitespace [bytes.rstrip] removes. *)
Definition is_bspace (c : ascii) : bool :=
  let n := code c in ((9 <=? n)%nat && (n <=? 13)%nat) || (n =? 32)%nat.

Fixpoint drop_bspace (l : list ascii) : list ascii :=
  match l with
  | c :: l' => if is_bspace c then drop_bspace l' else l
  | [] => []
  end.

Definition _HMP_PROMPT : string := "(qemu)".

(** [buf.rstrip().endswith(_HMP_PROMPT)], read from the end. *)
Definition at_prompt (buf : string) : bool :=
  String.prefix (of_chars (rev (chars _HMP_PROMPT)))
    (of_chars (drop_bspace (rev (chars buf)))).

(** The buffer ([None]: a receive failed) and what the socket still holds. *)
Fixpoint _read_to_prompt (buf : string) (l : chunks) : option string * chunks :=
  if at_prompt buf then (Some buf, l)
  else match l with
       | [] => (Some buf, [])
       | None :: l' => (None, l')
       | Some chunk :: l' =>
           if String.eqb chunk "" then (Some buf, l') else _read_to_prompt (buf +:+ chunk) l'
       end.

(** The reply that decides the result of a session, once the command is sent. *)
Definition session_reply (s : session) : option string :=
  match _read_to_prompt "" (s_banner s) with
  | (None, _) => None
  | (Some _, rest) => if s_send_ok s then (_read_to_prompt "" (rest ++ s_reply s)).1 else None
  end.

(** The command reached QEMU. *)
Definition command_sent (s : session) : bool :=
  match (_read_to_prompt "" (s_banner s)).1 with Some _ => s_send_ok s | None => false end.

Section boot_cache.
Context {os : OS} {T : Tools}.

Definition calls_of (w : vmw) : nat := calls (vm_host w).

(** A system call made outside [QemuProcess]. *)
Definition vm_tick : VM unit := modify (fun w => set_host (ticked (vm_host w)) w).

Definition note (n : vm_note) : VM unit := modify (add_note n).

(** ** The identity *)

Definition _hash_file (path : string) : VM string :=
  w ← gets id;
  match fs w !! path with
  | None => raise (FileNotFound path)
  | Some f =>
      let key := (path, f_size f, f_mtime f) in
      match hash_cache w !! key with
      | Some cached => mret cached
      | None =>
          let hexdigest := sha256 (f_bytes f) in
          modify (fun w => set_hash_cache (<[key := hexdigest]> (hash_cache w)) w) ;;
          mret hexdigest
      end
  end.

(** The dict [{path: digest}] has one entry when the two paths are the same. *)
Definition identity_inputs (kernel rootfs : string) (smp memory_mib : Z)
    (accel : ResolvedAccel) : VM inputs :=
  dk ← _hash_file kernel;
  dr ← _hash_file rootfs;
  let files :=
    if String.eqb kernel rootfs then [(basename kernel, dr)]
    else sort_two (basename kernel, dk) (basename rootfs, dr) in
  mret (mkInputs files smp memory_mib accel).

Definition digest_of (i : inputs) : string :=
  String.substring 0 _IDENTITY_HEX_LEN (sha256 (preimage i)).

Definition base_identity kernel rootfs smp memory_mib accel : VM string :=
  i ← identity_inputs kernel rootfs smp memory_mib accel; mret (digest_of i).

Definition record_identity kernel rootfs smp memory_mib accel : VM unit :=
  d ← base_identity kernel rootfs smp memory_mib accel;
  modify (set_overlay_key (Some d)).

Definition read_identity (w : vmw) : option string :=
  match strip <$> overlay_key w with
  | Some "" | None => None
  | Some t => Some t
  end.

Definition overlay_is_stale kernel rootfs smp memory_mib accel : VM bool :=
  recorded ← gets read_identity;
  d ← base_identity kernel rootfs smp memory_mib accel;
  mret (negb (bool_decide (recorded = Some d))).

(** ** The overlay *)

Definition discard_overlay : VM unit :=
  modify (set_overlay None) ;; modify (set_overlay_key None).

Definition create_overlay (base_rootfs : string) : VM unit :=
  vm_tick ;;
  r ← gets (fun w => img_create (calls_of w));
  match r with
  | img_ok => modify (set_overlay (Some (mkDisk base_rootfs [])))
  | img_missing => raise ImgMissing
  | img_failed code => raise (ImgFailed code)
  end.

Definition snapshot_present : VM bool :=
  o ← gets overlay;
  match o with
  | None => mret false
  | Some d =>
      vm_tick ;;
      out ← gets (fun w => img_list (calls_of w) d);
      mret match out with Some stdout => listed SNAPSHOT_TAG stdout | None => false end
  end.

(** [taken] is the digest input of the running machine. *)
Definition write_snapshot (taken : string) (w : vmw) : vmw :=
  set_overlay
    ((fun d => mkDisk (d_backing d) (d_snaps d ++ [(SNAPSHOT_TAG, taken)])) <$> overlay w) w.

Definition save_snapshot (taken : string) : VM bool :=
  vm_tick ;;
  w ← gets id;
  match (if monitor_socket w then monitor_session (calls_of w) else None) with
  | None => mret false
  | Some s =>
      (if command_sent s && s_saved s then modify (write_snapshot taken) else mret tt) ;;
      mret match session_reply s with
           | Some reply => negb (contains "error" (lower reply))
           | None => false
           end
  end.
End boot_cache.

(** ** The digest input determines the launch *)

Lemma nul_terminated_inj l1 l2 :
  Forall (fun s => nul ∉ chars s) l1 -> Forall (fun s => nul ∉ chars s) l2 ->
  nul_terminated l1 = nul_terminated l2 -> l1 = l2.
Proof.
  intros H1. revert l2. induction H1 as [|a l1 Ha _ IH]; intros l2 H2 He.
  - destruct H2 as [|b l2]; [done|]. cbn in He. by destruct b.
  - destruct H2 as [|b l2 Hb H2]; [cbn in He; by destruct a|].
    cbn [nul_terminated fold_right] in He. apply app_sep_inj in He as [-> He]; try done.
    f_equal. by apply IH.
Qed.

Lemma accel_name_inj a b : accel_name a = accel_name b -> a = b.
Proof. by destruct a, b. Qed.

Lemma pairs_inj (f g : list (string * string)) (a b : list string) :
  length a = 3%nat -> length b = 3%nat ->
  concat (map (fun '(n, d) => [n; d]) f) ++ a = concat (map (fun '(n, d) => [n; d]) g) ++ b ->
  f = g /\ a = b.
Proof.
  intros Ha Hb. revert g.
  induction f as [|[n d] f IH]; intros [|[n' d'] g] H; cbn [map concat] in H.
  - done.
  - apply (f_equal length) in H. rewrite !length_app in H. simpl in H. lia.
  - apply (f_equal length) in H. rewrite !length_app in H. simpl in H. lia.
  - simpl in H. injection H as -> -> H. destruct (IH _ H) as [-> ->]. done.
Qed.

Definition inputs_ok (i : inputs) : Prop :=
  Forall (fun f => nul ∉ chars f.1 /\ nul ∉ chars f.2) (i_files i) /\ 0 <= i_smp i /\ 0 <= i_mem i.

Lemma preimage_fields i : inputs_ok i ->
  Forall (fun s => nul ∉ chars s)
    (concat (map (fun '(n, d) => [n; d]) (i_files i)) ++
      [str_of_Z (i_smp i); str_of_Z (i_mem i); accel_name (i_accel i)]).
Proof.
  intros (Hf & Hs & Hm). apply Forall_app. split.
  - induction Hf as [|[n d] l [Hn Hd] _ IH]; cbn [map concat]; [constructor|].
    repeat constructor; done.
  - repeat constructor; [by apply str_of_Z_free..|].
    destruct (i_accel i); apply (bool_decide_unpack _); vm_compute; exact I.
Qed.

Lemma preimage_inj i j : inputs_ok i -> inputs_ok j -> preimage i = preimage j -> i = j.
Proof.
  intros Hi Hj H%nul_terminated_inj; try by apply preimage_fields.
  apply pairs_inj in H as [Hf He]; [|done..].
  destruct i as [fi si mi ai], j as [fj sj mj aj]; simpl in *.
  injection He as ->%str_of_Z_inj ->%str_of_Z_inj ->%accel_name_inj. by subst.
Qed.

Lemma sort_two_comm a b : sort_two a b = sort_two b a.
Proof.
  destruct a as [n1 d1], b as [n2 d2]. unfold sort_two, tuple_lt. cbn [fst snd].
  rewrite (String.eqb_sym n2 n1). unfold String.ltb.
  rewrite (String.compare_antisym n2 n1), (String.compare_antisym d2 d1).
  destruct (String.compare n1 n2) eqn:Hn; simpl.
  - apply String.compare_eq_iff in Hn. subst. rewrite String.eqb_refl. simpl.
    destruct (String.compare d1 d2) eqn:Hd; simpl; try done.
    apply String.compare_eq_iff in Hd. by subst.
  - destruct (String.eqb_spec n1 n2) as [->|]; [|done].
    pose proof (String.compare_antisym n2 n2) as Ha. by rewrite Hn in Ha.
  - destruct (String.eqb_spec n1 n2) as [->|]; [|done].
    pose proof (String.compare_antisym n2 n2) as Ha. by rewrite Hn in Ha.
Qed.

Section identity.
Context {os : OS} {T : Tools} (TL : ToolsLaws T).

(** What every file with a given path, size and modification time holds. *)
Variable content_at : string * Z * Z -> string.

Definition fs_ok (w : vmw) : Prop :=
  forall path f, fs w !! path = Some f -> content_at (path, f_size f, f_mtime f) = f_bytes f.
Definition cache_ok (w : vmw) : Prop :=
  forall key h, hash_cache w !! key = Some h -> h = sha256 (content_at key).

Lemma hash_file_run w path f :
  fs_ok w -> cache_ok w -> fs w !! path = Some f ->
  exists c, _hash_file path w = (Ok (sha256 (f_bytes f)), set_hash_cache c w) /\
    cache_ok (set_hash_cache c w).
Proof.
  intros Hfs Hc Hf. unfold _hash_file, gets, mbind, M_bind. cbn [id]. rewrite Hf.
  destruct (hash_cache w !! (path, f_size f, f_mtime f)) as [h|] eqn:Hh.
  - exists (hash_cache w). rewrite (Hc _ _ Hh), (Hfs _ _ Hf). by destruct w.
  - eexists. split; [reflexivity|]. intros key h. cbn [hash_cache set_hash_cache].
    destruct (decide (key = (path, f_size f, f_mtime f))) as [->|Hne].
    + rewrite lookup_insert_eq. intros [= <-]. by rewrite (Hfs _ _ Hf).
    + rewrite lookup_insert_ne by done. apply Hc.
Qed.

(** The launch as the file system describes it. *)
Definition inputs_at (w : vmw) kernel rootfs smp memory_mib accel : option inputs :=
  fk ← fs w !! kernel; fr ← fs w !! rootfs;
  Some (mkInputs
    (if String.eqb kernel rootfs then [(basename kernel, sha256 (f_bytes fr))]
     else sort_two (basename kernel, sha256 (f_bytes fk)) (basename rootfs, sha256 (f_bytes fr)))
    smp memory_mib accel).

Lemma identity_inputs_run w kernel rootfs smp memory_mib accel i :
  fs_ok w -> cache_ok w -> inputs_at w kernel rootfs smp memory_mib accel = Some i ->
  exists c, identity_inputs kernel rootfs smp memory_mib accel w = (Ok i, set_hash_cache c w) /\
    cache_ok (set_hash_cache c w).
Proof.
  intros Hfs Hc Hi. unfold inputs_at in Hi.
  destruct (fs w !! kernel) as [fk|] eqn:Hk; [|done]. simpl in Hi.
  destruct (fs w !! rootfs) as [fr|] eqn:Hr; [|done]. simpl in Hi. injection Hi as <-.
  destruct (hash_file_run w kernel fk) as (c1 & H1 & Hc1); try done.
  destruct (hash_file_run (set_hash_cache c1 w) rootfs fr) as (c2 & H2 & Hc2); try done.
  exists c2. split; [|done]. unfold identity_inputs.
  rewrite (M_bind_ok _ _ _ _ _ H1), (M_bind_ok _ _ _ _ _ H2). done.
Qed.

Lemma base_identity_run w kernel rootfs smp memory_mib accel i :
  fs_ok w -> cache_ok w -> inputs_at w kernel rootfs smp memory_mib accel = Some i ->
  exists c, base_identity kernel rootfs smp memory_mib accel w = (Ok (digest_of i), set_hash_cache c w) /\
    cache_ok (set_hash_cache c w).
Proof.
  intros Hfs Hc Hi. destruct (identity_inputs_run _ _ _ _ _ _ _ Hfs Hc Hi) as (c & H & Hc').
  exists c. split; [|done]. unfold base_identity. by rewrite (M_bind_ok _ _ _ _ _ H).
Qed.

Lemma not_elem_hex s : all_chars is_hex s = true -> nul ∉ chars s.
Proof.
  unfold all_chars. rewrite forallb_forall. intros H Hin%list_elem_of_In%H. done.
Qed.

Lemma inputs_at_ok w kernel rootfs smp memory_mib accel i :
  nul ∉ chars (basename kernel) -> nul ∉ chars (basename rootfs) ->
  0 <= smp -> 0 <= memory_mib ->
  inputs_at w kernel rootfs smp memory_mib accel = Some i -> inputs_ok i.
Proof.
  intros Hk Hr Hs Hm Hi. unfold inputs_at in Hi.
  destruct (fs w !! kernel) as [fk|]; [|done]. simpl in Hi.
  destruct (fs w !! rootfs) as [fr|]; [|done]. simpl in Hi. injection Hi as <-.
  split; [|done]. cbn [i_files]. unfold sort_two.
  repeat case_match; repeat constructor; cbn [fst snd]; try done;
    apply not_elem_hex, sha256_hex.
Qed.

(** C37. The overlay's identity is decided by what is booted.  With a sound memo (no
    content changes under an unchanged path, size and mtime) it is the truncated
    SHA-256 of a text that two launches share exactly when they boot files of the
    same names and content digests with the same vCPUs, memory and accelerator; and
    exchanging kernel and rootfs does not change it. *)
Theorem base_identity_faithful w1 w2 k1 r1 s1 m1 a1 k2 r2 s2 m2 a2 i1 i2 :
  fs_ok w1 -> cache_ok w1 -> fs_ok w2 -> cache_ok w2 ->
  Forall (fun p => nul ∉ chars (basename p)) [k1; r1; k2; r2] ->
  Forall (fun z => 0 <= z) [s1; m1; s2; m2] ->
  inputs_at w1 k1 r1 s1 m1 a1 = Some i1 -> inputs_at w2 k2 r2 s2 m2 a2 = Some i2 ->
  fst (base_identity k1 r1 s1 m1 a1 w1)
    = Ok (String.substring 0 _IDENTITY_HEX_LEN (sha256 (preimage i1))) /\
  fst (base_identity k2 r2 s2 m2 a2 w2)
    = Ok (String.substring 0 _IDENTITY_HEX_LEN (sha256 (preimage i2))) /\
  (preimage i1 = preimage i2 <-> i1 = i2) /\
  fst (base_identity r1 k1 s1 m1 a1 w1) = fst (base_identity k1 r1 s1 m1 a1 w1).
Proof.
  intros Hf1 Hc1 Hf2 Hc2 Hn Hz Hi1 Hi2.
  rewrite !Forall_cons in Hn. rewrite !Forall_cons in Hz.
  destruct (base_identity_run w1 _ _ _ _ _ _ Hf1 Hc1 Hi1) as (c1 & H1 & _).
  destruct (base_identity_run w2 _ _ _ _ _ _ Hf2 Hc2 Hi2) as (c2 & H2 & _).
  rewrite H1, H2. split; [done|]. split; [done|]. split.
  - split; [|by intros ->]. intros He. apply preimage_inj; [| |done];
      [eapply inputs_at_ok; [..|exact Hi1]|eapply inputs_at_ok; [..|exact Hi2]]; tauto.
  - assert (inputs_at w1 r1 k1 s1 m1 a1 = Some i1) as Hs.
    { revert Hi1. unfold inputs_at. rewrite String.eqb_sym.
      destruct (String.eqb_spec r1 k1) as [->|].
      - by destruct (fs w1 !! k1).
      - destruct (fs w1 !! k1), (fs w1 !! r1); try done. cbn. by rewrite sort_two_comm. }
    destruct (base_identity_run w1 _ _ _ _ _ _ Hf1 Hc1 Hs) as (c3 & H3 & _).
    by rewrite H3.
Qed.
End identity.

(** ** Reading the monitor *)

(** The text ends where the prompt first shows. *)
Definition prompts_once (t : string) : Prop :=
  at_prompt t = true /\ forall p q, t = p +:+ q -> q <> "" -> at_prompt p = false.

Definition blank (s : string) : Prop := all_chars is_bspace s = true.

Lemma drop_blank l l' : forallb is_bspace l = true -> drop_bspace (l ++ l') = drop_bspace l'.
Proof. induction l as [|c l IH]; [done|]. simpl. by destruct (is_bspace c). Qed.

Lemma rev_blank s : blank s -> forallb is_bspace (rev (chars s)) = true.
Proof.
  unfold blank, all_chars. rewrite !forallb_forall. intros H c Hc%in_rev. by apply H.
Qed.

(** Trailing blanks do not hide a prompt. *)
Lemma at_prompt_trail s w : blank w -> at_prompt (s +:+ w) = at_prompt s.
Proof.
  intros Hw. unfold at_prompt. rewrite chars_app, rev_app_distr.
  by rewrite drop_blank by (by apply rev_blank).
Qed.

Lemma drop_bspace_app l l' :
  drop_bspace (l ++ l') = (match drop_bspace l with [] => drop_bspace l' | m => m ++ l' end).
Proof. induction l as [|c l IH]; [done|]. simpl. by destruct (is_bspace c). Qed.

Lemma of_chars_app l l' : of_chars (l ++ l') = of_chars l +:+ of_chars l'.
Proof. apply chars_inj. by rewrite chars_app, !chars_of_chars. Qed.

Lemma visible_free d s :
  is_bspace d = true -> all_chars (fun c => negb (is_bspace c)) s = true -> d ∉ chars s.
Proof.
  unfold all_chars. rewrite forallb_forall. intros Hd H Hin%list_elem_of_In%H.
  by rewrite Hd in Hin.
Qed.

(** Leading blanks do not make one. *)
Lemma at_prompt_lead s w : blank w -> at_prompt s = false -> at_prompt (w +:+ s) = false.
Proof.
  intros Hw. unfold at_prompt. rewrite chars_app, rev_app_distr, drop_bspace_app.
  apply rev_blank in Hw. destruct (drop_bspace (rev (chars s))) as [|c m] eqn:Hm.
  - intros _. rewrite <- (app_nil_r (rev (chars w))), drop_blank by done. done.
  - rewrite of_chars_app. destruct (rev (chars w)) as [|d l]; [by rewrite app_nil_r_str|].
    change (of_chars (d :: l)) with (String d (of_chars l)). rewrite prefix_sep; [done|].
    cbn [forallb] in Hw. apply andb_true_iff in Hw as [Hd _].
    by apply (visible_free d).
Qed.

Lemma app_compare (a b c d : string) :
  a +:+ b = c +:+ d -> (exists e, a = c +:+ e /\ d = e +:+ b) \/ exists e, e <> "" /\ c = a +:+ e.
Proof.
  revert c. induction a as [|x a IH]; intros [|y c] H.
  - left. exists "". by rewrite app_empty_str in H.
  - right. by exists (String y c).
  - left. exists (String x a). done.
  - rewrite !app_cons_str in H. injection H as -> H.
    destruct (IH _ H) as [(e & -> & ->)|(e & He & ->)]; [left|right]; by exists e.
Qed.

Lemma join_cons c cs : join "" (c :: cs) = c +:+ join "" cs.
Proof. destruct cs; cbn [join]; by rewrite ?app_nil_r_str. Qed.

(** A read stops at the first prompt, or a few blanks after it. *)
Lemma read_chunks buf cs rest t w :
  Forall (fun c => c <> "") cs -> buf +:+ join "" cs = t +:+ w -> prompts_once t -> blank w ->
  exists w1 cs', _read_to_prompt buf (map Some cs ++ rest) = (Some (t +:+ w1), map Some cs' ++ rest) /\
    w = w1 +:+ join "" cs' /\ Forall (fun c => c <> "") cs'.
Proof.
  intros Hcs. revert buf. induction Hcs as [|c cs Hc Hcs IH]; intros buf He [Ht Hp] Hw.
  - cbn [join map app] in *. rewrite app_nil_r_str in He. subst buf.
    exists w, []. cbn [map app join]. rewrite app_nil_r_str.
    assert (at_prompt (t +:+ w) = true) as Ha by (by rewrite at_prompt_trail).
    split; [|done]. destruct rest; cbn [_read_to_prompt]; by rewrite Ha.
  - cbn [map app _read_to_prompt]. destruct (at_prompt buf) eqn:Hb.
    + destruct (app_compare _ _ _ _ He) as [(e & -> & ->)|(e & Hne & ->)].
      * exists e, (c :: cs). split; [done|]. split; [done|]. by constructor.
      * by rewrite (Hp buf e) in Hb.
    + destruct (String.eqb_spec c ""); [done|].
      apply IH; [|done|done]. by rewrite app_assoc_str, <- join_cons.
Qed.

Lemma blank_free w c : is_bspace c = false -> blank w -> c ∉ chars w.
Proof.
  unfold blank, all_chars. rewrite forallb_forall. intros Hc H Hin%list_elem_of_In%H. congruence.
Qed.

Lemma lower_app s t : lower (s +:+ t) = lower s +:+ lower t.
Proof. induction s as [|c s IH]; [done|].
  rewrite app_cons_str. cbn [lower]. by rewrite IH, app_cons_str. Qed.

Lemma lower_blank w : blank w -> lower w = w.
Proof.
  induction w as [|c w IH]; [done|]. intros [Hc Hw]%andb_true_iff. cbn [lower].
  rewrite IH by exact Hw. f_equal. unfold lower_char. destruct (is_upper c) eqn:Hu; [|done].
  unfold is_upper, in_range, is_bspace in *. rewrite andb_true_iff, !Nat.leb_le in Hu.
  rewrite orb_true_iff, andb_true_iff, !Nat.leb_le, Nat.eqb_eq in Hc.
  change (code "A") with 65%nat in Hu. lia.
Qed.

Lemma error_between w t w' : blank w -> blank w' ->
  contains "error" (lower (w +:+ (t +:+ w'))) = contains "error" (lower t).
Proof.
  intros Hw Hw'. rewrite !lower_app, (lower_blank w), (lower_blank w') by done.
  rewrite contains_skip by (by apply blank_free). destruct w' as [|c w'].
  - by rewrite app_nil_r_str.
  - apply andb_true_iff in Hw' as [Hc Hw']. rewrite contains_sep; [|..|done].
    + rewrite (contains_free "e" "rror" w') by (by apply blank_free). apply orb_false_r.
    + by apply (visible_free c).
Qed.

Lemma blank_app a b : blank (a +:+ b) <-> blank a /\ blank b.
Proof. unfold blank. by rewrite all_chars_app, andb_true_iff. Qed.

Lemma prompts_once_lead t w : blank w -> prompts_once t -> prompts_once (w +:+ t).
Proof.
  intros Hw [Ht Hp]. split.
  - unfold at_prompt in *. rewrite chars_app, rev_app_distr, drop_bspace_app.
    destruct (drop_bspace (rev (chars t))) as [|c m]; [done|].
    rewrite of_chars_app. apply prefix_spec in Ht as [r ->]. apply prefix_spec.
    exists (r +:+ of_chars (rev (chars w))). by rewrite app_assoc_str.
  - intros p q He Hq. destruct (app_compare _ _ _ _ (eq_sym He)) as [(e & -> & ->)|(e & _ & ->)].
    + apply at_prompt_lead; [done|]. by eapply Hp.
    + apply blank_app in Hw as [Hp' _]. rewrite <- (app_empty_str p), at_prompt_trail by done. done.
Qed.

Section monitor.
Context {os : OS} {T : Tools}.

(** However the socket splits what QEMU says into chunks — inside the prompt,
    or between it and the blank that follows — the reply of the command, not the
    connect banner whose prompt comes first, decides the result: [True] exactly when
    QEMU reprompts without mentioning an error, and the overlay gains the snapshot
    QEMU wrote. *)
Theorem save_snapshot_spec taken w bs rs b r wb wr ok :
  Forall (fun c => c <> "") bs -> Forall (fun c => c <> "") rs ->
  join "" bs = b +:+ wb -> join "" rs = r +:+ wr ->
  prompts_once b -> prompts_once r -> blank wb -> blank wr ->
  monitor_socket w = true ->
  monitor_session (S (calls_of w)) = Some (mkSession (map Some bs) true (map Some rs) ok) ->
  fst (save_snapshot taken w) = Ok (negb (contains "error" (lower r))) /\
  overlay (snd (save_snapshot taken w))
  = (if ok then (fun d => mkDisk (d_backing d) (d_snaps d ++ [(SNAPSHOT_TAG, taken)])) <$> overlay w
     else overlay w).
Proof.
  intros Hb Hr Eb Er Pb Pr Wb Wr Hm Hs.
  unfold save_snapshot, vm_tick, modify, gets, mbind, M_bind, mret, M_ret.
  cbn [id monitor_socket set_host]. rewrite Hm.
  change (calls_of (set_host (ticked (vm_host w)) w)) with (S (calls_of w)). rewrite Hs.
  destruct (read_chunks "" bs [] b wb Hb Eb Pb Wb) as (w1 & cs & Hrb & -> & Hcs).
  rewrite !app_nil_r in Hrb. apply blank_app in Wb as [_ Wb].
  destruct (read_chunks "" (cs ++ rs) [] (join "" cs +:+ r) wr) as (w2 & cs2 & Hrr & -> & _).
  { by apply Forall_app. }
  { rewrite app_assoc_str, <- Er. clear. rewrite app_empty_str.
    induction cs as [|c cs IH]; [done|]. cbn [app]. by rewrite !join_cons, IH, app_assoc_str. }
  { by apply prompts_once_lead. }
  { done. }
  rewrite !app_nil_r, map_app in Hrr. apply blank_app in Wr as [W2 _].
  unfold command_sent, session_reply. cbn [s_banner s_send_ok s_saved s_reply].
  rewrite Hrb. cbn [fst andb]. rewrite Hrr. cbn [fst].
  rewrite app_assoc_str, error_between by done. by destruct ok.
Qed.

(** A monitor that goes away after the command — QEMU died while it was writing
    the checkpoint — counts as success: [save_snapshot] returns [True] although the
    prompt never came back and the overlay gained no snapshot. *)
Theorem lost_monitor_reports_success taken w bs b :
  Forall (fun c => c <> "") bs -> join "" bs = b -> prompts_once b -> monitor_socket w = true ->
  monitor_session (S (calls_of w)) = Some (mkSession (map Some bs) true [] false) ->
  fst (save_snapshot taken w) = Ok true /\ overlay (snd (save_snapshot taken w)) = overlay w.
Proof.
  intros Hb Eb Pb Hm Hs. unfold save_snapshot, vm_tick, modify, gets, mbind, M_bind, mret, M_ret.
  cbn [id monitor_socket set_host]. rewrite Hm.
  change (calls_of (set_host (ticked (vm_host w)) w)) with (S (calls_of w)). rewrite Hs.
  destruct (read_chunks "" bs [] b "" Hb) as (w1 & cs & Hrb & Hw & Hcs); try done.
  { by rewrite app_empty_str, app_nil_r_str. }
  assert (cs = []) as ->.
  { destruct Hcs as [|c cs Hc _]; [done|]. rewrite join_cons in Hw. destruct w1; [|done].
    by destruct c. }
  rewrite !app_nil_r in Hrb. unfold command_sent, session_reply.
  cbn [s_banner s_send_ok s_saved s_reply]. rewrite Hrb. done.
Qed.
End monitor.

(** ** Concrete tools *)

Fixpoint repeat_str (n : nat) (s : string) : string :=
  match n with O => "" | S n => s +:+ repeat_str n s end.

(** A stand-in digest: two hexadecimal digits of the text's character sum. *)
Definition hex_char (n : nat) : ascii :=
  if (n <? 10)%nat then ascii_of_nat (48 + n) else ascii_of_nat (87 + n).
Definition char_sum (s : string) : nat := fold_right (fun c n => (code c + n)%nat) 0%nat (chars s).
Definition toy_digest (s : string) : string :=
  let n := (char_sum s mod 256)%nat in
  repeat_str 32 (String (hex_char (n / 16)) (String (hex_char (n mod 16)) "")).

Definition sample_banner : list string := ["QEMU 9.0 monitor" +:+ String newline "(qe"; "mu)"; " "].
Definition sample_reply : list string := ["savevm beetroot-boot" +:+ String newline ""; "(qemu) "].

Definition image_table (d : disk) : string :=
  "Snapshot list:" +:+ String newline
    (join (String newline "") (map (fun '(t, _) => "1  " +:+ t +:+ "  2 GiB") (d_snaps d))).

Definition sample_tools (s : option session) : Tools := {|
  sha256 := toy_digest;
  img_create _ := img_ok;
  img_list _ d :=
    if decide (SNAPSHOT_TAG ∈ (d_snaps d).*1) then Some (image_table d) else Some "Snapshot list:";
  monitor_session _ := s |}.

Lemma hex_char_hex n : (n < 16)%nat -> is_hex (hex_char n) = true.
Proof. intros H. do 16 (destruct n as [|n]; [reflexivity|]). lia. Qed.

Lemma all_chars_repeat p n s : all_chars p s = true -> all_chars p (repeat_str n s) = true.
Proof.
  intros H. induction n as [|n IH]; [done|]. cbn [repeat_str]. by rewrite all_chars_app, H.
Qed.

Lemma sample_tools_laws s : ToolsLaws (sample_tools s).
Proof.
  split.
  - intros t. cbn [sha256 sample_tools]. unfold toy_digest.
    set (n := (char_sum t mod 256)%nat).
    assert (n < 256)%nat as Hn by (apply Nat.mod_upper_bound; lia).
    assert (is_hex (hex_char (n / 16)) = true) as H1.
    { apply hex_char_hex, Nat.Div0.div_lt_upper_bound. lia. }
    assert (is_hex (hex_char (n mod 16)) = true) as H2.
    { apply hex_char_hex, Nat.mod_upper_bound. lia. }
    generalize dependent (hex_char (n / 16)). generalize dependent (hex_char (n mod 16)).
    intros c2 H2 c1 H1. split; [|reflexivity].
    apply all_chars_repeat. unfold all_chars.
    change (chars (String c1 (String c2 ""))) with [c1; c2]. cbn [forallb]. by rewrite H1, H2.
  - intros n d out. cbn [img_list sample_tools]. case_decide; [done|]. intros [= <-]. done.
Qed.

Lemma prompts_once_check t :
  at_prompt t && forallb (fun n => negb (at_prompt (String.substring 0 n t)))
    (seq 0 (String.length t)) = true -> prompts_once t.
Proof.
  intros [Ht H]%andb_true_iff. split; [done|]. rewrite forallb_forall in H.
  intros p q -> Hq. apply negb_true_iff.
  assert (String.substring 0 (String.length p) (p +:+ q) = p) as Hp.
  { clear. induction p as [|c p IH]; [by destruct q|].
    change (String c p +:+ q) with (String c (p +:+ q)). cbn [String.length String.substring].
    by f_equal. }
  specialize (H (String.length p)). rewrite Hp in H. apply H, in_seq.
  split; [lia|]. clear -Hq. induction p as [|c p IH]; [destruct q; [done|simpl; lia]|].
  change (String c p +:+ q) with (String c (p +:+ q)). cbn [String.length]. lia.
Qed.

Definition sample_disk : disk := mkDisk "/k/rootfs.img" [].
Definition sample_vmw : vmw := mkVmw running_host ∅ ∅ (Some sample_disk) None true None [] [].

Lemma save_snapshot_spec_witness :
  fst (save_snapshot (os := sample_os 1000)
    (T := sample_tools (Some (mkSession (map Some sample_banner) true (map Some sample_reply) true)))
    "taken" sample_vmw) = Ok true.
Proof.
  rewrite (proj1 (save_snapshot_spec (os := sample_os 1000)
    (T := sample_tools (Some (mkSession (map Some sample_banner) true (map Some sample_reply) true)))
    "taken" sample_vmw sample_banner sample_reply
    ("QEMU 9.0 monitor" +:+ String newline "(qemu)")
    ("savevm beetroot-boot" +:+ String newline "(qemu)") " " " " true
    ltac:(by repeat constructor) ltac:(by repeat constructor) eq_refl eq_refl
    ltac:(apply prompts_once_check; by vm_compute) ltac:(apply prompts_once_check; by vm_compute)
    eq_refl eq_refl eq_refl eq_refl)).
  by vm_compute.
Defined.

Definition prompt_only : list string := ["QEMU 9.0 monitor" +:+ String newline "(qe"; "mu)"].

Lemma lost_monitor_reports_success_witness :
  fst (save_snapshot (os := sample_os 1000)
    (T := sample_tools (Some (mkSession (map Some prompt_only) true [] false)))
    "taken" sample_vmw) = Ok true.
Proof.
  apply (lost_monitor_reports_success (os := sample_os 1000)
    (T := sample_tools (Some (mkSession (map Some prompt_only) true [] false)))
    "taken" sample_vmw prompt_only ("QEMU 9.0 monitor" +:+ String newline "(qemu)")).
  - by repeat constructor.
  - reflexivity.
  - apply prompts_once_check. by vm_compute.
  - reflexivity.
  - reflexivity.
Defined.

Definition sample_fs : gmap string file :=
  {[ "/k/bzImage" := mkFile "kernel bytes" 1; "/k/rootfs.img" := mkFile "rootfs bytes" 2 ]}.
Definition sample_content (key : string * Z * Z) : string :=
  if String.eqb key.1.1 "/k/bzImage" then "kernel bytes" else "rootfs bytes".
Definition boot_vmw : vmw := mkVmw sample_host sample_fs ∅ None None false None [] [].

Lemma sample_fs_ok : fs_ok sample_content boot_vmw.
Proof.
  intros path f. cbn [fs boot_vmw]. unfold sample_fs.
  rewrite lookup_insert_Some, lookup_singleton_Some.
  intros [[<- <-]|(_ & <- & <-)]; reflexivity.
Qed.

Lemma sample_cache_ok T : cache_ok (T := T) sample_content boot_vmw.
Proof. intros key h. cbn [hash_cache boot_vmw]. by rewrite lookup_empty. Qed.

Definition sample_inputs (smp : Z) : inputs :=
  mkInputs [("bzImage", toy_digest "kernel bytes"); ("rootfs.img", toy_digest "rootfs bytes")]
    smp 8192 tcg.

Lemma base_identity_faithful_witness :
  let T := sample_tools None in
  preimage (sample_inputs 4) <> preimage (sample_inputs 2) /\
  fst (base_identity "/k/rootfs.img" "/k/bzImage" 4 8192 tcg boot_vmw)
  = fst (base_identity "/k/bzImage" "/k/rootfs.img" 4 8192 tcg boot_vmw).
Proof.
  intros T.
  destruct (base_identity_faithful (sample_tools_laws None) sample_content boot_vmw boot_vmw
    "/k/bzImage" "/k/rootfs.img" 4 8192 tcg "/k/bzImage" "/k/rootfs.img" 2 8192 tcg
    (sample_inputs 4) (sample_inputs 2)) as (_ & _ & Hi & Hs);
    try apply sample_fs_ok; try apply sample_cache_ok; try reflexivity.
  - repeat constructor; apply (bool_decide_unpack _); vm_compute; exact I.
  - repeat constructor; lia.
  - split; [|exact Hs]. intros He%Hi. apply (f_equal i_smp) in He. discriminate He.
Defined.
