(* ===== verification/VmBackend.v ===== *)
(** * The micro-VM backend ([backends/vm.py])

    [up] (plain and through the boot cache), [down], [restart], [destroy] and the
    waits they are made of, over the emulator process of [Qemu] and the checkpoint of
    [BootCache].  The [adb] client is a parameter: what each invocation answers. *)
From stdpp Require Import base list strings gmap.
From Stdlib Require Import ZArith Lia Ascii.
From S2P Require Import Prelude PyStr Config Ports Qemu BootCache.
Local Open Scope stdpp_scope.
Local Open Scope Z_scope.

(** Milliseconds. *)
Definition _ADB_CONNECT_POLL : Z := 1000.
Definition _BOOT_COMPLETED_TIMEOUT : Z := 900000.
Definition _BOOT_COMPLETED_POLL : Z := 3000.
(** Seconds. *)
Definition _TCG_ADB_CONNECT_FLOOR_SECONDS : Z := 900.

Record vm_settings := mkVmSettings {
  qemu_bin : string; vm_kernel : string; vm_rootfs : string; vm_adb_connect_timeout : Z }.

(** What the environment answers: the result of [adb connect] (return code, stdout,
    stderr; [None] for an OS error or a timeout), the stdout of [getprop
    sys.boot_completed], whether [adb] is on the PATH, and the host's probes. *)
Class Guest := {
  adb_connect : nat -> option (Z * string * string);
  getprop : nat -> option string;
  adb_on_path : bool;
  machine : string;
  dev_kvm_usable : bool;
  affinity : option (list Z);
  cpu_count : option Z;
  cpuinfo : option string;
  expanduser_resolve : string -> string }.

(** A [QemuLaunchError], the class [_up_cached] recovers from. *)
Definition is_launch_error (e : vm_error) : bool :=
  match e with
  | QemuErr (PidOverflow _) | QemuErr OutOfFuel => false
  | QemuErr _ => true
  | ArtifactUnset _ | ArtifactMissing _ | ImgMissing | ImgFailed _ | VmExited | AdbTimeout _ => true
  | _ => false
  end.

(** [cannot connect] or [failed] anywhere in the output overrides exit code 0. *)
Definition _adb_connect_ok (r : option (Z * string * string)) : bool :=
  match r with
  | None => false
  | Some (returncode, stdout, stderr) =>
      let combined := lower (stdout +:+ String newline stderr) in
      bool_decide (returncode = 0) && negb (contains "cannot connect" combined) &&
      negb (contains "failed" combined)
  end.

Definition _adb_connect_deadline_seconds (st : vm_settings) (accel : ResolvedAccel) : Z :=
  match accel with
  | tcg => Z.max (vm_adb_connect_timeout st) _TCG_ADB_CONNECT_FLOOR_SECONDS
  | kvm => vm_adb_connect_timeout st
  end.

(** [configured or env_default or None]: empty strings count as unset. *)
Definition or_unset (configured : option string) (env_default : string) : option string :=
  match configured with
  | Some s => if String.eqb s "" then (if String.eqb env_default "" then None else Some env_default) else Some s
  | None => if String.eqb env_default "" then None else Some env_default
  end.

(** [m] with the error handler [h]; the state reached is kept. *)
Definition try_except {A} (m : VM A) (h : vm_error -> VM A) : VM A := fun w =>
  match m w with
  | (Ok a, w') => (Ok a, w')
  | (Err e, w') => h e w'
  end.

(** An operation of [QemuProcess] on this instance. *)
Definition in_host {A} (m : M host qemu_error A) : VM A := fun w =>
  match m (vm_host w) with
  | (Ok a, h) => (Ok a, set_host h w)
  | (Err e, h) => (Err (QemuErr e), set_host h w)
  end.

Section vm_backend.
Context {os : OS} {T : Tools} {G : Guest}.
Variables (st : vm_settings) (cfg : InstanceConfig) (index : Z).

Definition _resolve_artifact (configured : option string) (env_default label : string)
  : VM string :=
  match or_unset configured env_default with
  | None => raise (ArtifactUnset label)
  | Some name =>
      let path := expanduser_resolve name in
      w ← gets id;
      match fs w !! path with
      | None => raise (ArtifactMissing label)
      | Some _ => mret path
      end
  end.

Definition resolved_accel : VM ResolvedAccel := fun w =>
  match detect_accel machine dev_kvm_usable (accel (vm cfg)) with
  | Ok a => (Ok a, w)
  | Err e => (Err (QemuErr e), w)
  end.

(** [ports.well_known(self.ports)["adb"]]. *)
Definition adb_port : VM Z :=
  match (resolve_ports index (ports cfg) false).1 with
  | Ok resolved =>
      match Dict.get "adb" (well_known resolved) with
      | Some p => mret p
      | None => raise NoAdbPort
      end
  | Err e => raise (PortErr e)
  end.

Definition resolved_smp : Z := resolve_smp affinity cpu_count cpuinfo (smp (vm cfg)).

Definition down : VM unit :=
  port ← adb_port; in_host (terminate (Some port)) ;; mret tt.

Definition vm_sleep (ms : Z) : VM unit := in_host (sleep ms).

(** The loop of [_wait_for_adb_connect]. *)
Fixpoint wait_loop (fuel : nat) (port : Z) (budget deadline : Z) : VM unit :=
  match fuel with
  | O => raise VmOutOfFuel
  | S fuel =>
      vm_tick ;;
      answer ← gets (fun w => adb_connect (calls_of w));
      if _adb_connect_ok answer then mret tt
      else
        running ← in_host (is_running (Some port));
        if negb running then raise VmExited
        else
          now ← gets (fun w => clock (vm_host w));
          if deadline <=? now then raise (AdbTimeout budget)
          else vm_sleep _ADB_CONNECT_POLL ;; wait_loop fuel port budget deadline
  end.

(** One attempt a second, and the last one at the deadline. *)
Definition wait_fuel (budget : Z) : nat := S (S (Z.to_nat budget)).

Definition _wait_for_adb_connect (acc : ResolvedAccel) : VM unit :=
  if negb adb_on_path then raise AdbNotInstalled
  else
    port ← adb_port;
    let budget := _adb_connect_deadline_seconds st acc in
    now ← gets (fun w => clock (vm_host w));
    wait_loop (wait_fuel budget) port budget (now + 1000 * budget).

Definition _boot_completed : VM bool :=
  vm_tick ;;
  out ← gets (fun w => getprop (calls_of w));
  mret match out with Some s => String.eqb (strip s) "1" | None => false end.

Fixpoint boot_loop (fuel : nat) (deadline : Z) : VM bool :=
  match fuel with
  | O => raise VmOutOfFuel
  | S fuel =>
      now ← gets (fun w => clock (vm_host w));
      if now <? deadline then
        booted ← _boot_completed;
        if booted : bool then mret true
        else vm_sleep _BOOT_COMPLETED_POLL ;; boot_loop fuel deadline
      else mret false
  end.

Definition boot_fuel : nat := 301.

Definition _wait_for_boot_completed : VM bool :=
  if negb adb_on_path then raise AdbNotInstalled
  else
    now ← gets (fun w => clock (vm_host w));
    boot_loop boot_fuel (now + _BOOT_COMPLETED_TIMEOUT).

(** [try: wait except BaseException: self.down(); raise]. *)
Definition wait_or_down (acc : ResolvedAccel) : VM unit :=
  try_except (_wait_for_adb_connect acc) (fun e => down ;; raise e).

Definition build_argv (acc : ResolvedAccel) : VM (list string) :=
  kernel ← _resolve_artifact (kernel (vm cfg)) (vm_kernel st) "kernel";
  rootfs ← _resolve_artifact (rootfs (vm cfg)) (vm_rootfs st) "rootfs";
  port ← adb_port;
  mret (build_qemu_argv (qemu_bin st) acc kernel rootfs resolved_smp (memory_mib (vm cfg)) port
          raw None None None).

Definition _warn_on_boot_cache_data_revert : VM unit :=
  match lifecycle cfg with ephemeral => mret tt | durable => note DataRevert end.

Definition _preserve_warm_fail_console : VM unit :=
  log ← gets (fun w => console_log (vm_host w));
  match log with None => mret tt | Some text => modify (set_warm_fail (Some text)) end.

(** The paths of this instance's overlay and monitor socket. *)
Variable dir : string.

(** The digest input of the machine a launch boots. *)
Definition booted_preimage (acc : ResolvedAccel) (kernel base_rootfs : string) (w : vmw) : string :=
  from_option preimage ""
    (inputs_at w kernel base_rootfs resolved_smp (memory_mib (vm cfg)) acc).

(** The [_launch] closure of [_up_cached]; QEMU creates the monitor socket. *)
Definition _launch (acc : ResolvedAccel) (kernel base_rootfs : string) (loadvm : option string)
  : VM unit :=
  port ← adb_port;
  in_host (start (Some port)
    (build_qemu_argv (qemu_bin st) acc kernel (overlay_path dir) resolved_smp
       (memory_mib (vm cfg)) port qcow2 None (Some (monitor_path dir)) loadvm)) ;;
  modify (set_monitor true) ;;
  modify (fun w =>
    log_launch (mkLaunch loadvm (overlay w) (booted_preimage acc kernel base_rootfs w)) w) ;;
  wait_or_down acc.

(** A pristine overlay with its identity. *)
Definition fresh_overlay (acc : ResolvedAccel) (kernel base_rootfs : string) : VM unit :=
  create_overlay base_rootfs ;;
  record_identity kernel base_rootfs resolved_smp (memory_mib (vm cfg)) acc.

(** The discard decision: a stale overlay, or a fresh one without a snapshot. *)
Definition prune_overlay (acc : ResolvedAccel) (kernel base_rootfs : string) : VM unit :=
  o ← gets overlay;
  match o with
  | None => mret tt
  | Some _ =>
      stale ← overlay_is_stale kernel base_rootfs resolved_smp (memory_mib (vm cfg)) acc;
      if stale : bool then note StaleCheckpoint ;; discard_overlay
      else
        present ← snapshot_present;
        if negb present then discard_overlay else mret tt
  end.

(** The checkpoint at the end of a cold boot; [taken] is the machine's digest input. *)
Definition checkpoint (taken : string) : VM unit :=
  booted ← _wait_for_boot_completed;
  if negb booted then note NotBooted
  else
    saved ← save_snapshot taken;
    if saved : bool then note Cached else note CheckpointFailed.

(** [warm] as the launch leaves it: [true] once a resume has succeeded. *)
Definition boot_overlay (acc : ResolvedAccel) (kernel base_rootfs : string) : VM bool :=
  warm ← snapshot_present;
  if warm : bool then
    note ResumingSnapshot ;;
    _warn_on_boot_cache_data_revert ;;
    try_except (_launch acc kernel base_rootfs (Some SNAPSHOT_TAG) ;; mret true)
      (fun e =>
         if is_launch_error e then
           _preserve_warm_fail_console ;;
           note WarmResumeFailed ;;
           discard_overlay ;;
           fresh_overlay acc kernel base_rootfs ;;
           _launch acc kernel base_rootfs None ;;
           mret false
         else raise e)
  else note ColdBooting ;; _launch acc kernel base_rootfs None ;; mret false.

Definition _up_cached (acc : ResolvedAccel) : VM unit :=
  kernel ← _resolve_artifact (kernel (vm cfg)) (vm_kernel st) "kernel";
  base_rootfs ← _resolve_artifact (rootfs (vm cfg)) (vm_rootfs st) "rootfs";
  modify (set_monitor false) ;;
  prune_overlay acc kernel base_rootfs ;;
  o ← gets overlay;
  (match o with None => fresh_overlay acc kernel base_rootfs | Some _ => mret tt end) ;;
  warm ← boot_overlay acc kernel base_rootfs;
  if warm : bool then mret tt
  else
    taken ← gets (booted_preimage acc kernel base_rootfs);
    checkpoint taken.

(** [baked]: the version marker beside the rootfs, where there is one. *)
Definition _warn_on_rootfs_version_skew (baked : string -> option Z) : VM unit :=
  try_except
    (rootfs ← _resolve_artifact (rootfs (vm cfg)) (vm_rootfs st) "rootfs";
     match baked rootfs with
     | None => mret tt
     | Some v =>
         if decide (v = android_version (android cfg)) then mret tt
         else note (RootfsVersionSkew v (android_version (android cfg)))
     end)
    (fun e => if is_launch_error e then mret tt else raise e).

Definition up (baked : string -> option Z) : VM unit :=
  if bool_decide (binder cfg <> binder_vm) then raise OutOfSync
  else
    _warn_on_rootfs_version_skew baked ;;
    acc ← resolved_accel;
    if boot_cache (vm cfg) then _up_cached acc
    else
      argv ← build_argv acc;
      port ← adb_port;
      in_host (start (Some port) argv) ;;
      wait_or_down acc.

Definition restart (baked : string -> option Z) : VM unit := down ;; up baked.
End vm_backend.

(** ** Reasoning about the composed operations *)

(** Partial-correctness triples with a postcondition for each way out. *)
Definition triple {A} (P : vmw -> Prop) (m : VM A) (Q : A -> vmw -> Prop) (E : vmw -> Prop) : Prop :=
  forall w, P w -> match m w with (Ok a, w') => Q a w' | (Err _, w') => E w' end.

Section triples.
Context {A B : Type}.
Implicit Types (P E : vmw -> Prop) (m : VM A) (k : A -> VM B).

Lemma triple_bind P m k (R : A -> vmw -> Prop) Q E :
  triple P m R E -> (forall a, triple (R a) (k a) Q E) -> triple P (m ≫= k) Q E.
Proof.
  intros Hm Hk w Hw. specialize (Hm w Hw). unfold mbind, M_bind.
  destruct (m w) as [[a|e] w']; [by apply Hk|done].
Qed.

Lemma triple_ret P (a : A) (Q : A -> vmw -> Prop) E :
  (forall w, P w -> Q a w) -> triple P (mret a) Q E.
Proof. intros H w Hw. by apply H. Qed.

Lemma triple_raise P e (Q : A -> vmw -> Prop) E :
  (forall w, P w -> E w) -> triple P (raise e) Q E.
Proof. intros H w Hw. by apply H. Qed.

Lemma triple_gets P (f : vmw -> A) (Q : A -> vmw -> Prop) E :
  (forall w, P w -> Q (f w) w) -> triple P (gets f) Q E.
Proof. intros H w Hw. by apply H. Qed.

Lemma triple_try P m h (Q : A -> vmw -> Prop) R E :
  triple P m Q R -> (forall e, triple R (h e) Q E) -> triple P (try_except m h) Q E.
Proof.
  intros Hm Hh w Hw. specialize (Hm w Hw). unfold try_except.
  destruct (m w) as [[a|e] w']; [done|by apply Hh].
Qed.

Lemma triple_conseq P m (Q Q' : A -> vmw -> Prop) E :
  triple P m Q E -> (forall a w, Q a w -> Q' a w) -> triple P m Q' E.
Proof.
  intros H HQ w Hw. specialize (H w Hw). destruct (m w) as [[a|e] w']; auto.
Qed.
End triples.

Lemma triple_modify P f (Q : unit -> vmw -> Prop) E :
  (forall w, P w -> Q tt (f w)) -> triple P (modify f) Q E.
Proof. intros H w Hw. by apply H. Qed.

(** What an operation leaves alone whatever happens. *)
Definition keeps {A} (m : VM A) (R : vmw -> vmw -> Prop) : Prop := forall w, R w (m w).2.

Lemma keeps_bind {A B} (m : VM A) (k : A -> VM B) R :
  Transitive R -> keeps m R -> (forall a, keeps (k a) R) -> keeps (m ≫= k) R.
Proof.
  intros HR Hm Hk w. specialize (Hm w). unfold mbind, M_bind.
  destruct (m w) as [[a|e] w']; [|done]. etransitivity; [exact Hm|apply Hk].
Qed.

Lemma keeps_try {A} (m : VM A) h R :
  Transitive R -> keeps m R -> (forall e, keeps (h e) R) -> keeps (try_except m h) R.
Proof.
  intros HR Hm Hk w. specialize (Hm w). unfold try_except.
  destruct (m w) as [[a|e] w']; [done|]. etransitivity; [exact Hm|apply Hk].
Qed.

(** Files, checkpoint, memo and launch history. *)
Definition same_disk (w w' : vmw) : Prop :=
  fs w' = fs w /\ overlay w' = overlay w /\ overlay_key w' = overlay_key w /\
  hash_cache w' = hash_cache w /\ launches w' = launches w.
#[export] Instance same_disk_pre : PreOrder same_disk.
Proof. split; [by intros w|intros w1 w2 w3 (?&?&?&?&?) (?&?&?&?&?); unfold same_disk; naive_solver congruence]. Qed.

Lemma keeps_ret {A} (a : A) : keeps (mret a) same_disk.
Proof. by intros w. Qed.
Lemma keeps_raise {A} e : keeps (raise e : VM A) same_disk.
Proof. by intros w. Qed.
Lemma keeps_gets {A} (f : vmw -> A) : keeps (gets f) same_disk.
Proof. by intros w. Qed.
Lemma keeps_note n : keeps (note n) same_disk.
Proof. by intros w. Qed.
Lemma keeps_tick {os : OS} : keeps vm_tick same_disk.
Proof. by intros w. Qed.
Lemma keeps_host {A} (m : M host qemu_error A) : keeps (in_host m) same_disk.
Proof. intros w. unfold in_host. by destruct (m (vm_host w)) as [[]]. Qed.
Lemma keeps_monitor b : keeps (modify (set_monitor b)) same_disk.
Proof. by intros w. Qed.
Lemma keeps_warm_fail c : keeps (modify (set_warm_fail c)) same_disk.
Proof. by intros w. Qed.

Create HintDb keeps.
#[export] Hint Resolve keeps_ret keeps_raise keeps_gets keeps_note keeps_tick keeps_host
  keeps_monitor keeps_warm_fail : keeps.

Ltac keeps :=
  repeat first
    [ progress intros
    | solve [eauto 2 with keeps]
    | apply keeps_bind; [apply _| |]
    | apply keeps_try; [apply _| |]
    | case_match ].

Section kept.
Context {os : OS} {T : Tools} {G : Guest}.
Variables (st : vm_settings) (cfg : InstanceConfig) (index : Z).

Lemma keeps_port : keeps (adb_port cfg index) same_disk.
Proof. unfold adb_port. keeps. Qed.
Hint Resolve keeps_port : keeps.

Lemma keeps_down : keeps (down cfg index) same_disk.
Proof. unfold down. keeps. Qed.

Lemma keeps_wait_loop fuel port budget deadline :
  keeps (wait_loop fuel port budget deadline) same_disk.
Proof. induction fuel; cbn [wait_loop]; unfold vm_sleep; keeps. Qed.

Lemma keeps_boot_loop fuel deadline : keeps (boot_loop fuel deadline) same_disk.
Proof. induction fuel; cbn [boot_loop]; unfold vm_sleep, _boot_completed; keeps. Qed.
Hint Resolve keeps_wait_loop keeps_boot_loop keeps_down : keeps.

Lemma keeps_wait_or_down acc : keeps (wait_or_down st cfg index acc) same_disk.
Proof. unfold wait_or_down, _wait_for_adb_connect. keeps. Qed.

Lemma keeps_wait_booted : keeps _wait_for_boot_completed same_disk.
Proof. unfold _wait_for_boot_completed. keeps. Qed.

Lemma keeps_artifact c e l : keeps (_resolve_artifact c e l) same_disk.
Proof. unfold _resolve_artifact. keeps. Qed.

Lemma keeps_present : keeps snapshot_present same_disk.
Proof. unfold snapshot_present. keeps. Qed.

Lemma keeps_preserve : keeps _preserve_warm_fail_console same_disk.
Proof. unfold _preserve_warm_fail_console. keeps. Qed.

Lemma keeps_revert : keeps (_warn_on_boot_cache_data_revert cfg) same_disk.
Proof. unfold _warn_on_boot_cache_data_revert. keeps. Qed.

Lemma keeps_accel : keeps (resolved_accel cfg) same_disk.
Proof. intros w. unfold resolved_accel. by destruct (detect_accel _ _ _). Qed.
End kept.
#[export] Hint Resolve keeps_port keeps_down keeps_wait_or_down keeps_wait_booted keeps_artifact
  keeps_present keeps_preserve keeps_revert keeps_accel : keeps.

(** ** A resume restores the machine it is asked for *)

Section resume.
Context {os : OS} {T : Tools} (TL : ToolsLaws T).
Variable content_at : string * Z * Z -> string.

Definition trunc_digest (pre : string) : string :=
  String.substring 0 _IDENTITY_HEX_LEN (sha256 pre).

(** The sidecar names every snapshot of the overlay. *)
Definition keyed (w : vmw) : Prop :=
  forall d s, overlay w = Some d -> s ∈ d_snaps d -> read_identity w = Some (trunc_digest s.2).

(** A launch that resumes finds the snapshot, and the overlay's snapshots were taken
    of a machine with the identity of the one being launched. *)
Definition launch_ok (l : launch_record) : Prop :=
  forall tag, l_loadvm l = Some tag ->
  exists d, l_overlay l = Some d /\ tag ∈ (d_snaps d).*1 /\
    forall s, s ∈ d_snaps d -> trunc_digest s.2 = trunc_digest (l_preimage l).

Record good (w : vmw) : Prop := {
  good_fs : fs_ok content_at w;
  good_cache : cache_ok content_at w;
  good_keyed : keyed w;
  good_launches : Forall launch_ok (launches w) }.

Lemma good_same w w' : same_disk w w' -> good w -> good w'.
Proof.
  intros (Hf & Ho & Hk & Hc & Hl) [G1 G2 G3 G4].
  split; unfold fs_ok, cache_ok, keyed, read_identity in *; rewrite ?Hf, ?Ho, ?Hk, ?Hc, ?Hl; done.
Qed.

(** Predicates that survive what [same_disk] allows. *)
Definition stable (P : vmw -> Prop) : Prop := forall w w', same_disk w w' -> P w -> P w'.

Lemma triple_keeps {A} (P : vmw -> Prop) (m : VM A) (E : vmw -> Prop) :
  stable P -> (forall w, P w -> E w) -> keeps m same_disk -> triple P m (fun _ => P) E.
Proof.
  intros Hs HE Hk w Hw. specialize (Hk w). destruct (m w) as [[a|e] w']; cbn in Hk.
  - by eapply Hs.
  - by eapply HE, Hs.
Qed.

Context {G : Guest}.
Variables (st : vm_settings) (cfg : InstanceConfig) (index : Z) (dir : string).
Variables (acc : ResolvedAccel) (kernel base_rootfs : string) (i : inputs).

Definition booting (w : vmw) : Prop :=
  inputs_at w kernel base_rootfs (resolved_smp cfg) (memory_mib (vm cfg)) acc = Some i.
Definition ready (w : vmw) : Prop := good w /\ booting w.
(** The overlay there is was keyed for this launch. *)
Definition current (w : vmw) : Prop := read_identity w = Some (digest_of i).

Lemma stable_good : stable good.
Proof. intros w w'. apply good_same. Qed.
Lemma stable_ready : stable ready.
Proof.
  intros w w' Hs [Hg Hb]. split; [by eapply good_same|]. unfold booting, inputs_at in *.
  destruct Hs as (-> & _). done.
Qed.
Lemma stable_current : stable (fun w => ready w /\ current w).
Proof.
  intros w w' Hs [Hr Hc]. split; [by eapply stable_ready|]. unfold current, read_identity in *.
  by destruct Hs as (_ & _ & -> & _).
Qed.

Lemma digest_text j : strip (digest_of j) = digest_of j /\ digest_of j <> "".
Proof.
  destruct (sha256_hex (preimage j)) as [Hh Hl]. unfold digest_of, _IDENTITY_HEX_LEN.
  set (h := sha256 (preimage j)) in *.
  assert (forall n s, chars (String.substring 0 n s) = take n (chars s)) as Hsub.
  { clear. induction n as [|n IH]; intros [|c s]; try done. cbn. by f_equal. }
  split.
  - apply strip_none. unfold all_chars in *. rewrite Hsub.
    rewrite <- (take_drop 16 (chars h)), forallb_app, andb_true_iff in Hh.
    destruct Hh as [Hh _]. rewrite forallb_forall in *. intros c Hc%Hh.
    unfold is_hex, is_digit, in_range, is_space in *.
    rewrite !orb_true_iff, !andb_true_iff, !Nat.leb_le in Hc.
    rewrite negb_true_iff, orb_false_iff, !andb_false_iff, !Nat.leb_gt.
    change (code "0") with 48%nat in Hc. change (code "9") with 57%nat in Hc.
    change (code "a") with 97%nat in Hc. change (code "A") with 65%nat in Hc. lia.
  - destruct h as [|c h]; [done|]. done.
Qed.

Lemma read_recorded w j : overlay_key w = Some (digest_of j) -> read_identity w = Some (digest_of j).
Proof.
  intros Hk. unfold read_identity. rewrite Hk. cbn [fmap option_fmap option_map].
  destruct (digest_text j) as [-> Hne]. by destruct (digest_of j).
Qed.

Lemma identity_run w : ready w ->
  exists c, base_identity kernel base_rootfs (resolved_smp cfg) (memory_mib (vm cfg)) acc w
            = (Ok (digest_of i), set_hash_cache c w) /\ ready (set_hash_cache c w).
Proof.
  intros [[G1 G2 G3 G4] Hb].
  destruct (base_identity_run content_at w kernel base_rootfs (resolved_smp cfg)
    (memory_mib (vm cfg)) acc i) as (c & Hrun & Hc); try done.
  exists c. split; [done|]. by split.
Qed.

Lemma triple_record :
  triple (fun w => ready w /\ exists b, overlay w = Some (mkDisk b []))
    (record_identity kernel base_rootfs (resolved_smp cfg) (memory_mib (vm cfg)) acc)
    (fun _ w => (ready w /\ current w) /\ is_Some (overlay w)) good.
Proof.
  intros w [Hr [b Ho]]. unfold record_identity.
  destruct (identity_run w Hr) as (c & Hrun & [[G1 G2 G3 G4] Hb]).
  rewrite (M_bind_ok _ _ _ _ _ Hrun). cbn. split; [|by rewrite Ho]. split.
  - split; [|exact Hb]. split; try done. intros d s. cbn. rewrite Ho. intros [= <-]. cbn. set_solver.
  - by apply read_recorded.
Qed.

Lemma triple_create :
  triple ready (create_overlay base_rootfs)
    (fun _ w => ready w /\ exists b, overlay w = Some (mkDisk b [])) good.
Proof.
  unfold create_overlay. eapply triple_bind.
  { eapply (triple_keeps ready); [apply stable_ready|by intros w []|apply keeps_tick]. }
  intros ?. eapply triple_bind; [apply (triple_gets _ _ (fun _ => ready)); auto|].
  intros []; [|apply triple_raise; by intros w []..].
  apply triple_modify. intros w [[G1 G2 G3 G4] Hb]. split; [|by eexists].
  split; [|exact Hb]. split; try done. intros d s [= <-]. cbn. set_solver.
Qed.

Lemma triple_fresh :
  triple ready (fresh_overlay cfg acc kernel base_rootfs)
    (fun _ w => (ready w /\ current w) /\ is_Some (overlay w)) good.
Proof. unfold fresh_overlay. eapply triple_bind; [apply triple_create|intros ?; apply triple_record]. Qed.

Lemma triple_discard : triple ready discard_overlay (fun _ w => ready w /\ overlay w = None) good.
Proof.
  intros w [[G1 G2 G3 G4] Hb]. cbn. split; [|done]. split; [|exact Hb]. split; done.
Qed.

(** What pruning leaves is either nothing or an overlay keyed for this launch. *)
Lemma triple_prune :
  triple ready (prune_overlay cfg acc kernel base_rootfs)
    (fun _ w => ready w /\ (overlay w = None \/ current w)) good.
Proof.
  assert (triple ready discard_overlay
    (fun _ w => ready w /\ (overlay w = None \/ current w)) good) as Hd.
  { eapply triple_conseq; [apply triple_discard|]. naive_solver. }
  unfold prune_overlay. eapply triple_bind.
  { apply (triple_gets _ _ (fun o w => ready w /\ o = overlay w)). done. }
  intros [d|]; [|apply triple_ret; intros w [Hr Ho]; auto].
  eapply (triple_bind _ _ _ (fun stale w => ready w /\ (stale = false -> current w))).
  - unfold overlay_is_stale. intros w [Hr _]. unfold mbind at 1, M_bind at 1, gets at 1.
    destruct (identity_run w Hr) as (c & Hrun & Hr').
    rewrite (M_bind_ok _ _ _ _ _ Hrun). cbn. split; [done|].
    by intros Hs%negb_false_iff%bool_decide_eq_true.
  - intros [].
    + eapply (triple_bind _ _ _ (fun _ => ready)); [|intros ?; exact Hd].
      intros w [Hr _]. apply (stable_ready w); [apply keeps_note|done].
    + eapply (triple_bind _ _ _ (fun _ w => ready w /\ current w)).
      * intros w [Hr Hc]. specialize (Hc eq_refl).
        pose proof (keeps_present w) as Hk. pose proof (conj Hr Hc) as Hrc.
        destruct (snapshot_present w) as [[b|e] w']; cbn in Hk.
        -- by eapply stable_current.
        -- eapply good_same; [exact Hk|]. apply Hr.
      * intros []; cbn [negb].
        -- apply triple_ret. tauto.
        -- intros w [Hr _]. by apply Hd.
Qed.

Lemma keeps_stable {A} (m : VM A) (P : vmw -> Prop) w :
  keeps m same_disk -> stable P -> P w -> P (m w).2.
Proof. intros Hk HP Hw. eapply HP; [apply Hk|done]. Qed.

(** A resume is only attempted on an overlay that holds the snapshot. *)
Lemma present_sound w : fst (snapshot_present w) = Ok true ->
  exists d, overlay w = Some d /\ SNAPSHOT_TAG ∈ (d_snaps d).*1.
Proof.
  unfold snapshot_present, gets, vm_tick, modify, mbind, M_bind, mret, M_ret.
  destruct (overlay w) as [d|]; [|done]. cbn [fst].
  destruct (img_list _ d) as [out|] eqn:Ho; [|done]. intros [= Hl].
  exists d. split; [done|]. by eapply img_list_sound.
Qed.

(** The overlay holds the snapshot to resume, if there is one to resume. *)
Definition resumable (loadvm : option string) (w : vmw) : Prop :=
  forall tag, loadvm = Some tag -> exists d, overlay w = Some d /\ tag ∈ (d_snaps d).*1.

Lemma triple_launch loadvm :
  triple (fun w => (ready w /\ current w) /\ resumable loadvm w)
    (_launch st cfg index dir acc kernel base_rootfs loadvm)
    (fun _ w => ready w /\ current w) ready.
Proof.
  assert (stable (fun w => (ready w /\ current w) /\ resumable loadvm w)) as Hst.
  { intros w w' Hs [Hrc Hl]. split; [by eapply stable_current|]. unfold resumable in *.
    by destruct Hs as (_ & -> & _). }
  unfold _launch. eapply triple_bind.
  { apply (triple_keeps _ _ _ Hst); [by intros w [[] _]|apply keeps_port]. }
  intros port. eapply triple_bind.
  { apply (triple_keeps _ _ _ Hst); [by intros w [[] _]|apply keeps_host]. }
  intros pid. eapply triple_bind.
  { apply (triple_keeps _ _ _ Hst); [by intros w [[] _]|apply keeps_monitor]. }
  intros ?. eapply (triple_bind _ _ _ (fun _ w => ready w /\ current w)).
  - apply triple_modify. intros w [[[[G1 G2 G3 G4] Hb] Hc] Hl]. split; [|exact Hc].
    split; [|exact Hb]. split; try done. cbn [launches log_launch].
    apply Forall_app. split; [done|]. apply Forall_singleton. intros tag Ht. cbn in Ht.
    destruct (Hl tag Ht) as (d & Ho & Hd). exists d. split; [done|]. split; [done|].
    intros s Hs. cbn [l_preimage]. unfold booted_preimage. unfold booting in Hb. rewrite Hb. cbn.
    pose proof (G3 d s Ho Hs) as Hk. unfold current in Hc. rewrite Hc in Hk. by injection Hk.
  - intros ?. apply triple_keeps; [apply stable_current|by intros w []|apply keeps_wait_or_down].
Qed.

Lemma triple_boot_overlay :
  triple (fun w => ready w /\ current w)
    (boot_overlay st cfg index dir acc kernel base_rootfs)
    (fun warm w => ready w /\ (warm = false -> current w)) good.
Proof.
  assert (triple (fun w => ready w /\ current w)
    (_launch st cfg index dir acc kernel base_rootfs None ;; mret false)
    (fun warm w => ready w /\ (warm = false -> current w)) good) as Hcold.
  { eapply (triple_bind _ _ _ (fun _ w => ready w /\ current w)).
    - intros w Hw. assert (resumable None w) as Hn by done.
      pose proof (triple_launch None w (conj Hw Hn)) as H.
      destruct (_launch _ _ _ _ _ _ _ _ w) as [[]]; [done|apply H].
    - intros ?. apply triple_ret. naive_solver. }
  unfold boot_overlay.
  eapply (triple_bind _ _ _ (fun warm w => (ready w /\ current w) /\
    (warm = true -> resumable (Some SNAPSHOT_TAG) w))).
  { intros w Hw. pose proof (keeps_stable _ _ w keeps_present stable_current Hw) as Hk.
    pose proof (present_sound w) as Hp. pose proof (keeps_present w) as (_ & Ho & _).
    destruct (snapshot_present w) as [[b|e] w']; cbn in *; [|apply Hk].
    split; [done|]. intros -> tag [= <-]. destruct (Hp eq_refl) as (d & Hd & Hin).
    exists d. by rewrite Ho. }
  intros []; [|eapply (triple_bind _ _ _ (fun _ w => ready w /\ current w)); [|intros ?; exact Hcold];
               intros w [Hw _]; apply (stable_current w); [apply keeps_note|done]].
  assert (stable (fun w => (ready w /\ current w) /\ resumable (Some SNAPSHOT_TAG) w)) as Hst.
  { intros w w' Hs [Hrc Hl]. split; [by eapply stable_current|]. unfold resumable in *.
    by destruct Hs as (_ & -> & _). }
  eapply (triple_bind _ _ _ (fun _ w => (ready w /\ current w) /\ resumable (Some SNAPSHOT_TAG) w)).
  { intros w [Hw Hp]. apply (Hst w); [apply keeps_note|]. auto. }
  intros ?. eapply triple_bind.
  { apply (triple_keeps _ _ _ Hst); [by intros w [[[]]]|apply keeps_revert]. }
  intros ?. eapply triple_try.
  - eapply triple_bind; [apply triple_launch|]. intros ?. apply triple_ret. naive_solver.
  - intros e. destruct (is_launch_error e); [|apply triple_raise; by intros w []].
    eapply triple_bind.
    { apply (triple_keeps ready); [apply stable_ready|by intros w []|apply keeps_preserve]. }
    intros ?. eapply triple_bind.
    { apply (triple_keeps ready); [apply stable_ready|by intros w []|apply keeps_note]. }
    intros ?. eapply (triple_bind _ _ _ (fun _ => ready)).
    { eapply triple_conseq; [apply triple_discard|]. naive_solver. }
    intros ?. eapply (triple_bind _ _ _ (fun _ w => ready w /\ current w)).
    { eapply triple_conseq; [apply triple_fresh|]. naive_solver. }
    intros ?. exact Hcold.
Qed.

Lemma triple_checkpoint :
  triple (fun w => ready w /\ current w) (checkpoint (preimage i)) (fun _ => good) good.
Proof.
  assert (forall w, ready w /\ current w -> good w) as Hg by (by intros w [[]]).
  unfold checkpoint. eapply triple_bind.
  { apply (triple_keeps _ _ _ stable_current); [exact Hg|apply keeps_wait_booted]. }
  intros []; cbn [negb].
  2:{ intros w Hw. apply (good_same w); [apply keeps_note|auto]. }
  eapply (triple_bind _ _ _ (fun _ => good)).
  2:{ intros []; intros w Hw; (apply (good_same w); [apply keeps_note|done]). }
  unfold save_snapshot. eapply triple_bind.
  { apply (triple_keeps _ _ _ stable_current); [exact Hg|apply keeps_tick]. }
  intros ?. eapply triple_bind.
  { apply (triple_gets _ _ (fun _ w => ready w /\ current w)). done. }
  intros w0. destruct (if monitor_socket w0 then _ else None) as [s|].
  2:{ apply triple_ret. exact Hg. }
  eapply (triple_bind _ _ _ (fun _ => good)); [|intros ?; by apply triple_ret].
  destruct (command_sent s && s_saved s); [|by apply triple_ret].
  apply triple_modify. intros w [[[G1 G2 G3 G4] Hb] Hc]. split; try done.
  intros d s' Hd Hs'. cbn in Hd. destruct (overlay w) as [d0|] eqn:Ho; [|done].
  injection Hd as <-. cbn in Hs'. apply elem_of_app in Hs' as [Hs'|Hs'].
  - by apply (G3 d0).
  - apply list_elem_of_singleton in Hs' as ->. exact Hc.
Qed.
End resume.

Section lifetime.
Context {os : OS} {T : Tools} (TL : ToolsLaws T) {G : Guest}.
Variable content_at : string * Z * Z -> string.

Lemma artifact_exists c e l w p w' :
  _resolve_artifact c e l w = (Ok p, w') -> w' = w /\ is_Some (fs w !! p).
Proof.
  unfold _resolve_artifact. destruct (or_unset c e) as [name|]; [|done].
  unfold gets, mbind, M_bind. cbn [id]. destruct (fs w !! expanduser_resolve name) eqn:Hf; [|done].
  intros [= <- <-]. by rewrite Hf.
Qed.

Lemma artifact_same c e l w p v :
  fs v = fs w -> _resolve_artifact c e l w = (Ok p, w) -> _resolve_artifact c e l v = (Ok p, v).
Proof.
  unfold _resolve_artifact. destruct (or_unset c e) as [name|]; [|done].
  unfold gets, mbind, M_bind. cbn [id]. intros ->.
  by destruct (fs w !! expanduser_resolve name); intros [= ->].
Qed.

Lemma triple_up_cached st cfg index dir acc :
  triple (good content_at) (_up_cached st cfg index dir acc) (fun _ => good content_at) (good content_at).
Proof.
  intros w Hg. unfold _up_cached.
  destruct (_resolve_artifact (kernel (vm cfg)) (vm_kernel st) "kernel" w) as [[k|e] w1] eqn:Hk.
  2:{ rewrite (M_bind_err _ _ _ _ _ Hk). eapply good_same; [|exact Hg].
      pose proof (keeps_artifact (kernel (vm cfg)) (vm_kernel st) "kernel" w) as H. by rewrite Hk in H. }
  rewrite (M_bind_ok _ _ _ _ _ Hk). apply artifact_exists in Hk as [-> [fk Hfk]].
  destruct (_resolve_artifact (rootfs (vm cfg)) (vm_rootfs st) "rootfs" w) as [[r|e] w1] eqn:Hr.
  2:{ rewrite (M_bind_err _ _ _ _ _ Hr). eapply good_same; [|exact Hg].
      pose proof (keeps_artifact (rootfs (vm cfg)) (vm_rootfs st) "rootfs" w) as H. by rewrite Hr in H. }
  rewrite (M_bind_ok _ _ _ _ _ Hr). apply artifact_exists in Hr as [-> [fr Hfr]].
  assert (exists i, booting cfg acc k r i w) as [i Hb].
  { unfold booting, inputs_at. rewrite Hfk, Hfr. cbn. by eexists. }
  pose proof (conj Hg Hb : ready content_at cfg acc k r i w) as Hready. revert Hready.
  generalize w. change (triple (ready content_at cfg acc k r i)
    (modify (set_monitor false) ;; prune_overlay cfg acc k r ;;
     o ← gets overlay;
     (match o with None => fresh_overlay cfg acc k r | Some _ => mret tt end) ;;
     warm ← boot_overlay st cfg index dir acc k r;
     if warm : bool then mret tt
     else taken ← gets (booted_preimage cfg acc k r); checkpoint taken)
    (fun _ => good content_at) (good content_at)).
  eapply triple_bind.
  { apply (triple_keeps (ready content_at cfg acc k r i)); [apply stable_ready|by intros ? []|].
    apply keeps_monitor. }
  intros ?. eapply triple_bind; [by apply triple_prune|].
  intros ?. eapply (triple_bind _ _ _ (fun o w => (ready content_at cfg acc k r i w /\
    (overlay w = None \/ current i w)) /\ o = overlay w)).
  { by apply triple_gets. }
  intros o. eapply (triple_bind _ _ _ (fun _ w => ready content_at cfg acc k r i w /\ current i w)).
  { destruct o as [d|].
    - apply triple_ret. intros w' [[Hw' [Ho|Hc]] Hd]; [congruence|done].
    - intros w' [[Hw' _] _].
      pose proof (triple_fresh TL content_at cfg acc k r i w' Hw') as H.
      destruct (fresh_overlay cfg acc k r w') as [[]]; [apply H|done]. }
  intros ?. eapply triple_bind; [by apply triple_boot_overlay|].
  intros []; [apply triple_ret; by intros ? [[]]|].
  eapply (triple_bind _ _ _ (fun taken w => (ready content_at cfg acc k r i w /\ current i w) /\
    taken = preimage i)).
  { apply triple_gets. intros w' [Hw' Hc]. split; [by auto|]. unfold booted_preimage.
    destruct Hw' as [_ Hb']. unfold booting in Hb'. by rewrite Hb'. }
  intros taken w' [Hw' ->]. by apply (triple_checkpoint content_at cfg acc k r i).
Qed.

Lemma up_good st cfg index dir baked w :
  good content_at w -> good content_at (up st cfg index dir baked w).2.
Proof.
  intros Hg.
  assert (triple (good content_at) (up st cfg index dir baked)
    (fun _ => good content_at) (good content_at)) as H.
  2:{ specialize (H w Hg). by destruct (up _ _ _ _ _ w) as [[]]. }
  assert (forall A (m : VM A), keeps m same_disk ->
    triple (good content_at) m (fun _ => good content_at) (good content_at)) as Hk.
  { intros A m Hm. by apply (triple_keeps (good content_at)); [apply stable_good| |]. }
  unfold up. destruct (bool_decide _); [by apply triple_raise|].
  eapply triple_bind; [apply Hk; unfold _warn_on_rootfs_version_skew; keeps|].
  intros ?. eapply triple_bind; [apply Hk; apply keeps_accel|].
  intros acc. destruct (boot_cache (vm cfg)); [apply triple_up_cached|].
  apply Hk. unfold build_argv. keeps.
Qed.

(** What happens to an instance over time: commands, rebuilt artifacts, other
    processes, a new process with an empty memo, a checkpoint deleted by hand. *)
Inductive vm_step : vmw -> vmw -> Prop :=
| step_up st cfg index dir baked w : vm_step w (up st cfg index dir baked w).2
| step_down cfg index w : vm_step w (down cfg index w).2
| step_files f w : fs_ok content_at (set_fs f w) -> vm_step w (set_fs f w)
| step_host h w : vm_step w (set_host h w)
| step_process w : vm_step w (set_hash_cache ∅ w)
| step_delete w : vm_step w (set_overlay None w).

Lemma vm_step_good w w' : vm_step w w' -> good content_at w -> good content_at w'.
Proof.
  intros [] Hg; [by apply up_good|eapply good_same; [apply keeps_down|done]|..];
    destruct Hg as [G1 G2 G3 G4]; split; try done; intros key h; cbn; by rewrite ?lookup_empty.
Qed.

(** C13. A warm start restores the machine it is asked for.  Along every history of
    commands and artifact rebuilds that starts without a checkpoint, every launch
    with [-loadvm] finds an overlay that holds the snapshot, all of whose snapshots
    were taken of a machine with the same identity — kernel, rootfs, vCPUs, memory,
    accelerator — as the one being launched. *)
Theorem resume_restores_same_machine w0 w :
  fs_ok content_at w0 -> hash_cache w0 = ∅ -> overlay w0 = None -> launches w0 = [] ->
  rtc vm_step w0 w -> Forall launch_ok (launches w).
Proof.
  intros Hf Hc Ho Hl Hr.
  assert (good content_at w0) as Hg.
  { split; [done|intros key h; by rewrite Hc, lookup_empty|intros d s; by rewrite Ho|by rewrite Hl]. }
  assert (good content_at w) as [_ _ _ H]; [|exact H]. clear Hf Hc Ho Hl.
  induction Hr as [|w1 w2 w3 Hs _ IH]; [done|]. apply IH. by eapply vm_step_good.
Qed.
End lifetime.

(** ** A failed start leaves no orphan *)

Section waiting.
Context {os : OS} (OL : OSLaws os) {T : Tools} {G : Guest}.
Variables (st : vm_settings) (cfg : InstanceConfig) (index : Z).

Definition same_pidfile (w w' : vmw) : Prop := pidfile (vm_host w') = pidfile (vm_host w).

Lemma is_running_frame port h :
  pidfile (is_running port h).2 = pidfile h /\ clock (is_running port h).2 = clock h /\
  sent (is_running port h).2 = sent h.
Proof.
  rewrite is_running_run. destruct (read_pid h) as [pid|]; [|done]. unfold os_kill.
  case_decide; [|done]. unfold tick, modify, gets, mbind, M_bind, mret, M_ret.
  repeat case_match; simplify_eq; done.
Qed.

(** One round of the ADB wait. *)
Lemma wait_loop_S fuel port budget deadline w :
  wait_loop (S fuel) port budget deadline w =
  let w1 := set_host (ticked (vm_host w)) w in
  if _adb_connect_ok (adb_connect (calls_of w1)) then (Ok tt, w1)
  else match is_running (Some port) (vm_host w1) with
       | (Err e, h) => (Err (QemuErr e), set_host h w1)
       | (Ok running, h) =>
           if negb running then (Err VmExited, set_host h w1)
           else if deadline <=? clock h then (Err (AdbTimeout budget), set_host h w1)
           else wait_loop fuel port budget deadline (set_host (sleep _ADB_CONNECT_POLL h).2 w1)
       end.
Proof.
  cbn [wait_loop]. cbn zeta. set (w1 := set_host (ticked (vm_host w)) w).
  rewrite (M_bind_ok vm_tick _ w tt w1) by done.
  rewrite (M_bind_ok (gets _) _ w1 (adb_connect (calls_of w1)) w1) by done.
  destruct (_adb_connect_ok _); [done|].
  unfold in_host at 1. unfold mbind at 1, M_bind at 1.
  destruct (is_running (Some port) (vm_host w1)) as [[b|e] h]; [|done].
  destruct b; cbn [negb]; [|done].
  unfold gets, mbind, M_bind. cbn [vm_host set_host]. by destruct (deadline <=? clock h).
Qed.

Lemma wait_loop_run fuel port budget deadline w :
  deadline - clock (vm_host w) <= 1000 * Z.of_nat fuel ->
  exists r w', wait_loop (S fuel) port budget deadline w = (r, w') /\
    r <> Err VmOutOfFuel /\ same_pidfile w w'.
Proof.
  revert w. induction fuel as [|fuel IH]; intros w Hf; rewrite wait_loop_S; cbn zeta;
    (destruct (_adb_connect_ok _); [by eexists _, _|]);
    set (w1 := set_host (ticked (vm_host w)) w);
    destruct (is_running_frame (Some port) (vm_host w1)) as (Hp & Hc & _);
    destruct (is_running (Some port) (vm_host w1)) as [[b|e] h]; cbn [snd vm_host set_host w1 ticked pidfile clock] in Hp, Hc;
    [|by eexists _, _| |by eexists _, _]; (destruct b; cbn [negb]; [|by eexists _, _]);
    (destruct (Z.leb_spec deadline (clock h)); [by eexists _, _|]).
  - lia.
  - destruct (IH (set_host (sleep _ADB_CONNECT_POLL h).2 w1)) as (r & w' & Hr & Hne & Hpf).
    { change (clock (vm_host (set_host (sleep _ADB_CONNECT_POLL h).2 w1)))
        with (clock h + _ADB_CONNECT_POLL + oversleep (calls h)).
      unfold _ADB_CONNECT_POLL. pose proof (oversleep_nonneg (calls h)). lia. }
    exists r, w'. split; [exact Hr|]. split; [done|]. unfold same_pidfile in *.
    rewrite Hpf. cbn. exact Hp.
Qed.

(** C36. The ADB wait of a start always ends — within the accelerator's deadline, one
    attempt a second — and when it fails in any way the just-launched VM does not
    stay behind: the process the pidfile named has been terminated (or is not ours
    any more), and the pidfile is gone, so the next start is not refused. *)
Theorem failed_wait_leaves_no_orphan acc w r w' port :
  adb_port cfg index w = (Ok port, w) -> 0 <= vm_adb_connect_timeout st ->
  wait_or_down st cfg index acc w = (r, w') ->
  r <> Err VmOutOfFuel /\
  forall e, r = Err e ->
    pidfile (vm_host w') = None /\
    exists h l, sent (vm_host w') = sent h ++ l /\
      forall pid, read_pid (vm_host w) = Some pid -> outcome (Some port) pid h (vm_host w') l.
Proof.
  intros Hport Ht Hrun.
  assert (forall v, adb_port cfg index v = (Ok port, v)) as Hp.
  { intros v. revert Hport. unfold adb_port. repeat case_match; by intros [= ->]. }
  assert (exists r1 w1, _wait_for_adb_connect st cfg index acc w = (r1, w1) /\
    r1 <> Err VmOutOfFuel /\ same_pidfile w w1) as (r1 & w1 & Hw & Hne & Hpf).
  { unfold _wait_for_adb_connect. destruct (negb adb_on_path); [by eexists _, _|].
    rewrite (M_bind_ok _ _ _ _ _ (Hp w)). cbn zeta. unfold gets, mbind, M_bind.
    apply wait_loop_run. unfold _adb_connect_deadline_seconds. destruct acc; lia. }
  unfold wait_or_down, try_except in Hrun. rewrite Hw in Hrun.
  destruct r1 as [[]|e1]; [injection Hrun as <- <-; split; [done|by intros]|].
  destruct (terminate_run OL (Some port) (vm_host w1)) as (b & h' & l & Hterm & Hpid & Hs & _ & _ & Ho).
  assert (down cfg index w1 = (Ok tt, set_host h' w1)) as Hd.
  { unfold down. rewrite (M_bind_ok _ _ _ _ _ (Hp w1)). unfold mbind, M_bind, in_host.
    by rewrite Hterm. }
  rewrite (M_bind_ok _ _ _ _ _ Hd) in Hrun. injection Hrun as <- <-.
  split; [done|]. intros e [= <-]. split; [exact Hpid|]. exists (vm_host w1), l. split; [exact Hs|].
  intros pid Hrp. apply Ho. unfold read_pid in *. by rewrite Hpf.
Qed.
End waiting.

(** ** Starting an instance that is already running *)

Section second_up.
Context {os : OS} (OL : OSLaws os) {T : Tools} {G : Guest}.
Variables (st : vm_settings) (cfg : InstanceConfig) (index : Z) (dir : string).
Variables (port pid : Z) (q : proc).
(** The VM keeps running, and what [qemu-img] lists depends on the image alone. *)
Hypothesis lives : forall n t, t !! pid = Some q -> env n t !! pid = Some q.
Hypothesis has_port : forall w, adb_port cfg index w = (Ok port, w).
Hypothesis ours_q : cmdline_is_qemu (Some port) (cmdline (p_argv q)) = true.
Hypothesis same_list : forall n m d, img_list n d = img_list m d.

Definition vm_runs (w : vmw) : Prop :=
  read_pid (vm_host w) = Some pid /\ procs (vm_host w) !! pid = Some q.

Lemma start_refused argv h :
  read_pid h = Some pid -> procs h !! pid = Some q ->
  exists h', start (Some port) argv h = (Err (AlreadyRunning (Some pid)), h') /\
    read_pid h' = Some pid /\ procs h' !! pid = Some q.
Proof.
  intros Hp Hq.
  assert (survives pid q h) as Hs by (split; cbn; auto).
  destruct (is_running_survivor OL (Some port) h pid q Hp Hs) as (h' & Hr & Hpf & Hprocs & _).
  rewrite ours_q in Hr. exists h'.
  assert (read_pid h' = Some pid) as Hp' by (unfold read_pid in *; by rewrite Hpf).
  split; [|split; [done|]].
  - unfold start. rewrite (M_bind_ok _ _ _ _ _ Hr). unfold mbind, M_bind, gets, raise. by rewrite Hp'.
  - rewrite Hprocs. cbn. auto.
Qed.

(** The running VM, a monitor socket that is gone, and a fact about the overlay. *)
Definition during (X : option disk -> Prop) (w : vmw) : Prop :=
  vm_runs w /\ monitor_socket w = false /\ X (overlay w).

Lemma during_tick X w : during X w -> during X (set_host (ticked (vm_host w)) w).
Proof. intros ([Hp Hq] & Hm & Ho). repeat split; try done. cbn. auto. Qed.

Lemma launch_refused X acc kernel base_rootfs loadvm w :
  during X w -> exists w', _launch st cfg index dir acc kernel base_rootfs loadvm w
    = (Err (QemuErr (AlreadyRunning (Some pid))), w') /\ during X w'.
Proof.
  intros ([Hp Hq] & Hm & Ho). unfold _launch. rewrite (M_bind_ok _ _ _ _ _ (has_port w)).
  destruct (start_refused (build_qemu_argv (qemu_bin st) acc kernel (overlay_path dir)
    (resolved_smp cfg) (memory_mib (vm cfg)) port qcow2 None (Some (monitor_path dir)) loadvm)
    (vm_host w) Hp Hq) as (h' & Hs & Hp' & Hq').
  unfold mbind, M_bind, in_host. rewrite Hs. eexists. split; [reflexivity|]. done.
Qed.

Lemma hash_file_ok path w f : fs w !! path = Some f ->
  exists d c, _hash_file path w = (Ok d, set_hash_cache c w).
Proof.
  intros Hf. unfold _hash_file, gets, mbind, M_bind. cbn [id]. rewrite Hf.
  destruct (hash_cache w !! _); [exists s, (hash_cache w)|]; [by destruct w|].
  eexists _, _. reflexivity.
Qed.

Lemma base_identity_ok kernel base_rootfs s m acc w fk fr :
  fs w !! kernel = Some fk -> fs w !! base_rootfs = Some fr ->
  exists d c, base_identity kernel base_rootfs s m acc w = (Ok d, set_hash_cache c w).
Proof.
  intros Hk Hr. destruct (hash_file_ok kernel w fk Hk) as (dk & c1 & H1).
  destruct (hash_file_ok base_rootfs (set_hash_cache c1 w) fr Hr) as (dr & c2 & H2).
  unfold base_identity, identity_inputs. eexists _, c2.
  unfold mbind, M_bind. by rewrite H1, H2.
Qed.

(** No overlay, or one without a snapshot. *)
Definition no_checkpoint (o : option disk) : Prop := forall d, o = Some d -> d_snaps d = [].

Lemma fresh_during acc kernel base_rootfs :
  triple (during (fun o => o = None)) (fresh_overlay cfg acc kernel base_rootfs)
    (fun _ => during no_checkpoint) (during no_checkpoint).
Proof.
  intros w Hw. unfold fresh_overlay, create_overlay, vm_tick, modify, gets, mbind, M_bind.
  apply during_tick in Hw. set (w1 := set_host _ w) in *.
  assert (during no_checkpoint w1) as H1.
  { destruct Hw as (Hr & Hm & Ho). do 2 (split; [done|]). rewrite Ho. done. }
  destruct (img_create _); [|done|done]. unfold record_identity, mbind, M_bind.
  assert (forall c, during no_checkpoint (set_hash_cache c (set_overlay (Some (mkDisk base_rootfs [])) w1))) as H2.
  { intros c. destruct H1 as (Hr & Hm & _). do 2 (split; [done|]). by intros d [= <-]. }
  assert (keeps (base_identity kernel base_rootfs (resolved_smp cfg) (memory_mib (vm cfg)) acc)
    (fun w w' => exists c, w' = set_hash_cache c w)) as Hk.
  { assert (forall p, keeps (_hash_file p) (fun w w' => exists c, w' = set_hash_cache c w)) as Hh.
    { intros p v. destruct (fs v !! p) as [f|] eqn:Hf.
      - destruct (hash_file_ok p v f Hf) as (d & c & ->). by exists c.
      - unfold _hash_file, gets, mbind, M_bind. cbn [id]. rewrite Hf.
        exists (hash_cache v). by destruct v. }
    assert (Transitive (fun w w' : vmw => exists c, w' = set_hash_cache c w)) as Htr.
    { intros a b d [c1 ->] [c2 ->]. by exists c2. }
    unfold base_identity, identity_inputs.
    apply keeps_bind; [done| |intros ? v; exists (hash_cache v); by destruct v].
    apply keeps_bind; [done|apply Hh|intros ?].
    apply keeps_bind; [done|apply Hh|intros ? v; exists (hash_cache v); by destruct v]. }
  specialize (Hk (set_overlay (Some (mkDisk base_rootfs [])) w1)).
  destruct (base_identity _ _ _ _ _ _) as [[d|e] w'] eqn:Hb; cbn in Hk; destruct Hk as [c ->]; [|apply H2].
  destruct (H2 c) as (Hr & Hm & Ho). done.
Qed.

(** Whatever is there before the resume, the overlay ends without a checkpoint. *)
Lemma warm_branch acc kernel base_rootfs X :
  triple (during X)
    (try_except (_launch st cfg index dir acc kernel base_rootfs (Some SNAPSHOT_TAG) ;; mret true)
      (fun e =>
         if is_launch_error e then
           _preserve_warm_fail_console ;; note WarmResumeFailed ;; discard_overlay ;;
           fresh_overlay cfg acc kernel base_rootfs ;;
           _launch st cfg index dir acc kernel base_rootfs None ;; mret false
         else raise e))
    (fun _ _ => False) (during no_checkpoint).
Proof.
  intros w Hw. unfold try_except.
  destruct (launch_refused X acc kernel base_rootfs (Some SNAPSHOT_TAG) w Hw) as (w1 & Hl & Hw1).
  rewrite (M_bind_err _ _ _ _ _ Hl). cbn [is_launch_error].
  revert w1 Hw1 Hl. intros w1 Hw1 _. revert w1 Hw1.
  change (triple (during X)
    (_preserve_warm_fail_console ;; note WarmResumeFailed ;; discard_overlay ;;
     fresh_overlay cfg acc kernel base_rootfs ;;
     _launch st cfg index dir acc kernel base_rootfs None ;; mret false)
    (fun _ _ => False) (during no_checkpoint)).
  eapply (triple_bind _ _ _ (fun _ => during X)).
  { intros w1 Hw1. unfold _preserve_warm_fail_console, gets, mbind, M_bind.
    by destruct (console_log (vm_host w1)). }
  intros ?. eapply (triple_bind _ _ _ (fun _ => during X)); [by intros w1|].
  intros ?. eapply (triple_bind _ _ _ (fun _ => during (fun o => o = None))).
  { intros w1 (Hr & Hm & _). done. }
  intros ?. eapply triple_bind; [apply fresh_during|].
  intros ? w1 Hw1. destruct (launch_refused _ acc kernel base_rootfs None w1 Hw1) as (w2 & Hl2 & Hw2).
  by rewrite (M_bind_err _ _ _ _ _ Hl2).
Qed.

Lemma cold_branch acc kernel base_rootfs X :
  triple (during X)
    (note ColdBooting ;; _launch st cfg index dir acc kernel base_rootfs None ;; mret false)
    (fun _ _ => False) (during X).
Proof.
  eapply (triple_bind _ _ _ (fun _ => during X)); [by intros w|].
  intros ? w Hw. destruct (launch_refused _ acc kernel base_rootfs None w Hw) as (w2 & Hl2 & Hw2).
  by rewrite (M_bind_err _ _ _ _ _ Hl2).
Qed.

(** What [qemu-img] says of an image. *)
Definition listing (d : disk) : bool :=
  match img_list 0 d with Some out => listed SNAPSHOT_TAG out | None => false end.

Lemma snapshot_present_run X w : during X w ->
  exists w', snapshot_present w = (Ok (match overlay w with Some d => listing d | None => false end), w') /\
    during X w' /\ overlay w' = overlay w /\ fs w' = fs w.
Proof.
  intros Hw. unfold snapshot_present, gets, vm_tick, modify, mbind, M_bind, mret, M_ret.
  destruct (overlay w) as [d|] eqn:Ho; [|by eexists].
  eexists. split; [|split; [by apply during_tick|done]].
  unfold listing. by rewrite (same_list _ 0%nat).
Qed.

Lemma boot_during acc kernel base_rootfs (X : option disk -> Prop) :
  (forall d, X (Some d) -> listing d = false -> d_snaps d = []) ->
  triple (during X) (boot_overlay st cfg index dir acc kernel base_rootfs)
    (fun _ _ => False) (during no_checkpoint).
Proof.
  intros HX w Hw. unfold boot_overlay.
  destruct (snapshot_present_run X w Hw) as (w1 & Hp & Hw1 & Ho & _).
  rewrite (M_bind_ok _ _ _ _ _ Hp).
  destruct (match overlay w with Some d => listing d | None => false end) eqn:Hl.
  - revert w1 Hw1 Hp Ho. intros w1 Hw1 _ _. revert w1 Hw1.
    change (triple (during X)
      (note ResumingSnapshot ;; _warn_on_boot_cache_data_revert cfg ;;
       try_except (_launch st cfg index dir acc kernel base_rootfs (Some SNAPSHOT_TAG) ;; mret true)
         (fun e => if is_launch_error e then
             _preserve_warm_fail_console ;; note WarmResumeFailed ;; discard_overlay ;;
             fresh_overlay cfg acc kernel base_rootfs ;;
             _launch st cfg index dir acc kernel base_rootfs None ;; mret false
           else raise e)) (fun _ _ => False) (during no_checkpoint)).
    eapply (triple_bind _ _ _ (fun _ => during X)); [by intros v|].
    intros ?. eapply (triple_bind _ _ _ (fun _ => during X)).
    { intros v Hv. unfold _warn_on_boot_cache_data_revert. by destruct (lifecycle cfg). }
    intros ?. apply warm_branch.
  - apply cold_branch. destruct Hw1 as (Hr & Hm & Hx). do 2 (split; [done|]).
    rewrite Ho in *. intros d Hd. rewrite Hd in Hl, Hx. by apply HX.
Qed.

Lemma prune_during acc kernel base_rootfs fk fr d w :
  fs w !! kernel = Some fk -> fs w !! base_rootfs = Some fr ->
  during (eq (Some d)) w ->
  exists w', prune_overlay cfg acc kernel base_rootfs w = (Ok tt, w') /\
    (during (eq None) w' \/ during (eq (Some d)) w' /\ listing d = true).
Proof.
  intros Hk Hr Hw. pose proof Hw as (Hrun & Hm & Ho). unfold prune_overlay.
  rewrite (M_bind_ok (gets overlay) _ w (Some d) w) by (by rewrite Ho).
  destruct (base_identity_ok kernel base_rootfs (resolved_smp cfg) (memory_mib (vm cfg)) acc w fk fr Hk Hr)
    as (i & c & Hid).
  set (w1 := set_hash_cache c w) in *.
  assert (during (eq (Some d)) w1) as H1 by done.
  assert (exists b, overlay_is_stale kernel base_rootfs (resolved_smp cfg) (memory_mib (vm cfg)) acc w
                    = (Ok b, w1)) as [b Hs].
  { unfold overlay_is_stale, gets, mbind, M_bind. rewrite Hid. by eexists. }
  rewrite (M_bind_ok _ _ _ _ _ Hs). destruct b.
  - eexists. split; [reflexivity|]. by left.
  - destruct (snapshot_present_run _ w1 H1) as (w2 & Hp & Hw2 & Ho2 & _).
    rewrite (M_bind_ok _ _ _ _ _ Hp). change (overlay w1) with (overlay w). rewrite <- Ho.
    destruct (listing d) eqn:Hl; cbn [negb].
    + exists w2. split; [done|]. by right.
    + eexists. split; [reflexivity|]. left. by destruct Hw2 as (? & ? & ?).
Qed.

(** Both artifacts of the configuration are on disk. *)
Definition artifacts_at (kp rp : string) (w : vmw) : Prop :=
  _resolve_artifact (kernel (vm cfg)) (vm_kernel st) "kernel" w = (Ok kp, w) /\
  _resolve_artifact (rootfs (vm cfg)) (vm_rootfs st) "rootfs" w = (Ok rp, w).

Lemma up_cached_running acc kp rp d w :
  artifacts_at kp rp w -> vm_runs w -> overlay w = Some d ->
  exists e w', _up_cached st cfg index dir acc w = (Err e, w') /\ during no_checkpoint w'.
Proof.
  intros [Hk Hr] Hrun Ho. unfold _up_cached.
  rewrite (M_bind_ok _ _ _ _ _ Hk), (M_bind_ok _ _ _ _ _ Hr).
  apply artifact_exists in Hk as [_ [fk Hfk]]. apply artifact_exists in Hr as [_ [fr Hfr]].
  set (w1 := set_monitor false w).
  rewrite (M_bind_ok (modify (set_monitor false)) _ w tt w1) by done.
  destruct (prune_during acc kp rp fk fr d w1 Hfk Hfr) as (w2 & Hp & Hw2); [done|].
  rewrite (M_bind_ok _ _ _ _ _ Hp).
  rewrite (M_bind_ok (gets overlay) _ w2 (overlay w2) w2) by done.
  destruct Hw2 as [Hw2|[Hw2 Hl]]; pose proof Hw2 as (_ & _ & <-).
  - assert (during (fun o => o = None) w2) as Hn by (by destruct Hw2 as (? & ? & ?)).
    pose proof (fresh_during acc kp rp w2 Hn) as Hf.
    destruct (fresh_overlay cfg acc kp rp w2) as [[[]|e] w3] eqn:He.
    2:{ rewrite (M_bind_err _ _ _ _ _ He). eauto. }
    rewrite (M_bind_ok _ _ _ _ _ He).
    pose proof (boot_during acc kp rp no_checkpoint ltac:(intros ? H ?; by apply H) w3 Hf) as Hb.
    destruct (boot_overlay _ _ _ _ _ _ _ w3) as [[?|e] w4] eqn:Hbo; [done|].
    rewrite (M_bind_err _ _ _ _ _ Hbo). eauto.
  - rewrite (M_bind_ok (mret tt) _ w2 tt w2) by done.
    assert (forall d', Some d = Some d' -> listing d' = false -> d_snaps d' = []) as HX.
    { intros ? [= <-]. congruence. }
    pose proof (boot_during acc kp rp (eq (Some d)) HX w2 Hw2) as Hb.
    destruct (boot_overlay _ _ _ _ _ _ _ w2) as [[?|e] w4] eqn:Hbo; [done|].
    rewrite (M_bind_err _ _ _ _ _ Hbo). eauto.
Qed.
End second_up.

(** Starting an instance whose VM is already running is refused, but with the
    boot cache on the refusal comes too late: whatever overlay the running VM has,
    [up] has by then unlinked it and the monitor socket — the VM's disk and its only
    checkpoint are gone, although the VM itself is still running. *)
Theorem second_up_destroys_checkpoint {os : OS} (OL : OSLaws os) {T : Tools} {G : Guest}
    st cfg index dir baked port pid q acc kp rp d w :
  (forall n t, t !! pid = Some q -> env n t !! pid = Some q) ->
  (forall v, adb_port cfg index v = (Ok port, v)) ->
  cmdline_is_qemu (Some port) (cmdline (p_argv q)) = true ->
  (forall n m d, img_list n d = img_list m d) ->
  binder cfg = binder_vm -> boot_cache (vm cfg) = true ->
  resolved_accel cfg w = (Ok acc, w) -> artifacts_at st cfg kp rp w ->
  vm_runs pid q w -> overlay w = Some d ->
  exists e w', up st cfg index dir baked w = (Err e, w') /\
    vm_runs pid q w' /\ monitor_socket w' = false /\ no_checkpoint (overlay w').
Proof.
  intros Hlives Hport Hours Hlist Hb Hbc Hacc [Hk Hr] Hrun Ho.
  assert (exists w1, _warn_on_rootfs_version_skew st cfg baked w = (Ok tt, w1) /\
    vm_host w1 = vm_host w /\ fs w1 = fs w /\ overlay w1 = overlay w) as (w1 & Hw & Hh & Hf & Ho1).
  { unfold _warn_on_rootfs_version_skew, try_except. rewrite (M_bind_ok _ _ _ _ _ Hr).
    destruct (baked rp) as [v|]; [|by eexists]. destruct (decide _); by eexists. }
  assert (forall v, resolved_accel cfg v = (Ok acc, v)) as Ha.
  { intros v. revert Hacc. unfold resolved_accel. by destruct (detect_accel _ _ _); intros [= ->]. }
  unfold up. rewrite bool_decide_eq_false_2 by (intros H; by apply H).
  rewrite (M_bind_ok _ _ _ _ _ Hw), (M_bind_ok _ _ _ _ _ (Ha w1)), Hbc.
  destruct (up_cached_running OL st cfg index dir port pid q Hlives Hport Hours Hlist
    acc kp rp d w1) as (e & w' & Hup & H1 & H2 & H3).
  - split; eapply artifact_same; eauto.
  - unfold vm_runs. by rewrite Hh.
  - by rewrite Ho1.
  - exists e, w'. auto.
Qed.

(** ** Concrete runs *)

(** The guest answers [adb connect] from the first attempt on, or never. *)
Definition sample_guest (attached : bool) : Guest := {|
  adb_connect _ := if attached then Some (0, "connected to localhost:5555", "") else Some (0, "failed to connect", "");
  getprop _ := Some ("1" +:+ String newline "");
  adb_on_path := true;
  machine := "x86_64";
  dev_kvm_usable := false;
  affinity := Some [0; 1; 2; 3];
  cpu_count := Some 4;
  cpuinfo := Some (render_cpuinfo sample_cpuinfo);
  expanduser_resolve p := p |}.

Definition sample_settings : vm_settings := mkVmSettings "qemu-system-x86_64" "" "" 60.

(** A VM instance with the boot cache on. *)
Definition sample_cfg (cached : bool) : InstanceConfig :=
  let c := InstanceConfig_default in
  mkInstanceConfig (api_version c) (lifecycle c) (android c) (display c) (resources c)
    (frida c) (modules c) (magisk c) (ports c) binder_vm
    (mkVm (Some "/k/bzImage") (Some "/k/rootfs.img") accel_auto smp_auto 8192 cached).

Definition good_session : session :=
  mkSession (map Some sample_banner) true (map Some sample_reply) true.

Definition sample_up (attached : bool) (w : vmw) : result vm_error unit * vmw :=
  up (os := sample_os 1000) (T := sample_tools (Some good_session)) (G := sample_guest attached)
    sample_settings (sample_cfg true) 0 "/inst" (fun _ => None) w.

(** Cold boot and checkpoint, then a warm start. *)
Definition first_up : vmw := (sample_up true boot_vmw).2.
Definition rebooted : vmw := (sample_up true (set_host sample_host first_up)).2.

Lemma resume_restores_same_machine_witness :
  map (l_loadvm) (launches rebooted) = [None; Some SNAPSHOT_TAG] /\
  Forall (launch_ok (T := sample_tools (Some good_session))) (launches rebooted).
Proof.
  split; [by vm_compute|].
  apply (resume_restores_same_machine (os := sample_os 1000) (G := sample_guest true)
    (sample_tools_laws (Some good_session)) sample_content boot_vmw rebooted);
    [apply sample_fs_ok|done..|].
  eapply rtc_l; [apply (step_up _ sample_settings (sample_cfg true) 0 "/inst" (fun _ => None))|].
  eapply rtc_l; [apply (step_host _ sample_host)|].
  eapply rtc_l; [apply (step_up _ sample_settings (sample_cfg true) 0 "/inst" (fun _ => None))|].
  apply rtc_refl.
Defined.

Lemma sample_adb_port cached w : adb_port (sample_cfg cached) 0 w = (Ok 5555, w).
Proof. reflexivity. Qed.

(** A guest that never answers is terminated when the minute is over. *)
Lemma failed_wait_leaves_no_orphan_witness :
  exists e w', wait_or_down (os := sample_os 1000) (G := sample_guest false)
      sample_settings (sample_cfg false) 0 kvm (set_host (started "qemu-system-x86_64") boot_vmw)
    = (Err e, w') /\ e = AdbTimeout 60 /\ pidfile (vm_host w') = None.
Proof.
  destruct (wait_or_down (os := sample_os 1000) (G := sample_guest false)
      sample_settings (sample_cfg false) 0 kvm (set_host (started "qemu-system-x86_64") boot_vmw))
    as [r w'] eqn:Hrun.
  destruct (failed_wait_leaves_no_orphan (sample_laws 1000)
    (G := sample_guest false) sample_settings (sample_cfg false) 0 kvm _ r w' 5555
    (sample_adb_port false _) ltac:(by vm_compute) Hrun) as [_ H].
  assert (r = Err (AdbTimeout 60)) as ->.
  { apply (f_equal fst) in Hrun. cbn [fst] in Hrun. rewrite <- Hrun. by vm_compute. }
  exists (AdbTimeout 60), w'. split; [done|]. split; [done|]. by apply (H (AdbTimeout 60)).
Defined.

(** Processes that live on. *)
Definition eternal_os : OS := {|
  env _ t := filter (fun '(pid, _) => 0 < pid < 2 ^ 31) t;
  oversleep _ := 0;
  spawn_pid _ t _ := if decide (t !! 4242 = None) then Some 4242 else None;
  group_kill _ := Some true |}.

Lemma eternal_laws : OSLaws eternal_os.
Proof.
  split.
  - intros n t pid p. unfold env, eternal_os. rewrite map_lookup_filter_Some. by intros [_ ?].
  - done.
  - intros n t argv pid. cbn. case_decide; [|done]. intros [= <-]. split; [done|lia].
Qed.

Definition warm_vmw : vmw :=
  mkVmw running_host sample_fs ∅ (Some (mkDisk "/k/rootfs.img" [(SNAPSHOT_TAG, "taken")])) None
    true None [] [].

Lemma second_up_destroys_checkpoint_witness :
  exists e w', up (os := eternal_os) (T := sample_tools (Some good_session)) (G := sample_guest true)
      sample_settings (sample_cfg true) 0 "/inst" (fun _ => None) warm_vmw = (Err e, w') /\
    vm_runs 77 (mkProc (sample_argv "qemu-system-x86_64" 5555) true) w' /\
    no_checkpoint (overlay w').
Proof.
  destruct (second_up_destroys_checkpoint eternal_laws (T := sample_tools (Some good_session))
    (G := sample_guest true) sample_settings (sample_cfg true) 0 "/inst" (fun _ => None) 5555 77
    (mkProc (sample_argv "qemu-system-x86_64" 5555) true) tcg "/k/bzImage" "/k/rootfs.img"
    (mkDisk "/k/rootfs.img" [(SNAPSHOT_TAG, "taken")]) warm_vmw) as (e & w' & H1 & H2 & _ & H3);
    try reflexivity.
  - intros n t Ht. unfold env, eternal_os. rewrite map_lookup_filter_Some. split; [done|lia].
  - split; reflexivity.
  - split; reflexivity.
  - exists e, w'. auto.
Defined.
