(* ===== verification/Survey.v ===== *)
(** * What this host can run ([hostcheck.py], [capabilities.py])

    The binder probe, the policy of [up] for a configured binder mode, and the
    run-mode matrix of [beetroot modes]. *)
From stdpp Require Import base list strings.
From Stdlib Require Import ZArith Lia Ascii.
From S2P Require Import Prelude PyStr Config Qemu BootCache.
Local Open Scope stdpp_scope.

(** ** The binder probe *)

Inductive KernelBinderConfig : Type := conf_y | conf_m | conf_not_set.
Inductive BinderState : Type := ready | loadable | unsupported | unknown.
#[export] Instance BinderState_eq_dec : EqDecision BinderState.
Proof. solve_decision. Defined.

Record BinderStatus := mkBinderStatus { state : BinderState; reason : string; remedy : string }.

Definition available (s : BinderStatus) : bool := bool_decide (state s = ready).

(** [text] is [/proc/filesystems], [None] where it cannot be read. *)
Definition _binderfs_supported (text : option string) : bool :=
  match text with
  | None => false
  | Some t => existsb (fun line => match last (split_ws line) with
                                   | Some f => String.eqb f "binder"
                                   | None => false
                                   end) (splitlines t)
  end.

(** The decompressed [/proc/config.gz], else [/boot/config-<release>]. *)
Definition _kernel_config_lines (proc_config boot_config : option string) : list string :=
  match proc_config with
  | Some t => splitlines t
  | None => match boot_config with Some t => splitlines t | None => [] end
  end.

Definition _KERNEL_CONFIG_KEY : string := "CONFIG_ANDROID_BINDER_IPC".

Fixpoint strip_leading (c : ascii) (l : list ascii) : list ascii :=
  match l with d :: l' => if ascii_dec d c then strip_leading c l' else l | [] => [] end.
(** [s.strip(c)] of one character. *)
Definition strip_char (c : ascii) (s : string) : string :=
  of_chars (rev (strip_leading c (rev (strip_leading c (chars s))))).

Definition quotation : ascii := ascii_of_nat 34.

Fixpoint _kernel_config_binder (lines : list string) : option KernelBinderConfig :=
  match lines with
  | [] => None
  | raw_line :: lines' =>
      let line := strip raw_line in
      if starts_with (_KERNEL_CONFIG_KEY +:+ "=") line then
        let value := strip_char quotation (strip (default "" (partition_on "=" line).2)) in
        if String.eqb value "y" then Some conf_y
        else if String.eqb value "m" then Some conf_m
        else _kernel_config_binder lines'
      else if String.eqb line ("# " +:+ _KERNEL_CONFIG_KEY +:+ " is not set") then Some conf_not_set
      else _kernel_config_binder lines'
  end.

Definition conf_text (c : KernelBinderConfig) : string :=
  match c with conf_y => "y" | conf_m => "m" | conf_not_set => "not-set" end.

Definition _classify (dev_present binderfs : bool) (kconfig : option KernelBinderConfig)
  : BinderStatus :=
  if dev_present || binderfs then
    mkBinderStatus ready "binder is available (device nodes or binderfs present)" ""
  else
    match kconfig with
    | Some conf_not_set =>
        mkBinderStatus unsupported
          ("this kernel has binder compiled out (" +:+ _KERNEL_CONFIG_KEY +:+ " is not set) — redroid cannot boot here regardless of Docker privileges")
          "use a host whose kernel provides binder, or adopt a remote rooted device with `beetroot adopt <serial>` (no kernel access needed)"
    | Some c =>
        mkBinderStatus loadable
          ("the kernel supports binder (" +:+ _KERNEL_CONFIG_KEY +:+ "=" +:+ conf_text c +:+ ") but it is not loaded — no /dev/binder, no binderfs")
          "load it on the host with `sudo modprobe binder_linux devices=binder,hwbinder,vndbinder` (works on GitHub-hosted CI runners), then retry"
    | None =>
        mkBinderStatus unknown
          "binder is not present and the kernel config could not be read, so binder support can't be determined"
          "if redroid fails to boot, ensure the host kernel provides binder, or adopt a remote rooted device with `beetroot adopt <serial>`"
    end.

Definition binder_status (dev_present : bool) (filesystems proc_config boot_config : option string)
  : BinderStatus :=
  _classify dev_present (_binderfs_supported filesystems)
    (_kernel_config_binder (_kernel_config_lines proc_config boot_config)).

(** ** The policy of [up] *)

Inductive BinderAction : Type := proceed | warn | block | run_vm.
Record BinderPlan := mkBinderPlan {
  action : BinderAction; plan_reason : string; plan_remedy : string }.

Definition _VM_HINT : string :=
  "Or set `binder: vm` in beetroot.yaml to run redroid inside an emulated micro-VM that ships its own binder kernel (slower; no host binder required)".
Definition _VM_ENGAGED : string :=
  "binder: vm — booting redroid inside an emulated QEMU micro-VM that ships its own binder kernel (no host binder required); see docs/design/binderless-hosts-qemu-tcg.md".

Definition plan_binder_runtime (mode : Binder) (status : BinderStatus) : BinderPlan :=
  match mode with
  | binder_vm => mkBinderPlan run_vm _VM_ENGAGED ""
  | _ =>
      if available status then mkBinderPlan proceed (reason status) ""
      else
        let remedy :=
          if String.eqb (remedy status) "" then _VM_HINT
          else remedy status +:+ ". " +:+ _VM_HINT in
        match mode with
        | binder_host => mkBinderPlan block (reason status) remedy
        | _ => mkBinderPlan warn (reason status) remedy
        end
  end.

(** ** The run-mode matrix *)

Inductive support : Type := supported | needs_setup | not_supported | undetermined.
#[export] Instance support_eq_dec : EqDecision support.
Proof. solve_decision. Defined.
Inductive run_mode : Type := MODE_REDROID_HOST | MODE_VM_KVM | MODE_VM_TCG | MODE_ADB.

(** The verdict of a row; its texts are the messages of the source. *)
Record ModeSupport := mkModeSupport { mode : run_mode; status : support }.

Definition _redroid_host (binder : BinderStatus) (docker docker_daemon host_is_x86_64 : bool)
  : ModeSupport :=
  mkModeSupport MODE_REDROID_HOST
    (if negb host_is_x86_64 then not_supported
     else match state binder with
          | ready =>
              if negb docker then needs_setup
              else if negb docker_daemon then needs_setup else supported
          | loadable => needs_setup
          | unsupported => not_supported
          | unknown => undetermined
          end).

Definition _vm_kvm (kvm qemu_present host_is_x86_64 : bool) : ModeSupport :=
  mkModeSupport MODE_VM_KVM
    (if negb host_is_x86_64 then not_supported
     else if negb kvm then not_supported
     else if negb qemu_present then needs_setup else supported).

Definition _vm_tcg (qemu_present : bool) : ModeSupport :=
  mkModeSupport MODE_VM_TCG (if negb qemu_present then needs_setup else supported).

Definition _adb_adopt (adb_present : bool) : ModeSupport :=
  mkModeSupport MODE_ADB (if negb adb_present then needs_setup else supported).

Definition classify_modes (binder : BinderStatus) (kvm qemu_present docker docker_daemon
    adb_present host_is_x86_64 : bool) : list ModeSupport :=
  [_redroid_host binder docker docker_daemon host_is_x86_64;
   _vm_kvm kvm qemu_present host_is_x86_64; _vm_tcg qemu_present; _adb_adopt adb_present].

(** The live probes: which binaries are on the PATH, whether the Docker daemon
    answers, the machine and [/dev/kvm], and the binder probe's inputs. *)
Record probes := mkProbes {
  which_docker : bool; docker_info : option Z; which_qemu : bool; which_adb : bool;
  p_machine : string; p_dev_kvm : bool; p_dev_binder : bool;
  p_filesystems : option string; p_proc_config : option string; p_boot_config : option string }.

(** [docker info] ended with this exit code in time; [None]: it could not be run, or was
    cut off. *)
Definition docker_daemon_responsive (r : option Z) : bool :=
  match r with Some code => (code =? 0)%Z | None => false end.
Definition daemon_answers (p : probes) : bool := docker_daemon_responsive (docker_info p).

Definition host_binder (p : probes) : BinderStatus :=
  binder_status (p_dev_binder p) (p_filesystems p) (p_proc_config p) (p_boot_config p).

Definition survey (p : probes) : list ModeSupport :=
  classify_modes (host_binder p)
    (bool_decide (detect_accel (p_machine p) (p_dev_kvm p) accel_auto = Ok kvm))
    (which_qemu p) (which_docker p) (which_docker p && daemon_answers p) (which_adb p)
    (host_is_guest_arch (p_machine p)).

(** The verdict of one mode of the matrix. *)
Definition verdict (m : run_mode) (l : list ModeSupport) : list support :=
  omap (fun r => match m, mode r with
                 | MODE_REDROID_HOST, MODE_REDROID_HOST | MODE_VM_KVM, MODE_VM_KVM
                 | MODE_VM_TCG, MODE_VM_TCG | MODE_ADB, MODE_ADB => Some (status r)
                 | _, _ => None
                 end) l.

(** C40. The matrix promises what the launch paths do: a VM with KVM is [supported]
    exactly where QEMU is installed and an explicit [accel: kvm] is honoured, and
    ruled out exactly where that request is refused; the emulated VM only ever needs
    QEMU; and where the container mode is [supported], Docker answers and [up] goes
    ahead without a warning in both host modes. *)
Theorem survey_agrees_with_launch p :
  (verdict MODE_VM_KVM (survey p) = [supported] <->
     detect_accel (p_machine p) (p_dev_kvm p) accel_kvm = Ok kvm /\ which_qemu p = true) /\
  (verdict MODE_VM_KVM (survey p) = [not_supported] <->
     is_ok (detect_accel (p_machine p) (p_dev_kvm p) accel_kvm) = false) /\
  (verdict MODE_VM_TCG (survey p) = [supported] <-> which_qemu p = true) /\
  (verdict MODE_REDROID_HOST (survey p) = [supported] <->
     host_is_guest_arch (p_machine p) = true /\ which_docker p && daemon_answers p = true /\
     action (plan_binder_runtime binder_auto (host_binder p)) = proceed /\
     action (plan_binder_runtime binder_host (host_binder p)) = proceed).
Proof.
  unfold survey, detect_accel, plan_binder_runtime, available.
  destruct p as [docker info qemu adb machine dev_kvm ? ? ? ?]. unfold daemon_answers. cbn.
  generalize (docker_daemon_responsive info) as daemon. intros daemon.
  destruct (host_binder _) as [s ? ?]. cbn.
  destruct (host_is_guest_arch machine), dev_kvm, docker, daemon, qemu, s; cbn; naive_solver.
Qed.

(** The micro-VM is never engaged unasked, and a refusal always says what to do. *)
Lemma plan_remedy_hint mode s :
  mode <> binder_vm -> available s = false ->
  contains _VM_HINT (plan_remedy (plan_binder_runtime mode s)) = true.
Proof.
  intros Hm Hs. unfold plan_binder_runtime. rewrite Hs.
  assert (contains _VM_HINT _VM_HINT = true) as Hr by (apply contains_spec; by exists "", "").
  destruct mode; try done; cbn [plan_remedy];
    (destruct (String.eqb_spec (remedy s) ""); [done|]); by do 2 apply contains_app_r.
Qed.

(** The binder policy: [up] runs the micro-VM exactly when the configuration
    says so, refuses exactly for [binder: host] on a host without a ready binder,
    warns exactly for [auto] there, and every warning and refusal carries a remedy
    that names the micro-VM. *)
Theorem binder_plan_spec m s :
  (action (plan_binder_runtime m s) = run_vm <-> m = binder_vm) /\
  (action (plan_binder_runtime m s) = block <-> m = binder_host /\ state s <> ready) /\
  (action (plan_binder_runtime m s) = warn <-> m = binder_auto /\ state s <> ready) /\
  (match action (plan_binder_runtime m s) with
   | warn | block => contains _VM_HINT (plan_remedy (plan_binder_runtime m s)) = true
   | _ => plan_remedy (plan_binder_runtime m s) = ""
   end).
Proof.
  assert (available s = false <-> state s <> ready) as Ha.
  { unfold available. by rewrite bool_decide_eq_false. }
  destruct (available s) eqn:Hs.
  - assert (state s = ready) by (by apply bool_decide_eq_true in Hs).
    unfold plan_binder_runtime. rewrite Hs. destruct m; cbn; naive_solver.
  - assert (state s <> ready) by tauto. pose proof (plan_remedy_hint m s) as Hh.
    revert Hh. unfold plan_binder_runtime. rewrite Hs. destruct m; cbn; naive_solver.
Qed.
