(* ===== verification/Shell.v ===== *)
(** * Words of a device's shell

    [shlex.quote], as the code uses it to get a command through two parses: the shell of
    the device splits what [adb shell] sends, and [su -c] starts a second one. *)
From stdpp Require Import base list strings sets.
From Stdlib Require Import ZArith Lia Ascii.
From S2P Require Import Prelude PyStr.
Local Open Scope stdpp_scope.

Definition apostrophe : ascii := ascii_of_nat 39.
Definition double_quote : ascii := ascii_of_nat 34.

(** The characters [shlex] leaves alone. *)
Definition shell_safe (c : ascii) : bool :=
  is_alnum c || bool_decide (c ∈ chars "_@%+=:,./-").

(** [s.replace] of an apostrophe by its quoted form, character by character. *)
Definition quoted_char (c : ascii) : list ascii :=
  if decide (c = apostrophe) then [apostrophe; double_quote; apostrophe; double_quote; apostrophe] else [c].

Definition shlex_quote (s : string) : string :=
  if String.eqb s "" then of_chars [apostrophe; apostrophe]
  else if all_chars shell_safe s then s
  else of_chars ([apostrophe] ++ concat (map quoted_char (chars s)) ++ [apostrophe]).

(** ** What a shell makes of a text *)

(** The parts of a word, as far as the standard fixes them: characters without a special
    meaning, text between apostrophes, and a quoted apostrophe. *)
Inductive segment : Type :=
| Bare (l : list ascii)
| Literal (l : list ascii)
| QuotedApostrophe.

Definition segment_ok (g : segment) : Prop :=
  match g with
  | Bare l => l <> [] /\ forallb shell_safe l = true
  | Literal l => apostrophe ∉ l
  | QuotedApostrophe => True
  end.

Definition segment_text (g : segment) : list ascii :=
  match g with
  | Bare l => l
  | Literal l => [apostrophe] ++ l ++ [apostrophe]
  | QuotedApostrophe => [double_quote; apostrophe; double_quote]
  end.
Definition segment_value (g : segment) : list ascii :=
  match g with Bare l | Literal l => l | QuotedApostrophe => [apostrophe] end.

Abbreviation word := (list segment).
Definition word_ok (w : word) : Prop := w <> [] /\ Forall segment_ok w.
Definition word_text (w : word) : string := of_chars (concat (map segment_text w)).
Definition word_value (w : word) : string := of_chars (concat (map segment_value w)).

(** The first word of a command is no assignment. *)
Definition no_assignment (ws : list word) : Prop :=
  match ws with w :: _ => "="%char ∉ chars (word_text w) | [] => True end.

(** [device_words argv]: the words the shell of the device runs for [adb shell argv];
    [su_words args]: those of the shell that [su -c args] starts. *)
Class DeviceShell := {
  device_words : list string -> list string;
  su_words : list string -> list string }.

(** Both join their arguments with blanks and split the text as POSIX says. *)
Class DeviceShellLaws (S : DeviceShell) : Prop := {
  device_splits : forall argv ws, Forall word_ok ws -> no_assignment ws ->
    join " " argv = join " " (map word_text ws) -> device_words argv = map word_value ws;
  su_splits : forall argv ws, Forall word_ok ws -> no_assignment ws ->
    join " " argv = join " " (map word_text ws) -> su_words argv = map word_value ws }.

(** ** Quoting is undone by one parse *)

(** The segments of a quoted text: between two apostrophes of [s] a literal. *)
Fixpoint pieces (cur : list ascii) (l : list ascii) : word :=
  match l with
  | [] => [Literal cur]
  | c :: l' => if decide (c = apostrophe) then Literal cur :: QuotedApostrophe :: pieces [] l'
               else pieces (cur ++ [c]) l'
  end.

Definition quote_word (s : string) : word :=
  if String.eqb s "" then [Literal []]
  else if all_chars shell_safe s then [Bare (chars s)]
  else pieces [] (chars s).

Lemma pieces_ok l : forall cur, apostrophe ∉ cur -> Forall segment_ok (pieces cur l).
Proof.
  induction l as [|c l IH]; intros cur Hcur; simpl; [by repeat constructor|].
  case_decide as Hc.
  - do 2 (constructor; [done|]). apply IH. set_solver.
  - apply IH. set_solver.
Qed.

Lemma pieces_nonempty l : forall cur, pieces cur l <> [].
Proof. induction l as [|c l IH]; intros cur; simpl; [done|]. case_decide; [done|apply IH]. Qed.

Lemma pieces_value l : forall cur, concat (map segment_value (pieces cur l)) = cur ++ l.
Proof.
  induction l as [|c l IH]; intros cur; simpl; [by rewrite app_nil_r|].
  case_decide as Hc; simpl; rewrite IH; [by rewrite Hc|by rewrite <- app_assoc].
Qed.

Lemma pieces_text l : forall cur, concat (map segment_text (pieces cur l)) =
  [apostrophe] ++ cur ++ concat (map quoted_char l) ++ [apostrophe].
Proof.
  induction l as [|c l IH]; intros cur; simpl; [by rewrite app_nil_r|].
  unfold quoted_char at 1. case_decide as Hc; simpl; rewrite IH; simpl; by rewrite <- ?app_assoc.
Qed.

Lemma quote_word_ok s : word_ok (quote_word s).
Proof.
  unfold quote_word. destruct (String.eqb_spec s "") as [->|Hs]; [by repeat constructor; set_solver|].
  destruct (all_chars shell_safe s) eqn:Hsafe.
  - split; [done|]. constructor; [|done]. split; [|exact Hsafe]. by destruct s.
  - split; [apply pieces_nonempty|]. apply pieces_ok. set_solver.
Qed.

Lemma quote_word_text s : word_text (quote_word s) = shlex_quote s.
Proof.
  unfold quote_word, shlex_quote, word_text. destruct (String.eqb s ""); [done|].
  destruct (all_chars shell_safe s); simpl.
  - by rewrite app_nil_r, of_chars_chars.
  - by rewrite pieces_text.
Qed.

Lemma quote_word_value s : word_value (quote_word s) = s.
Proof.
  unfold quote_word, word_value. destruct (String.eqb_spec s "") as [->|]; [done|].
  destruct (all_chars shell_safe s); simpl; [by rewrite app_nil_r, of_chars_chars|].
  rewrite pieces_value, app_nil_l. apply of_chars_chars.
Qed.

(** A plain argument is a word as it stands. *)
Definition plain_word (s : string) : word := [Bare (chars s)].
Lemma plain_word_ok s : s <> "" -> all_chars shell_safe s = true -> word_ok (plain_word s).
Proof. intros Hs Ha. split; [done|]. constructor; [|done]. split; [by destruct s|exact Ha]. Qed.
Lemma plain_word_text s : word_text (plain_word s) = s.
Proof. unfold word_text. simpl. by rewrite app_nil_r, of_chars_chars. Qed.
Lemma plain_word_value s : word_value (plain_word s) = s.
Proof. unfold word_value. simpl. by rewrite app_nil_r, of_chars_chars. Qed.

Section shell.
Context {S : DeviceShell} `{SL : !DeviceShellLaws S}.

(** A command quoted for [su -c] arrives as one argument, whatever it contains. *)
Lemma su_command_arrives cmd :
  device_words ["su"; "-c"; shlex_quote cmd] = ["su"; "-c"; cmd].
Proof.
  rewrite (device_splits _ [plain_word "su"; plain_word "-c"; quote_word cmd]).
  - simpl. by rewrite quote_word_value.
  - repeat constructor; try done; apply quote_word_ok.
  - simpl. set_solver.
  - simpl. by rewrite quote_word_text.
Qed.

(** A command line of plain words and one quoted argument is split as it was meant. *)
Lemma su_splits_quoted (head : list string) (arg : string) :
  head <> [] -> Forall (fun w => w <> "" /\ all_chars shell_safe w = true) head ->
  "="%char ∉ chars (default "" (list.head head)) ->
  su_words [join " " (head ++ [shlex_quote arg])] = head ++ [arg].
Proof.
  intros Hne Hh He. rewrite (su_splits _ (map plain_word head ++ [quote_word arg])).
  - rewrite map_app, map_map. simpl. rewrite quote_word_value. f_equal.
    rewrite <- (map_id head) at 2. apply map_ext. apply plain_word_value.
  - apply Forall_app. split; [|constructor; [apply quote_word_ok|done]].
    apply Forall_map. eapply Forall_impl; [exact Hh|]. intros w []. by apply plain_word_ok.
  - destruct head as [|w head]; [done|]. simpl in *. by rewrite plain_word_text.
  - simpl. f_equal. rewrite map_app, map_map. simpl. rewrite quote_word_text. f_equal.
    rewrite <- (map_id head) at 1. apply map_ext. intros w. by rewrite plain_word_text.
Qed.
End shell.

(** ** A shell with these laws *)
Module ShellSample.

Inductive mode : Type := Unquoted | InLiteral | InDouble.

(** [cur] is the word read so far, if one was begun. *)
Fixpoint scan (q : mode) (cur : option (list ascii)) (l : list ascii) : list string :=
  match l with
  | [] => match cur with Some w => [of_chars w] | None => [] end
  | c :: l' =>
      let add := Some (default [] cur ++ [c]) in
      match q with
      | Unquoted =>
          if decide (c = " "%char) then
            match cur with Some w => of_chars w :: scan Unquoted None l' | None => scan Unquoted None l' end
          else if decide (c = apostrophe) then scan InLiteral (Some (default [] cur)) l'
          else if decide (c = double_quote) then scan InDouble (Some (default [] cur)) l'
          else scan Unquoted add l'
      | InLiteral => if decide (c = apostrophe) then scan Unquoted cur l' else scan InLiteral add l'
      | InDouble => if decide (c = double_quote) then scan Unquoted cur l' else scan InDouble add l'
      end
  end.

#[export] Instance posix : DeviceShell := {|
  device_words argv := scan Unquoted None (chars (join " " argv));
  su_words argv := scan Unquoted None (chars (join " " argv)) |}.

Lemma scan_literal l rest cur : apostrophe ∉ l ->
  scan InLiteral (Some cur) (l ++ apostrophe :: rest) = scan Unquoted (Some (cur ++ l)) rest.
Proof.
  revert cur. induction l as [|c l IH]; intros cur Hl; [by rewrite app_nil_r|].
  apply not_elem_of_cons in Hl as [Hc Hl]. simpl. rewrite decide_False by congruence.
  rewrite IH by done. by rewrite <- app_assoc.
Qed.

Lemma scan_bare l rest cur : l <> [] -> forallb shell_safe l = true ->
  scan Unquoted cur (l ++ rest) = scan Unquoted (Some (default [] cur ++ l)) rest.
Proof.
  revert cur. induction l as [|c l IH]; intros cur Hne Hl; [done|]. simpl in *.
  apply andb_true_iff in Hl as [Hc Hl].
  do 3 (rewrite decide_False by (intros ->; by vm_compute in Hc)).
  destruct l as [|c' l]; [done|]. rewrite IH by done. simpl. by rewrite <- app_assoc.
Qed.

Lemma scan_segment g rest cur : segment_ok g ->
  scan Unquoted cur (segment_text g ++ rest) = scan Unquoted (Some (default [] cur ++ segment_value g)) rest.
Proof.
  destruct g as [l|l|]; simpl; intros Hg.
  - destruct Hg. by apply scan_bare.
  - rewrite <- app_assoc. by apply scan_literal.
  - reflexivity.
Qed.

Lemma scan_segments w rest : Forall segment_ok w -> forall cur, (w <> [] \/ is_Some cur) ->
  scan Unquoted cur (concat (map segment_text w) ++ rest) =
  scan Unquoted (Some (default [] cur ++ concat (map segment_value w))) rest.
Proof.
  induction 1 as [|g w Hg _ IH]; intros cur Hcur; simpl.
  - destruct Hcur as [|[c ->]]; [done|]. by rewrite app_nil_r.
  - rewrite <- app_assoc, scan_segment by done. rewrite IH by (right; by eexists). simpl. by rewrite <- app_assoc.
Qed.

Lemma scan_words ws : Forall word_ok ws ->
  scan Unquoted None (chars (join " " (map word_text ws))) = map word_value ws.
Proof.
  induction 1 as [|w ws [Hne Hw] Hws IH]; [done|]. destruct ws as [|w' ws].
  - simpl. unfold word_text. rewrite chars_of_chars, <- (app_nil_r (concat _)).
    rewrite scan_segments by auto. done.
  - change (chars (join " " (map word_text (w :: w' :: ws)))) with
      (chars (word_text w +:+ (" " +:+ join " " (map word_text (w' :: ws))))).
    rewrite !chars_app. unfold word_text at 1. rewrite chars_of_chars, scan_segments by auto.
    change (chars " ") with [" "%char]. cbn [app scan]. rewrite decide_True by done. by rewrite IH.
Qed.

#[export] Instance posix_laws : DeviceShellLaws posix.
Proof. split; intros argv ws Hws _ Hj; simpl; rewrite Hj; by apply scan_words. Qed.
End ShellSample.
