(* ===== verification/Adb.v ===== *)
(** * Devices driven over adb ([src/src/beetroot/backends/adb.py])

    The calls of the [adb] binary, the backend's operations and the batch install of
    Magisk modules.  What a call returns may depend on the calls made before it; a device
    shell is the class [DeviceShell]. *)
From stdpp Require Import base list strings gmap sorting.
From Stdlib Require Import ZArith QArith Lia Ascii.
From S2P Require Import Prelude PyStr Config Ports Registry BootCache HostFs Paths Download ModulesDownload FridaDownload Shell.
Local Open Scope stdpp_scope.
Local Open Scope Z_scope.

(** ** Processes *)

(** The end of a captured run under a deadline; the streams of a killed process are what
    it had written.  [NotText] is output that is not UTF-8. *)
Inductive run_end : Type :=
| Finished (rc : Z) (out err : string)
| Expired (out err : string)
| NotSpawned
| NotText.

Class Adb := {
  adb_found : bool;                              (* [shutil.which] *)
  frida_found : bool;
  adb_run : list (list string) -> list string -> run_end;
  (** A run on the caller's terminal: its exit code, unless it cannot be spawned. *)
  terminal_run : list (list string) -> list string -> option Z }.

Inductive proc_error : Type :=
| CannotSpawn                                    (* OSError *)
| UndecodableOutput.                             (* UnicodeDecodeError, a ValueError *)

(** The state is the calls made so far. *)
Abbreviation CallM := (M (list (list string)) proc_error).

Definition _ADB : string := "adb".
Definition _FRIDA : string := "frida".
Definition _REMOTE_FRIDA_SERVER : string := "/data/local/tmp/frida-server".
Definition _DEVICE_PORT : Z := 27042.
Definition _MAGISK_MODULE_DROP : string := "/sdcard/Download".
Definition _MAGISK_MODULE_TMP : string := "/data/local/tmp".
Definition _ADB_DEVICES_COLUMNS : nat := 2.

(** ** The binary *)

Section adb.
Context {A : Adb}.

Definition captured (argv : list string) : M (list (list string)) proc_error run_end := fun h =>
  match adb_run h argv with
  | NotSpawned => (Err CannotSpawn, h)
  | NotText => (Err UndecodableOutput, h ++ [argv])
  | e => (Ok e, h ++ [argv])
  end.

(** The first row of [adb devices] that names the serial and satisfies the test. *)
Definition device_row (serial line : string) : option string :=
  match split_ws line with
  | s :: state :: _ => if String.eqb s serial then Some state else None
  | _ => None
  end.

Definition serial_is_available (serial : string) : CallM bool :=
  if negb adb_found then mret false
  else
    e ← captured [_ADB; "devices"];
    mret (match e with
          | Finished rc out _ =>
              (rc =? 0) && existsb (fun line => bool_decide (device_row serial line = Some "device")) (splitlines out)
          | _ => false
          end).

(** ** The device *)

Record AdbDevice := mkAdb { a_name : string; a_serial : string; _host_forward_port : Z }.

Inductive source_error : Type := SourceMissing | SourceDirectory | SourceNotZip.

Inductive row_detail : Type :=
| Installed (cmd : string)
| HostRefused (e : adb_error)                    (* [str] of a ValueError *)
| AdbFailed (e : adb_error)                      (* [str] of a RuntimeError *)
| WentOffline (e : adb_error)
with adb_error : Type :=
| ADl (e : dl_error)
| Proc (e : proc_error)
| AdbNotInstalled                                (* RuntimeError *)
| FridaNotInstalled                              (* RuntimeError *)
| VersionRequired                                (* ValueError *)
| BadSource (source : string) (why : source_error)  (* ValueError *)
| DigestCount (digests sources : nat)            (* ValueError *)
| CommandFailed (argv : list string) (rc : Z) (err : string)  (* RuntimeError *)
| Offline (last_error : string) (skipped : nat) (results : list (string * bool * row_detail))  (* DevicePreflightError *)
| NoRootAccess                                   (* DevicePreflightError *)
| NoMagisk.                                      (* DevicePreflightError *)

(** The [except] clauses of the batch loop, in their order. *)
Definition is_ValueError (e : adb_error) : bool :=
  match e with
  | ADl (DigestMismatch _ _) | Proc UndecodableOutput | VersionRequired | BadSource _ _ | DigestCount _ _ => true
  | _ => false
  end.
Definition is_RuntimeError (e : adb_error) : bool :=
  match e with
  | AdbNotInstalled | FridaNotInstalled | CommandFailed _ _ _ | Offline _ _ _ | NoRootAccess | NoMagisk => true
  | _ => false
  end.
End adb.

(** Source, ok, detail. *)
Definition ModuleInstallResult : Type := (string * bool * row_detail)%type.

(** The host the device hangs on: its files and downloads, the calls made, the notes
    printed (base name and remote path). *)
Record aworld := mkAw { a_net : net; ran : list (list string); pushed_notes : list (string * string) }.
Abbreviation ADM := (M aworld adb_error).

Definition set_net_aw (s : net) (w : aworld) : aworld := mkAw s (ran w) (pushed_notes w).
Definition set_ran (h : list (list string)) (w : aworld) : aworld := mkAw (a_net w) h (pushed_notes w).
Definition on_procs {B} (m : CallM B) : ADM B := zoom ran set_ran Proc m.
Definition on_files {B} (m : DM B) : ADM B := zoom a_net set_net_aw ADl m.

Section device.
Context {A : Adb} {Y : Layout} {W : Web} {H : FridaHost} {Z' : Lzma}.
Variable cwd : path.
Variable fuel : nat.                             (* of the decompression loop *)

(** ** Host-side checks of a module *)

(** The parts of [Path(s)]. *)
Definition pure_parts (s : string) : list string := filter (fun c => is_dot c = false) (components s).

(** [str(Path(s))] and its [name] and [suffix]. *)
Definition pure_path (s : string) : string :=
  let anchor := if starts_with "//" s && negb (starts_with "///" s) then "//"
                else if starts_with "/" s then "/" else "" in
  match pure_parts s with
  | [] => if String.eqb anchor "" then "." else anchor
  | l => anchor +:+ join "/" l
  end.
Definition pure_name (s : string) : string := default "" (last (pure_parts s)).
Definition py_suffix (name : string) : string :=
  match break_at (Ascii.eqb "."%char) (rev (chars name)) with
  | ((_ :: _) as ext, _ :: _ :: _) => "." +:+ of_chars (rev ext)
  | _ => ""
  end.

Definition _validated_zip_source (source : string) : ADM string :=
  f ← gets (fun w => nfs (a_net w));
  let p := resolve cwd source in
  lift (raise_if (negb (exists_at f p)) (BadSource source SourceMissing)) ;;
  lift (raise_if (negb (is_file_at f p)) (BadSource source SourceDirectory)) ;;
  lift (raise_if (negb (String.eqb (lower (py_suffix (pure_name source))) ".zip")) (BadSource source SourceNotZip)) ;;
  mret (pure_path source).

(** ** Calls *)

Implicit Types (d : AdbDevice).

Definition _adb_unchecked d (argv : list string) : ADM (Z * string * string) :=
  e ← on_procs (captured ([_ADB; "-s"; a_serial d] ++ argv));
  mret (match e with
        | Finished rc out err => (rc, out, err)
        | Expired out err => (124, out, if String.eqb err "" then "timed out" else err)
        | _ => (124, "", "")
        end).

Definition _adb d (argv : list string) : ADM (Z * string * string) :=
  r ← _adb_unchecked d argv;
  let '(rc, out, err) := r in
  if rc =? 0 then mret r
  else raise (CommandFailed ([_ADB; "-s"; a_serial d] ++ argv) rc (strip err)).

Definition _adb_shell d (argv : list string) : ADM (Z * string * string) := _adb d ("shell" :: argv).

Definition need_adb : ADM unit := lift (raise_if (negb adb_found) AdbNotInstalled).

(** ** Operations *)

Definition from_meta_row (name : string) (b : BackendConfig) (m : option (Z)) : option (result port_error AdbDevice) :=
  match b, m with
  | AdbBackendConfig serial, Some idx =>
      Some (match ports_for_index idx with
            | Ok wk => Ok (mkAdb name serial (default 0 (Dict.get "frida" wk)))
            | Err e => Err e
            end)
  | _, _ => None
  end.

Definition frida_address d : string := "localhost:" +:+ str_of_Z (_host_forward_port d).

Definition adb_install_frida d (version : option string) : ADM unit :=
  v ← lift (match version with Some v => Ok v | None => Err VersionRequired end);
  need_adb ;;
  cached ← on_files (download fuel v None None);
  _ ← _adb d ["push"; path_str cached; _REMOTE_FRIDA_SERVER];
  _ ← _adb_shell d ["chmod"; "755"; _REMOTE_FRIDA_SERVER];
  _ ← _adb_shell d ["su"; "-c"; _REMOTE_FRIDA_SERVER +:+ " </dev/null >/dev/null 2>&1 &"];
  _ ← _adb d ["forward"; "tcp:" +:+ str_of_Z (_host_forward_port d); "tcp:" +:+ str_of_Z _DEVICE_PORT];
  mret tt.

(** A run on the caller's terminal. *)
Definition on_terminal (argv : list string) : ADM Z := fun w =>
  match terminal_run (ran w) argv with
  | Some rc => (Ok rc, set_ran (ran w ++ [argv]) w)
  | None => (Err (Proc CannotSpawn), w)
  end.

Definition adb_device_shell d (args : list string) : ADM Z :=
  need_adb ;; on_terminal ([_ADB; "-s"; a_serial d; "shell"] ++ args).

Definition adb_frida_cli d (args : list string) : ADM Z :=
  lift (raise_if (negb frida_found) FridaNotInstalled) ;;
  on_terminal ([_FRIDA; "-H"; frida_address d] ++ args).

(** The digest of this variant is ignored. *)
Definition adb_add_module d (source : string) (sha256 : option string) : ADM unit :=
  need_adb ;;
  src ← _validated_zip_source source;
  let basename := pure_name source in
  let remote := _MAGISK_MODULE_DROP +:+ "/" +:+ basename in
  _ ← _adb d ["push"; src; remote];
  modify (fun w => mkAw (a_net w) (ran w) (pushed_notes w ++ [(basename, remote)])).

(** ** The batch install *)

Definition _abort_if_unavailable d (probe_stderr : string) : ADM unit :=
  here ← on_procs (serial_is_available (a_serial d));
  lift (raise_if (negb here) (Offline (strip probe_stderr) 0 [])).

Definition _preflight_root_and_magisk d : ADM unit :=
  root ← _adb_unchecked d ["shell"; "su"; "-c"; shlex_quote "true"];
  let '(rc, _, err) := root in
  (if rc =? 0 then mret tt else _abort_if_unavailable d err ;; raise NoRootAccess) ;;
  magisk ← _adb_unchecked d ["shell"; "su"; "-c"; shlex_quote "command -v magisk"];
  let '(rc, _, err) := magisk in
  if rc =? 0 then mret tt else _abort_if_unavailable d err ;; raise NoMagisk.

Definition remote_zip (index : nat) : string :=
  _MAGISK_MODULE_TMP +:+ "/beetroot-module-" +:+ str_of_Z (Z.of_nat index) +:+ ".zip".
Definition install_cmd (index : nat) : string :=
  "magisk --install-module " +:+ shlex_quote (remote_zip index).
Definition cleanup_cmd (index : nat) : string := "rm -f " +:+ shlex_quote (remote_zip index).

(** [with contextlib.suppress(RuntimeError)]. *)
Definition suppress_RuntimeError (m : ADM unit) : ADM unit :=
  catch m (fun e => if is_RuntimeError e then mret tt else raise e).

Definition _auto_install_one d (source : string) (sha256 : option string) (index : nat) : ADM row_detail :=
  src ← _validated_zip_source source;
  match sha256 with
  | Some digest => on_files (verify_sha256 (resolve cwd source) digest)
  | None => mret tt
  end ;;
  _ ← _adb d ["push"; src; remote_zip index];
  finally
    (_ ← _adb_shell d ["su"; "-c"; shlex_quote (install_cmd index)]; mret tt)
    (suppress_RuntimeError (_ ← _adb_shell d ["su"; "-c"; shlex_quote (cleanup_cmd index)]; mret tt)) ;;
  mret (Installed ("su -c " +:+ shlex_quote (install_cmd index))).

(** One turn of the loop; [todo] is how many modules come after this one. *)
Definition install_row d (source : string) (digest : option string) (index todo : nat)
    (results : list ModuleInstallResult) : ADM ModuleInstallResult :=
  catch (detail ← _auto_install_one d source digest index; mret (source, true, detail))
    (fun e =>
       if is_ValueError e then mret (source, false, HostRefused e)
       else if is_RuntimeError e then
         here ← on_procs (serial_is_available (a_serial d));
         if (here : bool) then mret (source, false, AdbFailed e)
         else raise (Offline "" todo (results ++ [(source, false, WentOffline e)]))
       else raise e).

Fixpoint install_rows d (items : list (string * option string)) (index : nat)
    (results : list ModuleInstallResult) : ADM (list ModuleInstallResult) :=
  match items with
  | [] => mret results
  | (source, digest) :: items' =>
      row ← install_row d source digest index (length items') results;
      install_rows d items' (S index) (results ++ [row])
  end.

Definition auto_install_modules d (sources : list string) (sha256s : option (list (option string)))
  : ADM (list ModuleInstallResult) :=
  need_adb ;;
  lift (match sha256s with
        | Some l => raise_if (negb (Nat.eqb (length l) (length sources))) (DigestCount (length l) (length sources))
        | None => Ok tt
        end) ;;
  _preflight_root_and_magisk d ;;
  install_rows d (zip sources (default (replicate (length sources) None) sha256s)) 0 [].
End device.
