(* ===== verification/AdbOps.v ===== *)
(** * What the adb backend does to a device

    The calls of [AdbDevice] as sequences: the batch install of modules with its
    per-module rows, the installation of Frida, the text that reaches the device. *)
From stdpp Require Import base list strings gmap sorting.
From Stdlib Require Import ZArith QArith Lia Ascii.
From S2P Require Import Prelude PyStr Config Ports Registry BootCache HostFs Paths Download ModulesDownload FridaDownload Shell Adb.
Local Open Scope stdpp_scope.
Local Open Scope Z_scope.

Section facts.
Context {A : Adb} {Y : Layout} {W : Web} {H : FridaHost} {Z' : Lzma}.
Variable cwd : path.
Variable fuel : nat.
Implicit Types (d : AdbDevice) (w : aworld) (argv : list string) (source : string) (index : nat).

Definition call_of d argv : list string := [_ADB; "-s"; a_serial d] ++ argv.
Definition succeeds (h : list (list string)) argv : Prop := exists out err, adb_run h argv = Finished 0 out err.

(** ** One call *)

(** Only the record of calls changes. *)
Definition calls_only w w' : Prop := a_net w' = a_net w /\ pushed_notes w' = pushed_notes w.
#[export] Instance calls_only_preorder : PreOrder calls_only.
Proof. split; [by split|]. intros a b c [] []. split; congruence. Qed.

Lemma unchecked_wp d argv w (Q : Z * string * string -> aworld -> Prop) (R : adb_error -> aworld -> Prop) :
  (forall rc out err, (rc = 0 -> exists out err, adb_run (ran w) (call_of d argv) = Finished 0 out err) ->
     Q (rc, out, err) (set_ran (ran w ++ [call_of d argv]) w)) ->
  R (Proc CannotSpawn) w -> R (Proc UndecodableOutput) (set_ran (ran w ++ [call_of d argv]) w) ->
  wp (_adb_unchecked d argv) Q R w.
Proof.
  intros HQ HS HN. unfold _adb_unchecked. apply wp_bind. unfold on_procs. apply wp_zoom.
  unfold captured. fold (call_of d argv). destruct (adb_run (ran w) (call_of d argv)) eqn:Hr; try done.
  - apply wp_ret, HQ. intros ->. by eauto.
  - apply wp_ret, HQ. by intros ?.
  - by destruct w.
Qed.

Lemma adb_wp d argv w (Q : Z * string * string -> aworld -> Prop) (R : adb_error -> aworld -> Prop) :
  (forall r, succeeds (ran w) (call_of d argv) -> Q r (set_ran (ran w ++ [call_of d argv]) w)) ->
  (forall rc err, R (CommandFailed (call_of d argv) rc err) (set_ran (ran w ++ [call_of d argv]) w)) ->
  R (Proc CannotSpawn) w -> R (Proc UndecodableOutput) (set_ran (ran w ++ [call_of d argv]) w) ->
  wp (_adb d argv) Q R w.
Proof.
  intros HQ HF HS HN. unfold _adb. apply wp_bind, unchecked_wp; [|done..].
  intros rc out err Hrc. destruct (Z.eqb_spec rc 0) as [->|]; [apply wp_ret, HQ, Hrc; done|].
  apply wp_raise, HF.
Qed.

Lemma wp_finally {S E B} (m : M S E B) (h : M S E unit) (Q : B -> S -> Prop) (R : E -> S -> Prop) (s : S) :
  wp m (fun a => wp h (fun _ => Q a) R) (fun e => wp h (fun _ => R e) R) s -> wp (finally m h) Q R s.
Proof.
  unfold wp, finally. destruct (m s) as [[a|e] s1]; destruct (h s1) as [[[]|e'] s2]; done.
Qed.

(** ** One module *)

Definition push_call d source index : list string := call_of d ["push"; pure_path source; remote_zip index].
Definition install_call d index : list string := call_of d ["shell"; "su"; "-c"; shlex_quote (install_cmd index)].
Definition cleanup_call d index : list string := call_of d ["shell"; "su"; "-c"; shlex_quote (cleanup_cmd index)].

(** The zip on the host has the digest asked for. *)
Definition digest_ok (f : fs) source (digest : option string) : Prop :=
  match digest with
  | Some x => exists c, read_file (resolve cwd source) f = Ok c /\ lower (sha256_hex c) = lower x
  | None => True
  end.

(** The calls of one turn: nothing, or the push of a verified zip, which the install
    and the removal follow in this order. *)
Definition turn d source digest index w w' : Prop :=
  calls_only w w' /\
  (ran w' = ran w \/
   digest_ok (nfs (a_net w)) source digest /\ exists l, sublist l [install_call d index; cleanup_call d index] /\
     ran w' = ran w ++ push_call d source index :: l).

(** A turn that installed the module. *)
Definition installed d source digest index w w' : Prop :=
  calls_only w w' /\ digest_ok (nfs (a_net w)) source digest /\
  ran w' = ran w ++ [push_call d source index; install_call d index; cleanup_call d index] /\
  succeeds (ran w) (push_call d source index) /\
  succeeds (ran w ++ [push_call d source index]) (install_call d index).

Lemma source_wp source w (Q : string -> aworld -> Prop) (R : adb_error -> aworld -> Prop) :
  Q (pure_path source) w -> (forall why, R (BadSource source why) w) ->
  wp (_validated_zip_source cwd source) Q R w.
Proof.
  intros HQ HR. unfold _validated_zip_source. apply wp_bind, wp_gets. cbv zeta.
  do 3 (apply wp_bind, wp_lift; [intros [] _|intros e He; unfold raise_if in He; destruct (negb _) in He; simplify_eq; apply HR]).
  by apply wp_ret.
Qed.

Lemma digest_wp source (digest : option string) w (R : adb_error -> aworld -> Prop) :
  (forall e, R e w) ->
  wp (match digest with Some x => on_files (verify_sha256 (resolve cwd source) x) | None => mret tt end)
    (fun _ w' => w' = w /\ digest_ok (nfs (a_net w)) source digest) R w.
Proof.
  intros HR. destruct digest as [x|]; [|by apply wp_ret].
  assert (set_net_aw (a_net w) w = w) as Hw by (by destruct w).
  unfold on_files. apply wp_zoom. unfold verify_sha256, mbind, M_bind, sha256_of.
  destruct (read_file (resolve cwd source) (nfs (a_net w))) as [c|e] eqn:Hr; [|rewrite Hw; apply HR].
  unfold lift, raise_if. destruct (String.eqb_spec (lower (sha256_hex c)) (lower x)) as [He|]; simpl; rewrite Hw.
  - split; [done|]. by exists c.
  - apply HR.
Qed.

Lemma one_wp d source digest index w :
  wp (_auto_install_one cwd d source digest index)
    (fun _ w' => installed d source digest index w w') (fun _ w' => turn d source digest index w w') w.
Proof.
  assert (turn d source digest index w w) as H0 by (split; [done|by left]).
  unfold _auto_install_one. apply wp_bind, source_wp; [|done].
  apply wp_bind. eapply wp_mono; [apply (digest_wp _ _ w (fun _ => turn d source digest index w)); done| |done]. intros [] w' [-> Hd].
  set (p := push_call d source index). set (i := install_call d index). set (c := cleanup_call d index).
  assert (forall l, sublist l [i; c] -> turn d source digest index w (set_ran (ran w ++ p :: l) w)) as Hturn.
  { intros l Hl. split; [done|]. right. split; [done|]. by exists l. }
  assert (sublist [] [i; c] /\ sublist [c] [i; c] /\ sublist [i] [i; c] /\ sublist [i; c] [i; c]) as (S0 & Sc & Si & Sic)
    by (split_and!; repeat constructor).
  apply wp_bind, adb_wp; fold (push_call d source index) p; [intros _ Hp|intros rc err|done|]; try by apply (Hturn []).
  set (w1 := set_ran _ w).
  (* the removal, whatever the install gave *)
  assert (forall w2 l, w2 = set_ran (ran w ++ p :: l) w -> sublist l [i] ->
    wp (suppress_RuntimeError (_ ← _adb_shell d ["su"; "-c"; shlex_quote (cleanup_cmd index)]; mret tt))
      (fun _ w3 => w3 = set_ran (ran w ++ p :: l ++ [c]) w) (fun _ w3 => turn d source digest index w w3) w2) as Hrm.
  { intros w2 l -> Hl. unfold suppress_RuntimeError. apply wp_catch, wp_bind. unfold _adb_shell.
    assert (set_ran (ran (set_ran (ran w ++ p :: l) w) ++ [c]) (set_ran (ran w ++ p :: l) w) =
            set_ran (ran w ++ p :: l ++ [c]) w) as Hs by (unfold set_ran; simpl; by rewrite <- app_assoc).
    assert (sublist l [i; c] /\ sublist (l ++ [c]) [i; c]) as [? ?].
    { split; [change [i; c] with ([i] ++ [c]); by apply sublist_inserts_r|].
      change [i; c] with ([i] ++ [c]). by apply sublist_app. }
    apply adb_wp; fold (cleanup_call d index) c; rewrite ?Hs; [by intros; apply wp_ret| | |].
    - intros rc err. by apply wp_ret.
    - apply wp_raise. by apply Hturn.
    - apply wp_raise. by apply Hturn. }
  assert (forall l, sublist l [i] -> wp (suppress_RuntimeError (_ ← _adb_shell d ["su"; "-c"; shlex_quote (cleanup_cmd index)]; mret tt))
      (fun _ w3 => turn d source digest index w w3) (fun _ w3 => turn d source digest index w w3) (set_ran (ran w ++ p :: l) w)) as Hrm'.
  { intros l Hl. eapply wp_mono; [by apply (Hrm _ l)| |done]. intros _ w3 ->. apply Hturn.
    change [i; c] with ([i] ++ [c]). by apply sublist_app. }
  assert (sublist [] [i] /\ sublist [i] [i]) as [T0 Ti] by (split; repeat constructor).
  assert (set_ran (ran w1 ++ [i]) w1 = set_ran (ran w ++ [p; i]) w) as Hi
    by (unfold w1, set_ran; simpl; by rewrite <- app_assoc).
  apply wp_bind, wp_finally, wp_bind. unfold _adb_shell at 1.
  apply adb_wp; fold (install_call d index) i; rewrite ?Hi.
  - intros r Hrun. apply wp_ret. eapply wp_mono; [by apply (Hrm _ [i])| |done].
    intros _ w3 ->. apply wp_ret. by split_and!.
  - intros rc err. by apply (Hrm' [i]).
  - by apply (Hrm' []).
  - by apply (Hrm' [i]).
Qed.

(** ** The batch *)

Definition row_source (r : ModuleInstallResult) : string := r.1.1.
Definition row_ok (r : ModuleInstallResult) : bool := r.1.2.

(** Somewhere in the history the zip was pushed and installed, and removed afterwards. *)
Definition installed_in d index source (h : list (list string)) : Prop := exists h1 h2,
  h = h1 ++ [push_call d source index; install_call d index; cleanup_call d index] ++ h2 /\
  succeeds h1 (push_call d source index) /\
  succeeds (h1 ++ [push_call d source index]) (install_call d index).

Definition rows_true d (rows : list ModuleInstallResult) (h : list (list string)) : Prop :=
  forall k source detail, rows !! k = Some (source, true, detail) -> installed_in d k source h.

(** What was pushed was asked for and verified. *)
Definition pushes_verified d (all : list (string * option string)) w w' : Prop :=
  calls_only w w' /\ exists new, ran w' = ran w ++ new /\
  forall src remote, call_of d ["push"; src; remote] ∈ new ->
    exists k source digest, all !! k = Some (source, digest) /\
      src = pure_path source /\ remote = remote_zip k /\ digest_ok (nfs (a_net w)) source digest.

#[export] Instance pushes_verified_preorder d all : PreOrder (pushes_verified d all).
Proof.
  split.
  - intros w. split; [reflexivity|]. exists []. split; [by rewrite app_nil_r|]. set_solver.
  - intros a b c [Hab (n1 & H1 & P1)] [Hbc (n2 & H2 & P2)]. split; [by etransitivity|].
    exists (n1 ++ n2). split; [by rewrite H2, H1, app_assoc|].
    intros src remote [Hin|Hin]%elem_of_app; [by apply P1|]. destruct Hab as [<- _]. by apply P2.
Qed.

Lemma pushes_ran d all w w' : pushes_verified d all w w' -> exists new, ran w' = ran w ++ new.
Proof. intros (_ & new & ? & _). by exists new. Qed.

Lemma installed_in_ext d k source h new : installed_in d k source h -> installed_in d k source (h ++ new).
Proof.
  intros (h1 & h2 & -> & ?). exists h1, (h2 ++ new). split; [|done]. by rewrite <- !app_assoc.
Qed.

Lemma rows_true_ext d rows h new : rows_true d rows h -> rows_true d rows (h ++ new).
Proof. intros Hr k source detail Hk. by eapply installed_in_ext, Hr. Qed.

Lemma turn_verified d all source digest index w w' :
  all !! index = Some (source, digest) -> turn d source digest index w w' -> pushes_verified d all w w'.
Proof.
  intros Hi [Hc [Hr|(Hd & l & Hl & Hr)]]; (split; [done|]).
  - exists []. split; [by rewrite app_nil_r|]. set_solver.
  - eexists. split; [exact Hr|]. intros src remote [Heq|Hin]%elem_of_cons.
    + unfold push_call, call_of in Heq. simplify_eq/=. by exists index, source, digest.
    + exfalso. apply (sublist_submseteq _ _) in Hl. apply (elem_of_submseteq _ _ _ Hin) in Hl.
      repeat (apply elem_of_cons in Hl as [Hl|Hl]; [discriminate|]). by apply elem_of_nil in Hl.
Qed.

Lemma installed_turn d source digest index w w' :
  installed d source digest index w w' -> turn d source digest index w w'.
Proof.
  intros (Hc & Hd & Hr & _). split; [done|]. right. split; [done|]. eexists. split; [|exact Hr]. done.
Qed.

(** The connectivity probe. *)
Lemma available_wp d all (serial : string) w (Q : bool -> aworld -> Prop) (R : adb_error -> aworld -> Prop) :
  (forall b w', pushes_verified d all w w' -> Q b w') ->
  (forall p w', pushes_verified d all w w' -> R (Proc p) w') ->
  wp (on_procs (serial_is_available serial)) Q R w.
Proof.
  intros HQ HR. apply wp_zoom.
  assert (pushes_verified d all w (set_ran (ran w) w)) as H0 by (destruct w; reflexivity).
  assert (pushes_verified d all w (set_ran (ran w ++ [[_ADB; "devices"]]) w)) as H1.
  { split; [done|]. eexists. split; [done|]. intros src remote Hin.
    apply list_elem_of_singleton in Hin. discriminate. }
  unfold serial_is_available. destruct (negb adb_found); [by apply HQ|].
  unfold mbind, M_bind, captured. by destruct (adb_run (ran w) [_ADB; "devices"]); simpl; auto.
Qed.

(** How many rows an error carries. *)
Definition error_rows (e : adb_error) : list ModuleInstallResult :=
  match e with Offline _ _ rows => rows | _ => [] end.

Section batch.
Variables (d : AdbDevice) (all : list (string * option string)).

(** The rows so far. *)
Definition so_far (results : list ModuleInstallResult) w : Prop :=
  map row_source results = take (length results) (map fst all) /\ rows_true d results (ran w).

Lemma so_far_ext results w w' : pushes_verified d all w w' -> so_far results w -> so_far results w'.
Proof. intros [new Hn]%pushes_ran [? ?]. split; [done|]. rewrite Hn. by apply rows_true_ext. Qed.

Lemma so_far_snoc results source digest (b : bool) (detail : row_detail) w :
  so_far results w -> all !! length results = Some (source, digest) ->
  (b = true -> installed_in d (length results) source (ran w)) -> so_far (results ++ [(source, b, detail)]) w.
Proof.
  intros [Hs Ht] Hl Hb. split.
  - rewrite map_app, length_app, Hs. simpl. rewrite Nat.add_1_r.
    rewrite (take_S_r _ _ source); [done|]. by rewrite list_lookup_fmap, Hl.
  - intros k source' detail' [Hk|[Hk Hk']]%lookup_app_Some; [by eapply Ht|].
    apply list_lookup_singleton_Some in Hk' as [Hk0 [= <- -> _]].
    unfold ModuleInstallResult in *. replace k with (length results) by lia. by apply Hb.
Qed.

(** What the batch ends in when it raises. *)
Definition aborted (e : adb_error) w : Prop :=
  match e with
  | Offline _ skipped rows => so_far rows w /\ (length rows + skipped = length all)%nat /\
      exists r, last rows = Some r /\ row_ok r = false
  | NoRootAccess | NoMagisk => False
  | _ => True
  end.

Lemma row_wp source digest todo results w :
  all !! length results = Some (source, digest) -> (length results + S todo = length all)%nat ->
  so_far results w ->
  wp (install_row cwd d source digest (length results) todo results)
    (fun row w' => pushes_verified d all w w' /\ so_far (results ++ [row]) w')
    (fun e w' => pushes_verified d all w w' /\ aborted e w') w.
Proof.
  intros Hl Htodo Hr. set (k := length results).
  assert (forall b detail w', pushes_verified d all w w' ->
    (b = true -> installed_in d k source (ran w')) -> so_far (results ++ [(source, b, detail)]) w') as Hsnoc.
  { intros b detail w' Hp Hb. by eapply so_far_snoc; [eapply so_far_ext|..]. }
  unfold install_row. apply wp_catch, wp_bind. eapply wp_mono; [apply one_wp| |].
  - intros detail w1 H1. pose proof (turn_verified d all _ _ _ _ _ Hl (installed_turn _ _ _ _ _ _ H1)) as Hp.
    apply wp_ret. split; [done|]. apply Hsnoc; [done|]. intros _.
    destruct H1 as (_ & _ & Hran & Hs1 & Hs2). exists (ran w), []. by rewrite app_nil_r.
  - intros e w1 H1. pose proof (turn_verified d all _ _ _ _ _ Hl H1) as Hp. cbv beta.
    destruct (is_ValueError e); [apply wp_ret; split; [done|]; by apply Hsnoc|].
    destruct (is_RuntimeError e) eqn:Hre; [|apply wp_raise; split; [done|]; by destruct e].
    apply wp_bind, (available_wp d all); [|intros p w2 Hp2; split; [by etransitivity|done]].
    intros b w2 Hp2. assert (pushes_verified d all w w2) as Hp' by (by etransitivity).
    destruct b; [apply wp_ret; split; [done|]; by apply Hsnoc|]. apply wp_raise. split; [done|].
    split; [by apply Hsnoc|]. rewrite length_app, last_snoc. simpl. split; [lia|]. by eexists.
Qed.

Lemma rows_wp items : forall results w,
  drop (length results) all = items -> so_far results w -> (length results <= length all)%nat ->
  wp (install_rows cwd d items (length results) results)
    (fun rows w' => pushes_verified d all w w' /\ so_far rows w' /\ length rows = length all)
    (fun e w' => pushes_verified d all w w' /\ aborted e w') w.
Proof.
  induction items as [|[source digest] items IH]; intros results w Hdrop Hr Hle; cbn [install_rows].
  - apply wp_ret. split; [reflexivity|]. split; [done|]. apply (f_equal length) in Hdrop.
    rewrite length_drop in Hdrop. simpl in Hdrop. lia.
  - assert (all !! length results = Some (source, digest)) as Hl.
    { rewrite <- (Nat.add_0_r (length results)), <- lookup_drop, Hdrop. done. }
    assert (length results + S (length items) = length all)%nat as Hlen.
    { apply (f_equal length) in Hdrop. rewrite length_drop in Hdrop. simpl in Hdrop.
      apply lookup_lt_Some in Hl. lia. }
    apply wp_bind. eapply wp_mono; [by apply row_wp| |done]. intros row w1 [Hp H1].
    assert (S (length results) = length (results ++ [row])) as -> by (rewrite length_app; simpl; lia).
    eapply wp_mono; [apply IH| |].
    + rewrite length_app. simpl. rewrite <- drop_drop, Hdrop. done.
    + done.
    + rewrite length_app. simpl. lia.
    + intros rows w2 (Hp2 & ? & ?). split; [by etransitivity|done].
    + intros e w2 (Hp2 & ?). split; [by etransitivity|done].
Qed.
End batch.

(** ** The whole batch *)

(** No push at all. *)
Abbreviation nothing_pushed d := (pushes_verified d []).

Lemma nothing_verified d all w w' : nothing_pushed d w w' -> pushes_verified d all w w'.
Proof.
  intros (Hc & new & Hr & Hn). split; [done|]. exists new. split; [done|].
  intros src remote Hin. by destruct (Hn src remote Hin) as (k & ? & ? & ? & _).
Qed.

Definition preflight_error (e : adb_error) : Prop :=
  match e with Offline _ _ rows => rows = [] | NoRootAccess | NoMagisk | Proc _ => True | _ => False end.

Lemma probe_wp d (argv : list string) (again : adb_error) w :
  preflight_error again ->
  wp (r ← _adb_unchecked d ("shell" :: argv);
      let '(rc, _, err) := r in
      if rc =? 0 then mret tt else _abort_if_unavailable d err ;; raise again)
    (fun _ w' => nothing_pushed d w w') (fun e w' => nothing_pushed d w w' /\ preflight_error e) w.
Proof.
  intros Ha. apply wp_bind.
  assert (nothing_pushed d w (set_ran (ran w ++ [call_of d ("shell" :: argv)]) w)) as H1.
  { split; [done|]. eexists. split; [done|]. intros src remote Hin%list_elem_of_singleton. discriminate. }
  apply unchecked_wp; [|by split|by split]. intros rc out err _.
  destruct (rc =? 0); [by apply wp_ret|]. unfold _abort_if_unavailable.
  apply wp_bind, wp_bind, (available_wp d []); [|by intros; split; [etransitivity|]].
  intros b w2 H2. assert (nothing_pushed d w w2) by (by etransitivity).
  destruct b; simpl; [by apply wp_raise|by split].
Qed.

Lemma preflight_wp d w :
  wp (_preflight_root_and_magisk d) (fun _ w' => nothing_pushed d w w')
    (fun e w' => nothing_pushed d w w' /\ preflight_error e) w.
Proof.
  unfold _preflight_root_and_magisk.
  pose proof (probe_wp d ["su"; "-c"; shlex_quote "true"] NoRootAccess w I) as H1.
  unfold wp in *. unfold mbind, M_bind in *.
  destruct (_adb_unchecked d ["shell"; "su"; "-c"; shlex_quote "true"] w) as [[[[rc out] err]|e] w1]; [|exact H1].
  destruct (rc =? 0).
  - unfold mret, M_ret in *.
    pose proof (probe_wp d ["su"; "-c"; shlex_quote "command -v magisk"] NoMagisk w1 I) as H2.
    unfold wp, mbind, M_bind in H2.
    destruct (_adb_unchecked d ["shell"; "su"; "-c"; shlex_quote "command -v magisk"] w1) as [[[[rc' out'] err']|e] w2].
    + destruct (rc' =? 0); [by etransitivity|].
      destruct (_abort_if_unavailable d err' w2) as [[[]|e] w3]; simpl in *; destruct H2; (split; [by etransitivity|done]).
    + destruct H2. split; [by etransitivity|done].
  - destruct (_abort_if_unavailable d err w1) as [[[]|e] w2]; exact H1.
Qed.

(** The modules of a request with their digests. *)
Definition requested (sources : list string) (sha256s : option (list (option string)))
  : list (string * option string) := zip sources (default (replicate (length sources) None) sha256s).

Lemma auto_install_wp d sources sha256s w :
  wp (auto_install_modules cwd d sources sha256s)
    (fun rows w' => pushes_verified d (requested sources sha256s) w w' /\
       map row_source rows = sources /\ rows_true d rows (ran w'))
    (fun e w' => pushes_verified d (requested sources sha256s) w w' /\
       (nothing_pushed d w w' /\ error_rows e = [] \/
        aborted d (requested sources sha256s) e w' /\ map fst (requested sources sha256s) = sources)) w.
Proof.
  assert (forall e, error_rows e = [] -> pushes_verified d (requested sources sha256s) w w /\
    (nothing_pushed d w w /\ error_rows e = [] \/ aborted d (requested sources sha256s) e w /\
     map fst (requested sources sha256s) = sources)) as Hnone
    by (intros e He; split; [reflexivity|]; left; split; [reflexivity|done]).
  unfold auto_install_modules, need_adb. apply wp_bind, wp_lift.
  2: { intros e He. apply Hnone. unfold raise_if in He. destruct (negb _) in He; by simplify_eq. }
  intros [] _. apply wp_bind, wp_lift.
  2: { intros e He. apply Hnone. destruct sha256s; [|done]. unfold raise_if in He. destruct (negb _) in He; by simplify_eq. }
  intros [] Hlen. assert (map fst (requested sources sha256s) = sources) as Hfst.
  { unfold requested. apply fst_zip. destruct sha256s as [l|]; simpl.
    - apply raise_if_ok, negb_false_iff, Nat.eqb_eq in Hlen. lia.
    - by rewrite length_replicate. }
  apply wp_bind. eapply wp_mono; [apply preflight_wp| |].
  - intros [] w1 H1. apply (nothing_verified d (requested sources sha256s)) in H1.
    change (zip sources (default (replicate (length sources) None) sha256s)) with (requested sources sha256s).
    eapply wp_mono; [apply (rows_wp d (requested sources sha256s) (requested sources sha256s) []); [done| |simpl; lia]| |].
    + split; [done|]. by intros k source detail.
    + intros rows w2 (H2 & [Hs Ht] & Hl). split; [by etransitivity|]. split; [|done].
      rewrite Hs, Hl, take_ge; [done|by rewrite length_map].
    + intros e w2 [H2 Ha]. split; [by etransitivity|]. by right.
  - intros e w1 [H1 He]. split; [by apply nothing_verified|]. left. split; [done|]. by destruct e.
Qed.

(** C21. Every module is accounted for: a batch that returns has one row per source, in
    order; one that a lost device aborts has the rows of the modules it reached, the last
    of them failed, and counts the others as skipped; one that the preflight stopped has
    none.  A row says installed only if its zip was pushed and the install command ran
    with exit status 0, and the zip was removed from the device afterwards. *)
Theorem auto_install_accounts_for_all d sources sha256s w :
  match auto_install_modules cwd d sources sha256s w with
  | (Ok rows, w') => map row_source rows = sources /\ rows_true d rows (ran w')
  | (Err (Offline _ skipped rows), w') =>
      rows = [] \/
      map row_source rows = take (length rows) sources /\ (length rows + skipped = length sources)%nat /\
      rows_true d rows (ran w') /\ exists r, last rows = Some r /\ row_ok r = false
  | (Err e, w') => True
  end.
Proof.
  pose proof (auto_install_wp d sources sha256s w) as Hw. unfold wp in Hw.
  destruct (auto_install_modules cwd d sources sha256s w) as [[rows|e] w']; [apply Hw|].
  destruct e; try done. destruct Hw as [_ [[_ He]|[([Hs Ht] & Hl & Hlast) Hfst]]]; [by left|right].
  rewrite Hfst in Hs. rewrite <- Hfst, length_map. by rewrite Hfst.
Qed.

(** C12. Fail closed: whatever the device answers and however the batch ends, a zip is pushed
    only if it was asked for and, where a digest was given, has that digest; and nothing is
    pushed when the preflight stops the batch.  No file of the host changes. *)
Theorem auto_install_pushes_verified d sources sha256s w :
  let '(r, w') := auto_install_modules cwd d sources sha256s w in
  pushes_verified d (requested sources sha256s) w w' /\
  (r = Err NoRootAccess \/ r = Err NoMagisk -> nothing_pushed d w w').
Proof.
  pose proof (auto_install_wp d sources sha256s w) as Hw. unfold wp in Hw.
  destruct (auto_install_modules cwd d sources sha256s w) as [[rows|e] w'].
  - split; [apply Hw|]. by intros [|].
  - destruct Hw as [Hp Hc]. split; [done|]. intros Hr.
    destruct Hc as [[? _]|[Ha _]]; [done|]. by destruct Hr; simplify_eq.
Qed.

(** ** Frida *)

Definition frida_calls d (cached : path) : list (list string) :=
  [call_of d ["push"; path_str cached; _REMOTE_FRIDA_SERVER];
   call_of d ["shell"; "chmod"; "755"; _REMOTE_FRIDA_SERVER];
   call_of d ["shell"; "su"; "-c"; _REMOTE_FRIDA_SERVER +:+ " </dev/null >/dev/null 2>&1 &"];
   call_of d ["forward"; "tcp:" +:+ str_of_Z (_host_forward_port d); "tcp:" +:+ str_of_Z _DEVICE_PORT]].

(** The first [n] of the calls were made and succeeded. *)
Definition done_calls (h : list (list string)) (cs : list (list string)) (n : nat) w : Prop :=
  ran w = h ++ take n cs /\ forall k c, (k < n)%nat -> cs !! k = Some c -> succeeds (h ++ take k cs) c.

(** All but the last of the first [n], whose failure ended the sequence. *)
Definition stopped_at (h : list (list string)) (cs : list (list string)) (n : nat) w : Prop :=
  ran w = h ++ take n cs /\ forall k c, (S k < n)%nat -> cs !! k = Some c -> succeeds (h ++ take k cs) c.

Lemma sequence_step d argv h cs n w (Q : Z * string * string -> aworld -> Prop) (R : adb_error -> aworld -> Prop) :
  cs !! n = Some (call_of d argv) -> done_calls h cs n w ->
  (forall r w', done_calls h cs (S n) w' -> Q r w') ->
  (forall e w' m, (m <= S n)%nat -> stopped_at h cs m w' -> R e w') -> wp (_adb d argv) Q R w.
Proof.
  intros Hn [Hr Hs] HQ HR. pose proof (take_S_r _ _ _ Hn) as Ht.
  assert (ran (set_ran (ran w ++ [call_of d argv]) w) = h ++ take (S n) cs) as Hr'
    by (simpl; by rewrite Ht, Hr, app_assoc).
  apply adb_wp.
  - intros r Hok. apply HQ. split; [done|]. intros k c Hk Hc.
    destruct (decide (k = n)) as [->|]; [simplify_eq; by rewrite <- Hr|apply Hs; [lia|done]].
  - intros rc err. apply (HR _ _ (S n)); [lia|]. split; [done|]. intros k c Hk Hc. apply Hs; [lia|done].
  - apply (HR _ _ n); [lia|]. split; [done|]. intros k c Hk Hc. apply Hs; [lia|done].
  - apply (HR _ _ (S n)); [lia|]. split; [done|]. intros k c Hk Hc. apply Hs; [lia|done].
Qed.

(** Installing Frida pushes the downloaded binary, makes it executable, starts it and
    forwards the port that the registry index reserves, in this order: when it returns
    all four calls were made and each exited with 0; when it raises, the calls made are
    the first few of them and all but the last had succeeded. *)
Theorem frida_calls_in_order d (version : option string) w :
  let '(r, w') := adb_install_frida fuel d version w in
  exists cached, match r with
  | Ok _ => done_calls (ran w) (frida_calls d cached) 4 w'
  | Err _ => exists n, (n <= 4)%nat /\ stopped_at (ran w) (frida_calls d cached) n w'
  end.
Proof.
  enough (wp (adb_install_frida fuel d version) (fun _ w' => exists cached, done_calls (ran w) (frida_calls d cached) 4 w')
    (fun _ w' => exists cached n, (n <= 4)%nat /\ stopped_at (ran w) (frida_calls d cached) n w') w) as Hw.
  { unfold wp in Hw. by destruct (adb_install_frida fuel d version w) as [[[]|e] w']. }
  assert (forall w', ran w' = ran w -> exists cached n, (n <= 4)%nat /\ stopped_at (ran w) (frida_calls d cached) n w') as Hnone.
  { intros w' Hr. exists [], 0%nat. split; [lia|]. split; [by rewrite app_nil_r|lia]. }
  unfold adb_install_frida, need_adb. apply wp_bind, wp_lift; [intros v _|intros e _; by apply Hnone].
  apply wp_bind, wp_lift; [intros [] _|intros e _; by apply Hnone].
  apply wp_bind. unfold on_files. apply wp_zoom.
  destruct (download fuel v None None (a_net w)) as [[cached|e] s]; [|by apply Hnone].
  set (w1 := set_net_aw s w). set (cs := frida_calls d cached).
  assert (done_calls (ran w) cs 0 w1) as H0 by (split; [by rewrite app_nil_r|lia]).
  assert (forall (e : adb_error) w' m, (m <= 4)%nat -> stopped_at (ran w) cs m w' ->
    exists cached n, (n <= 4)%nat /\ stopped_at (ran w) (frida_calls d cached) n w') as Hstop by (intros _ w' m; eauto).
  unfold _adb_shell.
  apply wp_bind, (sequence_step d _ (ran w) cs 0); [done|done| |intros e w' m Hm Hs; eapply (Hstop e); [|exact Hs]; lia].
  intros _ w2 H2.
  apply wp_bind, (sequence_step d _ (ran w) cs 1); [done|done| |intros e w' m Hm Hs; eapply (Hstop e); [|exact Hs]; lia].
  intros _ w3 H3.
  apply wp_bind, (sequence_step d _ (ran w) cs 2); [done|done| |intros e w' m Hm Hs; eapply (Hstop e); [|exact Hs]; lia].
  intros _ w4 H4.
  apply wp_bind, (sequence_step d _ (ran w) cs 3); [done|done| |intros e w' m Hm Hs; eapply (Hstop e); [|exact Hs]; lia].
  intros _ w5 H5. apply wp_ret. by exists cached.
Qed.
End facts.

(** ** What reaches the device *)

Section shell.
Context {S : DeviceShell} `{SL : !DeviceShellLaws S}.

Lemma remote_safe index : all_chars shell_safe (remote_zip index) = true.
Proof.
  assert (all_chars shell_safe (str_of_Z (Z.of_nat index)) = true) as Hd.
  { apply (all_chars_impl is_digit); [|apply str_of_Z_digits; lia].
    intros c Hc. unfold shell_safe, is_alnum. by rewrite Hc. }
  unfold remote_zip. by rewrite !all_chars_app, Hd.
Qed.

(** Both parses of the install command are undone: the shell of the device hands the
    whole command to [su], and the shell [su] starts runs magisk on the file pushed for
    this module and nothing else; the same holds for the removal.  The name of the zip on
    the host occurs in neither. *)
Theorem install_reaches_magisk index :
  device_words ["su"; "-c"; shlex_quote (install_cmd index)] = ["su"; "-c"; install_cmd index] /\
  su_words [install_cmd index] = ["magisk"; "--install-module"; remote_zip index] /\
  device_words ["su"; "-c"; shlex_quote (cleanup_cmd index)] = ["su"; "-c"; cleanup_cmd index] /\
  su_words [cleanup_cmd index] = ["rm"; "-f"; remote_zip index].
Proof.
  split_and!; [apply su_command_arrives| |apply su_command_arrives|].
  - apply (su_splits_quoted ["magisk"; "--install-module"] (remote_zip index)); [done| |apply (bool_decide_unpack _); vm_compute; exact I].
    repeat constructor; done.
  - apply (su_splits_quoted ["rm"; "-f"] (remote_zip index)); [done| |apply (bool_decide_unpack _); vm_compute; exact I]. repeat constructor; done.
Qed.
End shell.
