(* ===== verification/Health.v ===== *)
(** * Health checks ([src/src/beetroot/api.py])

    The rows of [beetroot doctor]: the checks over adb, the listener probe, and the two
    aggregations, for redroid instances and for adb devices. *)
From stdpp Require Import base list strings gmap sorting.
From Stdlib Require Import ZArith QArith Lia Ascii.
From S2P Require Import Prelude PyStr Config Ports Registry Qemu BootCache Survey HostFs Paths Compose Download ModulesDownload FridaDownload Snapshot Api Shell Adb AdbOps.
Local Open Scope stdpp_scope.
Local Open Scope Z_scope.

(** The reason of a row: a text, or the text of a caught exception. *)
Inductive why : Type := Because (text : string) | TimedOutRun | OsFailure.
Inductive CheckResult : Type := Pass | Failed (reason : why) | Skip (reason : string).

#[export] Instance why_eq_dec : EqDecision why.
Proof. solve_decision. Defined.
#[export] Instance CheckResult_eq_dec : EqDecision CheckResult.
Proof. solve_decision. Defined.

(** [socket.create_connection] within its timeout. *)
Class Sockets := { connects : string -> Z -> bool }.

Definition gms_pkg : string := "com.google.android.gms".

(** ** Host rows *)

Definition _check_host_binder (mode : Binder) (status : BinderStatus) : CheckResult :=
  match mode with
  | binder_vm => Skip "binder: vm — host binder not required (emulated micro-VM provides its own)"
  | _ =>
      match state status with
      | ready => Pass
      | s =>
          if bool_decide (s = Survey.unknown) && negb (bool_decide (mode = binder_host)) then Skip (reason status)
          else Failed (Because (reason status +:+ ". " +:+ remedy status +:+
                 " Run `beetroot modes` for this host's options."))
      end
  end.

Definition _check_frida_socket `{Sockets} (host : string) (port : Z) (enabled : bool) : CheckResult :=
  if negb enabled then Skip "frida not configured"
  else if connects host port then Pass
  else Failed (Because ("no listener at " +:+ host +:+ ":" +:+ str_of_Z port)).

(** ** Rows over adb *)

Section checks.
Context {A : Adb}.

(** A captured run whose failures to start and to finish are rows. *)
Definition adb_check (argv : list string) (k : Z -> string -> string -> CheckResult) : CallM CheckResult :=
  if negb adb_found then mret (Skip "adb not on PATH")
  else
    catch (e ← captured argv;
           mret (match e with Finished rc out err => k rc out err | _ => Failed TimedOutRun end))
      (fun e => match e with CannotSpawn => mret (Failed OsFailure) | UndecodableOutput => raise e end).

(** [a or b]. *)
Definition or_else (a b : string) : string := if String.eqb a "" then b else a.

Definition _check_adb_connect (target : string) : CallM CheckResult :=
  adb_check [_ADB; "connect"; target] (fun rc out err =>
    let combined := lower (out +:+ String newline err) in
    if negb (rc =? 0) || contains "cannot connect" combined || contains "failed" combined
    then Failed (Because ("exit " +:+ str_of_Z rc +:+ "; " +:+ or_else (strip out) (strip err)))
    else Pass).

Definition _magisk_sqlite_argv (adb_target sql : string) (use_su : bool) : list string :=
  [_ADB; "-s"; adb_target; "shell"] ++
  (if use_su then ["su"; "-c"; shlex_quote ("magisk --sqlite " +:+ shlex_quote sql)]
   else ["magisk"; "--sqlite"; sql]).

Definition zygisk_sql : string :=
  "SELECT value FROM settings WHERE key=" +:+ String apostrophe ("zygisk" +:+ String apostrophe "").
Definition denylist_sql (pkg : string) : string :=
  "SELECT package_name FROM denylist WHERE package_name=" +:+ String apostrophe (pkg +:+ String apostrophe "").

Definition sqlite_failed (rc : Z) (out err : string) : CheckResult :=
  Failed (Because ("exit " +:+ str_of_Z rc +:+ "; " +:+ strip (or_else err out))).

Definition _check_magisk_zygisk_over_adb (adb_target : string) (use_su : bool) : CallM CheckResult :=
  adb_check (_magisk_sqlite_argv adb_target zygisk_sql use_su) (fun rc out err =>
    if negb (rc =? 0) then sqlite_failed rc out err
    else if contains "value=1" (strip out) then Pass
    else if contains "value=0" (strip out) then Failed (Because "expected 1, got 0")
    else Failed (Because ("unexpected output: " +:+ strip out))).

Definition _check_magisk_denylist_over_adb (adb_target pkg : string) (enrolled use_su : bool) : CallM CheckResult :=
  if negb enrolled then mret (Skip (pkg +:+ " not in magisk.denylist"))
  else
    adb_check (_magisk_sqlite_argv adb_target (denylist_sql pkg) use_su) (fun rc out err =>
      if negb (rc =? 0) then sqlite_failed rc out err
      else if contains pkg out then Pass
      else Failed (Because (pkg +:+ " not enrolled"))).

(** The first row of [adb devices] that names the serial decides. *)
Fixpoint listed_state (serial : string) (lines : list string) : option string :=
  match lines with
  | [] => None
  | line :: lines' =>
      match device_row serial line with Some st => Some st | None => listed_state serial lines' end
  end.

Definition _check_adb_serial_listed (serial : string) : CallM CheckResult :=
  adb_check [_ADB; "devices"] (fun rc out err =>
    if negb (rc =? 0) then Failed (Because ("adb devices exit " +:+ str_of_Z rc))
    else match listed_state serial (splitlines out) with
         | Some st => if String.eqb st "device" then Pass else Failed (Because ("state=" +:+ st))
         | None => Failed (Because (serial +:+ " not listed"))
         end).

(** ** The rows of an adb device *)

Context {N : Sockets}.

(** The device is known by its two addresses only. *)
Definition adb_device_health (adb_address frida_address : string) : CallM (list (string * CheckResult)) :=
  let '(host, port) := partition_on ":"%char frida_address in
  let frida_port := default 0 (py_int (default "" port)) in
  serial ← _check_adb_serial_listed adb_address;
  let frida := _check_frida_socket (or_else host "localhost") frida_port (0 <? frida_port) in
  zygisk ← _check_magisk_zygisk_over_adb adb_address true;
  denylist ← _check_magisk_denylist_over_adb adb_address gms_pkg false true;
  mret [("adb.serial", serial); ("frida.handshake", frida); ("magisk.zygisk", zygisk);
        ("magisk.denylist." +:+ gms_pkg, denylist)].

Definition adb_health (d : AdbDevice) : CallM (list (string * CheckResult)) :=
  adb_device_health (a_serial d) (frida_address d).

(** ** The rows of an instance *)

Context {P : Pydantic} {X : Externals} {Y : Layout} {D : Docker}.

(** An object with its world, and the adb calls made. *)
Record doctored := mkDoctored { patient : obj; adb_calls : list (list string) }.

Inductive health_error : Type :=
| HApi (e : api_error) | HProc (e : proc_error) | NoAdbPort.     (* KeyError *)
Abbreviation HM := (M doctored health_error).

Definition of_patient {B} (m : M obj api_error B) : HM B :=
  zoom patient (fun o s => mkDoctored o (adb_calls s)) HApi m.
Definition over_adb {B} (m : CallM B) : HM B :=
  zoom adb_calls (fun h s => mkDoctored (patient s) h) HProc m.

Definition status_text (s : ComposeStatus) : string :=
  match s with
  | running => "running" | exited => "exited" | starting => "starting" | created => "created"
  | paused => "paused" | not_created => "not-created" | docker_unreachable => "docker-unreachable"
  | Compose.unknown => "unknown"
  end.

(** A denylist entry is [package[/process]]. *)
Definition enrolls (entry : string) : bool := String.eqb (partition_on "/"%char entry).1 gms_pkg.

(** [binder] is the probe's answer. *)
Definition health (binder_now : BinderStatus) : HM (list (string * CheckResult)) :=
  l ← of_patient instance_ports;
  let wk := well_known l in
  adb_port ← lift (match Dict.get "adb" wk with Some p => Ok p | None => Err NoAdbPort end);
  let frida_port := default 0 (Dict.get "frida" wk) in
  live_status ← of_patient status;
  cfg ← gets (fun s => i_cfg (self (patient s)));
  let target := "localhost:" +:+ str_of_Z adb_port in
  connect ← over_adb (_check_adb_connect target);
  let frida_row := _check_frida_socket "localhost" frida_port (bool_decide (is_Some (frida cfg))) in
  zygisk ← over_adb (_check_magisk_zygisk_over_adb target false);
  denylist ← over_adb (_check_magisk_denylist_over_adb target gms_pkg
                         (existsb enrolls (Config.denylist (magisk cfg))) false);
  mret [("compose.status", if bool_decide (live_status = running) then Pass
                           else Failed (Because (status_text live_status)));
        ("host.binder", _check_host_binder (binder cfg) binder_now);
        ("adb.connect", connect); ("frida.handshake", frida_row); ("magisk.zygisk", zygisk);
        ("magisk.denylist." +:+ gms_pkg, denylist)].
End checks.

(** ** Facts *)

Section facts.
Context {A : Adb} {N : Sockets}.
Implicit Types (h : list (list string)) (d : AdbDevice) (serial : string).

(** How often a serial is listed. *)
Definition listings serial (out : string) : nat :=
  length (filter (fun line => is_Some (device_row serial line)) (splitlines out)).

Lemma listed_device serial lines :
  listed_state serial lines = Some "device" ->
  existsb (fun line => bool_decide (device_row serial line = Some "device")) lines = true.
Proof.
  induction lines as [|line lines IH]; [done|]. simpl. destruct (device_row serial line) as [st|]; [|done].
  intros ->. by rewrite bool_decide_eq_true_2.
Qed.

Lemma device_listed serial lines :
  existsb (fun line => bool_decide (device_row serial line = Some "device")) lines = true ->
  listed_state serial lines = Some "device" \/
  (2 <= length (filter (fun line => is_Some (device_row serial line)) lines))%nat.
Proof.
  induction lines as [|line lines IH]; [done|]. simpl. rewrite filter_cons.
  intros [Hd%bool_decide_eq_true|Hd]%orb_true_iff; [rewrite Hd; by left|].
  destruct (IH Hd) as [Hl|Hl]; destruct (device_row serial line) as [st|] eqn:Hst.
  - right. rewrite decide_True by done. simpl. apply existsb_exists in Hd as (x & Hx & Hxd%bool_decide_eq_true).
    assert (x ∈ filter (fun line => is_Some (device_row serial line)) lines) as Hin
      by (apply list_elem_of_filter; split; [by rewrite Hxd|by apply list_elem_of_In]).
    destruct (filter _ lines); [by apply elem_of_nil in Hin|simpl; lia].
  - rewrite decide_False by (by intros []). by left.
  - right. rewrite decide_True by done. simpl. lia.
  - right. by rewrite decide_False by (by intros []).
Qed.

(** The doctor row and the availability that [ls] and [status] show agree on one answer of
    adb: a passing row means available, and an available device passes unless the answer
    lists its serial more than once. *)
Theorem serial_row_agrees_with_availability serial h :
  (fst (_check_adb_serial_listed serial h) = Ok Pass -> fst (serial_is_available serial h) = Ok true) /\
  (fst (serial_is_available serial h) = Ok true ->
   fst (_check_adb_serial_listed serial h) = Ok Pass \/
   exists rc out err, adb_run h [_ADB; "devices"] = Finished rc out err /\ (2 <= listings serial out)%nat).
Proof.
  unfold _check_adb_serial_listed, adb_check, serial_is_available, listings.
  destruct adb_found; [|done]. simpl. unfold catch, mbind, M_bind, captured.
  destruct (adb_run h [_ADB; "devices"]) as [rc out err|out err| |]; try done. simpl.
  destruct (Z.eqb_spec rc 0) as [->|]; simpl; [|done]. split.
  - destruct (listed_state serial (splitlines out)) as [st|] eqn:Hl; [|done].
    destruct (String.eqb_spec st "device") as [->|]; [|done]. intros _. by rewrite listed_device.
  - intros [= Hd]. destruct (device_listed _ _ Hd) as [->|Hn]; [by left|].
    right. by exists 0, out, err.
Qed.

Definition adb_row_names : list string :=
  ["adb.serial"; "frida.handshake"; "magisk.zygisk"; "magisk.denylist." +:+ gms_pkg].

Lemma adb_check_text argv k h : (forall h argv, adb_run h argv <> NotText) ->
  exists r h', adb_check argv k h = (Ok r, h').
Proof.
  intros Ht. unfold adb_check. destruct (negb adb_found); [by do 2 eexists|].
  unfold catch, mbind, M_bind, captured. specialize (Ht h argv).
  destruct (adb_run h argv); try done; by do 2 eexists.
Qed.

(** [doctor] always gets its rows for an adb device, in one fixed order: as long as what adb
    prints is text, a missing or failing adb, a timeout and a malformed address all end in
    rows. *)
Theorem adb_doctor_is_total d h :
  (forall h argv, adb_run h argv <> NotText) ->
  exists rows h', adb_health d h = (Ok rows, h') /\ map fst rows = adb_row_names.
Proof.
  intros Ht. unfold adb_health, adb_device_health. destruct (partition_on ":" (frida_address d)) as [host port].
  destruct (adb_check_text [_ADB; "devices"] _ h Ht : exists r h1, _check_adb_serial_listed (a_serial d) h = (Ok r, h1))
    as (r1 & h1 & H1).
  destruct (adb_check_text (_magisk_sqlite_argv (a_serial d) zygisk_sql true) _ h1 Ht :
    exists r h2, _check_magisk_zygisk_over_adb (a_serial d) true h1 = (Ok r, h2)) as (r2 & h2 & H2).
  rewrite (M_bind_ok _ _ _ _ _ H1). cbv zeta. rewrite (M_bind_ok _ _ _ _ _ H2). by do 2 eexists.
Qed.

(** Output of adb that is not UTF-8 is no row: it leaves the checks as an exception. *)
Theorem undecodable_answer_escapes d h :
  adb_found = true -> adb_run h [_ADB; "devices"] = NotText ->
  fst (adb_health d h) = Err UndecodableOutput.
Proof.
  intros Hf Hn. unfold adb_health, adb_device_health. destruct (partition_on ":" (frida_address d)) as [host port].
  unfold _check_adb_serial_listed, adb_check, mbind, M_bind, catch, captured. rewrite Hf. simpl.
  unfold mbind, M_bind. by rewrite Hn.
Qed.
End facts.

Section queries.
Context {S : DeviceShell} `{SL : !DeviceShellLaws S}.

(** The query text as the device gets it. *)
Definition sent_query (target sql : string) (use_su : bool) : list string :=
  device_words (drop 4 (_magisk_sqlite_argv target sql use_su)).

(** Over [su] any query arrives at magisk as one argument.  Without it — the way every
    redroid instance is asked — the shell of the device splits the query, and the argument
    magisk reads is the word SELECT alone. *)
Theorem bare_query_is_split target :
  (forall sql, exists cmd, sent_query target sql true = ["su"; "-c"; cmd] /\
     su_words [cmd] = ["magisk"; "--sqlite"; sql]) /\
  sent_query target zygisk_sql false =
    ["magisk"; "--sqlite"; "SELECT"; "value"; "FROM"; "settings"; "WHERE"; "key=zygisk"].
Proof.
  split.
  - intros sql. exists ("magisk --sqlite " +:+ shlex_quote sql). split; [apply su_command_arrives|].
    apply (su_splits_quoted ["magisk"; "--sqlite"] sql); [done| |apply (bool_decide_unpack _); vm_compute; exact I].
    by repeat constructor.
  - unfold sent_query. set (ws := map plain_word ["magisk"; "--sqlite"; "SELECT"; "value"; "FROM"; "settings"; "WHERE"] ++
      [[Bare (chars "key="); Literal (chars "zygisk")]]).
    rewrite (device_splits _ ws); [reflexivity| | |reflexivity].
    + repeat constructor; try done. apply (bool_decide_unpack _). vm_compute. exact I.
    + apply (bool_decide_unpack _). vm_compute. exact I.
Qed.
End queries.
