(* ===== verification/VmOps.v ===== *)
(** * The micro-VM backend's files and row ([src/src/beetroot/backends/vm.py])

    What [VmDeviceBackend] does beside running QEMU ([VmBackend]): hydration from its row,
    [apply] with its staging, [destroy] and the doctor rows.  The state is the world of
    [Api] with the device object, the host that runs QEMU and the adb calls made. *)
From stdpp Require Import base list strings gmap sorting.
From Stdlib Require Import ZArith QArith Lia Ascii.
From S2P Require Import Prelude PyStr Config Ports Registry RegistryOps Render Qemu BootCache VmBackend Survey HostFs Paths Compose Download ModulesDownload FridaDownload RootfsDownload Snapshot SnapshotOps Api ApiInv ApiOps ApiPeers ApiSpecs ApiVerbs Shell Adb AdbOps Health.
Local Open Scope stdpp_scope.
Local Open Scope Z_scope.

Record VmDevice := mkVm { v_name : string; v_root : path; v_cfg : InstanceConfig; v_index : Z }.

Record vdev := mkVdev {
  v_self : VmDevice; v_env : Api.world; v_proc : Qemu.host; v_calls : list (list string) }.

Inductive vm_error : Type :=
| VApi (e : api_error) | VQemu (e : qemu_error) | VProc (e : proc_error)
| FridaUnsupported                               (* BackendCapabilityError *)
| VNoAdbPort.                                    (* KeyError *)
Abbreviation VOM := (M vdev vm_error).

Definition v_on_env {B} (m : AM B) : VOM B :=
  zoom v_env (fun w s => mkVdev (v_self s) w (v_proc s) (v_calls s)) VApi m.
Definition v_on_proc {B} (m : M Qemu.host qemu_error B) : VOM B :=
  zoom v_proc (fun h s => mkVdev (v_self s) (v_env s) h (v_calls s)) VQemu m.
Definition v_on_calls {B} (m : CallM B) : VOM B :=
  zoom v_calls (fun c s => mkVdev (v_self s) (v_env s) (v_proc s) c) VProc m.

(** What the host offers to the VM: the settings, the expansion of a leading tilde, the
    machine and its [/dev/kvm], and whether the emulator is on the PATH. *)
Record vm_host_facts := mkFacts {
  vm_kernel_default : string; vm_rootfs_default : string; expanduser : string -> string;
  host_machine : string; dev_kvm_ok : bool; qemu_name : string; qemu_found : bool }.

Section vm.
Context {P : Pydantic} {X : Externals} {Y : Layout} {W : Web} {os : OS} {A : Adb}.
Variable facts : vm_host_facts.

(** [_resolve_artifact], on the host's tree: [Err] is the label with what is wrong. *)
Inductive artifact_error : Type := Unset (label : string) | Missing (label given : string).
Definition artifact (f : HostFs.fs) (configured : option string) (env_default label : string)
  : result artifact_error path :=
  match or_unset configured env_default with
  | None => Err (Unset label)
  | Some given =>
      let p := resolve cwd (expanduser facts given) in
      if exists_at f p then Ok p else Err (Missing label given)
  end.

(** ** Hydration and addresses *)

Definition vm_from_meta (name : string) (b : BackendConfig) : AM VmDevice :=
  match b with
  | VmBackendConfig p =>
      m ← row_of name;
      match m with
      | None => raise (NotFound name)
      | Some m =>
          let root := resolve cwd p in
          cfg ← catch (on_host (load_yaml (instance_yaml root))) (fun e =>
                  match e with
                  | Snap (ConfigFileErr NoSuchFile) => raise (OrphanRow name root)
                  | _ => raise e
                  end);
          mret (mkVm name root cfg (Registry.index m))
      end
  | _ => raise (NotFound name)
  end.

Definition FRIDA_ADDRESS_UNSUPPORTED : string := "unsupported".
Definition vm_frida_address : string := FRIDA_ADDRESS_UNSUPPORTED.
Definition vm_install_frida (version : option string) : VOM unit := raise FridaUnsupported.
Definition vm_frida_cli (args : list string) : VOM Z := raise FridaUnsupported.

Definition vm_ports (v : VmDevice) : AM (list ResolvedPort) := ports_of (v_index v) (v_cfg v).

(** [adb_port] of the device: the host port that identifies its QEMU. *)
Definition vm_adb_port : VOM Z :=
  v ← gets v_self;
  l ← v_on_env (vm_ports v);
  match Dict.get "adb" (well_known l) with Some p => mret p | None => raise VNoAdbPort end.

(** ** [apply] *)

Definition vm_check_port_collisions (name : string) (new_ports : list ResolvedPort) : AM unit :=
  f ← gets w_fs;
  siblings ← on_host (on_reg (all_resolved_host_ports (sibling_yaml f)));
  match find_port_collision new_ports (filter (fun '(n, _) => n <> name) siblings) with
  | None => mret tt
  | Some (port, other, kind) => raise (Snap (RegErr (PortCollides port other kind)))
  end.

(** No stealth paths, no Frida; the modules last, over the network. *)
Definition vm_stage_local (v : VmDevice) : AM unit :=
  let root := v_root v in
  on_tree (mkdir_p (instance_data root)) ;;
  on_tree (mkdir_p (instance_modules root)) ;;
  on_tree (write_file (instance_env root) (render_env float_repr render_node (v_name v) (v_cfg v) None)) ;;
  new ← vm_ports v;
  on_tree (write_file (instance_compose_override root) (render_compose_ports_override new)).

Definition vm_stage (v : VmDevice) : AM unit :=
  vm_stage_local v ;;
  _ ← on_net (stage_for_instance (v_root v) (Config.modules (v_cfg v)));
  mret tt.

(** The version the rootfs was baked with, when it is not the configured one. *)
Definition rootfs_skew (f : HostFs.fs) (cfg : InstanceConfig) : option (Z * Z) :=
  match artifact f (Config.rootfs (Config.vm cfg)) (vm_rootfs_default facts) "rootfs" with
  | Err _ => None
  | Ok p =>
      match RootfsDownload.read_rootfs_version f p with
      | Some baked => if decide (baked = android_version (Config.android cfg)) then None
                      else Some (baked, android_version (Config.android cfg))
      | None => None
      end
  end.

Definition warn_rootfs_skew (cfg : InstanceConfig) : AM unit :=
  f ← gets w_fs;
  match rootfs_skew f cfg with
  | Some (baked, wanted) => print_note (RootfsSkew baked wanted)
  | None => mret tt
  end.

Definition set_v_cfg (c : InstanceConfig) : VOM unit :=
  modify (fun s => mkVdev (mkVm (v_name (v_self s)) (v_root (v_self s)) c (v_index (v_self s)))
                     (v_env s) (v_proc s) (v_calls s)).

Definition _warn_on_inert_vm_config (v : VmDevice) : VOM unit := v_on_env (report_inert (v_cfg v) (v_name v)).

Definition vm_apply : VOM unit :=
  v ← gets v_self;
  cfg ← v_on_env (on_host (load_yaml (instance_yaml (v_root v))));
  set_v_cfg cfg ;;
  v ← gets v_self;
  new_ports ← v_on_env (vm_ports v);
  v_on_env (vm_check_port_collisions (v_name v) new_ports) ;;
  v_on_env (vm_stage v) ;;
  v_on_env (warn_rootfs_skew (v_cfg v)) ;;
  _warn_on_inert_vm_config v ;;
  _ ← v_on_env (on_host (on_reg (reconcile_backend_kind (v_name v) (binder_str (Config.binder (v_cfg v))))));
  mret tt.

(** ** [destroy] *)

Definition vm_destroy (yes : bool) : VOM unit :=
  lift (raise_if (negb yes) (VApi NotConfirmed)) ;;
  v ← gets v_self;
  port ← vm_adb_port;
  _ ← v_on_proc (terminate (Some port));
  v_on_env (on_host (on_reg (remove (v_name v)))) ;;
  v_on_env (rmtree_if_there (v_root v)).

(** ** Doctor rows *)

(** A passing row may carry a reason. *)
Inductive vm_check : Type := Plain (r : CheckResult) | PassWith (reason : string).

Definition _accel_check (requested : Accel) : vm_check :=
  match detect_accel (host_machine facts) (dev_kvm_ok facts) requested with
  | Err e => Plain (Failed OsFailure)
  | Ok kvm => PassWith "KVM-accelerated (near-native)"
  | Ok tcg => PassWith "TCG software emulation — no /dev/kvm; expect ~5-20x slower boots"
  end.

Definition _QEMU_INSTALL : string :=
  "install QEMU (e.g. `apt-get install qemu-system-x86`), then `beetroot build --vm-kernel`".

Definition _qemu_binary_check : CheckResult :=
  if qemu_found facts then Pass
  else Failed (Because ("QEMU (" +:+ qemu_name facts +:+ ") not found on PATH — " +:+ _QEMU_INSTALL)).

Definition _artifacts_check (f : HostFs.fs) (cfg : InstanceConfig) : CheckResult :=
  match artifact f (Config.kernel (Config.vm cfg)) (vm_kernel_default facts) "kernel" with
  | Err _ => Failed OsFailure
  | Ok _ =>
      match artifact f (Config.rootfs (Config.vm cfg)) (vm_rootfs_default facts) "rootfs" with
      | Err _ => Failed OsFailure
      | Ok _ => Pass
      end
  end.

Definition vm_health : VOM (list (string * vm_check)) :=
  port ← vm_adb_port;
  live ← v_on_proc (is_running (Some port));
  cfg ← gets (fun s => v_cfg (v_self s));
  f ← gets (fun s => w_fs (v_env s));
  connect ← v_on_calls (_check_adb_connect ("localhost:" +:+ str_of_Z port));
  mret [("vm.process", Plain (if (live : bool) then Pass else Failed (Because "QEMU micro-VM is not running")));
        ("vm.accel", _accel_check (Config.accel (Config.vm cfg)));
        ("vm.qemu", Plain _qemu_binary_check);
        ("vm.artifacts", Plain (_artifacts_check f cfg));
        ("adb.connect", Plain connect)].
End vm.

(** * What these operations guarantee *)

Section vm_specs.
Context `{P : Pydantic} `{L : !PydanticLaws P} {X : Externals} {Y : Layout} `{YL : !LayoutLaws Y} {W : Web} `{WL : !WebLaws W} {os : OS} {A : Adb}.
Variable facts : vm_host_facts.
Abbreviation RegistryFile := (list (string * InstanceMeta)).
Implicit Types (data : RegistryFile) (w : world) (v : VmDevice).

Lemma on_rows_run {B} (m : M Registry.world reg_error B) w : on_host (on_reg m) w =
  match m (w_reg w) with
  | (Ok a, r) => (Ok a, set_base (mkHost (w_fs w) r) w)
  | (Err e, r) => (Err (Snap (RegErr e)), set_base (mkHost (w_fs w) r) w)
  end.
Proof. unfold on_host, on_reg, zoom, w_reg. by destruct (m (rworld (base w))) as [[] ?]. Qed.

Lemma same_rows w : set_base (mkHost (w_fs w) (w_reg w)) w = w.
Proof. by destruct w as [[] ? ? ? ? ? ?]. Qed.

(** On a registry that was written, the copy of the collision check kept here answers as
    the one of the redroid verbs does, whatever the siblings and the new ports are. *)
Theorem vm_collision_agrees data w (name : string) (l : list ResolvedPort) :
  reg (w_reg w) = Some (Doc (_registry_to_json data)) -> file_wf data ->
  vm_check_port_collisions name l w = _check_port_collisions name l w.
Proof.
  intros Hr Hd. unfold vm_check_port_collisions, _check_port_collisions.
  rewrite !(M_bind_ok (gets w_fs) _ w (w_fs w) w) by done. unfold mbind at 1, M_bind. rewrite !on_rows_run.
  unfold all_resolved_host_ports. rewrite (M_bind_ok _ _ _ _ _ (list_written _ _ Hr Hd)).
  unfold assert_no_port_collision. rewrite locked_then, (opened_written _ _ Hr Hd).
  unfold mbind, M_bind, lift. destruct (_resolved_host_ports_from _ _) as [sib|e]; [|done].
  destruct (find_port_collision _ _) as [[[] ?]|]; simpl; by rewrite ?(same_rows w).
Qed.

Lemma vm_collision_wp data w (name : string) (l : list ResolvedPort) :
  holds data (w_reg w) -> file_wf data ->
  wp (vm_check_port_collisions name l) (fun _ w' => untouched data w w')
    (fun e w' => untouched data w w' /\ forall d, e <> Dl d) w.
Proof.
  intros Hr Hd. unfold vm_check_port_collisions. apply wp_bind, wp_gets, wp_bind.
  unfold wp at 1. rewrite on_rows_run. unfold all_resolved_host_ports.
  pose proof (holds_list data _ Hr Hd) as Hl. unfold wp in Hl. unfold mbind, M_bind.
  destruct (list_instances (w_reg w)) as [[d|e] r]; [|by split].
  destruct Hl as [-> Hl]. unfold lift. destruct (_resolved_host_ports_from _ _) as [sib|e]; [|by split].
  destruct (find_port_collision _ _) as [[[] ?]|]; by split.
Qed.

Lemma wp_v_on_env {B} (m : AM B) s (Q : B -> vdev -> Prop) (R : vm_error -> vdev -> Prop) :
  wp m (fun a w => Q a (mkVdev (v_self s) w (v_proc s) (v_calls s)))
    (fun e w => R (VApi e) (mkVdev (v_self s) w (v_proc s) (v_calls s))) (v_env s) ->
  wp (v_on_env m) Q R s.
Proof. intros Hm. apply wp_zoom. unfold wp in Hm. by destruct (m (v_env s)) as [[a|e] w]. Qed.

(** The local half of the staging renders the files of a row that keeps no stealth paths. *)
Lemma vm_stage_local_wp data m v w :
  holds data (w_reg w) -> stealth_of m = None -> index m = v_index v ->
  wp (vm_stage_local v)
    (fun _ w' => rendered (v_name v) (v_root v) (v_cfg v) m (w_fs w') /\ holds data (w_reg w'))
    (fun e w' => holds data (w_reg w') /\ forall d, e <> Dl d) w.
Proof.
  intros Hr Hs Hi. unfold vm_stage_local.
  apply wp_bind, wp_on_tree; [intros _ f1 _|done]. apply wp_bind, wp_on_tree; [intros _ f2 _|done].
  apply wp_bind, wp_on_tree; [intros [] f3 [Hf3 _]%write_file_ok|done].
  apply wp_bind. unfold vm_ports, ports_of, on_host, resolved. apply wp_zoom. unfold lift at 1.
  destruct (fst (resolve_ports (v_index v) (ports (v_cfg v)) false)) as [new|pe] eqn:Hnew; [|done].
  apply wp_on_tree; [|done]. intros [] f4 [Hf4 _]%write_file_ok. split; [|exact Hr].
  change (w_fs (set_fs f4 _)) with f4. cbn in Hf3, Hf4. rewrite <- Hs, <- Hi in *.
  split; [|exists new; split; [done|]]; unfold instance_env, instance_compose_override in *;
    rewrite Hf4; [|apply lookup_insert_eq].
  rewrite lookup_insert_ne by (by intros ?%snoc_inj). rewrite Hf3. apply lookup_insert_eq.
Qed.

(** The modules come last; a failed download is the only way they fail. *)
Lemma vm_stage_wp data m v w :
  holds data (w_reg w) -> stealth_of m = None -> index m = v_index v -> apart _module_cache_dir (v_root v) ->
  let done w' := rendered (v_name v) (v_root v) (v_cfg v) m (w_fs w') /\ holds data (w_reg w') in
  wp (vm_stage v) (fun _ => done)
    (fun e w' => holds data (w_reg w') /\ (forall d, e <> Dl d) \/ done w' /\ exists d, e = Dl d) w.
Proof.
  intros Hr Hs Hi Hap d0. unfold vm_stage. apply wp_bind.
  eapply wp_mono; [by apply (vm_stage_local_wp data m)| |by left]. intros _ w1 [Hren Hr1].
  assert (forall w2, keeps_rendered (v_root v) w1 w2 -> d0 w2) as Hkeep.
  { intros w2 [Hreg Hfiles]. split; [by eapply rendered_frame|by rewrite Hreg]. }
  apply wp_bind. pose proof (modules_keep (v_root v) (Config.modules (v_cfg v)) Hap w1) as Hk.
  unfold wp, on_net, zoom in *. destruct (stage_for_instance _ _ (net_of w1)) as [[a|e] t].
  - by apply Hkeep.
  - right. split; [by apply Hkeep|by exists e].
Qed.

(** The object and the files follow the configuration on disk. *)
Definition vm_follows (m : InstanceMeta) v w s' : Prop := exists text cfg,
  node_at (w_fs w) (instance_yaml (v_root v)) = Some (FileN text) /\ parse_config text = Some cfg /\
  v_self s' = mkVm (v_name v) (v_root v) cfg (v_index v) /\
  rendered (v_name v) (v_root v) cfg m (w_fs (v_env s')).

(** An advisory changes no file and no row. *)
Definition only_says (m : AM unit) : Prop := forall w,
  wp m (fun _ w' => w_fs w' = w_fs w /\ w_reg w' = w_reg w) (fun _ _ => False) w.

Lemma skew_says cfg : only_says (warn_rootfs_skew facts cfg).
Proof.
  intros w. unfold warn_rootfs_skew. apply wp_bind, wp_gets.
  by destruct (rootfs_skew facts (w_fs w) cfg) as [[]|].
Qed.

Lemma inert_says cfg (name : string) : only_says (report_inert cfg name).
Proof. intros w. unfold report_inert. by destruct (warn_inert_fields cfg). Qed.

Lemma wp_says (m : AM unit) s (Q : unit -> vdev -> Prop) (R : vm_error -> vdev -> Prop) :
  only_says m ->
  (forall w', w_fs w' = w_fs (v_env s) -> w_reg w' = w_reg (v_env s) ->
     Q tt (mkVdev (v_self s) w' (v_proc s) (v_calls s))) -> wp (v_on_env m) Q R s.
Proof.
  intros Hm HQ. apply wp_v_on_env. eapply wp_mono; [apply Hm| |done]. intros [] w' [? ?]. by apply HQ.
Qed.

(** C20. [apply] on a micro-VM renders the files of the edited configuration and then makes
    the row's backend follow its binder.  Whatever it raises, the rows are as before — also
    when the files are already those of the new configuration and only a module could not be
    fetched, which leaves them apart. *)
Theorem vm_apply_spec data m v w h calls :
  holds data (w_reg w) -> file_wf data -> Dict.get (v_name v) data = Some m ->
  stealth_of m = None -> index m = v_index v -> apart _module_cache_dir (v_root v) ->
  match vm_apply facts (mkVdev v w h calls) with
  | (Ok _, s') => vm_follows m v w s' /\ exists data' m', holds data' (w_reg (v_env s')) /\
      Dict.get (v_name v) data' = Some m' /\ row_follows (binder (v_cfg (v_self s'))) m m' /\
      forall n, n <> v_name v -> Dict.get n data' = Dict.get n data
  | (Err e, s') => holds data (w_reg (v_env s')) /\
      forall d, e = VApi (Dl d) -> vm_follows m v w s'
  end.
Proof.
  intros Hr Hd Hg Hs Hi Hap.
  set (R := fun e s' => holds data (w_reg (v_env s')) /\ forall d, e = VApi (Dl d) -> vm_follows m v w s').
  enough (wp (vm_apply facts) (fun _ s' => vm_follows m v w s' /\ exists data' m', holds data' (w_reg (v_env s')) /\
      Dict.get (v_name v) data' = Some m' /\ row_follows (binder (v_cfg (v_self s'))) m m' /\
      forall n, n <> v_name v -> Dict.get n data' = Dict.get n data) R (mkVdev v w h calls)) as Hw.
  { unfold wp in Hw. by destruct (vm_apply facts (mkVdev v w h calls)) as [[[]|e] s']. }
  unfold vm_apply. apply wp_bind, wp_gets, wp_bind, wp_v_on_env. cbn [v_self v_env v_proc v_calls].
  unfold wp at 1. rewrite load_read.
  destruct (load_yaml (instance_yaml (v_root v)) (base w)) as [[cfg|e] hh] eqn:Hl; [|by split].
  apply load_yaml_ok in Hl as (_ & text & Hy & Hparse). cbn [fst]. apply wp_bind, wp_modify. cbn [v_self v_env v_proc v_calls].
  set (v1 := mkVm (v_name v) (v_root v) cfg (v_index v)).
  apply wp_bind, wp_gets, wp_bind, wp_v_on_env. cbn [v_self v_env v_proc v_calls].
  unfold vm_ports, ports_of, resolved. apply wp_zoom. unfold lift.
  destruct (fst (resolve_ports _ _ false)) as [new|pe]; [|by split].
  apply wp_bind, wp_v_on_env. cbn [v_self v_env v_proc v_calls].
  assert (set_base (base w) w = w) as -> by (by destruct w).
  eapply wp_mono; [by apply (vm_collision_wp data)| |intros e w1 [[_ Hr1] Hne]; split; [done|congruence]].
  intros _ w1 [Hf1 Hr1]. cbn beta. apply wp_bind, wp_v_on_env. cbn [v_self v_env v_proc v_calls].
  eapply wp_mono; [by apply (vm_stage_wp data m v1)| |].
  2: { intros e w2 [[Hr2 Hne]|[[Hren Hr2] [d ->]]]; (split; [done|]); [congruence|]. intros ? _. by exists text, cfg. }
  intros _ w2 [Hren Hr2]. apply wp_bind, wp_says; [apply skew_says|]. intros w3 Hf3 Hr3.
  apply wp_bind, wp_says; [apply inert_says|]. cbn [v_self v_env v_proc v_calls] in *. intros w4 Hf4 Hr4.
  apply wp_bind, wp_v_on_env. cbn [v_self v_env v_proc v_calls v1 v_name v_cfg] in *.
  rewrite <- Hr3, <- Hr4 in Hr2.
  eapply wp_mono; [by apply (reconcile_wp (v_name v) (binder cfg) data m)| |done].
  intros _ w5 (Hf5 & data' & m' & H). apply wp_ret. split; [|by exists data', m'].
  exists text, cfg. split_and!; try done. cbn [v_env]. by rewrite Hf5, Hf4, Hf3.
Qed.

Lemma vm_destroy_wp `{OL : !OSLaws os} data v w h calls :
  holds data (w_reg w) -> file_wf data ->
  node_at (w_fs w) (v_root v) = Some DirN \/ node_at (w_fs w) (v_root v) = None ->
  wp (vm_destroy true) (fun _ s' => holds (Dict.pop (v_name v) data) (w_reg (v_env s')) /\
      pidfile (v_proc s') = None /\ forall p, w_fs (v_env s') !! p =
        if decide (node_at (w_fs w) (v_root v) = Some DirN /\ v_root v `prefix_of` p) then None else w_fs w !! p)
    (fun e s' => (w_fs (v_env s') = w_fs w /\ w_reg (v_env s') = w_reg w /\ v_proc s' = h /\ e <> VApi not_removed) \/
      (e = VApi not_removed /\ holds (Dict.pop (v_name v) data) (w_reg (v_env s')) /\ pidfile (v_proc s') = None /\
       half_removed (v_root v) [v_root v] (w_fs w) (w_fs (v_env s')))) (mkVdev v w h calls).
Proof.
  intros Hr Hd Hroot.
  unfold vm_destroy, vm_adb_port, vm_ports, ports_of, resolved. apply wp_bind, wp_lift; [|by intros ? [=]]. intros [] _.
  apply wp_bind, wp_gets, wp_bind, wp_bind, wp_gets, wp_bind, wp_v_on_env. cbn [v_self v_env v_proc v_calls].
  apply wp_zoom. unfold lift. destruct (fst (resolve_ports _ _ false)) as [new|pe]; [|left; by split_and!].
  assert (set_base (base w) w = w) as -> by (by destruct w).
  destruct (Dict.get "adb" (well_known new)) as [port|]; [apply wp_ret|apply wp_raise; left; by split_and!].
  destruct (terminate_run OL (Some port) h) as (b & h' & l & Ht & Hpid & _).
  apply wp_bind, wp_zoom. cbn [v_proc]. rewrite Ht. cbn [v_self v_env v_proc v_calls].
  apply wp_bind, wp_v_on_env. cbn [v_self v_env v_proc v_calls].
  destruct (remove_run (v_name v) data _ Hr Hd) as (r & Hrm & Hr'). unfold wp at 1. rewrite on_rows_run, Hrm.
  apply wp_v_on_env. cbn [v_self v_env v_proc v_calls]. set (w1 := set_base _ w).
  unfold wp. destruct Hroot as [Hdir|Hno].
  - destruct (rmtree_there (v_root v) [v_root v] w1) as (f & [(-> & -> & _)|(-> & Hh)]); [by left|exact Hdir|..].
    + split; [exact Hr'|]. split; [exact Hpid|]. intros p.
      etransitivity; [apply lookup_rmtree|]. repeat case_decide; naive_solver.
    + right. split; [done|]. split; [exact Hr'|]. split; [exact Hpid|exact Hh].
  - unfold rmtree_if_there, mbind, M_bind, gets, exists_at. change (w_fs w1) with (w_fs w).
    rewrite bool_decide_eq_false_2 by (rewrite Hno; by intros []).
    split; [exact Hr'|]. split; [exact Hpid|]. intros p. rewrite decide_False; [done|]. intros [? ?]. congruence.
Qed.

(** [destroy] takes the row and the whole directory away, also when the directory is
    gone already, leaves every other file and row, and the VM has no pidfile afterwards; it
    fails when the ADB port is not known, before it did anything, or when some of the
    directory cannot be removed, after the row was. *)
Theorem vm_destroy_spec `{OL : !OSLaws os} data v w h calls :
  holds data (w_reg w) -> file_wf data ->
  node_at (w_fs w) (v_root v) = Some DirN \/ node_at (w_fs w) (v_root v) = None ->
  match vm_destroy true (mkVdev v w h calls) with
  | (Ok _, s') => holds (Dict.pop (v_name v) data) (w_reg (v_env s')) /\ pidfile (v_proc s') = None /\
      forall p, w_fs (v_env s') !! p =
        if decide (node_at (w_fs w) (v_root v) = Some DirN /\ v_root v `prefix_of` p) then None else w_fs w !! p
  | (Err e, s') => (w_fs (v_env s') = w_fs w /\ w_reg (v_env s') = w_reg w /\ v_proc s' = h /\ e <> VApi not_removed) \/
      (e = VApi not_removed /\ holds (Dict.pop (v_name v) data) (w_reg (v_env s')) /\ pidfile (v_proc s') = None /\
       half_removed (v_root v) [v_root v] (w_fs w) (w_fs (v_env s')))
  end.
Proof.
  intros Hr Hd Hroot. pose proof (vm_destroy_wp data v w h calls Hr Hd Hroot) as Hw.
  unfold wp in Hw. by destruct (vm_destroy true _) as [[[]|e] s'].
Qed.
End vm_specs.
