(* ===== verification/Backends.v ===== *)
(** * The backend registry ([src/src/beetroot/backends/__init__.py], [Manager] of [api.py])

    The map from a kind to the class that handles it, its entry points, and how the
    manager turns a row of the instance registry into an object of one of the three
    backends or of a plug-in. *)
From stdpp Require Import base list strings gmap sorting relations.
From Stdlib Require Import ZArith QArith Lia.
From S2P Require Import Prelude PyStr Config Ports Registry RegistryOps Qemu HostFs Paths Compose Download ModulesDownload FridaDownload Snapshot SnapshotOps Api ApiInv ApiOps ApiPeers ApiSpecs ApiVerbs Shell Adb VmOps.
Local Open Scope stdpp_scope.
Local Open Scope Z_scope.

(** ** Classes and state *)

(** The classes of the package, and those of plug-ins, told apart by a number. *)
Inductive device_class : Type :=
| InstanceClass | AdbDeviceClass | VmDeviceClass
| PluginClass (id : nat) (has_from_meta : bool).

#[export] Instance device_class_eq_dec : EqDecision device_class.
Proof. solve_decision. Defined.

Inductive backend_error : Type :=
| KindTaken (kind : string)                      (* BackendRegistrationError, a ValueError *)
| NoFromMeta (kind : string)                     (* BackendRegistrationError *)
| UnknownKind (kind : string)                    (* KeyError *)
| EntryPointBroken (kind : string).              (* whatever [ep.load] raises *)

(** [_BACKEND_REGISTRY], [_ENTRY_POINTS_LOADED], and which of the two modules that
    register a class when they are imported have been. *)
Record backends := mkBackends {
  _BACKEND_REGISTRY : list (string * device_class); _ENTRY_POINTS_LOADED : bool;
  adb_imported : bool; vm_imported : bool }.
Abbreviation BM := (M backends backend_error).

(** The installed entry points of the group, in order, with what [load] gives, and what a
    plug-in's [from_meta] does. *)
Class Plugins := {
  entry_points : list (string * option device_class);
  plugin_accepts : nat -> string -> BackendConfig -> bool }.

Definition has_from_meta_attr (c : device_class) : bool :=
  match c with PluginClass _ b => b | _ => true end.

Definition set_registry (d : list (string * device_class)) (b : backends) : backends :=
  mkBackends d (_ENTRY_POINTS_LOADED b) (adb_imported b) (vm_imported b).
Definition set_loaded (l : bool) (b : backends) : backends :=
  mkBackends (_BACKEND_REGISTRY b) l (adb_imported b) (vm_imported b).

Section backends.
Context {G : Plugins}.

Definition register_backend (kind : string) (c : device_class) : BM unit :=
  d ← gets _BACKEND_REGISTRY;
  lift (raise_if (Dict.mem kind d) (KindTaken kind)) ;;
  lift (raise_if (negb (has_from_meta_attr c)) (NoFromMeta kind)) ;;
  modify (set_registry (Dict.set kind c d)).

Fixpoint load_points (eps : list (string * option device_class)) : BM unit :=
  match eps with
  | [] => mret tt
  | (kind, loaded) :: eps' =>
      c ← lift (match loaded with Some c => Ok c | None => Err (EntryPointBroken kind) end);
      d ← gets _BACKEND_REGISTRY;
      match Dict.get kind d with
      | Some c' => if decide (c' = c) then mret tt else raise (KindTaken kind)
      | None => register_backend kind c
      end ;;
      load_points eps'
  end.

(** The flag is set before the loop. *)
Definition _load_entry_point_backends : BM unit :=
  loaded ← gets _ENTRY_POINTS_LOADED;
  if (loaded : bool) then mret tt
  else modify (set_loaded true) ;; load_points entry_points.

Definition get_backend (kind : string) : BM device_class :=
  _load_entry_point_backends ;;
  d ← gets _BACKEND_REGISTRY;
  match Dict.get kind d with Some c => mret c | None => raise (UnknownKind kind) end.

Definition registered_kinds : BM (list string) :=
  _load_entry_point_backends ;;
  d ← gets _BACKEND_REGISTRY; mret (merge_sort string_le (Dict.keys d)).

Definition reset_for_testing : BM unit := modify (fun b => set_loaded false (set_registry [] b)).

(** An import runs the module once. *)
Definition import_adb : BM unit :=
  done ← gets adb_imported;
  if (done : bool) then mret tt
  else modify (fun b => mkBackends (_BACKEND_REGISTRY b) (_ENTRY_POINTS_LOADED b) true (vm_imported b)) ;;
       register_backend "adb" AdbDeviceClass.
Definition import_vm : BM unit :=
  done ← gets vm_imported;
  if (done : bool) then mret tt
  else modify (fun b => mkBackends (_BACKEND_REGISTRY b) (_ENTRY_POINTS_LOADED b) (adb_imported b) true) ;;
       register_backend "vm" VmDeviceClass.

Definition unless_registered (kind : string) (m : BM unit) : BM unit :=
  d ← gets _BACKEND_REGISTRY; if Dict.mem kind d then mret tt else m.

Definition _register_builtin_backends : BM unit :=
  unless_registered "redroid" (register_backend "redroid" InstanceClass) ;;
  unless_registered "adb" import_adb ;;
  unless_registered "vm" import_vm.

(** A fresh process, and the module imported. *)
Definition before_import : backends := mkBackends [] false false false.
Definition imported : backends := snd (_register_builtin_backends before_import).
End backends.

(** ** The manager *)

(** An object of [DeviceBackend]. *)
Inductive device : Type :=
| Redroid (i : Instance) | AdbKind (d : AdbDevice) | VmKind (v : VmDevice)
| Plugin (id : nat) (name kind : string).

Record fleet := mkFleet { f_env : Api.world; f_backends : backends }.

Inductive fleet_error : Type :=
| FApi (e : api_error) | FBackend (e : backend_error) | FPort (e : port_error)
| NoSuchRow (name : string)                      (* InstanceNotFoundError *)
| KindNotInstalled (name kind : string)          (* InstanceNotFoundError *)
| WrongConfig (name : string)                    (* InstanceNotFoundError *)
| PluginFailed (name : string).                  (* whatever the plug-in raises *)
Abbreviation FM := (M fleet fleet_error).

(** Which of them are an [InstanceNotFoundError]. *)
Definition is_InstanceNotFound (e : fleet_error) : bool :=
  match e with
  | NoSuchRow _ | KindNotInstalled _ _ | WrongConfig _
  | FApi (NotFound _) | FApi (OrphanRow _ _) | FApi (Unregistered _) | FApi (Snap (InstanceNotFound _)) => true
  | _ => false
  end.

Definition in_env {B} (m : AM B) : FM B := zoom f_env (fun w s => mkFleet w (f_backends s)) FApi m.
Definition in_backends {B} (m : BM B) : FM B := zoom f_backends (fun b s => mkFleet (f_env s) b) FBackend m.

Section manager.
Context {P : Pydantic} {X : Externals} {Y : Layout} {W : Web} {G : Plugins}.

(** [cls.from_meta(name, backend)]. *)
Definition hydrate (c : device_class) (name : string) (b : BackendConfig) : FM device :=
  match c with
  | InstanceClass => i ← in_env (Api.from_meta name b); mret (Redroid i)
  | VmDeviceClass => v ← in_env (vm_from_meta name b); mret (VmKind v)
  | AdbDeviceClass =>
      match b with
      | AdbBackendConfig _ =>
          m ← in_env (row_of name);
          match from_meta_row name b (Registry.index <$> m) with
          | None => raise (WrongConfig name)
          | Some (Ok d) => mret (AdbKind d)
          | Some (Err e) => raise (FPort e)
          end
      | _ => raise (WrongConfig name)
      end
  | PluginClass id _ =>
      if plugin_accepts id name b then mret (Plugin id name (backend_kind b)) else raise (PluginFailed name)
  end.

(** Of all that [get_backend] raises only the missing kind is mapped. *)
Definition manager_resolve (name : string) : FM device :=
  m ← in_env (row_of name);
  match m with
  | None => raise (NoSuchRow name)
  | Some m =>
      match backend m with
      | UnresolvedBackendConfig k _ => raise (KindNotInstalled name k)
      | b =>
          c ← catch (in_backends (get_backend (backend_kind b)))
                (fun e => match e with
                          | FBackend (UnknownKind k) => raise (KindNotInstalled name k)
                          | _ => raise e
                          end);
          hydrate c name b
      end
  end.

Definition manager_get (name : string) : FM (option device) :=
  catch (d ← manager_resolve name; mret (Some d))
    (fun e => if is_InstanceNotFound e then mret None else raise e).

Fixpoint resolvable (names : list string) : FM (list device) :=
  match names with
  | [] => mret []
  | n :: names' =>
      found ← catch (d ← manager_resolve n; mret [d]) (fun _ => mret []);
      rest ← resolvable names';
      mret (found ++ rest)
  end.

Definition manager_all : FM (list device) :=
  rows ← in_env rows_now;
  resolvable (merge_sort string_le (map fst rows)).
End manager.

Definition device_name (d : device) : string :=
  match d with
  | Redroid i => i_name i | AdbKind d => a_name d | VmKind v => v_name v | Plugin _ n _ => n
  end.
Definition device_kind (d : device) : string :=
  match d with Redroid _ => "redroid" | AdbKind _ => "adb" | VmKind _ => "vm" | Plugin _ _ k => k end.

(** * Facts *)

(** ** Registrations are final *)

(** A kind keeps its class, and entry points stay loaded. *)
Definition extends (b b' : backends) : Prop :=
  (forall k c, Dict.get k (_BACKEND_REGISTRY b) = Some c -> Dict.get k (_BACKEND_REGISTRY b') = Some c) /\
  (_ENTRY_POINTS_LOADED b = true -> _ENTRY_POINTS_LOADED b' = true).

#[export] Instance extends_preorder : PreOrder extends.
Proof. split; [by split|]. intros a b c [H1 H2] [H3 H4]. split; auto. Qed.

Section facts.
Context {G : Plugins}.

Lemma register_extends kind c : preserves extends (register_backend kind c).
Proof.
  intros b. unfold register_backend, mbind, M_bind, gets, lift, raise_if, Dict.mem.
  destruct (Dict.get kind (_BACKEND_REGISTRY b)) eqn:Hk; [done|]. destruct (negb (has_from_meta_attr c)); [done|].
  split; [|done]. intros k c' Hc. simpl. rewrite Dict.get_set_ne; congruence.
Qed.

Lemma load_points_extends eps : preserves extends (load_points eps).
Proof.
  induction eps as [|[kind loaded] eps IH]; [apply preserves_ret, _|]. simpl.
  apply preserves_bind; [apply _|apply preserves_lift, _|intros c].
  apply preserves_bind; [apply _|apply preserves_gets, _|intros d].
  apply preserves_bind; [apply _| |intros _; apply IH].
  destruct (Dict.get kind d) as [c'|]; [|apply register_extends].
  destruct (decide (c' = c)); [apply preserves_ret, _|apply preserves_raise, _].
Qed.

Lemma load_extends : preserves extends _load_entry_point_backends.
Proof.
  unfold _load_entry_point_backends. apply preserves_bind; [apply _|apply preserves_gets, _|intros []].
  - apply preserves_ret, _.
  - apply preserves_bind; [apply _|by intros b|intros _; apply load_points_extends].
Qed.

(** What a program may do with the registry, tests' reset apart. *)
Inductive backend_step : backends -> backends -> Prop :=
| StepRegister kind c b : backend_step b (snd (register_backend kind c b))
| StepGet kind b : backend_step b (snd (get_backend kind b))
| StepKinds b : backend_step b (snd (registered_kinds b))
| StepBuiltins b : backend_step b (snd (_register_builtin_backends b)).

Lemma builtins_extend : preserves extends _register_builtin_backends.
Proof.
  assert (forall kind m, preserves extends m -> preserves extends (unless_registered kind m)) as Hun.
  { intros kind m Hm. unfold unless_registered. apply preserves_bind; [apply _|apply preserves_gets, _|intros d].
    destruct (Dict.mem kind d); [apply preserves_ret, _|exact Hm]. }
  unfold _register_builtin_backends, import_adb, import_vm.
  apply preserves_bind; [apply _|apply Hun, register_extends|intros _].
  apply preserves_bind; [apply _| |intros _]; apply Hun, preserves_bind; try apply _;
    try apply preserves_gets, _; intros []; try apply preserves_ret, _;
    (apply preserves_bind; [apply _|by intros b|intros _; apply register_extends]).
Qed.

Lemma step_extends b b' : backend_step b b' -> extends b b'.
Proof.
  assert (forall A (k : list (string * device_class) -> BM A), (forall d, preserves extends (k d)) ->
    preserves extends (_load_entry_point_backends ;; d ← gets _BACKEND_REGISTRY; k d)) as Hload.
  { intros A k Hk. apply preserves_bind; [apply _|apply load_extends|intros _].
    apply preserves_bind; [apply _|apply preserves_gets, _|apply Hk]. }
  intros []; [apply register_extends|..|apply builtins_extend].
  - revert b0. apply Hload. intros d. destruct (Dict.get kind d); [apply preserves_ret, _|apply preserves_raise, _].
  - revert b0. apply Hload. intros d. apply preserves_ret, _.
Qed.

(** C24. Whatever is registered and looked up after the package was imported, and whatever the
    installed plug-ins declare, the three kinds of the package are handled by its own
    classes. *)
Theorem builtin_kinds_stay b : rtc backend_step imported b ->
  Dict.get "redroid" (_BACKEND_REGISTRY b) = Some InstanceClass /\
  Dict.get "adb" (_BACKEND_REGISTRY b) = Some AdbDeviceClass /\
  Dict.get "vm" (_BACKEND_REGISTRY b) = Some VmDeviceClass.
Proof.
  intros Hr. assert (extends imported b) as [He _].
  { induction Hr as [b|b1 b2 b3 H1 _ IH]; [done|]. etransitivity; [by apply step_extends|exact IH]. }
  split_and!; apply He; reflexivity.
Qed.
End facts.

(** ** Resolution reads only *)

(** [m] leaves the state [s] as it is. *)
Definition reads {S E B} (m : M S E B) (s : S) : Prop := snd (m s) = s.

Lemma reads_bind {S E B C} (m : M S E B) (k : B -> M S E C) (s : S) :
  reads m s -> (forall a, m s = (Ok a, s) -> reads (k a) s) -> reads (m ≫= k) s.
Proof.
  unfold reads, mbind, M_bind. destruct (m s) as [[a|e] s1]; simpl; intros -> Hk; [by apply Hk|done].
Qed.
Lemma reads_catch {S E B} (m : M S E B) (h : E -> M S E B) (s : S) :
  reads m s -> (forall e, m s = (Err e, s) -> reads (h e) s) -> reads (catch m h) s.
Proof.
  unfold reads, catch. destruct (m s) as [[a|e] s1]; simpl; intros -> Hh; [done|by apply Hh].
Qed.
Lemma reads_run {S E B} (m : M S E B) (s : S) : reads m s -> m s = (fst (m s), s).
Proof. unfold reads. destruct (m s). simpl. by intros ->. Qed.

Section resolution.
Context `{P : Pydantic} `{L : !PydanticLaws P} {X : Externals} {Y : Layout} `{YL : !LayoutLaws Y} {W : Web} `{WL : !WebLaws W} {G : Plugins}.
Abbreviation RegistryFile := (list (string * InstanceMeta)).
Variables (data : RegistryFile) (w : Api.world).
Hypothesis Hreg : reg (w_reg w) = Some (Doc (_registry_to_json data)).
Hypothesis Hwf : file_wf data.

Lemma in_env_reads {B} (m : AM B) bs : reads m w -> reads (in_env m) (mkFleet w bs).
Proof. unfold reads, in_env, zoom. simpl. by destruct (m w) as [[a|e] w']; simpl; intros ->. Qed.

Lemma yaml_reads p : reads (on_host (load_yaml p)) w.
Proof. unfold reads. by rewrite load_read. Qed.

Lemma row_reads name : reads (row_of name) w.
Proof. unfold reads. by rewrite (row_read data w Hreg Hwf). Qed.

Lemma hydrate_reads c name b bs : reads (hydrate c name b) (mkFleet w bs).
Proof.
  assert (forall root, reads (catch (on_host (load_yaml (instance_yaml root))) (fun e =>
      match e with Snap (ConfigFileErr NoSuchFile) => raise (OrphanRow name root) | _ => raise e end)) w) as Hy.
  { intros root. apply reads_catch; [apply yaml_reads|]. intros e _. by repeat case_match. }
  destruct c as [| | |id fm]; unfold hydrate.
  - apply reads_bind; [apply in_env_reads|done]. unfold Api.from_meta. destruct b; try done.
    apply reads_bind; [apply Hy|done].
  - destruct b as [|s| | |]; try done. apply reads_bind; [apply in_env_reads, row_reads|].
    intros m _. destruct (from_meta_row name (AdbBackendConfig s) (Registry.index <$> m)) as [[|]|]; done.
  - apply reads_bind; [apply in_env_reads|done]. unfold vm_from_meta. destruct b; try done.
    apply reads_bind; [apply row_reads|]. intros [m|] _; [|done]. apply reads_bind; [apply Hy|done].
  - by destruct (plugin_accepts id name b).
Qed.

Lemma get_backend_loaded kind bs : _ENTRY_POINTS_LOADED bs = true ->
  get_backend kind bs =
    (match Dict.get kind (_BACKEND_REGISTRY bs) with Some c => Ok c | None => Err (UnknownKind kind) end, bs).
Proof.
  intros Hl. unfold get_backend, _load_entry_point_backends, mbind, M_bind, gets. rewrite Hl. simpl.
  by destruct (Dict.get kind (_BACKEND_REGISTRY bs)).
Qed.

(** The class a row asks for, once entry points are loaded. *)
Definition asked_class bs (b : BackendConfig) : option device_class :=
  match b with
  | UnresolvedBackendConfig _ _ => None
  | _ => Dict.get (backend_kind b) (_BACKEND_REGISTRY bs)
  end.

Lemma resolve_run name bs : _ENTRY_POINTS_LOADED bs = true ->
  manager_resolve name (mkFleet w bs) =
  match Dict.get name data with
  | None => (Err (NoSuchRow name), mkFleet w bs)
  | Some m => match asked_class bs (backend m) with
              | Some c => hydrate c name (backend m) (mkFleet w bs)
              | None => (Err (KindNotInstalled name (backend_kind (backend m))), mkFleet w bs)
              end
  end.
Proof.
  intros Hl. unfold manager_resolve.
  rewrite (M_bind_ok (in_env (row_of name)) _ (mkFleet w bs) (Dict.get name data) (mkFleet w bs))
    by (unfold in_env, zoom; simpl; by rewrite (row_read data w Hreg Hwf)).
  destruct (Dict.get name data) as [m|]; [|done]. unfold asked_class.
  destruct (backend m) as [p sp|s|p|cl k fl|k raw]; try done;
    unfold mbind at 1, M_bind, catch, in_backends, zoom; simpl f_backends; rewrite get_backend_loaded by done;
    cbn [backend_kind]; by destruct (Dict.get _ (_BACKEND_REGISTRY bs)).
Qed.

Lemma resolve_reads name bs : _ENTRY_POINTS_LOADED bs = true -> reads (manager_resolve name) (mkFleet w bs).
Proof.
  intros Hl. unfold reads. rewrite resolve_run by done. destruct (Dict.get name data) as [m|]; [|done].
  destruct (asked_class bs (backend m)); [apply hydrate_reads|done].
Qed.

Lemma hydrate_kind c name b bs d s' : hydrate c name b (mkFleet w bs) = (Ok d, s') ->
  device_name d = name /\ device_kind d = backend_kind b.
Proof.
  destruct c as [| | |id fm]; unfold hydrate; intros H.
  - run_bind H i s1 H1. injection H as <- _. unfold in_env, zoom in H1. cbn [f_env] in H1.
    destruct (Api.from_meta name b w) as [[i'|e] w1] eqn:Hi; [|done]. injection H1 as <- _.
    unfold Api.from_meta in Hi. destruct b; try done.
    run_bind Hi cfg w2 H2. by injection Hi as <- _.
  - destruct b as [|s| | |]; try done. run_bind H m s1 H1. unfold from_meta_row in H.
    destruct (Registry.index <$> m) as [k|]; [|done]. destruct (ports_for_index k); [|done]. by injection H as <- _.
  - run_bind H i s1 H1. injection H as <- _. unfold in_env, zoom in H1. cbn [f_env] in H1.
    destruct (vm_from_meta name b w) as [[i'|e] w1] eqn:Hi; [|done]. injection H1 as <- _.
    unfold vm_from_meta in Hi. destruct b; try done.
    run_bind Hi m w2 H2. destruct m as [m|]; [|done]. run_bind Hi cfg w3 H3. by injection Hi as <- _.
  - destruct (plugin_accepts id name b); [|done]. by injection H as <- _.
Qed.

(** Resolving a name reads the registry and the configuration and changes neither; what it
    returns is an object of the kind of the row, under its name. *)
Theorem resolve_dispatches name bs : _ENTRY_POINTS_LOADED bs = true ->
  match manager_resolve name (mkFleet w bs) with
  | (Ok d, s') => s' = mkFleet w bs /\ device_name d = name /\
      exists m, Dict.get name data = Some m /\ device_kind d = backend_kind (backend m)
  | (Err e, s') => s' = mkFleet w bs
  end.
Proof.
  intros Hl. pose proof (resolve_reads name bs Hl) as Hs. unfold reads in Hs.
  rewrite resolve_run in * by done.
  destruct (Dict.get name data) as [m|]; [|done]. destruct (asked_class bs (backend m)) as [c|]; [|done].
  destruct (hydrate c name (backend m) (mkFleet w bs)) as [[d|e] s'] eqn:Hh; [|exact Hs].
  destruct (hydrate_kind c name (backend m) bs d s' Hh) as [Hn Hk]. split_and!; [exact Hs|exact Hn|by exists m].
Qed.

(** The object a name resolves to, if it does. *)
Definition resolved_device bs (name : string) : option device :=
  match fst (manager_resolve name (mkFleet w bs)) with Ok d => Some d | Err _ => None end.

Lemma resolvable_run bs names : _ENTRY_POINTS_LOADED bs = true ->
  resolvable names (mkFleet w bs) = (Ok (omap (resolved_device bs) names), mkFleet w bs).
Proof.
  intros Hl. induction names as [|n names IH]; [done|].
  cbn [resolvable omap list_omap]. unfold resolved_device at 1. pose proof (resolve_reads n bs Hl) as Hs.
  apply reads_run in Hs. unfold mbind at 1, M_bind, catch. unfold mbind at 1, M_bind. rewrite Hs.
  destruct (fst (manager_resolve n (mkFleet w bs))) as [d|e]; cbn; unfold mbind, M_bind; by rewrite IH.
Qed.

Lemma all_run bs : manager_all (mkFleet w bs) = resolvable (merge_sort string_le (map fst data)) (mkFleet w bs).
Proof.
  unfold manager_all. rewrite (M_bind_ok (in_env rows_now) _ (mkFleet w bs) data (mkFleet w bs)); [done|].
  unfold in_env, zoom. simpl. by rewrite (rows_read data w Hreg Hwf).
Qed.

(** With the entry points loaded, [Manager.all] is every row that resolves, in the order
    of the names. *)
Theorem all_lists_resolvable bs : _ENTRY_POINTS_LOADED bs = true ->
  manager_all (mkFleet w bs) =
    (Ok (omap (resolved_device bs) (merge_sort string_le (map fst data))), mkFleet w bs).
Proof. intros Hl. rewrite all_run. by apply resolvable_run. Qed.

(** ** A plug-in that claims a kind twice *)

Lemma load_fails e b1 kind :
  load_points entry_points (set_loaded true imported) = (Err e, b1) ->
  get_backend kind imported = (Err e, b1) /\ _ENTRY_POINTS_LOADED b1 = true.
Proof.
  intros Hl. split.
  - unfold get_backend, _load_entry_point_backends, mbind, M_bind, gets.
    change (_ENTRY_POINTS_LOADED imported) with false. cbn. unfold mbind, M_bind, modify. by rewrite Hl.
  - pose proof (load_points_extends entry_points (set_loaded true imported)) as [_ H]. rewrite Hl in H. by apply H.
Qed.

Lemma load_points_known eps b kind b' : load_points eps b <> (Err (UnknownKind kind), b').
Proof.
  revert b. induction eps as [|[k [c|]] eps IH]; intros b; [done| |done].
  simpl. unfold mbind, M_bind, lift, gets. destruct (Dict.get k (_BACKEND_REGISTRY b)) as [c'|] eqn:Hk.
  - destruct (decide (c' = c)); [apply IH|done].
  - unfold register_backend, mbind, M_bind, gets, lift, raise_if, Dict.mem. rewrite Hk.
    destruct (negb (has_from_meta_attr c)); [done|apply IH].
Qed.

(** When loading the entry points fails — two plug-ins claim one kind, or one claims a kind
    of the package — the first resolution of the process raises it, for a row of any kind;
    no later one does, although the plug-ins after the broken one are missing.  The listing
    swallows the exception, and with it the first row by name. *)
Theorem collision_hides_first_row name m names e b1 :
  load_points entry_points (set_loaded true imported) = (Err e, b1) ->
  Dict.get name data = Some m -> (forall k raw, backend m <> UnresolvedBackendConfig k raw) ->
  merge_sort string_le (map fst data) = name :: names ->
  manager_resolve name (mkFleet w imported) = (Err (FBackend e), mkFleet w b1) /\
  (forall name' e', fst (manager_resolve name' (mkFleet w b1)) <> Err (FBackend e')) /\
  manager_all (mkFleet w imported) = (Ok (omap (resolved_device b1) names), mkFleet w b1).
Proof.
  intros Hl Hg Hb Hs. assert (_ENTRY_POINTS_LOADED b1 = true) as Hl1 by (by apply (load_fails e b1 "")).
  assert (manager_resolve name (mkFleet w imported) = (Err (FBackend e), mkFleet w b1)) as Hr.
  { unfold manager_resolve.
    rewrite (M_bind_ok (in_env (row_of name)) _ (mkFleet w imported) (Dict.get name data) (mkFleet w imported))
      by (unfold in_env, zoom; simpl; by rewrite (row_read data w Hreg Hwf)).
    rewrite Hg. destruct (backend m) as [p sp|s|p|cl k fl|k raw]; [..|by destruct (Hb k raw)];
      apply M_bind_err; unfold catch, in_backends, zoom; cbn [f_backends];
      match goal with |- context [get_backend ?k imported] => rewrite (proj1 (load_fails e b1 k Hl)) end;
      destruct e; try done; by destruct (load_points_known _ _ kind b1 Hl). }
  split_and!; [exact Hr| |].
  - intros name' e'. rewrite resolve_run by done. destruct (Dict.get name' data) as [m'|]; [|done].
    destruct (asked_class b1 (backend m')) as [c|]; [|done]. intros Hh.
    destruct c as [| | |id fm]; unfold hydrate, mbind, M_bind, in_env, zoom in Hh; simpl in Hh.
    + by destruct (Api.from_meta name' (backend m') w) as [[] ?].
    + destruct (backend m') as [|s| | |]; try done.
      rewrite (row_read data w Hreg Hwf) in Hh. destruct (Dict.get name' data) as [mm|]; [|done]. simpl in Hh. by destruct (ports_for_index (Registry.index mm)).
    + by destruct (vm_from_meta name' (backend m') w) as [[] ?].
    + by destruct (plugin_accepts id name' (backend m')).
  - rewrite all_run, Hs. cbn [resolvable]. unfold mbind at 1, M_bind, catch. unfold mbind at 1, M_bind. rewrite Hr.
    cbn. unfold mbind, M_bind. by rewrite resolvable_run.
Qed.

(** A row whose configuration does not parse is not [None] for [Manager.get]: the error of
    the loader leaves it. *)
Theorem broken_yaml_escapes_get name m p sp bs text :
  _ENTRY_POINTS_LOADED bs = true -> Dict.get "redroid" (_BACKEND_REGISTRY bs) = Some InstanceClass ->
  Dict.get name data = Some m -> backend m = RedroidBackendConfig p sp ->
  node_at (w_fs w) (instance_yaml (resolve cwd p)) = Some (FileN text) -> parse_config text = None ->
  manager_get name (mkFleet w bs) = (Err (FApi (Snap ConfigInvalid)), mkFleet w bs).
Proof.
  intros Hl Hc Hg Hb Hn Hp. unfold manager_get.
  assert (fst (load_yaml (instance_yaml (resolve cwd p)) (base w)) = Err ConfigInvalid) as Hy.
  { unfold load_yaml, read_file. change (fsys (base w)) with (w_fs w). by rewrite Hn, Hp. }
  assert (manager_resolve name (mkFleet w bs) = (Err (FApi (Snap ConfigInvalid)), mkFleet w bs)) as Hr.
  { rewrite resolve_run by done. rewrite Hg, Hb. unfold asked_class. cbn [backend_kind]. rewrite Hc.
    unfold hydrate. apply M_bind_err. unfold in_env, zoom, Api.from_meta. cbn [f_env].
    unfold mbind, M_bind, catch. by rewrite load_read, Hy. }
  unfold catch, mbind, M_bind. by rewrite Hr.
Qed.
End resolution.
