(* ===== verification/CliBase.v ===== *)
(** * The command line: state, errors and devices ([src/src/beetroot/cli.py])

    What a verb works with: one state for everything it can change, the exceptions with the
    classes the [except] clauses name, and the operations of a resolved device, whichever
    backend it belongs to. *)
From stdpp Require Import base list strings gmap sorting.
From Stdlib Require Import ZArith QArith Lia Ascii.
From S2P Require Import Prelude PyStr Config Ports Registry Qemu BootCache VmBackend Survey HostFs Paths Compose Download ModulesDownload FridaDownload RootfsDownload Snapshot Api Shell Adb Health VmOps Backends.
Local Open Scope stdpp_scope.
Local Open Scope Z_scope.

(** ** Exceptions *)

Inductive cli_error : Type :=
| Exit (code : Z)                                (* typer.Exit *)
| Aborted                                        (* typer.Abort: no answer at a prompt *)
| Incapable (verb name kind : string)            (* BackendCapabilityError *)
| OfFleet (e : fleet_error) | OfAdb (e : adb_error) | OfVmFiles (e : VmOps.vm_error)
| OfVm (e : BootCache.vm_error) | OfHealth (e : health_error)
| NoAdb                                          (* AdbNotInstalledError *)
| NoAdbService                                   (* KeyError *)
| FromPlugin (verb : string).                    (* whatever a plug-in raises *)

Definition OfApi (e : api_error) : cli_error := OfFleet (FApi e).

(** The attributes of an exception the clauses test. *)
Record exc_class := mkClass {
  value_error : bool; file_not_found : bool; os_err : bool;
  capability_error : bool; domain_error : bool }. (* the last: in [_EXIT_1_ERRORS] *)

Definition plain_error : exc_class := mkClass false false false false false.
Definition of_value : exc_class := mkClass true false false false false.
Definition of_domain : exc_class := mkClass false false false false true.
Definition of_both : exc_class := mkClass true false false false true.
Definition of_capability : exc_class := mkClass false false false true false.
Definition of_missing_file : exc_class := mkClass false true true false true.
Definition of_os : exc_class := mkClass false false true false false.

Definition class_of_os (e : os_error) : exc_class :=
  match e with NoSuchFile => of_missing_file | _ => of_os end.
Definition class_of_port (e : port_error) : exc_class :=
  match e with NegativeIndex _ | IndexTooLarge _ => of_value | _ => of_both end.
Definition class_of_reg (e : reg_error) : exc_class :=
  match e with
  | UnicodeDecode | AlreadyRegistered _ | NeitherPathNorBackend | PortCollides _ _ _ => of_value
  | BadIndex e => class_of_port e
  | UnknownInstance _ | NotRedroid _ _ | NotDirectoryBacked _ _ => of_domain
  | SiblingConfig _ => of_both
  | Registry.OutOfFuel => plain_error
  end.
Definition class_of_dl (e : dl_error) : exc_class :=
  match e with
  | Fetch _ => of_domain
  | BadLength | DigestMismatch _ _ | ModuleEscapes _ | NoModuleSource => of_value
  | ModuleNotFound _ => of_missing_file
  | SameFile => of_os
  | DlOs e => class_of_os e
  | Http _ | DlOutOfFuel => plain_error
  end.
(** A rejected configuration is a [ValidationError]. *)
Definition class_of_snap (e : snap_error) : exc_class :=
  match e with
  | InvalidName _ => of_value
  | OsErr e | ConfigFileErr e => class_of_os e
  | ConfigInvalid => of_both
  | SnapPort e => class_of_port e
  | RegErr e => class_of_reg e
  | InstanceNotFound _ => of_domain
  | _ => plain_error
  end.
Definition class_of_api (e : api_error) : exc_class :=
  match e with
  | Snap e => class_of_snap e
  | Dl e => class_of_dl e
  | Cmp (ComposeOs e) => class_of_os e
  | Cmp _ | NotFound _ | OrphanRow _ _ | Unregistered _ => of_domain
  | LifecycleWithConfig | NameInRegistry _ | OverlapsPeer _ _ | NotConfirmed | NoFridaBlock _ => of_value
  | YamlThere _ => of_os
  | NoYamlFile _ | NoRoot _ => of_missing_file
  | BadModule _ => of_both
  end.
Definition class_of_fleet (e : fleet_error) : exc_class :=
  match e with
  | FApi e => class_of_api e
  | FBackend (KindTaken _) | FBackend (NoFromMeta _) => of_value
  | FPort e => class_of_port e
  | NoSuchRow _ | KindNotInstalled _ _ | WrongConfig _ => of_domain
  | FBackend _ | PluginFailed _ => plain_error
  end.
Definition class_of_proc (e : proc_error) : exc_class :=
  match e with CannotSpawn => of_os | UndecodableOutput => of_value end.
Definition class_of_adb (e : adb_error) : exc_class :=
  match e with
  | ADl e => class_of_dl e
  | Proc e => class_of_proc e
  | VersionRequired | BadSource _ _ | DigestCount _ _ => of_value
  | _ => plain_error
  end.
(** A [QemuLaunchError]. *)
Definition qemu_launch (e : qemu_error) : bool :=
  match e with PidOverflow _ | Qemu.OutOfFuel => false | _ => true end.
Definition class_of (e : cli_error) : exc_class :=
  match e with
  | Incapable _ _ _ => of_capability
  | OfFleet e => class_of_fleet e
  | OfAdb e => class_of_adb e
  | OfVmFiles (VApi e) | OfHealth (HApi e) => class_of_api e
  | OfVmFiles (VQemu e) => if qemu_launch e then of_domain else plain_error
  | OfVmFiles (VProc e) | OfHealth (HProc e) => class_of_proc e
  | OfVmFiles FridaUnsupported | OfVm OutOfSync => of_capability
  | OfVm (FileNotFound _) => of_missing_file
  | OfVm (PortErr e) => class_of_port e
  | OfVm e => if is_launch_error e then of_domain else plain_error
  | _ => plain_error
  end.

Definition is_compose_error (e : cli_error) : bool :=
  match e with OfFleet (FApi (Cmp c)) => is_ComposeError c | _ => false end.
Definition is_launch (e : cli_error) : bool :=
  match e with OfVm e => is_launch_error e | OfVmFiles (VQemu e) => qemu_launch e | _ => false end.
Definition is_snapshot_error (e : cli_error) : bool :=
  match e with
  | OfFleet (FApi (Snap s)) =>
      match s with
      | UnsupportedBackend _ _ _ | NameTaken _ | BadZstd | BadTar | NoManifest | ManifestNotRegular _ | ManifestInvalid
      | TargetIsFile | Overlaps _ | Occupied | CapExceeded | NoYaml | RestoredPortCollides _ _ _
      | NotInstanceDir | NotRegistered => true
      | _ => false
      end
  | _ => false
  end.
Definition is_no_adb (e : cli_error) : bool :=
  match e with NoAdb | OfAdb AdbNotInstalled | OfVm BootCache.AdbNotInstalled => true | _ => false end.
Definition is_not_found (e : cli_error) : bool :=
  match e with OfFleet e => is_InstanceNotFound e | OfVmFiles (VApi e) => is_InstanceNotFound (FApi e) | _ => false end.
Definition is_value (e : cli_error) : bool := value_error (class_of e).

(** ** State *)

(** One line of output; an error shows the text of an exception. *)
Inductive line : Type :=
| Step (t : string) | Status (t : string) | Hint (t : string) | Note (t : string)
| NoteOf (t : string) (e : cli_error) | Warn (t : string) | Error (t : string) | ErrorOf (e : cli_error)
| Checked (name : string) (r : CheckResult) | Printed (t : string) | PrintedJson (j : json)
| TableRow (cells : list string) | Modes (rows : list ModeSupport)
| ModuleRow (r : ModuleInstallResult).

(** The host and the registry of backends, the calls of [adb], [frida] and [tail] with the
    notes of pushed modules, the machine of every micro-VM directory, what was printed, and
    the answers the user will give. *)
Record cli := mkCli {
  c_fleet : fleet; c_calls : list (list string); c_pushed : list (string * string);
  c_vms : path -> vmw; c_out : list line; c_answers : list bool }.
Abbreviation CLM := (M cli cli_error).

Definition c_env (s : cli) : Api.world := f_env (c_fleet s).
Definition set_fleet (f : fleet) (s : cli) : cli :=
  mkCli f (c_calls s) (c_pushed s) (c_vms s) (c_out s) (c_answers s).
Definition set_env (w : Api.world) (s : cli) : cli := set_fleet (mkFleet w (f_backends (c_fleet s))) s.
Definition set_c_calls (h : list (list string)) (s : cli) : cli :=
  mkCli (c_fleet s) h (c_pushed s) (c_vms s) (c_out s) (c_answers s).
Definition set_vm (root : path) (v : vmw) (s : cli) : cli :=
  mkCli (c_fleet s) (c_calls s) (c_pushed s) (fun p => if decide (p = root) then v else c_vms s p)
    (c_out s) (c_answers s).
Definition say (l : line) : CLM unit :=
  modify (fun s => mkCli (c_fleet s) (c_calls s) (c_pushed s) (c_vms s) (c_out s ++ [l]) (c_answers s)).

Definition on_fleet {B} (m : FM B) : CLM B := zoom c_fleet set_fleet OfFleet m.
Definition on_api {B} (m : AM B) : CLM B := zoom c_env set_env OfApi m.
Definition on_calls {B} (m : CallM B) : CLM B := zoom c_calls set_c_calls (fun e => OfAdb (Proc e)) m.
Definition on_adb {B} (m : ADM B) : CLM B :=
  zoom (fun s => mkAw (net_of (c_env s)) (c_calls s) (c_pushed s))
    (fun a s => mkCli (mkFleet (set_net (a_net a) (c_env s)) (f_backends (c_fleet s))) (ran a) (pushed_notes a)
                  (c_vms s) (c_out s) (c_answers s)) OfAdb m.
Definition on_machine {B} (root : path) (m : M vmw BootCache.vm_error B) : CLM B :=
  zoom (fun s => c_vms s root) (set_vm root) OfVm m.

(** Methods of an object give the object back as they leave it. *)
Definition on_object {B} (i : Instance) (m : M obj api_error B) : CLM (B * Instance) := fun s =>
  match m (mkObj i (c_env s)) with
  | (Ok a, o) => (Ok (a, self o), set_env (env o) s)
  | (Err e, o) => (Err (OfApi e), set_env (env o) s)
  end.
Definition set_vdev (v : VmDevice) (d : vdev) (s : cli) : cli :=
  set_c_calls (v_calls d) (set_env (v_env d)
    (set_vm (v_root v) (BootCache.set_host (v_proc d) (c_vms s (v_root v))) s)).
Definition on_vm_device {B} (v : VmDevice) (m : VOM B) : CLM (B * VmDevice) := fun s =>
  match m (mkVdev v (c_env s) (vm_host (c_vms s (v_root v))) (c_calls s)) with
  | (Ok a, d) => (Ok (a, v_self d), set_vdev v d s)
  | (Err e, d) => (Err (OfVmFiles e), set_vdev v d s)
  end.
Definition on_doctor {B} (i : Instance) (m : M doctored health_error B) : CLM B := fun s =>
  match m (mkDoctored (mkObj i (c_env s)) (c_calls s)) with
  | (Ok a, d) => (Ok a, set_c_calls (adb_calls d) (set_env (env (patient d)) s))
  | (Err e, d) => (Err (OfHealth e), set_c_calls (adb_calls d) (set_env (env (patient d)) s))
  end.

(** [raise _error(text)], and the same with the text of a caught exception. *)
Definition _error {B} (t : string) : CLM B := say (Error t) ;; raise (Exit 1).
Definition or_error {B} (caught : cli_error -> bool) (m : CLM B) : CLM B :=
  catch m (fun e => if caught e then say (ErrorOf e) ;; raise (Exit 1) else raise e).

(** [typer.confirm(..., default=False)]. *)
Definition confirm : CLM bool := fun s =>
  match c_answers s with
  | [] => (Err Aborted, s)
  | a :: l => (Ok a, mkCli (c_fleet s) (c_calls s) (c_pushed s) (c_vms s) (c_out s) l)
  end.

(** ** Capabilities *)

(** The protocols beyond [DeviceBackend]. *)
Inductive capability : Type :=
| Lifecycle_ | LogReader | ModuleInstaller | AutoModuleInstaller | HealthCheckable | Snapshottable | Resettable.

(** Objects of plug-ins. *)
Class PluginOps := {
  plugin_can : nat -> capability -> bool;
  plugin_op : nat -> string -> CLM Z;            (* a method, by the verb that calls it *)
  plugin_health : nat -> CLM (list (string * CheckResult));
  plugin_adb_address : nat -> string;
  plugin_frida_address : nat -> string;
  plugin_available : nat -> bool }.

(** [isinstance(backend, cap)]: the methods the class has. *)
Definition provides `{PluginOps} (d : device) (c : capability) : bool :=
  match d, c with
  | Redroid _, AutoModuleInstaller => false
  | Redroid _, _ => true
  | VmKind _, (Lifecycle_ | LogReader | HealthCheckable) => true
  | AdbKind _, (ModuleInstaller | AutoModuleInstaller | HealthCheckable) => true
  | Plugin id _ _, _ => plugin_can id c
  | _, _ => false
  end.

Definition _require `{PluginOps} (d : device) (c : capability) (verb : string) : CLM unit :=
  lift (raise_if (negb (provides d c)) (Incapable verb (device_name d) (device_kind d))).

(** ** Operations of a device *)

(** What the host tells every verb: settings, the binder probe, the survey's probes, the
    time, and the process's version. *)
Record surroundings := mkSurroundings {
  settings_vm : vm_settings; expand : string -> string; qemu_there : bool;
  binder_now : BinderStatus; survey_probes : probes; fuel_lzma : nat; version_now : string; iso_now : string }.

Section device_ops.
Context {P : Pydantic} {X : Externals} {Y : Layout} {W : Web} {H : FridaHost} {Z' : Lzma} {D : Docker} {U : Dumper}.
Context {os : OS} {T : Tools} {Q : Guest} {A : Adb} {N : Sockets} {G : Plugins} {V : PluginOps}.
Variable here : surroundings.

Definition facts : vm_host_facts :=
  mkFacts (vm_kernel (settings_vm here)) (vm_rootfs (settings_vm here)) (expand here) machine dev_kvm_usable
    (qemu_bin (settings_vm here)) (qemu_there here).

(** The marker beside a rootfs. *)
Definition baked_version (f : HostFs.fs) (rootfs : string) : option Z := read_rootfs_version f (resolve cwd rootfs).

Definition vm_run (v : VmDevice)
    (m : OS -> Tools -> Guest -> vm_settings -> InstanceConfig -> Z -> string -> (string -> option Z) -> M vmw BootCache.vm_error unit)
  : CLM unit :=
  f ← gets (fun s => w_fs (c_env s));
  on_machine (v_root v) (m os T Q (settings_vm here) (v_cfg v) (v_index v) (path_str (v_root v)) (baked_version f)).

Definition plugin_verb (id : nat) (verb : string) : CLM unit := _ ← plugin_op id verb; mret tt.

Definition device_up (d : device) : CLM device :=
  match d with
  | Redroid i => r ← on_object i instance_up; mret (Redroid r.2)
  | VmKind v => vm_run v (@VmBackend.up) ;; mret d
  | AdbKind _ => raise (Incapable "up" (device_name d) (device_kind d))
  | Plugin id _ _ => plugin_verb id "up" ;; mret d
  end.

Definition vm_down (v : VmDevice) : CLM unit := on_machine (v_root v) (VmBackend.down (v_cfg v) (v_index v)).

Definition device_down (d : device) : CLM unit :=
  match d with
  | Redroid i => _ ← on_object i instance_down; mret tt
  | VmKind v => vm_down v
  | AdbKind _ => raise (Incapable "down" (device_name d) (device_kind d))
  | Plugin id _ _ => plugin_verb id "down"
  end.

Definition device_restart (d : device) : CLM unit :=
  match d with
  | Redroid i => _ ← on_object i instance_restart; mret tt
  | VmKind v => vm_run v (@VmBackend.restart)
  | AdbKind _ => raise (Incapable "restart" (device_name d) (device_kind d))
  | Plugin id _ _ => plugin_verb id "restart"
  end.

Definition device_apply (d : device) : CLM unit :=
  match d with
  | Redroid i => _ ← on_object i (Api.apply (fuel_lzma here)); mret tt
  | VmKind v => _ ← on_vm_device v (vm_apply facts); mret tt
  | AdbKind _ => raise (Incapable "apply" (device_name d) (device_kind d))
  | Plugin id _ _ => plugin_verb id "apply"
  end.

(** With [yes=True]. *)
Definition device_destroy (d : device) : CLM unit :=
  match d with
  | Redroid i => _ ← on_object i (Api.destroy true); mret tt
  | VmKind v => _ ← on_vm_device v (vm_destroy true); mret tt
  | AdbKind _ => raise (Incapable "destroy" (device_name d) (device_kind d))
  | Plugin id _ _ => plugin_verb id "destroy"
  end.

Definition vm_logs (v : VmDevice) (follow : bool) : CLM unit :=
  let log := path_str (v_root v) +:+ "/qemu-console.log" in
  text ← gets (fun s => console_log (vm_host (c_vms s (v_root v))));
  match text with
  | None => say (Warn ("no QEMU console log for '" +:+ v_name v +:+ "' yet at " +:+ log +:+
                       " — has the VM been started with `beetroot up`?"))
  | Some t =>
      if follow then _ ← on_adb (on_terminal ["tail"; "-n"; "+1"; "-f"; log]); mret tt
      else say (Printed t)
  end.

Definition device_logs (d : device) (follow : bool) : CLM unit :=
  match d with
  | Redroid i => _ ← on_object i (instance_logs follow); mret tt
  | VmKind v => vm_logs v follow
  | AdbKind _ => raise (Incapable "logs" (device_name d) (device_kind d))
  | Plugin id _ _ => plugin_verb id "logs"
  end.

(** [ports.well_known(backend.ports)]. *)
Definition instance_wk (i : Instance) : CLM (list (string * Z) * Instance) :=
  r ← on_object i instance_ports; mret (well_known r.1, r.2).
Definition vm_wk (v : VmDevice) : CLM (list (string * Z)) := l ← on_api (vm_ports v); mret (well_known l).
Definition adb_of (wk : list (string * Z)) : CLM Z :=
  lift (match Dict.get "adb" wk with Some p => Ok p | None => Err NoAdbService end).
Definition localhost (p : Z) : string := "localhost:" +:+ str_of_Z p.

Definition adb_address (d : device) : CLM string :=
  match d with
  | Redroid i => r ← instance_wk i; p ← adb_of r.1; mret (localhost p)
  | VmKind v => wk ← vm_wk v; p ← adb_of wk; mret (localhost p)
  | AdbKind d => mret (a_serial d)
  | Plugin id _ _ => mret (plugin_adb_address id)
  end.

Definition frida_of (wk : list (string * Z)) : string :=
  match Dict.get "frida" wk with Some p => localhost p | None => FRIDA_ADDRESS_UNSUPPORTED end.
Definition device_frida_address (d : device) : CLM string :=
  match d with
  | Redroid i => r ← instance_wk i; mret (frida_of r.1)
  | VmKind _ => mret vm_frida_address
  | AdbKind d => mret (Adb.frida_address d)
  | Plugin id _ _ => mret (plugin_frida_address id)
  end.

Definition is_available (d : device) : CLM bool :=
  match d with
  | Redroid i => r ← on_object i Api.status; mret (bool_decide (r.1 = running))
  | VmKind v => port ← on_vm_device v vm_adb_port;
                r ← on_vm_device v (v_on_proc (is_running (Some port.1))); mret r.1
  | AdbKind d => on_calls (serial_is_available (a_serial d))
  | Plugin id _ _ => mret (plugin_available id)
  end.

(** [Instance.shell] and [VmDeviceBackend.shell]: connect first, whatever it answers. *)
Definition connected_shell (target : CLM string) (args : list string) : CLM Z :=
  lift (raise_if (negb adb_found) NoAdb) ;;
  t ← target;
  _ ← on_adb (on_terminal [_ADB; "connect"; t]);
  on_adb (on_terminal ([_ADB; "-s"; t; "shell"] ++ args)).

Definition device_shell (d : device) (args : list string) : CLM Z :=
  match d with
  | Redroid _ | VmKind _ => connected_shell (adb_address d) args
  | AdbKind d => on_adb (adb_device_shell d args)
  | Plugin id _ _ => plugin_op id "shell"
  end.

Definition instance_frida_cli (i : Instance) (args : list string) : CLM Z :=
  lift (raise_if (negb frida_found) (OfAdb FridaNotInstalled)) ;;
  a ← device_frida_address (Redroid i);
  on_adb (on_terminal ([_FRIDA; "-H"; a] ++ args)).

Definition device_install_frida (d : device) (version : string) : CLM unit :=
  match d with
  | Redroid i => _ ← on_object i (Api.install_frida (fuel_lzma here) (Some version)); mret tt
  | VmKind v => _ ← on_vm_device v (vm_install_frida (Some version)); mret tt
  | AdbKind d => on_adb (adb_install_frida (fuel_lzma here) d (Some version))
  | Plugin id _ _ => plugin_verb id "install-frida"
  end.

Definition device_add_module (d : device) (source : string) (sha256 : option string) : CLM unit :=
  match d with
  | Redroid i => _ ← on_object i (Api.add_module source sha256); mret tt
  | AdbKind d => on_adb (adb_add_module cwd d source sha256)
  | VmKind _ => raise (Incapable "module" (device_name d) (device_kind d))
  | Plugin id _ _ => plugin_verb id "module"
  end.

(** A row of [VmDeviceBackend.health] that passes shows no reason. *)
Definition row_of_check (c : vm_check) : CheckResult := match c with Plain r => r | PassWith _ => Pass end.

Definition device_health (d : device) : CLM (list (string * CheckResult)) :=
  match d with
  | Redroid i => on_doctor i (Health.health (binder_now here))
  | AdbKind d => on_calls (adb_health d)
  | VmKind v => r ← on_vm_device v (vm_health facts); mret (map (fun '(n, c) => (n, row_of_check c)) r.1)
  | Plugin id _ _ => plugin_health id
  end.
End device_ops.
