(* ===== verification/Cli.v ===== *)
(** * The verbs of the command line ([src/src/beetroot/cli.py])

    Every verb but [build], as it is run after its arguments were parsed, and [main] with
    its exit codes.  The state and the exceptions are those of [CliBase]. *)
From stdpp Require Import base list strings gmap sorting.
From Stdlib Require Import ZArith QArith Lia Ascii.
From S2P Require Import Prelude PyStr Config Ports Registry RegistryOps Qemu BootCache VmBackend Survey HostFs Paths Compose Download ModulesDownload FridaDownload RootfsDownload Snapshot Api Shell Adb Health VmOps Backends CliBase.
Local Open Scope stdpp_scope.
Local Open Scope Z_scope.

(** [shutil.copytree]: the destination is new; the tree as it is when the copy begins. *)
Definition copied (f : HostFs.fs) (src dst : path) : HostFs.fs :=
  list_to_map (omap (fun '(p, n) => if decide (src `prefix_of` p) then Some (dst ++ drop (length src) p, n) else None)
                 (map_to_list f)) ∪ f.
Definition copytree (src dst : path) : M HostFs.fs os_error unit := fun f =>
  match node_at f src with
  | None => (Err NoSuchFile, f)
  | Some (FileN _) => (Err NotADirectory, f)
  | Some DirN =>
      if bool_decide (is_Some (node_at f dst)) then (Err FileExists, f)
      else match mkdir_p (parent dst) f with
           | (Ok _, f') => (Ok tt, copied f' src dst)
           | (Err e, f') => (Err e, f')
           end
  end.

Section cli.
Context {P : Pydantic} {X : Externals} {Y : Layout} {W : Web} {H : FridaHost} {Z' : Lzma} {D : Docker} {U : Dumper}.
Context {os : OS} {T : Tools} {Q : Guest} {A : Adb} {N : Sockets} {G : Plugins} {V : PluginOps}.
Variable here : surroundings.
Variable now : datetime.

(** ** Helpers *)

Definition _frida_banner_clause (wk : list (string * Z)) : string :=
  match Dict.get "frida" wk with
  | Some p => "Frida " +:+ localhost p
  | None => "Frida unsupported (no frida service configured)"
  end.

Definition row_known (name : string) : CLM (option InstanceMeta) := on_api (row_of name).
Definition no_instance (name : string) : string := "no instance named '" +:+ name +:+ "'. Try `beetroot ls`.".

Definition _ensure_exists (name : string) : CLM unit :=
  m ← row_known name;
  match m with Some _ => mret tt | None => _error (no_instance name) end.

Definition resolved_backend (name : string) : CLM device := on_fleet (manager_resolve name).

Definition _resolve_names (names : list string) (all_flag : bool) : CLM (list string) :=
  if all_flag then
    if bool_decide (names <> []) then _error "--all and explicit names are mutually exclusive."
    else
      rows ← on_api rows_now;
      if bool_decide (rows = []) then say (Hint "(no instances)") ;; raise (Exit 0)
      else mret (merge_sort string_le (map fst rows))
  else if bool_decide (names = []) then _error "provide at least one instance name, or use --all."
  else mret names.

Fixpoint keep_capable (verb : string) (raw : list string) : CLM (list string) :=
  match raw with
  | [] => mret []
  | n :: raw' =>
      found ← catch (d ← resolved_backend n; mret (Some d))
                (fun e => if is_not_found e then say (NoteOf ("skipped " +:+ n) e) ;; mret None else raise e);
      keep ← match found with
             | None => mret []
             | Some d =>
                 if provides d Lifecycle_ then mret [n]
                 else say (Note ("skipped " +:+ n +:+ " (" +:+ device_kind d +:+ "): '" +:+ verb +:+
                                 "' not supported by this backend")) ;; mret []
             end;
      rest ← keep_capable verb raw';
      mret (keep ++ rest)
  end.

Definition _resolve_lifecycle_names (names : list string) (all_flag : bool) (verb : string)
  : CLM (list string) :=
  raw ← _resolve_names names all_flag;
  if all_flag then keep_capable verb raw else mret raw.

Definition _instance_lifecycle (name : string) : CLM Lifecycle :=
  m ← row_known name;
  match m with
  | None => mret durable
  | Some m =>
      match directory_of (backend m) with
      | None => mret durable
      | Some p =>
          there ← gets (fun s => has_yaml_file (c_env s) p);
          if (there : bool) then
            catch (cfg ← on_api (on_host (load_yaml (instance_yaml (resolve cwd p)))); mret (lifecycle cfg))
              (fun e => if os_err (class_of e) || file_not_found (class_of e) || is_value e then mret durable
                        else raise e)
          else mret durable
      end
  end.

Definition _destroy_prompt (name : string) : CLM string :=
  l ← _instance_lifecycle name;
  mret (match l with
        | durable => "Destroy DURABLE instance " +:+ name +:+ " and PERMANENTLY delete its /data? " +:+
                     "That research-phone state cannot be recovered."
        | ephemeral => "Destroy " +:+ name +:+ " and all its data? This cannot be undone."
        end).

(** The prompt is printed by the question. *)
Definition ask (prompt : string) : CLM bool := say (Printed prompt) ;; confirm.

Definition _confirm_destroy (name : string) (yes : bool) : CLM bool :=
  if yes then mret true
  else
    prompt ← _destroy_prompt name;
    go ← ask prompt;
    if (go : bool) then mret true else say (Status "aborted") ;; mret false.

(** ** Creating, adopting, applying *)

(** The line every new instance gets. *)
Definition announce (verb : string) (i : Instance) (where_ : path) : CLM unit :=
  r ← instance_wk i;
  p ← adb_of r.1;
  k ← on_object r.2 index_property;
  say (Status (verb +:+ " " +:+ i_name i +:+ " at " +:+ path_str where_ +:+ " (index " +:+ str_of_Z k.1 +:+
               ", ADB " +:+ localhost p +:+ ", " +:+ _frida_banner_clause r.1 +:+ ")")) ;;
  say (Hint ("next: beetroot up " +:+ i_name i)).

(** [--from-data]: everything inside the [try] turns an [OSError] into an error line. *)
Definition copy_from_data (src target_root : path) : CLM unit :=
  is_dir ← gets (fun s => bool_decide (node_at (w_fs (c_env s)) src = Some DirN));
  (if (is_dir : bool) then mret tt
   else _error ("--from-data path " +:+ path_str src +:+ " is not a directory.")) ;;
  on_api (on_tree (mkdir_p target_root)) ;;
  let dst := instance_data target_root in
  or_error (fun e => os_err (class_of e) || file_not_found (class_of e))
    (there ← gets (fun s => exists_at (w_fs (c_env s)) dst);
     (if (there : bool) then on_api (on_tree (rmtree_at dst)) else mret tt) ;;
     say (Step ("copying " +:+ path_str src +:+ " → " +:+ path_str dst)) ;;
     on_api (on_tree (copytree src dst))).

Definition lifecycle_of (s : string) : option Lifecycle :=
  if String.eqb s "ephemeral" then Some ephemeral else if String.eqb s "durable" then Some durable else None.

Definition cli_create (name : string) (p from_data lc preset : option string) : CLM unit :=
  or_error is_value (on_api (on_host (lift (_validate_instance_name name)))) ;;
  resolved_lc ← match lc with
                | None => mret None
                | Some s => match lifecycle_of s with
                            | Some l => mret (Some l)
                            | None => _error ("--lifecycle must be 'ephemeral' or 'durable', got '" +:+ s +:+ "'.")
                            end
                end;
  match preset with
  | Some x => _error ("--preset was removed in v0.3 — copy examples/" +:+ x +:+ ".yaml over " +:+
                      "your fresh beetroot.yaml and run 'beetroot apply " +:+ name +:+ "'.")
  | None => mret tt
  end ;;
  known ← row_known name;
  (if bool_decide (is_Some known) then _error ("instance '" +:+ name +:+ "' already exists.") else mret tt) ;;
  let target_root := resolve cwd (default name p) in
  there ← gets (fun s => exists_at (w_fs (c_env s)) (instance_yaml target_root));
  (if (there : bool) then
     _error (path_str target_root +:+ "/beetroot.yaml already exists — use `beetroot register " +:+
             path_str target_root +:+ "` to adopt it.")
   else mret tt) ;;
  match from_data with
  | Some d => copy_from_data (resolve cwd d) target_root
  | None => mret tt
  end ;;
  say (Step ("allocating a port index and staging files for " +:+ name)) ;;
  i ← or_error is_value (on_api (Api.create (fuel_lzma here) name (Some (path_str target_root)) None resolved_lc now));
  announce "created" i (i_root i).

Definition taken (name : string) : string :=
  "instance '" +:+ name +:+ "' already registered. Use a different --name, or `beetroot destroy " +:+ name +:+ "` first.".

Definition cli_register (p : string) (name : option string) : CLM unit :=
  let resolved_name := default (path_name (resolve cwd p)) name in
  known ← row_known resolved_name;
  (if bool_decide (is_Some known) then _error (taken resolved_name) else mret tt) ;;
  i ← or_error (fun e => file_not_found (class_of e) || is_value e) (on_api (Api.register (fuel_lzma here) p name now));
  announce "registered" i (i_root i).

Definition kept_char (c : ascii) : bool := is_lower c || is_digit c.

(** [re.sub("[^a-z0-9]+", "-", s)]. *)
Fixpoint collapse (in_run : bool) (l : list ascii) : list ascii :=
  match l with
  | [] => []
  | c :: l' => if kept_char c then c :: collapse false l'
               else if in_run then collapse true l' else "-"%char :: collapse true l'
  end.

(** [s.rstrip("-")]. *)
Fixpoint rstrip_hyphens (l : list ascii) : list ascii :=
  match l with
  | [] => []
  | c :: l' => match rstrip_hyphens l' with
               | [] => if decide (c = "-"%char) then [] else [c]
               | r => c :: r
               end
  end.

Definition _adopt_default_name (serial : string) : string :=
  let candidate := take 24 (chars "adb-" ++ collapse false (chars (lower serial))) in
  or_else (of_chars (rstrip_hyphens candidate)) "adb-device".

Definition cli_adopt (serial : string) (name : option string) (verify : bool) : CLM unit :=
  let resolved_name := default (_adopt_default_name serial) name in
  (if plus_full instance_name_char resolved_name then mret tt
   else _error ("derived instance name '" +:+ resolved_name +:+ "' is invalid — must match [a-z0-9_-]+. " +:+
                "Pass --name explicitly to override.")) ;;
  known ← row_known resolved_name;
  (if bool_decide (is_Some known) then _error (taken resolved_name) else mret tt) ;;
  (if verify then
     (if adb_found then mret tt else _error "adb not found on PATH (install android-tools)") ;;
     up ← on_calls (serial_is_available serial);
     if (up : bool) then mret tt
     else _error ("serial '" +:+ serial +:+ "' is not listed as 'device' in `adb devices`; " +:+
                  "connect the device and retry, or omit --verify to register without checking.")
   else mret tt) ;;
  idx ← on_api (on_host (on_reg (add_allocating resolved_name None (Some (AdbBackendConfig serial)) now)));
  say (Status ("adopted " +:+ resolved_name +:+ " → adb serial " +:+ serial +:+ " (index " +:+ str_of_Z idx +:+ ")")) ;;
  say (Hint ("next: beetroot install-frida " +:+ resolved_name +:+ " --version <tag> to push and launch frida-server, " +:+
             "then attach with `frida -H " +:+ String double_quote ("$(beetroot frida-addr " +:+ resolved_name +:+ ")") +:+
             String double_quote "`")).

Definition cli_apply (name : string) : CLM unit :=
  _ensure_exists name ;;
  d ← resolved_backend name;
  _require d Lifecycle_ "apply" ;;
  say (Step ("re-rendering .env and staging files for " +:+ name +:+ " from beetroot.yaml")) ;;
  or_error is_value (device_apply here d) ;;
  say (Status ("re-staged " +:+ name +:+ " from beetroot.yaml")) ;;
  say (Hint ("restart with: beetroot down " +:+ name +:+ " && beetroot up " +:+ name)).

(** ** Running *)

Definition remedy_clause (r : string) : string := if String.eqb r "" then "" else " Remedy: " +:+ r +:+ ".".

Definition _binder_preflight (mode : Binder) (warned : bool) : CLM bool :=
  let plan := plan_binder_runtime mode (binder_now here) in
  match action plan with
  | proceed => mret warned
  | block => _error (plan_reason plan +:+ "." +:+ remedy_clause (plan_remedy plan))
  | _ =>
      (if warned then mret tt
       else say (Note ("warning: redroid needs the kernel binder driver, but " +:+ plan_reason plan +:+
                       ". The container may start but Android will not boot." +:+ remedy_clause (plan_remedy plan) +:+
                       " Run `beetroot doctor <name>` to recheck."))) ;;
      mret true
  end.

Definition _vm_up_banner (v : VmDevice) : CLM unit :=
  accel ← or_error is_launch (on_machine (v_root v) (VmBackend.resolved_accel (v_cfg v)));
  match accel with
  | kvm => say (Note "backend: emulated micro-VM (no host binder) — acceleration: KVM (near-native).")
  | tcg => say (Note "backend: emulated micro-VM (no host binder) — acceleration: TCG (software): /dev/kvm not available. First boot is SLOW (~5-20x; minutes, not seconds) — this is expected, not a hang. Pin `vm.accel: kvm` on a host with nested virt for near-native speed.")
  end.

(** The redroid and the micro-VM guards of [up]; the result is the flag of the advisory. *)
Definition up_guard (name : string) (d : device) (warned : bool) : CLM bool :=
  match d with
  | Redroid i =>
      if bool_decide (binder (i_cfg i) = binder_vm) then
        _error ("instance '" +:+ name +:+ "' sets binder: vm but is still registered as a redroid backend. " +:+
                "Run `beetroot apply " +:+ name +:+ "` to switch it to the micro-VM engine, then retry `beetroot up`.")
      else _binder_preflight (binder (i_cfg i)) warned
  | VmKind v => _vm_up_banner v ;; mret warned
  | _ => mret warned
  end.

Definition up_banner (name : string) (d : device) : CLM unit :=
  let banner (wk : list (string * Z)) (clause : string) : CLM unit :=
    p ← adb_of wk;
    say (Status (device_name d +:+ " up — ADB " +:+ localhost p +:+ ", " +:+ clause)) ;;
    say (Hint ("next: beetroot shell " +:+ device_name d)) in
  match d with
  | Redroid i =>
      r ← instance_wk i;
      banner r.1 (if String.eqb (frida_of r.1) FRIDA_ADDRESS_UNSUPPORTED then "Frida unsupported on binder: vm"
                  else _frida_banner_clause r.1)
  | VmKind v => wk ← vm_wk v; banner wk "Frida unsupported on binder: vm"
  | _ => say (Status (name +:+ " up"))
  end.

Definition up_one (name : string) (warned : bool) : CLM bool :=
  _ensure_exists name ;;
  d ← resolved_backend name;
  _require d Lifecycle_ "up" ;;
  warned' ← up_guard name d warned;
  say (Step ("starting " +:+ name)) ;;
  d' ← or_error is_launch (device_up here d);
  up_banner name d' ;;
  mret warned'.

Fixpoint up_each (names : list string) (warned : bool) : CLM unit :=
  match names with
  | [] => mret tt
  | n :: names' => warned' ← up_one n warned; up_each names' warned'
  end.

Definition cli_up (names : list string) (all_ build : bool) : CLM unit :=
  (if build then _error ("'beetroot up --build' was removed in v0.3 — run 'beetroot build' separately first " +:+
                         "to rebuild the image.") else mret tt) ;;
  l ← _resolve_lifecycle_names names all_ "up";
  up_each l false.

Fixpoint each (f : string -> CLM unit) (names : list string) : CLM unit :=
  match names with [] => mret tt | n :: names' => f n ;; each f names' end.

Definition down_one (name : string) : CLM unit :=
  _ensure_exists name ;;
  d ← resolved_backend name;
  say (Step ("stopping " +:+ name)) ;;
  _require d Lifecycle_ "down" ;;
  device_down d ;;
  say (Status (name +:+ " down (data preserved)")).

Definition cli_down (names : list string) (all_ : bool) : CLM unit :=
  l ← _resolve_lifecycle_names names all_ "down"; each down_one l.

Definition restart_one (name : string) : CLM unit :=
  _ensure_exists name ;;
  d ← resolved_backend name;
  _require d Lifecycle_ "restart" ;;
  match d with VmKind v => _vm_up_banner v | _ => mret tt end ;;
  say (Step ("restarting " +:+ name)) ;;
  device_restart here d ;;
  say (Status (name +:+ " restarted")).

Definition cli_restart (names : list string) (all_ : bool) : CLM unit :=
  l ← _resolve_lifecycle_names names all_ "restart"; each restart_one l.

(** ** Removing *)

(** The path of a directory-backed row that no backend could be built for. *)
Definition destroy_orphan (name : string) (yes : bool) : CLM unit :=
  m ← row_known name;
  match m with
  | None => _error (no_instance name)
  | Some m =>
      match directory_of (backend m) with
      | None => raise (Incapable "destroy" name (backend_kind (backend m)))
      | Some p =>
          go ← _confirm_destroy name yes;
          if negb (go : bool) then mret tt
          else
            given ← on_api (on_host (on_reg (instance_path name)));
            let root := resolve cwd given in
            there ← gets (fun s => exists_at (w_fs (c_env s)) root);
            (if (there : bool) then
               (if is_vm_row (backend m) then
                  on_machine root (in_host (terminate None)) ;; mret tt
                else
                  catch (on_api (on_docker (Compose.down name root true)))
                    (fun e => if is_compose_error e then say (NoteOf "(compose down failed; continuing)" e) else raise e)) ;;
               on_api (on_host (on_reg (remove name))) ;;
               on_api (on_tree (rmtree_at root))
             else
               say (Note ("(instance dir " +:+ path_str root +:+ " already gone; removing orphan registry entry)")) ;;
               on_api (on_host (on_reg (remove name)))) ;;
            say (Status ("destroyed " +:+ name))
      end
  end.

(** The [try] of the verb: [true] when it returned in it. *)
Definition destroy_resolved (name : string) (yes : bool) : CLM bool :=
  catch
    (d ← resolved_backend name;
     _require d Lifecycle_ "destroy" ;;
     go ← _confirm_destroy name yes;
     if negb (go : bool) then mret true
     else
       say (Step ("tearing down " +:+ name +:+ " (stopping container, deleting data)")) ;;
       catch (device_destroy d)
         (fun e => if is_compose_error e then say (NoteOf "(compose down failed; continuing)" e) else raise e) ;;
       say (Status ("destroyed " +:+ name)) ;;
       mret true)
    (fun e => if is_not_found e then mret false else raise e).

Definition cli_destroy (name : string) (yes : bool) : CLM unit :=
  _ensure_exists name ;;
  done ← destroy_resolved name yes;
  if (done : bool) then mret tt else destroy_orphan name yes.

Definition reset_prompt (name : string) : string :=
  "Reset " +:+ name +:+ "? This wipes its /data (installed apps, accounts, flashed-module / LSPosed scope state) " +:+
  "but keeps the instance, Frida, and modules.".

Definition cli_reset (name : string) (yes : bool) : CLM unit :=
  _ensure_exists name ;;
  d ← resolved_backend name;
  _require d Resettable "reset" ;;
  go ← (if yes then mret true else ask (reset_prompt name));
  if negb (go : bool) then say (Status "aborted")
  else
    say (Step ("resetting " +:+ name +:+ " (stopping container, wiping /data)")) ;;
    or_error is_compose_error
      match d with
      | Redroid i => _ ← on_object i (Api.reset true); mret tt
      | Plugin id _ _ => plugin_verb id "reset"
      | _ => raise (Incapable "reset" (device_name d) (device_kind d))
      end ;;
    say (Status ("reset " +:+ name +:+ " — run 'beetroot up " +:+ name +:+ "' for a fresh /data")).

Definition cli_forget (name : string) : CLM unit :=
  _ensure_exists name ;;
  on_api (on_host (on_reg (remove name))) ;;
  say (Status ("forgot " +:+ name +:+ " (registry row removed; host directory untouched)")).

(** ** Listing *)

Definition _ls_rows : CLM (list (string * InstanceMeta * device)) :=
  metas ← on_api rows_now;
  l ← on_fleet manager_all;
  mret (omap (fun d => (fun m => (device_name d, m, d)) <$> Dict.get (device_name d) metas) l).

Definition device_root (d : device) : option path :=
  match d with Redroid i => Some (i_root i) | VmKind v => Some (v_root v) | _ => None end.

Definition _ls_table_row (name : string) (m : InstanceMeta) (d : device) : CLM (list string) :=
  cells ← match d with
          | Redroid i =>
              st ← on_object i Api.status;
              r ← instance_wk i;
              p ← adb_of r.1;
              mret (localhost p, frida_of r.1, status_text st.1)
          | _ =>
              up ← is_available d;
              a ← adb_address d;
              fr ← device_frida_address d;
              mret (a, fr, if (up : bool) then "available" else "unavailable")
          end;
  let '(adb_addr, frida_addr, st) := cells in
  mret [name; device_kind d; str_of_Z (Registry.index m); adb_addr; frida_addr; st;
        match device_root d with Some p => path_str p | None => "-" end].

Definition service_json (s : option string) : json := match s with Some s => JStr s | None => JNull end.
Definition port_json (rp : ResolvedPort) : json :=
  JObj [("service", service_json (rp_service rp)); ("guest", JInt (rp_guest rp)); ("host", JInt (rp_host rp))].

Definition _instance_json_row (i : Instance) : CLM jdict :=
  l ← on_object i instance_ports;
  let wk := well_known l.1 in
  p ← adb_of wk;
  m ← row_known (i_name i);
  match m with
  | Some m =>
      match backend m with
      | RedroidBackendConfig _ sp =>
          k ← on_object i index_property;
          st ← on_object i Api.status;
          mret [("name", JStr (i_name i)); ("kind", JStr "redroid"); ("index", JInt k.1);
                ("created_at", JStr (isoformat (created_at m))); ("ports", JList (map port_json l.1));
                ("status", JStr (status_text st.1)); ("adb_address", JStr (localhost p));
                ("frida_address", JStr (frida_of wk));
                ("stealth_paths", JObj (map (fun '(k, v) => (k, JStr v)) sp));
                ("path", JStr (path_str (i_root i))); ("adb", JStr (localhost p)); ("frida", JStr (frida_of wk))]
      | b => raise (OfApi (Snap (RegErr (NotRedroid (i_name i) (backend_kind b)))))
      end
  | None => raise (OfApi (Snap (RegErr (UnknownInstance (i_name i)))))
  end.

Definition _adb_json_row (name : string) (m : InstanceMeta) (d : device) : CLM jdict :=
  a ← adb_address d;
  fr ← device_frida_address d;
  up ← is_available d;
  mret ([("name", JStr name); ("kind", JStr (device_kind d)); ("index", JInt (Registry.index m));
         ("created_at", JStr (isoformat (created_at m))); ("adb_address", JStr a); ("frida_address", JStr fr);
         ("is_available", JBool up); ("stealth_paths", JObj [])] ++
        match device_root d with Some p => [("path", JStr (path_str p))] | None => [] end ++
        match backend m with AdbBackendConfig s => [("serial", JStr s)] | _ => [] end).

Definition _backend_json_row (name : string) (m : InstanceMeta) (d : device) : CLM jdict :=
  match d with Redroid i => _instance_json_row i | _ => _adb_json_row name m d end.

Fixpoint json_rows (rows : list (string * InstanceMeta * device)) : CLM jdict :=
  match rows with
  | [] => mret []
  | (n, m, d) :: rows' => j ← _backend_json_row n m d; rest ← json_rows rows'; mret ((n, JObj j) :: rest)
  end.
Fixpoint table_rows (rows : list (string * InstanceMeta * device)) : CLM (list (list string)) :=
  match rows with
  | [] => mret []
  | (n, m, d) :: rows' => r ← _ls_table_row n m d; rest ← table_rows rows'; mret (r :: rest)
  end.

Definition _emit_orphan_skip (orphans : list string) : CLM unit :=
  say (Note ("(skipping " +:+ str_of_Z (Z.of_nat (length orphans)) +:+ " orphan " +:+
             (if (length orphans =? 1)%nat then "entry" else "entries") +:+ ": " +:+ join ", " orphans +:+
             "; clean up with 'beetroot destroy <name> -y')")).

Fixpoint say_all (l : list line) : CLM unit :=
  match l with [] => mret tt | x :: l' => say x ;; say_all l' end.

Definition ls (json_out : bool) : CLM unit :=
  rows ← _ls_rows;
  orphans ← on_api list_orphans;
  let skip := if bool_decide (orphans = []) then mret tt else _emit_orphan_skip orphans in
  if json_out then
    out ← json_rows rows;
    say (PrintedJson (JObj out)) ;; skip
  else if bool_decide (rows = []) && bool_decide (orphans = []) then
    say (Hint "(no instances — try 'beetroot create alpha')")
  else
    (if bool_decide (rows = []) then mret tt
     else
       cells ← table_rows rows;
       say_all (map TableRow (["NAME"; "KIND"; "IDX"; "ADB"; "FRIDA"; "STATUS"; "PATH"] :: cells))) ;;
    skip.

Definition cli_status (name : string) : CLM unit :=
  _ensure_exists name ;;
  d ← resolved_backend name;
  row ← match d with
        | Redroid i => _instance_json_row i
        | _ => m ← row_known name;
               match m with
               | Some m => _adb_json_row name m d
               | None => _error ("no instance named '" +:+ name +:+ "'")
               end
        end;
  say (PrintedJson (JObj row)).

(** ** Devices *)

Definition cli_logs (name : string) (follow : bool) : CLM unit :=
  _ensure_exists name ;;
  d ← resolved_backend name;
  _require d LogReader "logs" ;;
  device_logs d follow.

(** The exit code of the subprocess, a signal as the shell reports it. *)
Definition exit_code_of (rc : Z) : Z := Z.min (if rc <? 0 then 128 - rc else rc) 255.

Definition cli_shell (name : string) (args : list string) : CLM unit :=
  _ensure_exists name ;;
  d ← resolved_backend name;
  rc ← or_error is_no_adb (device_shell d args);
  if rc =? 0 then mret tt else raise (Exit (exit_code_of rc)).

Definition is_failed (r : CheckResult) : bool := match r with Failed _ => true | _ => false end.
Definition fail_count (rows : list (string * CheckResult)) : Z :=
  Z.of_nat (length (filter (fun r => is_failed r.2 = true) rows)).

Definition doctor (name : string) : CLM unit :=
  _ensure_exists name ;;
  d ← resolved_backend name;
  _require d HealthCheckable "doctor" ;;
  results ← device_health here d;
  say_all (map (fun '(n, r) => Checked n r) results) ;;
  if 0 <? fail_count results then raise (Exit (Z.min (fail_count results) 255)) else mret tt.

Definition modes (json_out : bool) : CLM unit := say (Modes (survey (survey_probes here))).

Definition cli_frida_addr (name : string) : CLM unit :=
  _ensure_exists name ;;
  d ← resolved_backend name;
  a ← device_frida_address d;
  lift (raise_if (String.eqb a FRIDA_ADDRESS_UNSUPPORTED) (Incapable "frida-addr" name (device_kind d))) ;;
  say (Printed a).

Definition cli_install_frida (name version : string) : CLM unit :=
  _ensure_exists name ;;
  d ← resolved_backend name;
  or_error (fun e => is_value e || is_no_adb e) (device_install_frida here d version) ;;
  say (Status ("installed frida-server " +:+ version +:+ " on " +:+ name)).

(** ** Modules *)

Definition _echo_module_rows (rows : list ModuleInstallResult) : CLM unit := say_all (map ModuleRow rows).

Definition preflight_rows (e : cli_error) : option (list ModuleInstallResult) :=
  match e with
  | OfAdb (Offline _ _ rows) => Some rows
  | OfAdb NoRootAccess | OfAdb NoMagisk => Some []
  | _ => None
  end.

Definition _module_auto_install (d : device) (sources digests : list string) : CLM unit :=
  _require d AutoModuleInstaller "module --auto-install" ;;
  (if bool_decide (digests <> []) && negb (length digests =? length sources)%nat
   then _error "--sha256 must be repeated once per source (or omitted entirely) with --auto-install." else mret tt) ;;
  results ← catch
    match d with
    | AdbKind a => on_adb (auto_install_modules cwd a sources
                             (if bool_decide (digests = []) then None else Some (map Some digests)))
    | Plugin id _ _ => plugin_verb id "module --auto-install" ;; mret []
    | _ => raise (Incapable "module --auto-install" (device_name d) (device_kind d))
    end
    (fun e => if is_no_adb e then say (ErrorOf e) ;; raise (Exit 1)
              else match preflight_rows e with
                   | Some rows => _echo_module_rows rows ;; say (ErrorOf e) ;; raise (Exit 1)
                   | None => raise e
                   end);
  _echo_module_rows results ;;
  if forallb (fun r => r.1.2) results then mret tt else raise (Exit 1).

Definition cli_module (name : string) (sources digests : list string) (auto_install : bool) : CLM unit :=
  _ensure_exists name ;;
  d ← resolved_backend name;
  if auto_install then _module_auto_install d sources digests
  else
    match sources with
    | [source] =>
        if (1 <? length digests)%nat
        then _error "without --auto-install, pass exactly one source (and at most one --sha256)."
        else
          _require d ModuleInstaller "module" ;;
          or_error is_value (device_add_module d source (head digests)) ;;
          match d with
          | Redroid i =>
              say (Status ("added module → " +:+ path_str (instance_yaml (i_root i)))) ;;
              say (Hint ("restart to flash: beetroot down " +:+ name +:+ " && beetroot up " +:+ name))
          | _ => say (Status ("module pushed to " +:+ name))
          end
    | _ => _error "without --auto-install, pass exactly one source (and at most one --sha256)."
    end.

Definition setup_deprecated : CLM unit :=
  _error ("the 'setup' verb was renamed to 'build' in v0.3 — " +:+
          "run 'beetroot build [variant]' (see CHANGELOG.md).").

(** ** Snapshots *)

Definition cli_snapshot (name : string) (output : option string) : CLM unit :=
  _ensure_exists name ;;
  d ← resolved_backend name;
  _require d Snapshottable "snapshot" ;;
  let dest := resolve cwd (default (name +:+ ".tar.zst") output) in
  say (Step ("packing " +:+ name +:+ " → " +:+ default (name +:+ ".tar.zst") output)) ;;
  final ← or_error is_snapshot_error
    match d with
    | Redroid i => on_api (instance_snapshot i (parent dest) (path_name dest) (iso_now here) (version_now here))
    | Plugin id _ _ => plugin_verb id "snapshot" ;; mret dest
    | _ => raise (Incapable "snapshot" (device_name d) (device_kind d))
    end;
  say (Status ("snapshot of " +:+ name +:+ " → " +:+ path_str final)).

Definition cli_restore (archive : string) (name as_ p : option string) (force : bool) : CLM unit :=
  let effective_name := match name with Some n => Some n | None => as_ end in
  let file := resolve cwd archive in
  manifest ← or_error is_snapshot_error (on_api (on_host (read_manifest file)));
  let dest_name := default (m_name manifest) effective_name in
  let dest_path := resolve cwd (default dest_name p) in
  say (Step ("unpacking " +:+ archive +:+ " → " +:+ path_str dest_path)) ;;
  restored ← or_error (fun e => is_snapshot_error e || is_value e)
    (on_api (Api.restore (fuel_lzma here) file dest_name dest_path force now));
  i ← on_api (Api.load dest_name);
  announce "restored" i restored.
End cli.

(** ** [main] *)

(** How the process ends. *)
Inductive ending : Type := ExitCode (code : Z) | Traceback (e : cli_error).

Definition main (verb : CLM unit) (s : cli) : ending * cli :=
  match verb s with
  | (Ok _, s') => (ExitCode 0, s')
  | (Err (Exit c), s') => (ExitCode c, s')
  | (Err Aborted, s') => (ExitCode 1, snd (say (Error "Aborted!") s'))
  | (Err e, s') =>
      if capability_error (class_of e) then (ExitCode 2, snd (say (ErrorOf e) s'))
      else if domain_error (class_of e) then (ExitCode 1, snd (say (ErrorOf e) s'))
      else (Traceback e, s')
  end.
