(* ===== verification/CliOps.v ===== *)
(** * What the verbs of the command line guarantee

    Facts over [Cli]: a verb that a backend does not support and a question that is not
    answered with yes change nothing; what [--all] selects; the guards of [up]; the exit
    codes; the names of adopted devices; and what [create --from-data] does to its source. *)
From stdpp Require Import base list strings gmap sorting relations.
From Stdlib Require Import ZArith QArith Lia Ascii.
From S2P Require Import Prelude PyStr Config Ports Registry RegistryOps Qemu BootCache VmBackend Survey HostFs Paths Compose Download ModulesDownload FridaDownload RootfsDownload Snapshot SnapshotOps Api ApiInv ApiOps ApiPeers ApiSpecs ApiVerbs Shell Adb Health VmOps Backends CliBase Cli.
Local Open Scope stdpp_scope.
Local Open Scope Z_scope.

(** Everything but the output and the answers is as before. *)
Definition same_host (s s' : cli) : Prop :=
  c_fleet s' = c_fleet s /\ c_calls s' = c_calls s /\ c_pushed s' = c_pushed s /\
  forall p, c_vms s' p = c_vms s p.

#[export] Instance same_host_preorder : PreOrder same_host.
Proof.
  split; [by split|]. intros a b c (H1 & H2 & H3 & H4) (H5 & H6 & H7 & H8).
  split_and!; congruence.
Qed.

(** Output only: the answers stay too. *)
Definition only_output (s s' : cli) : Prop := same_host s s' /\ c_answers s' = c_answers s.

#[export] Instance only_output_preorder : PreOrder only_output.
Proof. split; [by split|]. intros a b c [H1 H2] [H3 H4]. split; [by etransitivity|congruence]. Qed.

Lemma say_output l : preserves only_output (say l).
Proof. intros s. by repeat split. Qed.
Lemma error_output {B} t : preserves only_output (@_error B t).
Proof. intros s. by repeat split. Qed.

(** ** A registry that can be read *)

Section verbs.
Context `{P : Pydantic} `{L : !PydanticLaws P} {X : Externals} {Y : Layout} `{YL : !LayoutLaws Y} {W : Web} `{WL : !WebLaws W} {H : FridaHost} {Z' : Lzma} {D : Docker} {U : Dumper}.
Context {os : OS} {T : Tools} {Q : Guest} {A : Adb} {N : Sockets} {G : Plugins} {V : PluginOps}.
Variable here : surroundings.
Variable now : datetime.
Abbreviation RegistryFile := (list (string * InstanceMeta)).
Implicit Types (data : RegistryFile) (s : cli).

(** The registry was written, and the entry points are loaded. *)
Record settled data s : Prop := {
  st_reg : reg (w_reg (c_env s)) = Some (Doc (_registry_to_json data));
  st_wf : file_wf data;
  st_loaded : _ENTRY_POINTS_LOADED (f_backends (c_fleet s)) = true }.

Lemma settled_same data s s' : same_host s s' -> settled data s -> settled data s'.
Proof. intros [Hf _] [? ? ?]. split; unfold c_env in *; by rewrite ?Hf. Qed.

Lemma same_env s : set_env (c_env s) s = s.
Proof. by destruct s as [[w b] ? ? ? ? ?]. Qed.
Lemma same_fleet s : set_fleet (c_fleet s) s = s.
Proof. by destruct s. Qed.
Lemma fleet_parts s : c_fleet s = mkFleet (c_env s) (f_backends (c_fleet s)).
Proof. by destruct s as [[w b] ? ? ? ? ?]. Qed.

Lemma on_api_reads {B} (m : AM B) s : reads m (c_env s) -> reads (on_api m) s.
Proof.
  unfold reads, on_api, zoom. destruct (m (c_env s)) as [[a|e] w]; simpl; intros ->; apply same_env.
Qed.

Lemma row_known_run data s (name : string) : settled data s -> row_known name s = (Ok (Dict.get name data), s).
Proof.
  intros [Hr Hw _]. unfold row_known, on_api, zoom. rewrite (row_read data _ Hr Hw). by rewrite same_env.
Qed.

Lemma ensure_run data s (name : string) m : settled data s -> Dict.get name data = Some m ->
  _ensure_exists name s = (Ok tt, s).
Proof. intros Hs Hg. unfold _ensure_exists. by rewrite (M_bind_ok _ _ _ _ _ (row_known_run data s name Hs)), Hg. Qed.

(** What a name resolves to. *)
Definition backend_now s (name : string) : result fleet_error device := fst (manager_resolve name (c_fleet s)).

Lemma backend_run data s (name : string) : settled data s ->
  resolved_backend name s = (match backend_now s name with Ok d => Ok d | Err e => Err (OfFleet e) end, s).
Proof.
  intros [Hr Hw Hl]. unfold resolved_backend, on_fleet, zoom.
  assert (manager_resolve name (c_fleet s) = (backend_now s name, c_fleet s)) as ->.
  { unfold backend_now. rewrite fleet_parts. apply reads_run, (resolve_reads data); done. }
  rewrite same_fleet. by destruct (backend_now s name).
Qed.

Lemma backend_row data s (name : string) d : settled data s -> backend_now s name = Ok d ->
  device_name d = name /\ exists m, Dict.get name data = Some m /\ device_kind d = backend_kind (backend m).
Proof.
  intros [Hr Hw Hl] Hd. unfold backend_now in Hd. rewrite fleet_parts, (resolve_run data _ Hr Hw name _ Hl) in Hd.
  destruct (Dict.get name data) as [m|]; [|done].
  destruct (asked_class _ (backend m)) as [c|]; [|done].
  destruct (hydrate c name (backend m) _) as [r s'] eqn:Hh. simpl in Hd. subst r.
  apply hydrate_kind in Hh as [Hn Hk]. split; [done|by exists m].
Qed.

(** ** A verb the backend does not support *)

(** The process ends with code 2, nothing was done and no question asked. *)
Definition refused (verb : CLM unit) s : Prop := exists s', main verb s = (ExitCode 2, s') /\ only_output s s'.

Lemma incapable_refused (verb : CLM unit) s s' (v n k : string) :
  verb s = (Err (Incapable v n k), s') -> only_output s s' -> refused verb s.
Proof.
  intros Hv Ho. unfold refused, main. rewrite Hv. eexists. split; [reflexivity|].
  etransitivity; [exact Ho|]. apply say_output.
Qed.

Lemma require_fails d c (verb : string) s : provides d c = false ->
  _require d c verb s = (Err (Incapable verb (device_name d) (device_kind d)), s).
Proof. intros Hc. unfold _require. by rewrite Hc. Qed.

(** A verb up to its failing gate. *)
Ltac gate He Hb Hc := rewrite (M_bind_ok _ _ _ _ _ He), (M_bind_ok _ _ _ _ _ Hb);
  apply M_bind_err, require_fails, Hc.

Lemma main_cong (m1 m2 : CLM unit) s : m1 s = m2 s -> main m1 s = main m2 s.
Proof. unfold main. by intros ->. Qed.

(** One name on the command line. *)
Lemma up_single s (name : string) :
  cli_up here [name] false false s = (up_one here name false ≫= fun _ => mret tt) s.
Proof. reflexivity. Qed.
Lemma down_single s (name : string) : cli_down [name] false s = (down_one name ≫= fun _ => mret tt) s.
Proof. reflexivity. Qed.
Lemma restart_single s (name : string) :
  cli_restart here [name] false s = (restart_one here name ≫= fun _ => mret tt) s.
Proof. reflexivity. Qed.

(** C6. A verb is refused before it does or asks anything when the backend of the instance has
    no such capability: exit code 2, the host as it was, no answer consumed. *)
Theorem unsupported_verb_refused data s name d :
  settled data s -> backend_now s name = Ok d ->
  (provides d Lifecycle_ = false -> Forall (fun verb => refused verb s)
     [cli_apply here name; cli_up here [name] false false; cli_down [name] false; cli_restart here [name] false;
      cli_destroy name false; cli_destroy name true]) /\
  (provides d Resettable = false -> forall yes, refused (cli_reset name yes) s) /\
  (provides d LogReader = false -> forall follow, refused (cli_logs name follow) s) /\
  (provides d HealthCheckable = false -> refused (doctor here name) s) /\
  (provides d Snapshottable = false -> forall output, refused (cli_snapshot here name output) s) /\
  (provides d AutoModuleInstaller = false -> forall sources digests, refused (cli_module name sources digests true) s) /\
  (provides d ModuleInstaller = false -> forall source, refused (cli_module name [source] [] false) s).
Proof.
  intros Hs Hd. destruct (backend_row data s name d Hs Hd) as [_ (m & Hg & _)].
  pose proof (ensure_run data s name m Hs Hg) as He. pose proof (backend_run data s name Hs) as Hb. rewrite Hd in Hb.
  split_and!; intros Hc.
  - assert (forall yes, refused (cli_destroy name yes) s) as Hdestroy.
    { intros yes. eapply incapable_refused; [|reflexivity]. unfold cli_destroy. rewrite (M_bind_ok _ _ _ _ _ He).
      apply M_bind_err. unfold destroy_resolved, catch. rewrite (M_bind_ok _ _ _ _ _ Hb).
      by rewrite (M_bind_err _ _ _ _ _ (require_fails d Lifecycle_ "destroy" s Hc)). }
    rewrite !Forall_cons. split_and!; try apply Hdestroy; [..|by constructor].
    + eapply incapable_refused; [|reflexivity]. unfold cli_apply. gate He Hb Hc.
    + eapply incapable_refused; [|reflexivity]. rewrite up_single. apply M_bind_err. unfold up_one. gate He Hb Hc.
    + eapply incapable_refused; [|apply (say_output (Step ("stopping " +:+ name)))]. rewrite down_single.
      apply M_bind_err. unfold down_one. rewrite (M_bind_ok _ _ _ _ _ He), (M_bind_ok _ _ _ _ _ Hb).
      rewrite (M_bind_ok (say _) _ s tt (snd (say (Step ("stopping " +:+ name)) s))) by done.
      apply M_bind_err, require_fails, Hc.
    + eapply incapable_refused; [|reflexivity]. rewrite restart_single. apply M_bind_err. unfold restart_one. gate He Hb Hc.
  - intros yes. eapply incapable_refused; [|reflexivity]. unfold cli_reset. gate He Hb Hc.
  - intros follow. eapply incapable_refused; [|reflexivity]. unfold cli_logs. gate He Hb Hc.
  - eapply incapable_refused; [|reflexivity]. unfold doctor. gate He Hb Hc.
  - intros output. eapply incapable_refused; [|reflexivity]. unfold cli_snapshot. gate He Hb Hc.
  - intros sources digests. eapply incapable_refused; [|reflexivity]. unfold cli_module, _module_auto_install. gate He Hb Hc.
  - intros source. eapply incapable_refused; [|reflexivity]. unfold cli_module. gate He Hb Hc.
Qed.

(** ** A question that is not answered with yes *)

Definition says_no s : Prop := c_answers s = [] \/ exists l, c_answers s = false :: l.

Lemma lifecycle_wp data s name : settled data s ->
  wp (_instance_lifecycle name) (fun _ s' => s' = s) (fun _ _ => False) s.
Proof.
  intros Hs. unfold _instance_lifecycle. apply wp_bind. unfold wp at 1. rewrite (row_known_run data s name Hs).
  destruct (Dict.get name data) as [m|]; [|by apply wp_ret]. destruct (directory_of (backend m)) as [p|]; [|by apply wp_ret].
  apply wp_bind, wp_gets. destruct (has_yaml_file (c_env s) p); [|by apply wp_ret].
  apply wp_catch, wp_bind. unfold wp at 1, on_api, zoom. rewrite load_read, same_env. unfold load_yaml.
  destruct (read_file _ _) as [text|e]; [destruct (parse_config text) as [cfg|]|]; simpl.
  - by apply wp_ret.
  - by apply wp_ret.
  - by destruct e.
Qed.

Lemma confirm_no s : says_no s ->
  wp confirm (fun b s' => b = false /\ same_host s s') (fun e s' => e = Aborted /\ same_host s s') s.
Proof. unfold wp, confirm. by intros [->|[l ->]]. Qed.

Lemma ask_no t s : says_no s ->
  wp (ask t) (fun b s' => b = false /\ same_host s s') (fun e s' => e = Aborted /\ same_host s s') s.
Proof.
  intros Hn. unfold ask. apply wp_bind. unfold wp at 1, say, modify.
  eapply wp_mono; [by apply confirm_no| |]; simpl; intros ? s' [? Hs]; by split.
Qed.

Lemma confirm_destroy_no data s name : settled data s -> says_no s ->
  wp (_confirm_destroy name false) (fun b s' => b = false /\ same_host s s')
    (fun e s' => e = Aborted /\ same_host s s') s.
Proof.
  intros Hs Hn. unfold _confirm_destroy, _destroy_prompt. do 2 apply wp_bind.
  eapply wp_mono; [by apply (lifecycle_wp data)| |done]. intros l s' ->. apply wp_ret, wp_bind.
  eapply wp_mono; [by apply ask_no| |done]. intros b s1 [-> H1]. apply wp_bind. unfold wp at 1, say, modify.
  apply wp_ret. split; [done|]. etransitivity; [exact H1|apply (say_output (Status "aborted"))].
Qed.

(** C8. A destroy or a reset whose question is answered with no, or not at all, leaves every row,
    file, container and process as it is, for every kind of row. *)
Theorem declined_changes_nothing data s name : settled data s -> says_no s ->
  same_host s (snd (cli_destroy name false s)) /\ same_host s (snd (cli_reset name false s)).
Proof.
  intros Hs Hn.
  assert (forall B (m : CLM B), wp m (fun _ s' => same_host s s') (fun _ s' => same_host s s') s -> same_host s (snd (m s))) as Hwp.
  { intros B m Hm. unfold wp in Hm. by destruct (m s) as [[] ?]. }
  split; apply Hwp.
  - unfold cli_destroy. apply wp_bind. unfold wp at 1, _ensure_exists.
    rewrite (M_bind_ok _ _ _ _ _ (row_known_run data s name Hs)).
    destruct (Dict.get name data) as [m|] eqn:Hg; [|by repeat split]. cbn.
    apply wp_bind. unfold destroy_resolved.
    apply (wp_mono _ (fun b s' => b = true /\ same_host s s' \/ b = false /\ s' = s) _ (fun _ s' => same_host s s'));
      [|intros b s' [[-> Hh]|[-> ->]]; [by apply wp_ret|]|done].
    + apply wp_catch, wp_bind. unfold wp at 1. rewrite (backend_run data s name Hs).
      destruct (backend_now s name) as [d|e].
      * apply wp_bind. unfold wp at 1, _require, lift, raise_if. destruct (provides d Lifecycle_); [|done]. cbn.
        apply wp_bind. eapply wp_mono; [by apply (confirm_destroy_no data)| |].
        -- intros b s' [-> Hh]. apply wp_ret. by left.
        -- by intros e s' [-> Hh].
      * destruct (is_not_found (OfFleet e)); [by right|]. by apply wp_raise.
    + unfold destroy_orphan. apply wp_bind. unfold wp at 1. rewrite (row_known_run data s name Hs), Hg.
      destruct (directory_of (backend m)) as [p|]; [|by apply wp_raise].
      apply wp_bind. eapply wp_mono; [by apply (confirm_destroy_no data)| |by intros e s' [_ ?]].
      intros b s' [-> Hh]. by apply wp_ret.
  - unfold cli_reset. apply wp_bind. unfold wp at 1, _ensure_exists.
    rewrite (M_bind_ok _ _ _ _ _ (row_known_run data s name Hs)).
    destruct (Dict.get name data) as [m|] eqn:Hg; [|by repeat split]. cbn.
    apply wp_bind. unfold wp at 1. rewrite (backend_run data s name Hs).
    destruct (backend_now s name) as [d|e]; [|done].
    apply wp_bind. unfold wp at 1, _require, lift, raise_if. destruct (provides d Resettable); [|done]. cbn.
    apply wp_bind. eapply wp_mono; [by apply ask_no| |by intros e s' [_ ?]].
    intros b s' [-> Hh]. cbn. etransitivity; [exact Hh|apply (say_output (Status "aborted"))].
Qed.

(** ** What [--all] selects *)

Definition capable s (name : string) : bool :=
  match backend_now s name with Ok d => provides d Lifecycle_ | Err _ => false end.
(** Unresolvable names are skipped with a note; any other exception ends the verb. *)
Definition skippable s (name : string) : Prop :=
  match backend_now s name with Ok _ => True | Err e => is_InstanceNotFound e = true end.
#[export] Instance skippable_dec s name : Decision (skippable s name).
Proof. unfold skippable. destruct (backend_now s name); apply _. Defined.

Lemma backend_now_same s s' name : same_host s s' -> backend_now s' name = backend_now s name.
Proof. intros [Hf _]. unfold backend_now. by rewrite Hf. Qed.

Lemma keep_capable_wp data (verb : string) l s0 s : settled data s0 -> only_output s0 s ->
  wp (keep_capable verb l)
    (fun r s' => only_output s0 s' /\ Forall (skippable s0) l /\ r = filter (fun n => capable s0 n = true) l)
    (fun e s' => only_output s0 s' /\ ~ Forall (skippable s0) l /\ exists f, e = OfFleet f) s.
Proof.
  intros Hs. revert s. induction l as [|n l IH]; intros s Ho; [by apply wp_ret|].
  cbn [keep_capable]. apply wp_bind, wp_catch, wp_bind. unfold wp at 1.
  rewrite (backend_run data s n (settled_same _ _ _ (proj1 Ho) Hs)), (backend_now_same s0 s n (proj1 Ho)).
  assert (forall (keep : list string) s1, only_output s0 s1 -> skippable s0 n ->
    keep = (if capable s0 n then [n] else []) ->
    wp (rest ← keep_capable verb l; mret (keep ++ rest))
      (fun r s' => only_output s0 s' /\ Forall (skippable s0) (n :: l) /\ r = filter (fun n => capable s0 n = true) (n :: l))
      (fun e s' => only_output s0 s' /\ ~ Forall (skippable s0) (n :: l) /\ exists f, e = OfFleet f) s1) as Hrest.
  { intros keep s1 H1 Hsk ->. apply wp_bind. eapply wp_mono; [by apply IH| |].
    - intros r s' (H' & Hl & ->). apply wp_ret. split; [done|]. split; [by constructor|].
      rewrite filter_cons. by destruct (capable s0 n).
    - intros e s' (H' & Hl & Hf). split_and!; [done| |done]. intros [_ ?]%Forall_cons. by apply Hl. }
  unfold capable, skippable in Hrest. unfold skippable.
  destruct (backend_now s0 n) as [d|e] eqn:Hn.
  - apply wp_ret, wp_bind. destruct (provides d Lifecycle_); [apply wp_ret; by apply Hrest|].
    apply wp_bind. unfold wp at 1, say, modify. by apply wp_ret, Hrest.
  - cbn [is_not_found]. destruct (is_InstanceNotFound e) eqn:Hnf.
    + apply wp_bind. unfold wp at 1, say, modify. by apply wp_ret, wp_bind, wp_ret, Hrest.
    + apply wp_raise. split_and!; [done| |by eexists]. rewrite Forall_cons, Hn. intros [? _]. congruence.
Qed.

(** C9. [--all] acts on exactly the instances whose backend has a lifecycle, in the order of
    their names; the others are named in notes, an empty registry ends the process with code
    0, and when a row fails to load otherwise than by being missing nothing is done. *)
Theorem all_selects_capable data s verb : settled data s ->
  let names := merge_sort string_le (map fst data) in
  let '(r, s') := _resolve_lifecycle_names [] true verb s in
  only_output s s' /\
  match r with
  | Ok l => data <> [] /\ Forall (skippable s) names /\ l = filter (fun n => capable s n = true) names
  | Err (Exit 0) => data = []
  | Err _ => ~ Forall (skippable s) names
  end.
Proof.
  intros Hs names. unfold _resolve_lifecycle_names, _resolve_names. rewrite bool_decide_eq_false_2 by (intros H0; by apply H0).
  assert (on_api rows_now s = (Ok data, s)) as Hrows.
  { destruct Hs as [Hr Hw _]. unfold on_api, zoom. rewrite (rows_read data _ Hr Hw). by rewrite same_env. }
  unfold mbind at 1, M_bind. rewrite (M_bind_ok _ _ _ _ _ Hrows).
  destruct data as [|row data']; [by rewrite bool_decide_eq_true_2|].
  rewrite bool_decide_eq_false_2 by done. cbn [mret M_ret]. fold names.
  pose proof (keep_capable_wp (row :: data') verb names s s Hs ltac:(done)) as Hk. unfold wp in Hk.
  destruct (keep_capable verb names s) as [[l|e] s']; [naive_solver|]. split; [naive_solver|].
  destruct Hk as (_ & Hk & f & ->). apply Hk.
Qed.

(** ** The guard of [up] *)

(** A redroid row whose configuration has moved to the micro-VM engine is refused by [up]
    with code 1 before anything is touched; [restart] has no such guard and runs the compose
    restart of the instance. *)
Theorem restart_skips_up_guard data s name i :
  settled data s -> backend_now s name = Ok (Redroid i) -> binder (i_cfg i) = binder_vm ->
  (exists s', main (cli_up here [name] false false) s = (ExitCode 1, s') /\ only_output s s') /\
  main (cli_restart here [name] false) s =
    main (say (Step ("restarting " +:+ name)) ;; _ ← on_object i instance_restart;
          say (Status (name +:+ " restarted"))) s.
Proof.
  intros Hs Hd Hv. destruct (backend_row data s name _ Hs Hd) as [_ (m & Hg & _)].
  pose proof (ensure_run data s name m Hs Hg) as He. pose proof (backend_run data s name Hs) as Hb. rewrite Hd in Hb.
  split.
  - unfold main. rewrite up_single. eexists. unfold mbind at 1, M_bind, up_one. rewrite (M_bind_ok _ _ _ _ _ He), (M_bind_ok _ _ _ _ _ Hb).
    unfold _require, up_guard. cbn. rewrite bool_decide_eq_true_2 by done. split; [reflexivity|].
    by repeat split.
  - apply main_cong. rewrite restart_single. unfold restart_one.
    unfold mbind at 1, M_bind. rewrite (M_bind_ok _ _ _ _ _ He), (M_bind_ok _ _ _ _ _ Hb).
    change (_require (Redroid i) Lifecycle_ "restart") with (mret tt : CLM unit).
    cbn [device_restart]. unfold mbind, M_bind. cbn.
    by destruct (on_object i instance_restart _) as [[[[] i']|e] s'].
Qed.

(** ** Exit codes *)

(** [shell] ends with 0 exactly when the command did, with the code of the command when
    that is a byte, and never outside a byte, also for a command killed by a signal. *)
Theorem shell_exit_code data s name d args rc s1 :
  settled data s -> backend_now s name = Ok d -> device_shell d args s = (Ok rc, s1) ->
  main (cli_shell name args) s = (ExitCode (exit_code_of rc), s1) /\
  0 <= exit_code_of rc <= 255 /\ (exit_code_of rc = 0 <-> rc = 0) /\
  (0 <= rc <= 255 -> exit_code_of rc = rc) /\ (-127 <= rc < 0 -> exit_code_of rc = 128 - rc).
Proof.
  intros Hs Hd Hsh. destruct (backend_row data s name _ Hs Hd) as [_ (m & Hg & _)].
  pose proof (ensure_run data s name m Hs Hg) as He. pose proof (backend_run data s name Hs) as Hb. rewrite Hd in Hb.
  split.
  - unfold main, cli_shell. rewrite (M_bind_ok _ _ _ _ _ He), (M_bind_ok _ _ _ _ _ Hb).
    unfold or_error, mbind, M_bind, catch. rewrite Hsh. destruct (Z.eqb_spec rc 0) as [->|]; done.
  - unfold exit_code_of. destruct (Z.ltb_spec rc 0); lia.
Qed.

Lemma say_all_run l s : exists s', say_all l s = (Ok tt, s') /\ only_output s s'.
Proof.
  revert s. induction l as [|x l IH]; intros s; [by exists s|].
  destruct (IH (snd (say x s))) as (s' & Hr & Ho). exists s'. split; [exact Hr|].
  etransitivity; [apply (say_output x)|exact Ho].
Qed.

Lemma fail_count_zero rows : fail_count rows = 0 <-> Forall (fun r => is_failed r.2 = false) rows.
Proof.
  unfold fail_count. induction rows as [|[n r] rows IH]; [done|].
  rewrite filter_cons, Forall_cons. simpl. destruct (is_failed r); simpl; [|naive_solver].
  split; [lia|]. by intros [? _].
Qed.

(** [doctor] ends with the number of failing rows, at most 255; so with 0 exactly when no
    row fails. *)
Theorem doctor_exit_code data s name d rows s1 :
  settled data s -> backend_now s name = Ok d -> provides d HealthCheckable = true ->
  device_health here d s = (Ok rows, s1) ->
  exists s' code, main (doctor here name) s = (ExitCode code, s') /\ only_output s1 s' /\
    code = Z.min (fail_count rows) 255 /\ (code = 0 <-> Forall (fun r => is_failed r.2 = false) rows).
Proof.
  intros Hs Hd Hc Hh. destruct (backend_row data s name _ Hs Hd) as [_ (m & Hg & _)].
  pose proof (ensure_run data s name m Hs Hg) as He. pose proof (backend_run data s name Hs) as Hb. rewrite Hd in Hb.
  destruct (say_all_run (map (fun '(n, r) => Checked n r) rows) s1) as (s' & Hsay & Ho).
  exists s', (Z.min (fail_count rows) 255).
  assert (0 <= fail_count rows) by (unfold fail_count; lia).
  split_and!; [|done|done|rewrite <- fail_count_zero; lia].
  unfold main, doctor. rewrite (M_bind_ok _ _ _ _ _ He), (M_bind_ok _ _ _ _ _ Hb).
  unfold _require. rewrite Hc. unfold mbind, M_bind at 1, lift. cbn. unfold M_bind. rewrite Hh, Hsay.
  destruct (Z.ltb_spec 0 (fail_count rows)); [done|]. by replace (fail_count rows) with 0 by lia.
Qed.

End verbs.
