(* ===== verification/CliVerbs.v ===== *)
(** * Creating, adopting, listing and destroying from the command line

    Facts over [Cli]: the default names of adopted devices, the source of
    [create --from-data], what a successful [destroy] leaves, what [ls] and [destroy] see of
    rows whose directory is gone, and the errors of a device that no clause catches. *)
From stdpp Require Import base list strings gmap sorting relations.
From Stdlib Require Import ZArith QArith Lia Ascii.
From S2P Require Import Prelude PyStr Config Ports Registry RegistryOps Qemu BootCache VmBackend Survey HostFs Paths Compose Download ModulesDownload FridaDownload RootfsDownload Snapshot SnapshotOps Api ApiInv ApiOps ApiPeers ApiSpecs ApiVerbs Shell Adb Health VmOps Backends CliBase Cli CliOps.
Local Open Scope stdpp_scope.
Local Open Scope Z_scope.

(** ** Default names of adopted devices *)

Lemma collapse_chars b l : Forall (fun c => instance_name_char c = true) (collapse b l).
Proof.
  revert b. induction l as [|c l IH]; intros b; [done|]. simpl.
  destruct (kept_char c) eqn:Hc; [|destruct b; [done|by constructor]].
  constructor; [|done]. unfold instance_name_char. unfold kept_char in Hc. by rewrite Hc.
Qed.

Lemma rstrip_prefix l : rstrip_hyphens l `prefix_of` l.
Proof.
  induction l as [|c l IH]; [done|]. simpl. destruct (rstrip_hyphens l) as [|c' r] eqn:Hr.
  - case_decide; [by eexists|by exists l].
  - destruct IH as [k ->]. by exists k.
Qed.

Lemma rstrip_last l : last (rstrip_hyphens l) <> Some "-"%char.
Proof.
  induction l as [|c l IH]; [done|]. simpl. destruct (rstrip_hyphens l) as [|c' r] eqn:Hr.
  - case_decide; [done|]. simpl. congruence.
  - exact IH.
Qed.

Lemma string_length_list l : String.length (String.string_of_list_ascii l) = length l.
Proof. induction l as [|c l IH]; [done|]. simpl. by rewrite IH. Qed.

(** The name derived from a serial is accepted by the grammar of instance names whatever
    the serial is; it has at most 24 characters, starts with [adb] and ends with no hyphen. *)
Theorem adopt_default_name_valid serial :
  plus_full instance_name_char (_adopt_default_name serial) = true /\
  (String.length (_adopt_default_name serial) <= 24)%nat /\
  starts_with "adb" (_adopt_default_name serial) = true /\
  last (chars (_adopt_default_name serial)) <> Some "-"%char.
Proof.
  unfold _adopt_default_name. set (l := chars "adb-" ++ collapse false (chars (lower serial))).
  set (r := rstrip_hyphens (take 24 l)).
  assert (r `prefix_of` take 24 l) as Hpre by apply rstrip_prefix.
  assert (exists r', r = chars "adb" ++ r') as [r' Hr].
  { unfold r, l. change (chars "adb-") with ["a"%char; "d"%char; "b"%char; "-"%char]. simpl.
    destruct (rstrip_hyphens (take 20 _)) as [|c r'] eqn:Hs; [by exists []|by eexists]. }
  assert (String.eqb (of_chars r) "" = false) as Hne by (by rewrite Hr).
  unfold or_else. rewrite Hne, chars_of_chars. split_and!.
  - unfold plus_full. rewrite Hne. unfold all_chars. rewrite chars_of_chars. apply forallb_forall.
    intros c Hc%list_elem_of_In. assert (c ∈ l) as Hl.
    { destruct Hpre as [k Hk]. apply (elem_of_subseteq (take 24 l) l). { intros x Hx. eapply elem_of_take in Hx as (?&?&?). by eapply list_elem_of_lookup_2. }
      rewrite Hk. apply elem_of_app. by left. }
    unfold l in Hl. apply elem_of_app in Hl as [Hl|Hl].
    + revert Hl. change (chars "adb-") with ["a"%char; "d"%char; "b"%char; "-"%char].
      rewrite !elem_of_cons. intros [->|[->|[->|[->|Hl]]]]; try done. by apply elem_of_nil in Hl.
    + pose proof (collapse_chars false (chars (lower serial))) as Hall. rewrite Forall_forall in Hall. by apply Hall.
  - unfold of_chars. rewrite string_length_list. apply prefix_length in Hpre. rewrite length_take in Hpre. lia.
  - rewrite Hr. cbn. by destruct r'.
  - apply rstrip_last.
Qed.

Section verbs.
Context `{P : Pydantic} `{L : !PydanticLaws P} {X : Externals} {Y : Layout} `{YL : !LayoutLaws Y} {W : Web} `{WL : !WebLaws W} {H : FridaHost} {Z' : Lzma} `{D : Docker} `{DL : !DockerLaws D} {U : Dumper}.
Context `{os : OS} `{OL : !OSLaws os} {T : Tools} {Q : Guest} {A : Adb} {N : Sockets} {G : Plugins} {V : PluginOps}.
Variable here : surroundings.
Variable now : datetime.
Abbreviation RegistryFile := (list (string * InstanceMeta)).
Implicit Types (data : RegistryFile) (s : cli).

Definition cli_fs s : HostFs.fs := w_fs (c_env s).
Definition set_tree (f : HostFs.fs) s : cli := set_env (set_fs f (c_env s)) s.

(** A call on the tree. *)
Lemma tree_run {B} (m : M HostFs.fs os_error B) s r f : m (cli_fs s) = (r, f) ->
  on_api (on_tree m) s =
    (match r with Ok a => Ok a | Err e => Err (OfApi (Snap (OsErr e))) end, set_tree f s).
Proof.
  unfold cli_fs, w_fs, on_api, on_tree, on_host, on_fs, zoom. intros ->. by destruct r.
Qed.

Lemma set_tree_same s : set_tree (cli_fs s) s = s.
Proof. by destruct s as [[[[? ?] ? ? ? ? ? ?] ?] ? ? ? ? ?]. Qed.

Lemma valid_name_run name s : plus_full instance_name_char name = true ->
  or_error is_value (on_api (on_host (lift (_validate_instance_name name)))) s = (Ok tt, s).
Proof.
  intros Hn. unfold _validate_instance_name, or_error, catch, on_api, on_host, zoom, lift. rewrite Hn. simpl.
  by destruct s as [[[[? ?] ? ? ? ? ? ?] ?] ? ? ? ? ?].
Qed.

Lemma is_dir_there s p : cli_fs s !! p = Some DirN -> node_at (cli_fs s) p = Some DirN.
Proof. by destruct p. Qed.

(** The copy of a source that lies in the directory it replaces. *)
Lemma copy_deletes s src target : (forall f, remains f (instance_data target) = []) ->
  fs_wf (cli_fs s) -> node_at (cli_fs s) src = Some DirN -> instance_data target `prefix_of` src ->
  wp (copy_from_data src target) (fun _ _ => False)
    (fun e s' => e = Exit 1 /\ cli_fs s' = rmtree (instance_data target) (cli_fs s) /\ w_reg (c_env s') = w_reg (c_env s)) s.
Proof.
  intros Hrm Hf Hsrc [k ->]. assert (node_at (cli_fs s) (instance_data target) = Some DirN) as Hdata.
  { destruct k as [|c k]; [by rewrite app_nil_r in Hsrc|].
    rewrite <- (take_app_length (instance_data target) (c :: k)). apply wf_parents; [done|by eexists|].
    rewrite length_app. simpl. lia. }
  assert (node_at (cli_fs s) target = Some DirN) as Ht.
  { pose proof (wf_parents (cli_fs s) (instance_data target) (length target) Hf) as Hp. unfold instance_data in *.
    rewrite take_app_length in Hp. apply Hp; [by eexists|]. rewrite length_app. simpl. lia. }
  unfold copy_from_data. apply wp_bind, wp_gets. fold (cli_fs s). rewrite bool_decide_eq_true_2 by done.
  apply wp_bind, wp_ret, wp_bind. unfold wp at 1.
  rewrite (tree_run _ s (Ok tt) (cli_fs s)) by (by apply mkdir_p_there). rewrite set_tree_same.
  unfold or_error. apply wp_catch, wp_bind, wp_gets. fold (cli_fs s). unfold exists_at.
  rewrite bool_decide_eq_true_2 by (by rewrite Hdata). apply wp_bind. unfold wp at 1.
  rewrite (tree_run _ s (Ok tt) (rmtree (instance_data target) (cli_fs s))) by (unfold rmtree_at; by rewrite Hdata, Hrm).
  set (s1 := set_tree _ s). apply wp_bind, wp_modify.
  match goal with |- wp _ _ _ ?x => set (s2 := x) end.
  assert (cli_fs s2 = rmtree (instance_data target) (cli_fs s)) as Hfs by done.
  assert (node_at (cli_fs s2) (instance_data target ++ k) = None) as Hgone.
  { rewrite node_at_cons by (unfold instance_data; by destruct target). rewrite Hfs, lookup_rmtree, decide_True; [done|by eexists]. }
  unfold wp at 1. rewrite (tree_run _ s2 (Err NoSuchFile) (cli_fs s2)) by (unfold copytree; by rewrite Hgone).
  rewrite set_tree_same. done.
Qed.

(** [create --from-data] deletes a source that is the data directory of its own target, or
    lies in it: the directory is removed to make room for the copy before the copy is tried.
    The verb ends with code 1, registers nothing, and nothing is left below the directory. *)
Theorem create_deletes_its_source data s name p d :
  settled data s -> fs_wf (cli_fs s) -> plus_full instance_name_char name = true -> Dict.get name data = None ->
  let target := resolve cwd (default name p) in
  node_at (cli_fs s) (instance_yaml target) = None ->
  node_at (cli_fs s) (resolve cwd d) = Some DirN -> instance_data target `prefix_of` resolve cwd d ->
  (forall f, remains f (instance_data target) = []) ->
  exists s', main (cli_create here now name p (Some d) None None) s = (ExitCode 1, s') /\
    w_reg (c_env s') = w_reg (c_env s) /\
    forall q, cli_fs s' !! q = if decide (instance_data target `prefix_of` q) then None else cli_fs s !! q.
Proof.
  intros Hs Hf Hn Hg target Hy Hsrc Hpre Hrm.
  enough (wp (cli_create here now name p (Some d) None None) (fun _ _ => False) (fun e s' => e = Exit 1 /\
    cli_fs s' = rmtree (instance_data target) (cli_fs s) /\ w_reg (c_env s') = w_reg (c_env s)) s) as Hw.
  { unfold wp in Hw. unfold main. destruct (cli_create _ _ _ _ _ _ _ s) as [[[]|e] s']; [done|].
    destruct Hw as (-> & Hfs & Hr). exists s'. split_and!; [done..|]. intros q. by rewrite Hfs, lookup_rmtree. }
  unfold cli_create. apply wp_bind. unfold wp at 1. rewrite valid_name_run by done.
  apply wp_bind, wp_ret, wp_bind, wp_ret, wp_bind. unfold wp at 1. rewrite (row_known_run data s name Hs), Hg.
  rewrite bool_decide_eq_false_2 by (by intros []). apply wp_bind, wp_ret, wp_bind, wp_gets.
  fold target. fold (cli_fs s). unfold exists_at. rewrite bool_decide_eq_false_2 by (rewrite Hy; naive_solver).
  apply wp_bind, wp_ret, wp_bind. eapply wp_mono; [by apply copy_deletes|done|done].
Qed.

(** ** Destroying *)

Lemma yaml_found root (name : string) w cfg w' :
  catch (on_host (load_yaml (instance_yaml root))) (fun e =>
    match e with Snap (ConfigFileErr NoSuchFile) => raise (OrphanRow name root) | _ => raise e end) w = (Ok cfg, w') ->
  exists text, node_at (w_fs w) (instance_yaml root) = Some (FileN text).
Proof.
  unfold catch. rewrite load_read.
  destruct (load_yaml (instance_yaml root) (base w)) as [[c|e] h] eqn:Hy; cbn.
  - intros _. apply load_yaml_ok in Hy as (_ & text & Hn & _). by exists text.
  - by repeat case_match.
Qed.

(** An object of the package with a directory was made from the row, and its configuration is
    there. *)
Lemma directory_now data s (name : string) d : settled data s -> backend_now s name = Ok d ->
  match d with
  | Redroid i => i_name i = name /\ exists m p sp text, Dict.get name data = Some m /\
      backend m = RedroidBackendConfig p sp /\ i_root i = resolve cwd p /\
      node_at (cli_fs s) (instance_yaml (i_root i)) = Some (FileN text)
  | VmKind v => v_name v = name /\ exists m p text, Dict.get name data = Some m /\
      backend m = VmBackendConfig p /\ v_root v = resolve cwd p /\
      node_at (cli_fs s) (instance_yaml (v_root v)) = Some (FileN text)
  | _ => True
  end.
Proof.
  intros [Hr Hw Hl] Hd. unfold backend_now in Hd. rewrite fleet_parts, (resolve_run data _ Hr Hw name _ Hl) in Hd.
  destruct (Dict.get name data) as [m|]; [|done]. destruct (asked_class _ (backend m)) as [c|]; [|done].
  destruct (hydrate c name (backend m) _) as [r s'] eqn:Hh. simpl in Hd. subst r.
  destruct c as [| | |id fm]; unfold hydrate in Hh.
  - run_bind Hh i s1 H1. injection Hh as <- _. unfold in_env, zoom in H1. cbn [f_env] in H1.
    destruct (Api.from_meta name (backend m) (c_env s)) as [[i'|e] w1] eqn:Hi; [|done]. injection H1 as <- _.
    unfold Api.from_meta in Hi. destruct (backend m) as [p sp|sr|p|cl k fl|k raw] eqn:Hb; try done.
    run_bind Hi cfg w2 H2. injection Hi as <- _. apply yaml_found in H2 as [text Hn].
    split; [done|]. by exists m, p, sp, text.
  - destruct (backend m); try done. run_bind Hh m' s1 H1.
    destruct (from_meta_row _ _ _) as [[]|]; [|done..]. by injection Hh as <- _.
  - run_bind Hh v s1 H1. injection Hh as <- _. unfold in_env, zoom in H1. cbn [f_env] in H1.
    destruct (vm_from_meta name (backend m) (c_env s)) as [[v'|e] w1] eqn:Hi; [|done]. injection H1 as <- _.
    unfold vm_from_meta in Hi. destruct (backend m) as [p sp|sr|p|cl k fl|k raw] eqn:Hb; try done.
    run_bind Hi m' w2 H2. rewrite (row_read data _ Hr Hw) in H2. injection H2 as <- <-.
    destruct (Dict.get name data) as [m'|]; [|done].
    run_bind Hi cfg w3 H3. injection Hi as <- _. apply yaml_found in H3 as [text Hn].
    split; [done|]. by exists m, p, text.
  - destruct (plugin_accepts id name (backend m)); [|done]. by injection Hh as <- _.
Qed.

(** The row and everything at and below the directory are gone; the other rows stay. *)
Definition gone data (name : string) (root : path) s : Prop :=
  holds (Dict.pop name data) (w_reg (c_env s)) /\ forall q, root `prefix_of` q -> cli_fs s !! q = None.
(** The row is gone, but of the directory there is what could not be removed. *)
Definition half_gone data (name : string) (root : path) s : Prop :=
  holds (Dict.pop name data) (w_reg (c_env s)) /\ node_at (cli_fs s) root = Some DirN /\
  exists g l, l <> [] /\ remains g root = l /\ cli_fs s = rmtree_partly l root g.
(** What [destroy] leaves when it fails: the row and its directory, or neither whole. *)
Definition kept_or_half data (name : string) (root : path) s s' : Prop :=
  (holds data (w_reg (c_env s')) /\
   (node_at (cli_fs s) root = Some DirN -> node_at (cli_fs s') root = Some DirN)) \/
  half_gone data name root s'.
Definition empty_below (root : path) s : Prop := forall q, root `prefix_of` q -> cli_fs s !! q = None.

Lemma settled_env data s s' :
  settled data s -> w_reg (c_env s') = w_reg (c_env s) -> f_backends (c_fleet s') = f_backends (c_fleet s) ->
  settled data s'.
Proof. intros [? ? ?] Hr Hb. split; congruence. Qed.

Lemma settled_holds data s : settled data s -> holds data (w_reg (c_env s)).
Proof. intros [? ? ?]. by right. Qed.

Lemma file_below_dir s root c text : fs_wf (cli_fs s) -> node_at (cli_fs s) (root ++ [c]) = Some (FileN text) ->
  node_at (cli_fs s) root = Some DirN.
Proof.
  intros Hf Hn. rewrite node_at_snoc in Hn. destruct (Hf _ _ Hn) as (_ & Hd & _). by rewrite parent_snoc in Hd.
Qed.

Lemma remove_wp data s (name : string) :
  holds data (w_reg (c_env s)) -> file_wf data ->
  wp (on_api (on_host (on_reg (remove name)))) (fun _ s' => holds (Dict.pop name data) (w_reg (c_env s')) /\ cli_fs s' = cli_fs s)
    (fun _ _ => False) s.
Proof.
  intros Hr Hd. destruct (remove_run name data _ Hr Hd) as (r & Hrm & Hr').
  apply wp_zoom. by rewrite on_rows_run, Hrm.
Qed.

Lemma rmtree_wp data (name : string) s root :
  node_at (cli_fs s) root = Some DirN -> holds (Dict.pop name data) (w_reg (c_env s)) ->
  wp (on_api (on_tree (rmtree_at root))) (fun _ s' => gone data name root s')
    (fun e s' => e <> Exit 0 /\ half_gone data name root s') s.
Proof.
  intros Hn Hh. destruct (rmtree_at_run root (cli_fs s) Hn) as (r & f & Hrun & Hrm).
  unfold wp. rewrite (tree_run _ s r f Hrun). destruct r as [[]|e].
  - split; [exact Hh|]. intros q Hq. change (f !! q = None). by rewrite Hrm, lookup_rmtree, decide_True.
  - destruct Hrm as (-> & l & Hl & Hrem & Hf). split; [done|]. split; [exact Hh|].
    split; [change (node_at f root = Some DirN); by rewrite Hf, rmtree_partly_root|].
    by exists (cli_fs s), l.
Qed.

(** [destroy] of a row whose backend could not be built. *)
Lemma orphan_wp data s (name : string) m p : settled data s -> Dict.get name data = Some m -> directory_of (backend m) = Some p ->
  node_at (cli_fs s) (resolve cwd p) = Some DirN \/ (node_at (cli_fs s) (resolve cwd p) = None /\ empty_below (resolve cwd p) s) ->
  wp (destroy_orphan name true) (fun _ s' => gone data name (resolve cwd p) s')
    (fun e s' => e <> Exit 0 /\ kept_or_half data name (resolve cwd p) s s') s.
Proof.
  intros Hs Hg Hp Hroot. set (root := resolve cwd p) in *. pose proof (settled_holds data s Hs) as Hh. destruct Hs as [Hr Hw Hl].
  unfold destroy_orphan. apply wp_bind. unfold wp at 1. rewrite (row_known_run data s name) by done. rewrite Hg, Hp.
  apply wp_bind, wp_ret. cbn [negb].
  assert (on_api (on_host (on_reg (instance_path name))) s = (Ok p, s)) as Hpath.
  { unfold on_api, zoom. rewrite (on_reg_read _ _ p); [by rewrite same_env|].
    unfold instance_path, Registry.get, mbind, M_bind. rewrite (list_written _ _ Hr Hw). rewrite Hg.
    unfold directory_of in Hp. cbn. destruct (backend m); by simplify_eq. }
  apply wp_bind. unfold wp at 1. rewrite Hpath. fold root. apply wp_bind, wp_gets. fold (cli_fs s). unfold exists_at.
  destruct Hroot as [Hdir|[Hno Hempty]].
  - rewrite bool_decide_eq_true_2 by (by rewrite Hdir). apply wp_bind.
    eapply (wp_mono _ (fun _ s' => gone data name root s')); [|intros _ s' Hgone; apply wp_modify, Hgone|intros e s' He; exact He].
    assert (forall s1, node_at (cli_fs s1) root = Some DirN -> holds data (w_reg (c_env s1)) ->
      wp (on_api (on_host (on_reg (remove name))) ;; on_api (on_tree (rmtree_at root)))
        (fun _ s' => gone data name root s')
        (fun e s' => e <> Exit 0 /\ kept_or_half data name root s s') s1) as Htail.
    { intros s1 Hd1 Hh1. apply wp_bind. eapply wp_mono; [by apply (remove_wp data)| |done].
      intros _ s2 [Hr2 Hf2]. eapply wp_mono; [by apply (rmtree_wp data name); [rewrite Hf2|]|done|].
      intros e s3 [He Hh3]. split; [done|by right]. }
    apply wp_bind. destruct (is_vm_row (backend m)).
    + apply wp_bind. destruct (terminate_run OL None (vm_host (c_vms s root))) as (b & h' & l & Ht & _).
      apply wp_zoom. unfold in_host. rewrite Ht. by apply wp_ret, Htail.
    + apply wp_catch, wp_zoom. pose proof (docker_calm root _ (down_guard root name true) (c_env s)) as Hc.
      destruct (on_docker (Compose.down name root true) (c_env s)) as [[u|e] w1]; destruct Hc as [[_ Hd] Hr1]; simpl in Hd, Hr1.
      * apply Htail; [by apply Hd|]. change (holds data (w_reg w1)). by rewrite Hr1.
      * change (OfFleet (FApi e)) with (OfApi e). destruct (is_compose_error (OfApi e)).
        -- apply wp_modify. apply Htail; [by apply Hd|]. change (holds data (w_reg w1)). by rewrite Hr1.
        -- apply wp_raise. split; [done|]. left.
           split; [change (holds data (w_reg w1)); by rewrite Hr1|exact Hd].
  - rewrite bool_decide_eq_false_2 by (rewrite Hno; naive_solver). apply wp_bind, wp_bind, wp_modify.
    eapply wp_mono; [by apply (remove_wp data)| |done]. intros _ s' [Hr' Hf']. apply wp_modify. split; [done|].
    intros q Hq. change (cli_fs s' !! q = None). rewrite Hf'. by apply Hempty.
Qed.

(** A device that fails to be destroyed keeps its row and its directory, or has lost the row
    and some of the directory. *)
Lemma device_destroy_wp data s (name : string) m p d :
  settled data s -> fs_wf (cli_fs s) -> Dict.get name data = Some m -> directory_of (backend m) = Some p ->
  backend_now s name = Ok d -> (forall id n k, d <> Plugin id n k) ->
  wp (device_destroy d) (fun _ s' => gone data name (resolve cwd p) s')
    (fun e s' => if is_compose_error e then gone data name (resolve cwd p) s'
                 else e <> Exit 0 /\
                   (settled data s' /\
                    (provides d Lifecycle_ = true -> node_at (cli_fs s') (resolve cwd p) = Some DirN) \/
                    is_not_found e = false /\ half_gone data name (resolve cwd p) s')) s.
Proof.
  intros Hs Hf Hg Hp Hd Hplug. pose proof (directory_now data s name d Hs Hd) as Hdir.
  pose proof (settled_holds data s Hs) as Hh. assert (file_wf data) as Hw by apply Hs.
  destruct d as [i|a|v|id n k]; [..|by destruct (Hplug id n k)]; cbn [device_destroy].
  - destruct Hdir as (Hn & m' & p' & sp & text & Hg' & Hb & Hroot & Hy). rewrite Hg in Hg'. injection Hg' as <-.
    rewrite Hb in Hp. injection Hp as ->. pose proof (file_below_dir s _ _ _ Hf Hy) as Hr.
    apply wp_bind. unfold wp, on_object.
    pose proof (destroy_cases i data (c_env s) Hh Hw Hr) as Hc. cbv zeta in Hc. rewrite Hn, Hroot in Hc.
    destruct (destroy true (mkObj i (c_env s))) as [r o]. cbn [fst snd] in Hc.
    destruct Hc as [(H1 & [[[_ H2] H3]|[(_ & H2 & H3) ->]])|([[_ H2] H3] & e & -> & He)].
    2: { cbn [OfApi is_compose_error not_removed]. split; [done|]. right. split; [done|]. by split_and!. }
    + destruct r as [u|e]; [by split|]. destruct H3 as [|(c & [= ->] & Hce)]; [done|].
      unfold OfApi, is_compose_error. rewrite Hce. by split.
    + destruct (is_compose_error (OfApi e)) eqn:Hce.
      * destruct He. unfold is_compose_error, OfApi in Hce. destruct e; try done. by eexists.
      * split; [done|]. left. split; [by apply (settled_env data s)|]. intros _. apply H2. by rewrite <- Hroot.
  - apply wp_raise. cbn [is_compose_error]. split; [done|]. by left.
  - destruct Hdir as (Hn & m' & p' & text & Hg' & Hb & Hroot & Hy). rewrite Hg in Hg'. injection Hg' as <-.
    rewrite Hb in Hp. injection Hp as ->. pose proof (file_below_dir s _ _ _ Hf Hy) as Hr.
    apply wp_bind. unfold wp, on_vm_device.
    pose proof (vm_destroy_wp data v (c_env s) (vm_host (c_vms s (v_root v))) (c_calls s) Hh Hw (or_introl Hr)) as Hc.
    unfold wp in Hc. destruct (vm_destroy true _) as [[[]|e] o].
    + destruct Hc as (H1 & _ & H2). rewrite Hn in H1. split; [exact H1|]. intros q Hq.
      change (w_fs (v_env o) !! q = None). rewrite H2, decide_True; [done|]. split; [exact Hr|by rewrite Hroot].
    + cbn [is_compose_error]. split; [done|].
      destruct Hc as [(H1 & H2 & _)|(-> & H1 & _ & _ & H2 & H3)]; [left|right].
      * split; [by apply (settled_env data s)|].
        intros _. change (node_at (w_fs (v_env o)) (resolve cwd p) = Some DirN). by rewrite H1, <- Hroot.
      * split; [done|]. rewrite Hn in H1. rewrite Hroot in H2, H3. by split_and!.
Qed.

(** C5. [destroy --yes] of an instance with a directory, whether its backend could be built or
    not, ends in one of three ways.  After exit code 0 the row is gone and nothing is left at
    or below the directory.  Otherwise the registry still has the row, and the directory is
    still there if it was — a failure never removes the directory and keeps the row — or,
    when some of the directory could not be removed, the row is gone, which comes first, and
    the directory holds exactly what could not be removed. *)
Theorem destroy_ends_clean data s name m p :
  settled data s -> fs_wf (cli_fs s) -> Dict.get name data = Some m -> directory_of (backend m) = Some p ->
  (forall id n k, backend_now s name <> Ok (Plugin id n k)) ->
  (forall c, node_at (cli_fs s) (resolve cwd p) <> Some (FileN c)) ->
  let '(e, s') := main (cli_destroy name true) s in
  let root := resolve cwd p in
  (e = ExitCode 0 /\ gone data name root s') \/
  (e <> ExitCode 0 /\ holds data (w_reg (c_env s')) /\
     (node_at (cli_fs s) root = Some DirN -> node_at (cli_fs s') root = Some DirN)) \/
  (e <> ExitCode 0 /\ half_gone data name root s').
Proof.
  intros Hs Hf Hg Hp Hplug Hroot.
  assert (node_at (cli_fs s) (resolve cwd p) = Some DirN \/
          (node_at (cli_fs s) (resolve cwd p) = None /\ empty_below (resolve cwd p) s)) as Hroot'.
  { destruct (node_at (cli_fs s) (resolve cwd p)) as [[|c]|] eqn:Hn; [by left|by destruct (Hroot c)|right].
    split; [done|]. intros q Hq. by apply (wf_below _ (resolve cwd p)). }
  enough (wp (cli_destroy name true) (fun _ s' => gone data name (resolve cwd p) s')
    (fun e s' => e <> Exit 0 /\ kept_or_half data name (resolve cwd p) s s') s) as Hw.
  { unfold wp in Hw. unfold main. destruct (cli_destroy name true s) as [[u|e] s']; [by left|]. destruct Hw as [He Hh].
    assert (forall x : Cli.ending, x <> ExitCode 0 -> (x <> ExitCode 0 /\ holds data (w_reg (c_env s')) /\
       (node_at (cli_fs s) (resolve cwd p) = Some DirN -> node_at (cli_fs s') (resolve cwd p) = Some DirN)) \/
      (x <> ExitCode 0 /\ half_gone data name (resolve cwd p) s')) as Hx
      by (intros x Hx; destruct Hh as [[H1 H2]|H1]; [by left|by right]).
    destruct e as [code| | | | | | | | | |]; cbn [class_of]; repeat case_match; simplify_eq; right; apply Hx;
      try done; intros [= ->]; by apply He. }
  unfold cli_destroy. apply wp_bind. unfold wp at 1. rewrite (ensure_run data s name m Hs Hg).
  apply wp_bind. unfold destroy_resolved. apply wp_catch, wp_bind. unfold wp at 1. rewrite (backend_run data s name Hs).
  destruct (backend_now s name) as [d|e] eqn:Hd.
  - apply wp_bind. unfold _require. destruct (provides d Lifecycle_) eqn:Hcap; cbn [negb raise_if].
    + apply wp_lift; [intros [] _|done]. apply wp_bind, wp_ret. cbn [negb]. apply wp_bind, wp_modify.
      match goal with |- wp _ _ _ ?x => set (s1 := x) end.
      assert (settled data s1) as Hs1 by (by apply (settled_env data s)).
      apply wp_bind, wp_catch.
      eapply wp_mono; [apply (device_destroy_wp data s1 name m p d); try done| |].
      * intros id n k ->. by apply (Hplug id n k).
      * intros u s2 Hgone. apply wp_bind, wp_modify, wp_ret. exact Hgone.
      * intros e s2 He. cbv beta in He. destruct (is_compose_error e) eqn:Hce.
        -- apply wp_modify, wp_bind, wp_modify, wp_ret. exact He.
        -- destruct He as [Hne He]. apply wp_raise. destruct (is_not_found e) eqn:Hnf.
           ++ apply wp_ret. destruct He as [[Hs2 Hdir]|[? _]]; [|done].
              eapply wp_mono; [apply (orphan_wp data s2 name m p); try done; left; by apply Hdir|done|].
              intros e2 s3 [H1 [[H2 H3]|H2]]; (split; [done|]); [left|by right].
              split; [done|]. intros _. by apply H3, Hdir.
           ++ apply wp_raise. split; [done|]. destruct He as [[Hs2 Hdir]|[_ Hh]]; [left|by right].
              split; [by apply settled_holds|]. intros _. by apply Hdir.
    + apply wp_lift; [done|]. intros ? [= <-]. apply wp_raise. split; [done|]. left. split; [by apply settled_holds|done].
  - destruct (is_not_found (OfFleet e)); [|apply wp_raise; split; [done|]; left; split; [by apply settled_holds|done]].
    apply wp_ret. by apply (orphan_wp data s name m p).
Qed.

(** ** Listing *)

Lemma ls_rows_run data s : settled data s ->
  _ls_rows s = (Ok (omap (fun d => (fun m => (device_name d, m, d)) <$> Dict.get (device_name d) data)
    (omap (resolved_device (c_env s) (f_backends (c_fleet s))) (merge_sort string_le (map fst data)))), s).
Proof.
  intros [Hr Hw Hl]. unfold _ls_rows.
  assert (on_api rows_now s = (Ok data, s)) as Hrows.
  { unfold on_api, zoom. by rewrite (rows_read data _ Hr Hw), same_env. }
  assert (on_fleet manager_all s = (Ok (omap (resolved_device (c_env s) (f_backends (c_fleet s)))
    (merge_sort string_le (map fst data))), s)) as Hall.
  { unfold on_fleet, zoom. rewrite fleet_parts, (all_run data _ Hr Hw), (resolvable_run data _ Hr Hw) by done.
    by rewrite <- fleet_parts, same_fleet. }
  by rewrite (M_bind_ok _ _ _ _ _ Hrows), (M_bind_ok _ _ _ _ _ Hall).
Qed.

Lemma orphans_listed data s : settled data s ->
  on_api list_orphans s = (Ok (merge_sort string_le (omap (orphan_of (c_env s)) data)), s).
Proof.
  intros [Hr Hw _]. unfold on_api, zoom, list_orphans. rewrite (M_bind_ok _ _ _ _ _ (rows_read data _ Hr Hw)).
  unfold mbind, M_bind. rewrite orphans_run. cbn [mret M_ret]. by rewrite same_env.
Qed.

(** The row of a micro-VM whose configuration is gone is in neither half of what [ls]
    shows: not among the rows, which skip what does not resolve, nor among the orphans of the
    advisory, which are redroid rows. *)
Theorem vm_orphan_not_listed data s name m p :
  settled data s -> Dict.get name data = Some m -> backend m = VmBackendConfig p ->
  Dict.get "vm" (_BACKEND_REGISTRY (f_backends (c_fleet s))) = Some VmDeviceClass ->
  node_at (cli_fs s) (instance_yaml (resolve cwd p)) = None ->
  exists rows orphans, _ls_rows s = (Ok rows, s) /\ on_api list_orphans s = (Ok orphans, s) /\
    name ∉ map (fun r => r.1.1) rows /\ name ∉ orphans.
Proof.
  intros Hs Hg Hb Hc Hy. pose proof Hs as [Hr Hw Hl]. do 2 eexists.
  split_and!; [by apply ls_rows_run|by apply orphans_listed| |].
  - intros ([[n m'] d] & Hn & Hin)%list_elem_of_fmap. simpl in Hn. subst n.
    apply list_elem_of_omap in Hin as (d' & Hd' & Hsome).
    destruct (Dict.get (device_name d') data) as [m0|] eqn:Hg'; [|done]. simpl in Hsome. injection Hsome as Hn _ ->.
    apply list_elem_of_omap in Hd' as (n & _ & Hres). unfold resolved_device in Hres.
    rewrite <- fleet_parts in Hres. fold (backend_now s n) in Hres. destruct (backend_now s n) as [d0|e] eqn:Hnow; [|done].
    injection Hres as ->. destruct (backend_row data s n d Hs Hnow) as [Hdn _].
    assert (n = name) as -> by congruence. unfold backend_now in Hnow.
    rewrite fleet_parts, (resolve_run data _ Hr Hw name _ Hl), Hg in Hnow. unfold asked_class in Hnow.
    rewrite Hb in Hnow. cbn [backend_kind] in Hnow. rewrite Hc in Hnow. unfold hydrate in Hnow.
    destruct (vm_from_meta name (VmBackendConfig p) (c_env s)) as [[v|e] w1] eqn:Hv;
      [|unfold in_env, zoom, mbind, M_bind in Hnow; cbn [f_env] in Hnow; by rewrite Hv in Hnow].
    unfold vm_from_meta in Hv. run_bind Hv m1 w2 H2. rewrite (row_read data _ Hr Hw), Hg in H2. injection H2 as <- <-.
    run_bind Hv cfg w3 H3. apply yaml_found in H3 as [text Hn3]. unfold cli_fs in Hy. congruence.
  - rewrite merge_sort_Permutation. intros ([n m'] & Hin & Ho)%list_elem_of_omap. unfold orphan_of in Ho. cbn [fst snd] in Ho.
    destruct (backend m') eqn:Hb'; try done. destruct (instance_of _ _); [done|]. injection Ho as ->.
    apply (Dict.elem_get _ _ _ (proj1 Hw)) in Hin. congruence.
Qed.

(** ** A device that is not there *)

Definition adb_view s : aworld := mkAw (net_of (c_env s)) (c_calls s) (c_pushed s).

Lemma on_adb_err {B} (m : ADM B) s e : fst (m (adb_view s)) = Err e -> exists s', on_adb m s = (Err (OfAdb e), s').
Proof.
  unfold on_adb, zoom, adb_view. destruct (m _) as [[a|e'] w]; [done|]. intros [= ->]. by eexists.
Qed.

(** The first call of [adb] that fails. *)
Lemma adb_fails d argv (k : Z * string * string -> ADM unit) w rc out err :
  adb_run (ran w) ([_ADB; "-s"; a_serial d] ++ argv) = Finished rc out err -> rc <> 0 ->
  fst ((_adb d argv ≫= k) w) = Err (CommandFailed ([_ADB; "-s"; a_serial d] ++ argv) rc (strip err)).
Proof.
  intros Hrun Hrc. unfold mbind, M_bind, _adb, _adb_unchecked, on_procs, zoom, captured. unfold mbind, M_bind.
  rewrite Hrun. cbn. destruct (Z.eqb_spec rc 0); [done|]. done.
Qed.

(** When [adb push] fails, because the device is offline for one, [install-frida] and
    [module] end in a traceback: the exception is a RuntimeError, and the clauses of both
    verbs name ValueError, and of the RuntimeErrors only the missing binary, if any. *)
Theorem failed_push_escapes data s name d rc out err :
  settled data s -> backend_now s name = Ok (AdbKind d) -> adb_found = true -> rc <> 0 ->
  (forall h argv, adb_run h argv = Finished rc out err) ->
  (forall version cached w, download (fuel_lzma here) version None None (net_of (c_env s)) = (Ok cached, w) ->
     exists argv s', main (cli_install_frida here name version) s =
       (Traceback (OfAdb (CommandFailed argv rc (strip err))), s')) /\
  (forall source, exists_at (cli_fs s) (resolve cwd source) = true -> is_file_at (cli_fs s) (resolve cwd source) = true ->
     lower (py_suffix (pure_name source)) = ".zip" ->
     exists argv s', main (cli_module name [source] [] false) s =
       (Traceback (OfAdb (CommandFailed argv rc (strip err))), s')).
Proof.
  intros Hs Hd Hadb Hrc Hrun. destruct (backend_row data s name _ Hs Hd) as [_ (m & Hg & _)].
  pose proof (ensure_run data s name m Hs Hg) as He. pose proof (backend_run data s name Hs) as Hb. rewrite Hd in Hb.
  split.
  - intros version cached w Hdl.
    assert (exists argv, fst (adb_install_frida (fuel_lzma here) d (Some version) (adb_view s)) =
      Err (CommandFailed argv rc (strip err))) as [argv Hi].
    { unfold adb_install_frida, need_adb. rewrite Hadb.
      rewrite (M_bind_ok (lift (Ok version)) _ (adb_view s) version (adb_view s)) by done.
      rewrite (M_bind_ok _ _ (adb_view s) tt (adb_view s)) by done. unfold on_files at 1, zoom.
      unfold mbind at 1, M_bind. cbn [a_net adb_view]. rewrite Hdl. eexists. by eapply adb_fails. }
    destruct (on_adb_err _ s _ Hi) as [s' Ho]. exists argv, s'.
    unfold main, cli_install_frida. rewrite (M_bind_ok _ _ _ _ _ He), (M_bind_ok _ _ _ _ _ Hb).
    unfold or_error, mbind, M_bind, catch. cbn [device_install_frida]. by rewrite Ho.
  - intros source H1 H2 H3.
    assert (exists argv, fst (adb_add_module cwd d source None (adb_view s)) =
      Err (CommandFailed argv rc (strip err))) as [argv Hi].
    { unfold adb_add_module, need_adb. rewrite Hadb.
      rewrite (M_bind_ok _ _ (adb_view s) tt (adb_view s)) by done.
      assert (_validated_zip_source cwd source (adb_view s) = (Ok (pure_path source), adb_view s)) as Hv.
      { unfold _validated_zip_source, mbind, M_bind, gets, lift. unfold adb_view. cbn [a_net nfs net_of].
        change (w_fs (c_env s)) with (cli_fs s). rewrite H1, H2, H3. done. }
      rewrite (M_bind_ok _ _ _ _ _ Hv). eexists. by eapply adb_fails. }
    destruct (on_adb_err _ s _ Hi) as [s' Ho]. exists argv, s'.
    unfold main, cli_module. rewrite (M_bind_ok _ _ _ _ _ He), (M_bind_ok _ _ _ _ _ Hb). cbn [length Nat.ltb Nat.leb head].
    change (_require (AdbKind d) ModuleInstaller "module") with (mret tt : CLM unit).
    unfold or_error, mbind, M_bind, catch. cbn [device_add_module mret M_ret]. by rewrite Ho.
Qed.
End verbs.
