(* ===== verification/BuildBase.v ===== *)
(** * The builder: tools, state and calls ([src/src/beetroot/builder.py])

    What the image builder works with: the tree with the links and modes it makes, the
    external tools and the trace of their calls, the environment, and the file calls of
    [shutil] and [pathlib] it uses. *)
From stdpp Require Import base list strings gmap sorting.
From Stdlib Require Import ZArith Lia Ascii.
From S2P Require Import Prelude PyStr Config Qemu HostFs Paths Download Adb BootCache.
Local Open Scope stdpp_scope.
Local Open Scope Z_scope.

(** ** State *)

(** Links are named by the last component only; a path is in one of the two maps. *)
Record btree := mkTree { t_fs : HostFs.fs; t_links : gmap path string; t_modes : gmap path Z }.

(** A call of an external command, with the tree it found. *)
Inductive event : Type :=
| Ran (argv : list string) (cwd_ : option path) (env_ : list (string * string)) (before : btree) (rc : Z)
| Tried (argv : list string) (rc : Z)
| Captured (argv : list string) (rc : Z)
| Spawned (argv : list string)
| Terminated (argv : list string)                (* SIGTERM sent *)
| Killed (argv : list string)                    (* SIGKILL sent *)
| Stopped (argv : list string)                   (* its end has been waited for *)
| Slept (seconds : Z)
| Locked (p : path)
| Unlocked (p : path).

Record PreflightProblem := mkProblem { requirement : string; detail : string; fix_ : string }.

Inductive bootstrap : Type :=                    (* BootstrapError *)
| CommandFailed_ (argv : list string) (rc : Z)
| DaemonDown
| BadImageSize (raw : string)
| BadImageTag (image : string)
| GuestMarkerMissing (marker : path)
| BundleMismatch (expected actual : string)
| KernelMismatch (expected actual : string)
| DockerdNotReady
| AssetsMissing (dir : string) (names : list string)
| Prerequisites (problems : list PreflightProblem).

Inductive build_error : Type :=
| Bootstrap (why : bootstrap)
| BDl (e : dl_error)
| BOs (e : os_error)
| LinkLoop                                       (* OSError, ELOOP *)
| SameFile_                                      (* shutil.SameFileError, an OSError *)
| BConfig (e : cfg_error)                        (* ValidationError *)
| BNotText                                       (* UnicodeDecodeError *)
| BExit (code : Z).                              (* typer.Exit *)

(** A line of output. *)
Inductive bline : Type :=
| Info (t : string) | Success (t : string) | Warned (t : string)
| FetchMissed (what : string) (e : dl_error)
| Problem (p : PreflightProblem) | Failed_ (t : string) | Reported (t : string).

Record bstate := mkB {
  b_tree : btree; b_compose_cache : option path; b_vm_cache : option path;
  b_requests : nat; b_notes : list dl_note;
  environ : list (string * string); trace : list event; b_out : list bline }.
Abbreviation BM := (M bstate build_error).

Definition b_fs (s : bstate) : HostFs.fs := t_fs (b_tree s).
Definition set_btree (t : btree) (s : bstate) : bstate :=
  mkB t (b_compose_cache s) (b_vm_cache s) (b_requests s) (b_notes s) (environ s) (trace s) (b_out s).
Definition set_bfs (f : HostFs.fs) (s : bstate) : bstate :=
  set_btree (mkTree f (t_links (b_tree s)) (t_modes (b_tree s))) s.
Definition set_environ (e : list (string * string)) (s : bstate) : bstate :=
  mkB (b_tree s) (b_compose_cache s) (b_vm_cache s) (b_requests s) (b_notes s) e (trace s) (b_out s).
Definition record_ (e : event) (s : bstate) : bstate :=
  mkB (b_tree s) (b_compose_cache s) (b_vm_cache s) (b_requests s) (b_notes s) (environ s) (trace s ++ [e]) (b_out s).
Definition tell (l : bline) : BM unit :=
  modify (fun s => mkB (b_tree s) (b_compose_cache s) (b_vm_cache s) (b_requests s) (b_notes s) (environ s)
                     (trace s) (b_out s ++ [l])).

Definition on_bfs {B} (m : M HostFs.fs os_error B) : BM B := zoom b_fs set_bfs BOs m.
Definition on_bnet {B} (m : M net dl_error B) : BM B :=
  zoom (fun s => mkNet (b_fs s) (b_requests s) (b_notes s))
    (fun n s => mkB (mkTree (nfs n) (t_links (b_tree s)) (t_modes (b_tree s))) (b_compose_cache s) (b_vm_cache s)
                  (requests n) (said n) (environ s) (trace s) (b_out s)) BDl m.
Definition on_bassets {B} (m : M assets os_error B) : BM B :=
  zoom (fun s => mkAssets (b_fs s) (b_compose_cache s) (b_vm_cache s))
    (fun a s => mkB (mkTree (a_fs a) (t_links (b_tree s)) (t_modes (b_tree s))) (_BUNDLED_COMPOSE_CACHE a)
                  (_BUNDLED_VM_DIR_CACHE a) (b_requests s) (b_notes s) (environ s) (trace s) (b_out s)) BOs m.

(** [os.environ.get(name)]. *)
Definition getenv (name : string) : BM (option string) := gets (fun s => Dict.get name (environ s)).
Definition getenv_or (name d : string) : BM string := v ← getenv name; mret (default d v).
(** [os.environ.get(name) or None]. *)
Definition getenv_nonempty (name : string) : BM (option string) :=
  v ← getenv name; mret (match v with Some "" => None | _ => v end).

(** ** The outside *)

(** What a command does may depend on the calls before it; [None] when it cannot be spawned,
    and for output that is not text. *)
Class BuildTools := {
  tool_run : list event -> list string -> option path -> list (string * string) -> btree -> option (Z * btree);
  tool_capture : list event -> list string -> btree -> option (Z * option string);
  daemon_responsive : list event -> bool;        (* [docker info] within its deadline *)
  exits_on_term : list event -> list string -> bool; (* [wait] returns within five seconds *)
  on_path : string -> bool;                      (* [shutil.which] *)
  runnable : btree -> path -> bool;              (* [os.access] with [X_OK] *)
  is_root : bool;
  host_machine : string;
  temp_root : path;                              (* [tempfile.gettempdir()] *)
  docker_bin_ : string; build_context_ : string; (* settings *)
  cwd_ : path }.

Section calls.
Context {T : BuildTools}.

Definition at_ (s : string) : path := resolve cwd_ s.

(** [str(Path(a) / rel)]. *)
Definition under (a rel : string) : string :=
  let p := pure_path a in
  if String.eqb p "." then rel else if starts_with "/" (of_chars (rev (chars p))) then p +:+ rel else p +:+ "/" +:+ rel.

(** [DefaultRunner.run] and [DefaultRootfsRunner.run]. *)
Definition run (argv : list string) (dir : option path) (env_ : list (string * string)) : BM unit := fun s =>
  match tool_run (trace s) argv dir env_ (b_tree s) with
  | None => (Err (BOs NoSuchFile), s)
  | Some (rc, t) =>
      let s' := set_btree t (record_ (Ran argv dir env_ (b_tree s) rc) s) in
      if rc =? 0 then (Ok tt, s') else (Err (Bootstrap (CommandFailed_ argv rc)), s')
  end.
Definition run_here (argv : list string) : BM unit := run argv None [].

(** [DefaultRootfsRunner.try_run]. *)
Definition try_run (argv : list string) : BM bool := fun s =>
  match tool_run (trace s) argv None [] (b_tree s) with
  | None => (Err (BOs NoSuchFile), s)
  | Some (rc, t) => (Ok (rc =? 0), set_btree t (record_ (Tried argv rc) s))
  end.

(** [DefaultRootfsRunner.capture]. *)
Definition capture (argv : list string) : BM string := fun s =>
  match tool_capture (trace s) argv (b_tree s) with
  | None => (Err (BOs NoSuchFile), s)
  | Some (rc, out) =>
      let s' := record_ (Captured argv rc) s in
      match out with
      | None => (Err BNotText, s')
      | Some t => if rc =? 0 then (Ok t, s') else (Err (Bootstrap (CommandFailed_ argv rc)), s')
      end
  end.

(** [DefaultRootfsRunner.spawn]; the log is opened first. *)
Definition popen (argv : list string) : BM (list string) := fun s =>
  match tool_run (trace s) argv None [] (b_tree s) with
  | None => (Err (BOs NoSuchFile), s)
  | Some (_, t) => (Ok argv, set_btree t (record_ (Spawned argv) s))
  end.
Definition spawn (argv : list string) (log : path) : BM (list string) :=
  on_bfs (write_file log "") ;; popen argv.
(** [_PopenProcess.stop]: SIGTERM, and SIGKILL to a child that has not ended five seconds
    later; then its end has been waited for, and the log is closed. *)
Definition stop (argv : list string) : BM unit :=
  modify (record_ (Terminated argv)) ;;
  heeds ← gets (fun s => exits_on_term (trace s) argv);
  (if (heeds : bool) then mret tt else modify (record_ (Killed argv))) ;;
  modify (record_ (Stopped argv)).
Definition _sleep (seconds : Z) : BM unit := modify (record_ (Slept seconds)).

(** ** Files *)

(** Where a path leads: at most 40 links in a row. *)
Fixpoint follow (n : nat) (t : btree) (p : path) : option path :=
  match t_links t !! p with
  | None => Some p
  | Some target =>
      match n with
      | O => None
      | S n' => follow n' t (resolve (parent p) target)
      end
  end.
Definition followed (p : path) : BM path := fun s =>
  match follow 40 (b_tree s) p with Some q => (Ok q, s) | None => (Err LinkLoop, s) end.

(** [Path.is_file] and [os.path.isdir]; a loop is neither. *)
Definition is_file_b (t : btree) (p : path) : bool :=
  match follow 40 t p with Some q => is_file_at (t_fs t) q | None => false end.
Definition is_dir_b (t : btree) (p : path) : bool :=
  match follow 40 t p with Some q => is_dir_at (t_fs t) q | None => false end.

Definition read_at (p : path) : BM string := fun s =>
  match read_file p (b_fs s) with Ok c => (Ok c, s) | Err e => (Err (BOs e), s) end.
Definition read_b (p : path) : BM string := q ← followed p; read_at q.

Definition write_b (p : path) (c : string) : BM unit := q ← followed p; on_bfs (write_file q c).

(** [shutil.copy]: the contents and the mode, into the file a link at the destination names. *)
Definition copy (src dst : path) : BM unit :=
  into ← gets (fun s => is_dir_b (b_tree s) dst);
  let dst := if (into : bool) then dst ++ [path_name src] else dst in
  a ← followed src;
  c ← read_b src;
  b ← followed dst;
  lift (raise_if (bool_decide (a = b)) SameFile_) ;;
  on_bfs (write_file b c) ;;
  modify (fun s =>
    let t := b_tree s in
    set_btree (mkTree (t_fs t) (t_links t)
      (match t_modes t !! a with Some m => <[b := m]> (t_modes t) | None => delete b (t_modes t) end)) s).

Definition chmod (p : path) (mode : Z) : BM unit :=
  q ← followed p;
  there ← gets (fun s => exists_at (b_fs s) q);
  lift (raise_if (negb there) (BOs NoSuchFile)) ;;
  modify (fun s => let t := b_tree s in set_btree (mkTree (t_fs t) (t_links t) (<[q := mode]> (t_modes t))) s).

(** [link.unlink(missing_ok=True)] and [link.symlink_to(target)]. *)
Definition _symlink (target : string) (link : path) : BM unit :=
  is_link ← gets (fun s => bool_decide (is_Some (t_links (b_tree s) !! link)));
  (if (is_link : bool)
   then modify (fun s => let t := b_tree s in set_btree (mkTree (t_fs t) (delete link (t_links t)) (t_modes t)) s)
   else on_bfs (unlink_missing_ok link)) ;;
  there ← gets (fun s => exists_at (b_fs s) link);
  lift (raise_if (there : bool) (BOs FileExists)) ;;
  dir ← gets (fun s => node_at (b_fs s) (parent link));
  match dir with
  | Some DirN =>
      modify (fun s => let t := b_tree s in set_btree (mkTree (t_fs t) (<[link := target]> (t_links t)) (t_modes t)) s)
  | Some (FileN _) => raise (BOs NotADirectory)
  | None => raise (BOs NoSuchFile)
  end.

Definition os_failure (e : build_error) : bool :=
  match e with BOs _ | LinkLoop | SameFile_ => true | _ => false end.

(** [with tempfile.TemporaryDirectory(prefix=pre) as work]. *)
Definition with_work_dir `{N : TempNames} {B} (pre : string) (body : path -> BM B) : BM B :=
  f ← gets b_fs;
  let work := temp_root ++ [temp_name f temp_root pre ""] in
  on_bfs (fun f => match node_at f temp_root with
                   | Some DirN => (Ok tt, <[work := DirN]> f)
                   | Some (FileN _) => (Err NotADirectory, f)
                   | None => (Err NoSuchFile, f)
                   end) ;;
  finally (body work) (modify (fun s =>
    let t := b_tree s in
    set_btree (mkTree (rmtree work (t_fs t)) (filter (fun '(p, _) => ~ work `prefix_of` p) (t_links t))
                 (filter (fun '(p, _) => ~ work `prefix_of` p) (t_modes t))) s)).
End calls.
