(* ===== verification/Bake.v ===== *)
(** * The micro-VM root file system ([_RootfsConfig], [_RootfsAssembly], [build_rootfs])

    The bake of a guest image: configuration from the environment, the Docker bundle with
    its digest, the tree with its links, the staging daemon, the markers and the packing. *)
From stdpp Require Import base list strings gmap sorting.
From Stdlib Require Import ZArith Lia Ascii.
From S2P Require Import Prelude PyStr Config Qemu HostFs Paths Download RootfsDownload Adb BootCache BuildBase.
Local Open Scope stdpp_scope.
Local Open Scope Z_scope.

(** ** Constants *)

Definition _DOCKER_STATIC_BINS : list string :=
  ["dockerd"; "containerd"; "containerd-shim-runc-v2"; "runc"; "docker"; "ctr"; "docker-proxy"; "docker-init"].
Definition _ROOTFS_DIRS : list string :=
  ["bin"; "sbin"; "proc"; "sys"; "dev"; "run"; "var/run"; "var/log"; "var/lib"; "sys/fs/cgroup"; "dev/binderfs";
   "etc"; "tmp"; "usr/sbin"; "usr/bin"; "lib/x86_64-linux-gnu"; "lib64"; "usr/lib/x86_64-linux-gnu"].
Definition _IPTABLES_LINKS : list string :=
  ["iptables"; "iptables-save"; "iptables-restore"; "ip6tables"; "ip6tables-save"; "ip6tables-restore"].
Definition _GUEST_LIB_DIR : string := "lib/x86_64-linux-gnu".
Definition _LDD_MIN_FIELDS : nat := 3.
Definition _LDD_PATH_INDEX : nat := 2.
Definition _DOCKERD_READY_ATTEMPTS : nat := 60.
Definition _DEFAULT_DOCKER_VERSION : string := "27.5.1".
Definition _DEFAULT_DOCKER_BUNDLE_SHA256 : string := "4f798b3ee1e0140eab5bf30b0edc4e84f4cdb53255a429dc3bbae9524845d640".
Definition _default_docker_url (version : string) : string :=
  "https://download.docker.com/linux/static/stable/x86_64/docker-" +:+ version +:+ ".tgz".
Definition _DEFAULT_REDROID_IMAGE : string := vm_redroid_image DEFAULT_ANDROID_VERSION.
Definition _ROOTFS_BAKE_OVERRIDE_ENV : list string := ["REDROID_IMAGE"; "REDROID_TAR"; "IMAGE_SIZE_MB"; "DOCKER_URL"].
Definition _DEFAULT_IMAGE_SIZE_MB : Z := 8192.
Definition MODE_755 : Z := 493.
Definition MODE_1777 : Z := 1023.

(** Paths taken from the environment are kept as texts. *)
Record _RootfsConfig := mkRootfs {
  out_image : path; vm_dir : string; android_major : Z; image_size_mb : Z;
  docker_version : string; docker_url : string; docker_url_sha256 : option string;
  redroid_image : string; redroid_tar : option string; adbprobe_bin : option string;
  busybox_bin : string; xtables_multi : string; socat_bin : string; ld_linux : string }.

Section bake.
Context {Y : Layout} {W : Web} {T : BuildTools}.

Definition line_of (s : string) : string := s +:+ String newline "".

(** [next((name for name in .. if os.environ.get(name)), None)]. *)
Definition rootfs_bake_override_set : BM (option string) :=
  gets (fun s => head (filter (fun n => default "" (Dict.get n (environ s)) <> "") _ROOTFS_BAKE_OVERRIDE_ENV)).

Definition _parse_image_size_mb (raw : option string) : result build_error Z :=
  match raw with
  | None | Some "" => Ok _DEFAULT_IMAGE_SIZE_MB
  | Some r => match py_int r with
              | Some v => if v <=? 0 then Err (Bootstrap (BadImageSize r)) else Ok v
              | None => Err (Bootstrap (BadImageSize r))
              end
  end.

Definition from_env (out : path) (dir : string) (android_version : Z) : BM _RootfsConfig :=
  version ← getenv_or "DOCKER_VERSION" _DEFAULT_DOCKER_VERSION;
  url ← getenv_or "DOCKER_URL" (_default_docker_url version);
  given ← getenv_nonempty "DOCKER_SHA256";
  let sha256 := match given with
                | Some d => Some d
                | None => if String.eqb url (_default_docker_url _DEFAULT_DOCKER_VERSION)
                          then Some _DEFAULT_DOCKER_BUNDLE_SHA256 else None
                end in
  tar ← getenv_nonempty "REDROID_TAR";
  probe ← getenv_nonempty "ADBPROBE_BIN";
  raw ← getenv "IMAGE_SIZE_MB";
  size ← lift (_parse_image_size_mb raw);
  image ← getenv_or "REDROID_IMAGE" (vm_redroid_image android_version);
  busybox ← getenv_or "BUSYBOX_BIN" "/usr/bin/busybox";
  mret (mkRootfs out dir android_version size version url sha256 image tar probe busybox
          "/usr/sbin/xtables-legacy-multi" "/usr/bin/socat" "/lib64/ld-linux-x86-64.so.2").

Definition _major_version_from_image (image : string) : result build_error Z :=
  let tag := default "" (partition_on ":"%char image).2 in
  let leading := default "" (head (split_on "."%char tag)) in
  match py_int leading with Some v => Ok v | None => Err (Bootstrap (BadImageTag image)) end.

(** ** The assembly *)

Section assembly.
Variable cfg : _RootfsConfig.
Variable work : path.

Definition root_ : path := work ++ ["root"].
Definition tgz : path := work ++ ["docker.tgz"].
Definition docker_extract : path := work ++ ["docker"].
Definition dbin : path := docker_extract ++ ["docker"].
Definition guest (rel : string) : path := root_ ++ components rel.
Definition vm_asset (name : string) : path := at_ (vm_dir cfg) ++ [name].

Definition _guest_image_marker : path := root_ ++ ["etc"; "beetroot"; "redroid-image"].

Definition _verify_guest_image_marker : BM unit :=
  there ← gets (fun s => is_file_b (b_tree s) _guest_image_marker);
  text ← (if (there : bool) then read_b _guest_image_marker else mret "");
  lift (raise_if (negb there || String.eqb (strip text) "") (Bootstrap (GuestMarkerMissing _guest_image_marker))).

Definition _write_version_marker : BM unit :=
  baked ← lift (_major_version_from_image (redroid_image cfg));
  tell (Info ("recording baked Android version " +:+ str_of_Z baked +:+ " → " +:+
              path_str (rootfs_version_marker (out_image cfg)))) ;;
  write_b (rootfs_version_marker (out_image cfg)) (line_of (str_of_Z baked)).

Definition _verify_static_bundle_digest : BM unit :=
  match docker_url_sha256 cfg with
  | None => tell (Warned ("Docker static bundle " +:+ docker_url cfg +:+ " is UNVERIFIED " +:+
                          "(no pinned sha256); set DOCKER_SHA256 to verify it (issue #262)"))
  | Some expected =>
      bytes ← read_b tgz;
      lift (raise_if (negb (String.eqb (Download.sha256_hex bytes) expected))
              (Bootstrap (BundleMismatch expected (Download.sha256_hex bytes))))
  end.

Definition unpack_bundle : list string := ["tar"; "-xzf"; path_str tgz; "-C"; path_str docker_extract].

Definition _fetch_static_bundle : BM unit :=
  tell (Info ("fetching Docker static bundle " +:+ docker_version cfg)) ;;
  run_here ["curl"; "-fsSL"; docker_url cfg; "-o"; path_str tgz] ;;
  _verify_static_bundle_digest ;;
  on_bfs (mkdir_p docker_extract) ;;
  run_here unpack_bundle.

(** [_copy_lib_file]: failures are ignored. *)
Definition _copy_lib_file (src dest_dir : path) : BM unit :=
  catch (copy src dest_dir) (fun e => if os_failure e then mret tt else raise e).

Fixpoint each_b {B} (f : B -> BM unit) (l : list B) : BM unit :=
  match l with [] => mret tt | x :: l' => f x ;; each_b f l' end.

(** The paths an [ldd] listing names. *)
Definition library_of (line : string) : option string :=
  let fields := split_ws line in
  match fields !! _LDD_PATH_INDEX with
  | Some p => if (_LDD_MIN_FIELDS <=? length fields)%nat && starts_with "/" p then Some p else None
  | None => None
  end.

Definition _copy_libs (binary : string) : BM unit :=
  listing ← capture ["ldd"; pure_path binary];
  each_b (fun line => match library_of line with
                      | Some p => _copy_lib_file (at_ p) (guest _GUEST_LIB_DIR)
                      | None => mret tt
                      end) (splitlines listing).

Definition install (src dst : path) : BM unit := copy src dst ;; chmod dst MODE_755.

Definition bin_ (name : string) : path := root_ ++ ["bin"; name].

Definition link_applet (applet : string) : BM unit :=
  if String.eqb applet "busybox" then mret tt else _symlink "busybox" (resolve (root_ ++ ["bin"]) applet).

Definition _stage_busybox : BM unit :=
  tell (Info ("installing busybox (" +:+ pure_path (busybox_bin cfg) +:+ ") + applet symlinks")) ;;
  install (at_ (busybox_bin cfg)) (bin_ "busybox") ;;
  listing ← capture [pure_path (busybox_bin cfg); "--list"];
  each_b link_applet (split_ws listing).

Definition _stage_docker_binaries : BM unit :=
  tell (Info "installing Docker static bundle binaries") ;;
  each_b (fun name => install (dbin ++ [name]) (bin_ name)) _DOCKER_STATIC_BINS.

Definition sbin (name : string) : path := root_ ++ ["usr"; "sbin"; name].

Definition _stage_iptables : BM unit :=
  tell (Info "staging iptables-legacy (+ libs) — dockerd's bridge driver needs it") ;;
  copy (at_ (xtables_multi cfg)) (sbin "xtables-legacy-multi") ;;
  each_b (fun name => _symlink "xtables-legacy-multi" (sbin name) ;;
                      _symlink "xtables-legacy-multi" (sbin (name +:+ "-legacy"))) _IPTABLES_LINKS ;;
  _copy_libs (xtables_multi cfg) ;;
  _copy_lib_file (at_ (ld_linux cfg)) (guest "lib64").

Definition _stage_socat : BM unit :=
  tell (Info "staging socat (+ libs) — the host-ADB relay") ;;
  install (at_ (socat_bin cfg)) (bin_ "socat") ;;
  _copy_libs (socat_bin cfg).

Definition adbprobe_source : string := under (vm_dir cfg) "adbprobe.c".

Definition _stage_adbprobe : BM unit :=
  let dst := root_ ++ ["usr"; "bin"; "adbprobe"] in
  prebuilt ← gets (fun s => match adbprobe_bin cfg with
                            | Some p => if runnable (b_tree s) (at_ p) then Some (at_ p) else None
                            | None => None
                            end);
  source_there ← gets (fun s => is_file_b (b_tree s) (vm_asset "adbprobe.c"));
  match prebuilt with
  | Some p => install p dst
  | None =>
      if source_there && on_path "cc" then
        ok ← catch (run_here ["cc"; "-static"; "-O2"; "-o"; path_str dst; adbprobe_source] ;; mret true)
               (fun e => match e with
                         | Bootstrap _ => tell (Warned "adbprobe build failed; guest will skip the relay self-test") ;; mret false
                         | _ => raise e
                         end);
        if (ok : bool) then chmod dst MODE_755 else mret tt
      else tell (Info "no adbprobe (no ADBPROBE_BIN, no cc); guest skips relay self-test")
  end.

Definition socket_uri : string := "unix://" +:+ path_str (work ++ ["stage.sock"]).
Definition client : string := path_str (dbin ++ ["docker"]).
Definition stage : path := work ++ ["dockerroot"].

Fixpoint _wait_docker_ready (attempts : nat) : BM unit :=
  match attempts with
  | O => raise (Bootstrap DockerdNotReady)
  | S n =>
      up ← try_run [client; "--host=" +:+ socket_uri; "info"];
      if (up : bool) then mret tt else _sleep 1 ;; _wait_docker_ready n
  end.

Definition dockerd_argv : list string :=
  [path_str (dbin ++ ["dockerd"]); "--data-root=" +:+ path_str stage; "--host=" +:+ socket_uri;
   "--exec-root=" +:+ path_str (work ++ ["stage-exec"]); "--pidfile=" +:+ path_str (work ++ ["stage.pid"]);
   "--iptables=false"; "--bridge=none"].

(** The tarball of the image: the one given, or pulled and saved. *)
Definition image_tarball : BM string :=
  match redroid_tar cfg with
  | Some t => mret (pure_path t)
  | None =>
      tell (Info ("pulling " +:+ redroid_image cfg +:+ " and saving to a tarball")) ;;
      run_here [docker_bin_; "pull"; "--platform=linux/amd64"; redroid_image cfg] ;;
      let tar := path_str (work ++ ["redroid.tar"]) in
      run_here [docker_bin_; "save"; redroid_image cfg; "-o"; tar] ;;
      mret tar
  end.

Definition _stage_docker_root : BM path :=
  on_bfs (mkdir_p stage) ;;
  tar ← image_tarball;
  tell (Info ("loading " +:+ redroid_image cfg +:+ " into a staging dockerd")) ;;
  proc ← spawn dockerd_argv (work ++ ["stage-dockerd.log"]);
  finally (_wait_docker_ready _DOCKERD_READY_ATTEMPTS ;;
           run_here [client; "--host=" +:+ socket_uri; "load"; "-i"; tar])
    (stop proc) ;;
  _sleep 3 ;;
  mret stage.

Definition skeleton : BM unit := each_b (fun rel => on_bfs (mkdir_p (guest rel))) _ROOTFS_DIRS.

Definition _build_tree : BM unit :=
  tell (Info ("assembling rootfs tree in " +:+ path_str root_)) ;;
  skeleton ;;
  chmod (guest "tmp") MODE_1777 ;;
  _stage_busybox ;;
  _stage_docker_binaries ;;
  _stage_iptables ;;
  _stage_socat ;;
  _stage_adbprobe ;;
  tell (Info "baking the redroid image into /var/lib/docker (offline boot)") ;;
  staged ← _stage_docker_root;
  run_here ["cp"; "-a"; path_str staged; path_str (root_ ++ ["var"; "lib"; "docker"])] ;;
  tell (Info ("recording baked redroid image " +:+ redroid_image cfg +:+ " for guest-init")) ;;
  on_bfs (mkdir_p (parent _guest_image_marker)) ;;
  write_b _guest_image_marker (line_of (redroid_image cfg)) ;;
  tell (Info "installing guest-init.sh as /init") ;;
  install (vm_asset "guest-init.sh") (root_ ++ ["init"]).

Definition pack_argv : list string :=
  ["mke2fs"; "-q"; "-t"; "ext4"; "-d"; path_str root_; path_str (out_image cfg); str_of_Z (image_size_mb cfg) +:+ "M"].

Definition _pack_image : BM unit :=
  tell (Info ("packing " +:+ path_str (out_image cfg) +:+ " (" +:+ str_of_Z (image_size_mb cfg) +:+ " MiB ext4)")) ;;
  run_here pack_argv.

Definition build_ : BM path :=
  _fetch_static_bundle ;;
  _build_tree ;;
  _verify_guest_image_marker ;;
  _write_version_marker ;;
  _pack_image ;;
  mret (out_image cfg).
End assembly.

Definition build_rootfs (out : path) (dir : string) (android_version : Z) : BM path :=
  cfg ← from_env out dir android_version;
  with_work_dir "beetroot-rootfs-" (fun work => build_ cfg work).
End bake.
