(* ===== verification/Build.v ===== *)
(** * The builds ([build_image], [build_vm_kernel], the preflights, the verb [build])

    The redroid base image, the micro-VM kernel and root file system — fetched, or compiled
    and baked — and the checks of the host that come before. *)
From stdpp Require Import base list strings gmap sorting.
From Stdlib Require Import ZArith Lia Ascii.
From S2P Require Import Prelude PyStr Config Qemu HostFs Paths Download KernelDownload RootfsDownload Shell Adb BuildBase Bake.
Local Open Scope stdpp_scope.
Local Open Scope Z_scope.

Definition GAPPS_VENDOR_FLAGS (v : GappsVendor) : list string :=
  match v with litegapps => ["-lg"] | opengapps => ["-g"] | mindthegapps => ["-mtg"] end.
Definition _DEFAULT_REDROID_URL : string := "https://github.com/ayasa520/redroid-script.git".
Definition _BUILD_INSTANCE_NAME : string := "beetroot-build".
Definition KERNEL_VERSION : string := "6.12.9".
Definition KERNEL_SOURCE_SHA256 : string := "87be0360df0931b340d2bac35161a548070fbc3a8c352c49e21e96666c26aeb4".
Definition _KERNEL_CDN_BASE : string := "https://cdn.kernel.org/pub/linux/kernel".
Definition _VM_REQUIRED_ASSETS : list string := ["kernel.config"; "guest-init.sh"].
Definition _VM_FETCH_PATH_TOOLS : list (string * string) := [("curl", "curl"); ("tar", "tar")].
Definition _VM_BAKE_PATH_TOOLS : list (string * string) := [("ldd", "libc-bin"); ("mke2fs", "e2fsprogs")].
Definition _VM_STATIC_BINS : list ((_RootfsConfig -> string) * string) :=
  [(busybox_bin, "busybox-static"); (socat_bin, "socat"); (xtables_multi, "iptables")].

Section build.
Context {Y : Layout} {W : Web} {Z' : Zstd} {T : BuildTools}.

(** ** The redroid base image *)

Definition _default_work_dir : path := user_cache_dir "redroid-script".

(** The clone directory's lock, held while [body] runs. *)
Definition _clone_dir_lock {B} (work : path) (body : BM B) : BM B :=
  let lockfile := parent work ++ [path_name work +:+ ".lock"] in
  on_bfs (mkdir_p (parent lockfile)) ;;
  there ← gets (fun s => node_at (b_fs s) lockfile);
  match there with
  | Some DirN => raise (BOs IsADirectory)
  | Some (FileN _) => mret tt
  | None => on_bfs (write_file lockfile "")
  end ;;
  modify (record_ (Locked lockfile)) ;;
  finally body (modify (record_ (Unlocked lockfile))).

(** The first [url] of the origin stanza. *)
Fixpoint origin_url (in_origin : bool) (lines : list string) : option string :=
  match lines with
  | [] => None
  | line :: lines' =>
      let stripped := strip line in
      if String.eqb stripped ("[remote " +:+ String double_quote "origin" +:+ String double_quote "]")
      then origin_url true lines'
      else if starts_with "[" stripped then origin_url false lines'
      else if in_origin && starts_with "url" stripped && contains "=" stripped
      then Some (strip (default "" (partition_on "="%char stripped).2))
      else origin_url in_origin lines'
  end.

Definition _clone_url_matches (work : path) (url : string) : BM bool :=
  let git_config := work ++ [".git"; "config"] in
  there ← gets (fun s => is_file_b (b_tree s) git_config);
  if negb (there : bool) then mret false
  else
    text ← read_b git_config;
    mret (bool_decide (origin_url false (splitlines text) = Some url)).

(** The override of the build context. *)
Definition _build_context_from_env : option string := if String.eqb build_context_ "" then None else Some build_context_.

Definition _default_build_context : BM path :=
  p ← on_bassets bundled_compose_file; mret (parent (parent (parent (parent p)))).

Definition clone_argv (url : string) (work : path) : list string := ["git"; "clone"; "--depth"; "1"; url; path_str work].
Definition patcher_argv (version : Z) (flags : list string) : list string :=
  ["uv"; "run"; "--with"; "requests"; "--with"; "tqdm"; "python"; "-W"; "ignore"; "redroid.py"; "-a";
   str_of_Z version +:+ ".0.0"] ++ flags ++ ["-i"; "-m"].
Definition layer_argv (compose_file : path) (ctx : string) : list string :=
  [docker_bin_; "compose"; "-f"; path_str compose_file; "--project-directory"; ctx; "build"].
Definition layer_env (tag ctx : string) : list (string * string) :=
  [("BASE_IMAGE", tag); ("BEETROOT_BUILD_CONTEXT", ctx); ("INSTANCE_NAME", _BUILD_INSTANCE_NAME);
   ("DOCKER_BUILDKIT", "1"); ("COMPOSE_DOCKER_CLI_BUILD", "1")].

(** Steps 1 and 2. *)
Definition clone_and_patch (work : path) (url : string) (version : Z) (flags : list string) : BM unit :=
  same ← _clone_url_matches work url;
  (if (same : bool) then tell (Info ("reusing existing clone at " +:+ path_str work))
   else run_here ["rm"; "-rf"; path_str work] ;; run_here (clone_argv url work)) ;;
  run (patcher_argv version flags) (Some work) [].

Definition _android_for (version : Z) (gapps : GappsIntent) (vendor : option GappsVendor) : result build_error Android :=
  match Android_validate (mkAndroid version gapps vendor) with Ok a => Ok a | Err e => Err (BConfig e) end.

Definition build_image (gapps : GappsIntent) (vendor : option GappsVendor) (version : Z) (url : string)
    (work_dir : option path) (build_context : option string) : BM string :=
  let work := default _default_work_dir work_dir in
  ctx ← match (match build_context with Some c => Some c | None => _build_context_from_env end) with
        | Some c => mret (pure_path c)
        | None => p ← _default_build_context; mret (path_str p)
        end;
  android ← lift (_android_for version gapps vendor);
  let tag := base_image_tag android in
  let flags := match resolve_gapps_vendor android with None => [] | Some v => GAPPS_VENDOR_FLAGS v end in
  up ← gets (fun s => daemon_responsive (trace s));
  lift (raise_if (negb up) (Bootstrap DaemonDown)) ;;
  _clone_dir_lock work (clone_and_patch work url version flags) ;;
  compose_file ← on_bassets bundled_compose_file;
  run (layer_argv compose_file ctx) None (layer_env tag ctx) ;;
  mret tag.

(** ** The guest kernel *)

Definition _kernel_source_url (version : string) : string :=
  let major := default "" (head (split_on "."%char version)) in
  _KERNEL_CDN_BASE +:+ "/v" +:+ major +:+ ".x/linux-" +:+ version +:+ ".tar.xz".

Definition tarball (work : path) : path := work ++ ["linux-" +:+ KERNEL_VERSION +:+ ".tar.xz"].

Definition _verify_kernel_source_digest (p : path) : BM unit :=
  bytes ← read_b p;
  lift (raise_if (negb (String.eqb (Download.sha256_hex bytes) KERNEL_SOURCE_SHA256))
          (Bootstrap (KernelMismatch KERNEL_SOURCE_SHA256 (Download.sha256_hex bytes)))).

Definition unpack_kernel (work : path) : list string := ["tar"; "-xf"; path_str (tarball work); "-C"; path_str work].

Definition _fetch_kernel_source (work : path) : BM path :=
  let url := _kernel_source_url KERNEL_VERSION in
  tell (Info ("fetching kernel source " +:+ url)) ;;
  run_here ["curl"; "-fsSL"; url; "-o"; path_str (tarball work)] ;;
  _verify_kernel_source_digest (tarball work) ;;
  run_here (unpack_kernel work) ;;
  mret (work ++ ["linux-" +:+ KERNEL_VERSION]).

Definition compile_script (kernel_config kernel_out : path) : string :=
  let dq (s : string) := String double_quote s +:+ String double_quote "" in
  let cc_prefix := if on_path "ccache" then "CC=" +:+ dq "ccache gcc" +:+ " " else "" in
  "make defconfig && ./scripts/kconfig/merge_config.sh -m .config " +:+ shlex_quote (path_str kernel_config) +:+
  " && make olddefconfig && make " +:+ cc_prefix +:+ "-j" +:+ dq "$(nproc)" +:+ " bzImage && cp arch/x86/boot/bzImage " +:+
  shlex_quote (path_str kernel_out).

Definition compile_kernel (kernel_config kernel_out : path) : BM unit :=
  with_work_dir "beetroot-kernel-src-" (fun src_work =>
    source_tree ← _fetch_kernel_source src_work;
    run ["sh"; "-c"; compile_script kernel_config kernel_out] (Some source_tree) []).

(** A fetch whose error is the one the module raises for a missing asset. *)
Definition fetched_or (what : string) (m : BM unit) : BM bool :=
  catch (m ;; mret true)
    (fun e => match e with BDl (Fetch w) => tell (FetchMissed what (Fetch w)) ;; mret false | _ => raise e end).

Definition obtain_kernel (from_source : bool) (kernel_config kernel_out : path) : BM unit :=
  fetched ← (if from_source then mret false
             else
               fp ← on_bnet (config_fingerprint kernel_config);
               fetched_or "kernel"
                 (_ ← on_bnet (KernelDownload.fetch_prebuilt KERNEL_VERSION fp kernel_out);
                  tell (Success ("fetched prebuilt guest kernel " +:+ KERNEL_VERSION +:+ " (" +:+ fp +:+ ")"))));
  if (fetched : bool) then mret tt else compile_kernel kernel_config kernel_out.

(** ** Preflights *)

Definition missing_tools (l : list (string * string)) : list PreflightProblem :=
  map (fun '(tool, pkg) => mkProblem tool "not found on PATH" ("apt-get install " +:+ pkg))
    (filter (fun p => on_path p.1 = false) l).

Definition vm_fetch_preflight : list PreflightProblem := missing_tools _VM_FETCH_PATH_TOOLS.

Definition preflight_config : BM _RootfsConfig := from_env (at_ "preflight") "preflight" DEFAULT_ANDROID_VERSION.

(** The value that does not parse is taken out of the environment for the second reading,
    and put back. *)
Definition _resolve_preflight_config : BM (list PreflightProblem * _RootfsConfig) :=
  catch (c ← preflight_config; mret ([], c))
    (fun e => match e with
              | Bootstrap why =>
                  let raw := match why with BadImageSize r => r | _ => "" end in
                  saved ← getenv "IMAGE_SIZE_MB";
                  modify (fun s => set_environ (Dict.pop "IMAGE_SIZE_MB" (environ s)) s) ;;
                  c ← finally preflight_config
                        match saved with
                        | Some v => modify (fun s => set_environ (Dict.set "IMAGE_SIZE_MB" v (environ s)) s)
                        | None => mret tt
                        end;
                  mret ([mkProblem "IMAGE_SIZE_MB" ("IMAGE_SIZE_MB must be a positive integer, got " +:+ py_repr raw)
                           "unset IMAGE_SIZE_MB or set it to a positive integer (MiB)"], c)
              | _ => raise e
              end).

Definition when (c : bool) (p : PreflightProblem) : list PreflightProblem := if c then [p] else [].

Definition arch_problem : PreflightProblem :=
  mkProblem "x86_64 build host"
    ("the local rootfs bake only runs on an x86_64 build host (this host is " +:+ host_machine +:+ ")")
    ("fetch the prebuilt artifacts instead of forcing a local bake (the default `beetroot build --vm-kernel`), " +:+
     "or bake on an x86_64 host").
Definition root_problem : PreflightProblem :=
  mkProblem "root privilege"
    "the local rootfs bake spawns a staging dockerd, which requires root (cgroups, mounts, namespaces)"
    ("re-run as root (or in a --privileged container), or fetch the prebuilt rootfs instead of forcing a local bake").
Definition tar_problem (t : string) : PreflightProblem :=
  mkProblem "REDROID_TAR" ("tarball not found at " +:+ pure_path t)
    "point REDROID_TAR at an existing `docker save`d image tarball".
Definition docker_problem : PreflightProblem :=
  mkProblem docker_bin_ "Docker CLI not found on PATH" "install Docker Engine (apt-get install docker.io)".
Definition daemon_problem : PreflightProblem :=
  mkProblem "Docker daemon" ("`" +:+ docker_bin_ +:+ " info` failed (daemon not running?)")
    ("start the daemon (e.g. `sudo systemctl start docker`). If the redroid pull then hits a Docker Hub rate limit, " +:+
     "point REDROID_TAR at a `docker save`d image tarball or use a registry mirror (e.g. mirror.gcr.io).").
Definition binary_problem (p pkg : string) : PreflightProblem :=
  mkProblem (pure_name p) ("static binary not found at " +:+ pure_path p) ("apt-get install " +:+ pkg).

Definition image_problems (s : bstate) (tar : option string) : list PreflightProblem :=
  match tar with
  | Some t => when (negb (is_file_b (b_tree s) (at_ t))) (tar_problem t)
  | None =>
      if negb (on_path docker_bin_) then [docker_problem]
      else when (negb (daemon_responsive (trace s))) daemon_problem
  end.

Definition vm_bake_preflight (tar : option string) : BM (list PreflightProblem) :=
  r ← _resolve_preflight_config;
  let '(bad_env, cfg) := r in
  s ← gets id;
  mret (bad_env ++ when (negb (host_is_guest_arch host_machine)) arch_problem ++
        concat (map (fun '(f, pkg) => when (negb (is_file_b (b_tree s) (at_ (f cfg)))) (binary_problem (f cfg) pkg))
                  _VM_STATIC_BINS) ++
        missing_tools _VM_BAKE_PATH_TOOLS ++
        when (negb is_root) root_problem ++
        image_problems s tar).

Definition vm_build_preflight (tar : option string) : BM (list PreflightProblem) :=
  l ← vm_bake_preflight tar; mret (vm_fetch_preflight ++ l).

(** ** Kernel and root file system *)

Definition _resolve_vm_dir (build_context : option string) : BM string :=
  dir ← match build_context with
        | Some c => mret (under c "docker/vm")
        | None => p ← on_bassets bundled_vm_dir; mret (path_str p)
        end;
  missing ← gets (fun s => filter (fun n => is_file_b (b_tree s) (at_ dir ++ [n]) = false) _VM_REQUIRED_ASSETS);
  lift (raise_if (bool_decide (missing <> [])) (Bootstrap (AssetsMissing dir missing))) ;;
  mret dir.

Record VmArtifacts := mkArtifacts { kernel_at : path; rootfs_at : path }.

Definition redroid_tar_env : BM (option string) := getenv_nonempty "REDROID_TAR".

Definition bake (rootfs_out : path) (dir : string) (android_version : Z) : BM unit :=
  tar ← redroid_tar_env;
  problems ← vm_bake_preflight tar;
  lift (raise_if (bool_decide (problems <> [])) (Bootstrap (Prerequisites problems))) ;;
  _ ← build_rootfs rootfs_out dir android_version;
  mret tt.

Definition obtain_rootfs (from_source : bool) (rootfs_out : path) (dir : string) (android_version : Z) : BM unit :=
  override ← rootfs_bake_override_set;
  fetched ← match from_source, override with
            | false, None =>
                version ← getenv_or "DOCKER_VERSION" _DEFAULT_DOCKER_VERSION;
                fp ← on_bnet (composite_fingerprint android_version version (at_ dir ++ ["guest-init.sh"]));
                fetched_or "rootfs"
                  (_ ← on_bnet (RootfsDownload.fetch_prebuilt android_version fp rootfs_out);
                   tell (Success ("fetched prebuilt guest rootfs (Android " +:+ str_of_Z android_version +:+ ", " +:+ fp +:+ ")")))
            | false, Some name =>
                tell (Info (name +:+ " is set; skipping the prebuilt rootfs fetch and baking locally (the override " +:+
                            "changes the baked bytes and is not part of the prebuilt fingerprint)")) ;;
                mret false
            | true, _ => mret false
            end;
  if (fetched : bool) then mret tt else bake rootfs_out dir android_version.

Definition build_vm_kernel (out_dir : option path) (build_context : option string) (android_version : Z)
    (from_source : bool) : BM VmArtifacts :=
  let ctx := match build_context with Some c => Some c | None => _build_context_from_env end in
  let out := default (user_cache_dir "vm") out_dir in
  dir ← _resolve_vm_dir ctx;
  let kernel_config := at_ dir ++ ["kernel.config"] in
  let kernel_out := out ++ ["bzImage"] in
  let rootfs_out := out ++ ["rootdisk.img"] in
  on_bfs (mkdir_p out) ;;
  obtain_kernel from_source kernel_config kernel_out ;;
  obtain_rootfs from_source rootfs_out dir android_version ;;
  mret (mkArtifacts kernel_out rootfs_out).

(** ** The verb *)

Definition build_fails {B} (t : string) : BM B := tell (Failed_ t) ;; raise (BExit 1).

Definition cli_check : BM unit :=
  tar ← redroid_tar_env;
  problems ← vm_build_preflight tar;
  each_b (fun p => tell (Problem p)) problems ;;
  if bool_decide (problems = []) then tell (Reported "vm build preflight: all host prerequisites satisfied")
  else build_fails ("vm build preflight: " +:+ str_of_Z (Z.of_nat (length problems)) +:+
                    " host prerequisite(s) missing (see above).").

Definition cli_build_vm (from_source : bool) (build_context : option string) (android_version : Z) : BM unit :=
  (if bool_decide (vm_fetch_preflight = []) then mret tt
   else build_fails ("vm build preflight found " +:+ str_of_Z (Z.of_nat (length vm_fetch_preflight)) +:+
          " missing host prerequisite(s): " +:+
          join "; " (map (fun p => requirement p +:+ " → " +:+ fix_ p) vm_fetch_preflight) +:+
          ". Install them, then re-run `beetroot build --vm-kernel`.")) ;;
  a ← catch (build_vm_kernel None build_context android_version from_source)
        (fun e => match e with Bootstrap _ => tell (Failed_ "") ;; raise (BExit 1) | _ => raise e end);
  tell (Reported ("micro-VM kernel built: " +:+ path_str (kernel_at a))) ;;
  tell (Reported ("micro-VM rootfs built: " +:+ path_str (rootfs_at a))).

Definition cli_build (gapps : GappsIntent) (vendor : option GappsVendor) (vm_kernel from_source check : bool)
    (build_context : option string) (android_version : Z) : BM unit :=
  (if check && negb vm_kernel then build_fails "--check only applies to --vm-kernel." else mret tt) ;;
  (if (from_source || negb (android_version =? DEFAULT_ANDROID_VERSION)) && negb vm_kernel
   then build_fails "--from-source / --android-version only apply to --vm-kernel." else mret tt) ;;
  if vm_kernel then
    match validate_android_version android_version with
    | Err _ => build_fails "--android-version"
    | Ok _ => mret tt
    end ;;
    if check then cli_check else cli_build_vm from_source build_context android_version
  else
    tag ← build_image gapps vendor DEFAULT_ANDROID_VERSION _DEFAULT_REDROID_URL None build_context;
    tell (Reported ("base image built: " +:+ tag)).

(** How [main] ends the process. *)
Inductive build_ending : Type := BuildExit (code : Z) | BuildTraceback (e : build_error).

Definition is_exit_1 (e : build_error) : bool :=
  match e with
  | Bootstrap _ | BConfig _ | BOs NoSuchFile | BDl (DlOs NoSuchFile) => true
  | _ => false
  end.

Definition build_main (m : BM unit) (s : bstate) : build_ending * bstate :=
  match m s with
  | (Ok _, s') => (BuildExit 0, s')
  | (Err (BExit c), s') => (BuildExit c, s')
  | (Err e, s') => ((if is_exit_1 e then BuildExit 1 else BuildTraceback e), s')
  end.
End build.
