(* ===== verification/BuildOps.v ===== *)
(** * What the image builder guarantees

    Facts over [Bake] and [Build]: what has been checked before a download is unpacked, the
    life of the staging daemon, the markers of a packed image, the applets of the guest, the
    order of a base image build and its lock, and what the preflight reports. *)
From stdpp Require Import base list strings gmap sorting.
From Stdlib Require Import ZArith Lia Ascii.
From S2P Require Import Prelude PyStr Config Qemu HostFs Paths Download KernelDownload RootfsDownload Shell Adb AdbOps BootCache BuildBase Bake Build.
Local Open Scope stdpp_scope.
Local Open Scope Z_scope.

(** ** Traces *)

(** A property of the events of a run that holds of every composition. *)
Class Closed (P : list event -> Prop) : Prop := {
  closed_nil : P [];
  closed_app l l' : P l -> P l' -> P (l ++ l') }.

#[export] Instance Forall_closed ok : Closed (Forall ok).
Proof. split; [constructor|]. intros. by apply Forall_app. Qed.
#[export] Instance silent_closed : Closed (eq []).
Proof. split; [done|]. by intros ? ? <- <-. Qed.

#[export] Instance anything_closed : Closed (fun _ => True).
Proof. by split. Qed.

(** The events of the run from [s] to [s']. *)
Definition adds (P : list event -> Prop) (s s' : bstate) : Prop := exists l, trace s' = trace s ++ l /\ P l.
Abbreviation quiet := (adds (eq [])).
Abbreviation grows := (adds (fun _ => True)).

#[export] Instance adds_preorder P `{!Closed P} : PreOrder (adds P).
Proof.
  split.
  - intros s. exists []. rewrite app_nil_r. split; [done|apply closed_nil].
  - intros a b c (l & H1 & H2) (l' & H3 & H4). exists (l ++ l'). rewrite H3, H1, app_assoc.
    split; [done|by apply closed_app].
Qed.

Lemma quiet_trace s s' : quiet s s' <-> trace s' = trace s.
Proof.
  split; [intros (l & H & <-); by rewrite app_nil_r in H|].
  intros H. exists []. by rewrite H, app_nil_r.
Qed.

Lemma quiet_adds P `{!Closed P} {B} (m : BM B) : preserves quiet m -> preserves (adds P) m.
Proof.
  intros H s. destruct (H s) as (l & Ht & <-). exists []. split; [done|apply closed_nil].
Qed.

Lemma wp_quiet {B} (m : BM B) s : preserves quiet m -> wp m (fun _ s' => trace s' = trace s) (fun _ s' => trace s' = trace s) s.
Proof. intros H. specialize (H s). apply quiet_trace in H. unfold wp. by destruct (m s) as [[] ?]. Qed.

Lemma same_trace_quiet {B} (m : BM B) : (forall s, trace (snd (m s)) = trace s) -> preserves quiet m.
Proof. intros H s. apply quiet_trace, H. Qed.

Lemma preserves_finally (R : bstate -> bstate -> Prop) `{!PreOrder R} {B} (m : BM B) h :
  preserves R m -> preserves R h -> preserves R (finally m h).
Proof.
  intros Hm Hh s. specialize (Hm s). unfold finally. destruct (m s) as [r s1]. specialize (Hh s1).
  destruct (h s1) as [[[]|e] s2]; simpl in *; by etransitivity.
Qed.

Lemma preserves_each (R : bstate -> bstate -> Prop) `{!PreOrder R} {B} (f : B -> BM unit) l :
  (forall x, x ∈ l -> preserves R (f x)) -> preserves R (each_b f l).
Proof.
  induction l as [|x l IH]; intros Hf; simpl; [apply preserves_ret; exact _|].
  apply preserves_bind; [exact _|apply Hf; set_solver|]. intros _. apply IH. intros y Hy. apply Hf. set_solver.
Qed.

(** ** Calls that run nothing *)

Section quiet.
Context {Y : Layout} {W : Web} {Z' : Zstd} {T : BuildTools}.

Lemma tell_quiet l : preserves quiet (tell l).
Proof. by apply same_trace_quiet. Qed.
Lemma on_bfs_quiet {B} (m : M HostFs.fs os_error B) : preserves quiet (on_bfs m).
Proof. apply same_trace_quiet. intros s. unfold on_bfs, zoom. by destruct (m (b_fs s)) as [[a|e] f]. Qed.
Lemma on_bnet_quiet {B} (m : M net dl_error B) : preserves quiet (on_bnet m).
Proof. apply same_trace_quiet. intros s. unfold on_bnet, zoom. by destruct (m _) as [[a|e] f]. Qed.
Lemma on_bassets_quiet {B} (m : M assets os_error B) : preserves quiet (on_bassets m).
Proof. apply same_trace_quiet. intros s. unfold on_bassets, zoom. by destruct (m _) as [[a|e] f]. Qed.
Lemma getenv_quiet n : preserves quiet (getenv n).
Proof. by apply same_trace_quiet. Qed.
Lemma followed_quiet p : preserves quiet (followed p).
Proof. apply same_trace_quiet. intros s. unfold followed. by case_match. Qed.
Lemma read_at_quiet p : preserves quiet (read_at p).
Proof. apply same_trace_quiet. intros s. unfold read_at. by case_match. Qed.
Lemma modify_quiet f : (forall s, trace (f s) = trace s) -> preserves quiet (modify f : BM unit).
Proof. intros H. by apply same_trace_quiet. Qed.
End quiet.

#[export] Hint Resolve tell_quiet on_bfs_quiet on_bnet_quiet on_bassets_quiet getenv_quiet followed_quiet
  read_at_quiet : built.

(** One step of a proof of [preserves R m]; [leaf] proves the calls. *)
Ltac walk_step leaf :=
  match goal with
  | |- forall _, _ => intros ?
  | |- preserves _ (let '(_, _) := ?x in _) => destruct x
  | |- preserves _ (mbind _ _) => apply preserves_bind; [exact _| |]
  | |- preserves _ (mret _) => apply preserves_ret; exact _
  | |- preserves _ (raise _) => apply preserves_raise; exact _
  | |- preserves _ (lift _) => apply preserves_lift; exact _
  | |- preserves _ (gets _) => apply preserves_gets; exact _
  | |- preserves _ (catch _ _) => apply preserves_catch; [exact _| |]
  | |- preserves _ (finally _ _) => apply preserves_finally; [exact _| |]
  | |- preserves _ (match ?x with _ => _ end) => destruct x
  | |- preserves _ _ => leaf
  end.

(** External commands are left to the caller. *)
Ltac adds_leaf :=
  first [ apply quiet_adds, modify_quiet; [exact _|intros; reflexivity]
        | solve [eauto 2 with built nocore]
        | apply quiet_adds; [exact _|solve [eauto 2 with built nocore]] ].
Ltac adds_step := walk_step adds_leaf.
Ltac adds_steps := repeat adds_step.

Section files.
Context {Y : Layout} {W : Web} {Z' : Zstd} {T : BuildTools}.

Lemma read_b_quiet p : preserves quiet (read_b p).
Proof. unfold read_b. adds_steps. Qed.
Lemma write_b_quiet p c : preserves quiet (write_b p c).
Proof. unfold write_b. adds_steps. Qed.
#[local] Hint Resolve read_b_quiet : built.
Lemma copy_quiet a b : preserves quiet (copy a b).
Proof. unfold copy. adds_steps. Qed.
Lemma chmod_quiet p m : preserves quiet (chmod p m).
Proof. unfold chmod. adds_steps. Qed.
Lemma symlink_quiet t l : preserves quiet (_symlink t l).
Proof. unfold _symlink. adds_steps. Qed.
#[local] Hint Resolve copy_quiet chmod_quiet : built.
Lemma install_quiet a b : preserves quiet (install a b).
Proof. unfold install. adds_steps. Qed.
Lemma copy_lib_quiet a b : preserves quiet (_copy_lib_file a b).
Proof. unfold _copy_lib_file. adds_steps. Qed.
End files.

#[export] Hint Resolve read_b_quiet write_b_quiet copy_quiet chmod_quiet symlink_quiet install_quiet
  copy_lib_quiet : built.

(** ** External commands *)

Section commands.
Context {Y : Layout} {W : Web} {Z' : Zstd} {T : BuildTools}.

Lemma run_wp argv dir env_ (Q : unit -> bstate -> Prop) (R : build_error -> bstate -> Prop) s :
  R (BOs NoSuchFile) s ->
  (forall rc t, let s' := set_btree t (record_ (Ran argv dir env_ (b_tree s) rc) s) in
    tool_run (trace s) argv dir env_ (b_tree s) = Some (rc, t) ->
    if rc =? 0 then Q tt s' else R (Bootstrap (CommandFailed_ argv rc)) s') ->
  wp (run argv dir env_) Q R s.
Proof.
  intros Hn Hr. unfold wp, run. destruct (tool_run _ _ _ _ _) as [[rc t]|] eqn:Ht; [|done].
  specialize (Hr rc t eq_refl). cbv zeta in Hr. by destruct (rc =? 0).
Qed.

(** A property of traces that holds of the one event a call may add. *)
Lemma run_adds P `{!Closed P} argv dir env_ : (forall t rc, P [Ran argv dir env_ t rc]) -> preserves (adds P) (run argv dir env_).
Proof.
  intros HP s. unfold run. destruct (tool_run _ _ _ _ _) as [[rc t]|]; [|reflexivity].
  exists [Ran argv dir env_ (b_tree s) rc]. by destruct (rc =? 0).
Qed.
Lemma try_run_adds P `{!Closed P} argv : (forall rc, P [Tried argv rc]) -> preserves (adds P) (try_run argv).
Proof.
  intros HP s. unfold try_run. destruct (tool_run _ _ _ _ _) as [[rc t]|]; [|reflexivity].
  by exists [Tried argv rc].
Qed.
Lemma capture_adds P `{!Closed P} argv : (forall rc, P [Captured argv rc]) -> preserves (adds P) (capture argv).
Proof.
  intros HP s. unfold capture. destruct (tool_capture _ _ _) as [[rc [out|]]|]; [| |reflexivity];
    exists [Captured argv rc]; by try destruct (rc =? 0).
Qed.
Lemma record_adds P `{!Closed P} e : P [e] -> preserves (adds P) (modify (record_ e) : BM unit).
Proof. intros HP s. by exists [e]. Qed.
Lemma popen_adds P `{!Closed P} argv : P [Spawned argv] -> preserves (adds P) (popen argv).
Proof.
  intros HP s. unfold popen. destruct (tool_run _ _ _ _ _) as [[rc t]|]; [|reflexivity].
  by exists [Spawned argv].
Qed.
(** ** Contents, through links *)

Definition contents (t : btree) (p : path) : option string :=
  q ← follow 40 t p; match node_at (t_fs t) q with Some (FileN c) => Some c | _ => None end.

Lemma read_b_wp p (Q : string -> bstate -> Prop) (R : build_error -> bstate -> Prop) s :
  (forall c, contents (b_tree s) p = Some c -> Q c s) -> (forall e, R e s) -> wp (read_b p) Q R s.
Proof.
  intros HQ HR. unfold read_b. apply wp_bind. unfold wp at 1, followed.
  unfold contents in HQ. destruct (follow 40 (b_tree s) p) as [q|]; [|apply HR].
  unfold wp, read_at, read_file. simpl in HQ. change (t_fs (b_tree s)) with (b_fs s) in HQ.
  destruct (node_at (b_fs s) q) as [[|c]|]; auto.
Qed.

(** Creating directories changes no contents. *)
Lemma mkdir_contents p q c s : contents (b_tree s) q = Some c -> contents (b_tree (snd (on_bfs (mkdir_p p) s))) q = Some c.
Proof.
  unfold contents, on_bfs, zoom.
  assert (Hf : forall f, (forall k c, t_fs (b_tree s) !! k = Some (FileN c) -> f !! k = Some (FileN c)) ->
    (k ← follow 40 (b_tree s) q; match node_at (t_fs (b_tree s)) k with Some (FileN c) => Some c | _ => None end) = Some c ->
    (k ← follow 40 (b_tree (set_bfs f s)) q; match node_at (t_fs (b_tree (set_bfs f s))) k with Some (FileN c) => Some c | _ => None end) = Some c).
  { intros f Hk. assert (forall n k, follow n (b_tree (set_bfs f s)) k = follow n (b_tree s) k) as Hl.
    { intros n. induction n as [|n IH]; intros k; simpl; [done|]. destruct (t_links (b_tree s) !! k); [apply IH|done]. }
    rewrite Hl. destruct (follow 40 (b_tree s) q) as [[|c0 k]|]; simpl; [done| |done].
    destruct (t_fs (b_tree s) !! _) as [[|c']|] eqn:Hn; [done| |done].
    simpl. by rewrite (Hk _ _ Hn). }
  pose proof (fun k c => mkdir_p_files p (b_fs s) k c) as Hm.
  destruct (mkdir_p p (b_fs s)) as [[[]|e] f]; simpl in *; apply Hf, Hm.
Qed.

(** ** A download that is checked before it is unpacked *)

Inductive checked_first (fetch unpack : list string) (good : btree -> Prop) : list event -> Prop :=
| nothing_ran : checked_first fetch unpack good []
| only_fetched t rc : checked_first fetch unpack good [Ran fetch None [] t rc]
| unpacked t before rc l : good before ->
    checked_first fetch unpack good (Ran fetch None [] t 0 :: Ran unpack None [] before rc :: l).

Definition after_unpack fetch unpack good (s s' : bstate) : Prop :=
  adds (fun l => exists t before, l = [Ran fetch None [] t 0; Ran unpack None [] before 0] /\ good before) s s'.

Lemma checked_fetch fetch unpack good (check : BM unit) s :
  preserves quiet check ->
  (forall s1, wp check (fun _ s2 => good (b_tree s2)) (fun _ _ => True) s1) ->
  wp (run_here fetch ;; check ;; run_here unpack)
     (fun _ s' => after_unpack fetch unpack good s s')
     (fun _ s' => adds (checked_first fetch unpack good) s s') s.
Proof.
  intros Hq Hc. apply wp_bind, run_wp; [exists []; rewrite app_nil_r; split; constructor|].
  intros rc t s1 Hrun. destruct (Z.eqb_spec rc 0) as [->|];
    [|exists [Ran fetch None [] (b_tree s) rc]; split; [done|constructor]].
  apply wp_bind. specialize (Hq s1). specialize (Hc s1). unfold wp in Hc |- * at 1.
  destruct (check s1) as [[[]|e] s2]; simpl in Hq; apply quiet_trace in Hq;
    [|exists [Ran fetch None [] (b_tree s) 0]; split; [by rewrite Hq|constructor]].
  apply run_wp; [exists [Ran fetch None [] (b_tree s) 0]; split; [by rewrite Hq|constructor]|].
  intros rc2 t2 s3 _.
  assert (trace s3 = trace s ++ [Ran fetch None [] (b_tree s) 0; Ran unpack None [] (b_tree s2) rc2]) as H3.
  { unfold s3. simpl. rewrite Hq. unfold s1. simpl. by rewrite <- app_assoc. }
  destruct (Z.eqb_spec rc2 0) as [->|].
  - exists [Ran fetch None [] (b_tree s) 0; Ran unpack None [] (b_tree s2) 0]. split; [done|]. by eexists _, _.
  - exists [Ran fetch None [] (b_tree s) 0; Ran unpack None [] (b_tree s2) rc2]. split; [done|]. by constructor.
Qed.

Lemma after_unpack_grows fetch unpack good s s1 s2 :
  after_unpack fetch unpack good s s1 -> grows s1 s2 -> adds (checked_first fetch unpack good) s s2.
Proof.
  intros (l & H1 & (t & before & -> & Hg)) (l' & H2 & _). exists ([Ran fetch None [] t 0; Ran unpack None [] before 0] ++ l').
  split; [by rewrite H2, H1, <- app_assoc|]. by constructor.
Qed.

Lemma adds_from P s1 s s' : trace s1 = trace s -> adds P s1 s' -> adds P s s'.
Proof. intros H (l & Ht & Hl). exists l. by rewrite Ht, H. Qed.

(** The working directory leaves no mark on the trace. *)
Lemma with_work_dir_adds `{N : TempNames} {B} (P : list event -> Prop) pre (body : path -> BM B) s :
  P [] ->
  (forall s1, environ s1 = environ s ->
     adds P s1 (snd (body (temp_root ++ [temp_name (b_fs s) temp_root pre ""]) s1))) ->
  adds P s (snd (with_work_dir pre body s)).
Proof.
  intros HP Hb. unfold with_work_dir. rewrite (M_bind_ok (gets b_fs) _ s (b_fs s) s eq_refl).
  set (work := temp_root ++ _) in *. unfold on_bfs, zoom, mbind, M_bind.
  assert (forall f, adds P s (snd (finally (body work) (modify (fun s =>
    let t := b_tree s in
    set_btree (mkTree (rmtree work (t_fs t)) (filter (fun '(p, _) => ~ work `prefix_of` p) (t_links t))
      (filter (fun '(p, _) => ~ work `prefix_of` p) (t_modes t))) s)) (set_bfs f s)))) as Hf.
  { intros f. specialize (Hb (set_bfs f s) eq_refl). unfold finally. by destruct (body work (set_bfs f s)) as [[a|e] s2]. }
  destruct (node_at (b_fs s) temp_root) as [[|c]|]; [apply Hf|..]; exists []; (rewrite app_nil_r; by split).
Qed.
End commands.

(** ** The staging daemon *)

Section staging.
Context {Y : Layout} {W : Web} {Z' : Zstd} {T : BuildTools}.
Variable cfg : _RootfsConfig.
Variable work : path.

Definition info_argv : list string := [client work; "--host=" +:+ socket_uri work; "info"].
Definition load_argv (tar : string) : list string := [client work; "--host=" +:+ socket_uri work; "load"; "-i"; tar].
Definition pull_argv : list string := [docker_bin_; "pull"; "--platform=linux/amd64"; redroid_image cfg].
Definition saved_tar : string := path_str (work ++ ["redroid.tar"]).
Definition save_argv : list string := [docker_bin_; "save"; redroid_image cfg; "-o"; saved_tar].

(** [n] probes in a row that failed, a second apart. *)
Inductive probing : nat -> list event -> Prop :=
| no_probe : probing 0 []
| failed_probe n rc l : rc <> 0 -> probing n l -> probing (S n) (Tried info_argv rc :: Slept 1 :: l).

(** What runs before the daemon: nothing when a tarball is given, else a pull and a save. *)
Inductive fetches_image : list event -> Prop :=
| tar_given t : redroid_tar cfg = Some t -> fetches_image []
| pulled t1 t2 : redroid_tar cfg = None ->
    fetches_image [Ran pull_argv None [] t1 0; Ran save_argv None [] t2 0].

Definition image_tar : string := match redroid_tar cfg with Some t => pure_path t | None => saved_tar end.

Lemma trace_app s s1 s2 l l' : trace s1 = trace s ++ l -> trace s2 = trace s1 ++ l' -> trace s2 = trace s ++ (l ++ l').
Proof. intros H1 H2. by rewrite H2, H1, app_assoc. Qed.

Lemma wait_ready_wp n s :
  wp (_wait_docker_ready work n)
    (fun _ s' => exists k l, (k < n)%nat /\ probing k l /\ trace s' = trace s ++ l ++ [Tried info_argv 0])
    (fun e s' => exists k l, probing k l /\ trace s' = trace s ++ l /\
       (e = Bootstrap DockerdNotReady /\ k = n \/ e = BOs NoSuchFile /\ (k < n)%nat)) s.
Proof.
  revert s. induction n as [|n IH]; intros s; simpl.
  - apply wp_raise. exists 0%nat, []. split_and!; [constructor|by rewrite app_nil_r|by left].
  - apply wp_bind. unfold wp at 1, try_run.
    destruct (tool_run _ _ _ _ _) as [[rc t]|].
    2:{ exists 0%nat, []. split_and!; [constructor|by rewrite app_nil_r|right; split; [done|lia]]. }
    destruct (Z.eqb_spec rc 0) as [->|Hrc].
    + apply wp_ret. exists 0%nat, []. split_and!; [lia|constructor|done].
    + apply wp_bind. unfold _sleep. apply wp_modify. cbn beta.
      eapply wp_mono; [apply IH| |]; cbn beta.
      * intros _ s' (k & l & Hk & Hl & Ht). exists (S k), (Tried info_argv rc :: Slept 1 :: l).
        split_and!; [lia|by constructor|]. rewrite Ht. simpl. by rewrite <- !app_assoc.
      * intros e s' (k & l & Hl & Ht & He). exists (S k), (Tried info_argv rc :: Slept 1 :: l).
        split_and!; [by constructor| |]; [rewrite Ht; simpl; by rewrite <- !app_assoc|].
        destruct He as [[-> ->]|[-> Hk]]; [by left|right; split; [done|lia]].
Qed.

Definition is_ran (e : event) : Prop := match e with Ran _ _ _ _ _ => True | _ => False end.

Lemma image_tarball_wp s :
  wp (image_tarball cfg work)
    (fun tar s' => tar = image_tar /\ adds fetches_image s s')
    (fun _ s' => adds (Forall is_ran) s s') s.
Proof.
  unfold image_tarball, image_tar. destruct (redroid_tar cfg) as [t|] eqn:Hr.
  - apply wp_ret. split; [done|]. exists []. rewrite app_nil_r. split; [done|]. by econstructor.
  - apply wp_bind. unfold tell. apply wp_modify. cbn beta. set (s0 := mkB _ _ _ _ _ _ _ _).
    assert (trace s0 = trace s) as H0 by done. clearbody s0.
    apply wp_bind, run_wp; [exists []; rewrite app_nil_r; by split|].
    intros rc t s1 _. assert (trace s1 = trace s ++ [Ran pull_argv None [] (b_tree s0) rc]) as H1 by (by rewrite <- H0).
    clearbody s1. destruct (Z.eqb_spec rc 0) as [->|]; [|eexists; split; [exact H1|by repeat constructor]].
    apply wp_bind, run_wp; [eexists; split; [exact H1|by repeat constructor]|].
    intros rc2 t2 s2 _. assert (trace s2 = trace s1 ++ [Ran save_argv None [] (b_tree s1) rc2]) as H2 by done.
    clearbody s2. pose proof (trace_app _ _ _ _ _ H1 H2) as H3.
    destruct (Z.eqb_spec rc2 0) as [->|]; [|eexists; split; [exact H3|by repeat constructor]].
    apply wp_ret. split; [done|]. eexists. split; [exact H3|]. by constructor.
Qed.

(** How the daemon is stopped: it is terminated, killed if need be, and waited for. *)
Definition stopping (m : list event) : Prop := exists killed : bool,
  m = Terminated (dockerd_argv work) :: (if killed then [Killed (dockerd_argv work)] else []) ++ [Stopped (dockerd_argv work)].

Lemma stop_wp s (Q : unit -> bstate -> Prop) R :
  (forall m s', stopping m -> trace s' = trace s ++ m -> Q tt s') -> wp (stop (dockerd_argv work)) Q R s.
Proof.
  intros HQ. unfold stop. apply wp_bind, wp_modify, wp_bind, wp_gets, wp_bind.
  destruct (exits_on_term _ _); [apply wp_ret|apply wp_modify]; apply wp_modify.
  - eapply (HQ _); [by exists false|]. simpl. by rewrite <- !app_assoc.
  - eapply (HQ _); [by exists true|]. simpl. by rewrite <- !app_assoc.
Qed.

(** From the start of the daemon to its end. *)
Lemma daemon_wp tar s :
  wp (finally (_wait_docker_ready work _DOCKERD_READY_ATTEMPTS ;; run_here (load_argv tar)) (stop (dockerd_argv work)))
    (fun _ s' => exists k l t m, (k < 60)%nat /\ probing k l /\ stopping m /\
       trace s' = trace s ++ l ++ [Tried info_argv 0; Ran (load_argv tar) None [] t 0] ++ m)
    (fun e s' => exists l m, trace s' = trace s ++ l ++ m /\ stopping m /\
       Forall (fun e => forall a, e <> Spawned a) l /\ (e = Bootstrap DockerdNotReady -> probing 60 l)) s.
Proof.
  assert (forall k l, probing k l -> Forall (fun e => forall a, e <> Spawned a) l) as Hp.
  { induction 1; repeat constructor; done. }
  apply wp_finally, wp_bind. eapply wp_mono; [apply wait_ready_wp| |]; cbn beta.
  - intros _ s1 (k & l & Hk & Hl & Ht). apply run_wp.
    + apply stop_wp. intros m s2 Hm H2. exists (l ++ [Tried info_argv 0]), m. rewrite H2, Ht, <- !app_assoc.
      split_and!; [done|done| |done]. apply Forall_app. split; [by eapply Hp|by repeat constructor].
    + intros rc t s2 _. destruct (Z.eqb_spec rc 0) as [->|]; apply stop_wp; intros m s3 Hm H3; unfold s2 in H3; simpl in H3.
      * exists k, l, (b_tree s1), m. split_and!; [done..|]. by rewrite H3, Ht, <- !app_assoc.
      * exists (l ++ [Tried info_argv 0; Ran (load_argv tar) None [] (b_tree s1) rc]), m.
        rewrite H3, Ht, <- !app_assoc. split_and!; [done|done| |done]. apply Forall_app. split; [by eapply Hp|by repeat constructor].
  - intros e s1 (k & l & Hl & Ht & He). apply stop_wp. intros m s2 Hm H2. exists l, m. rewrite H2, Ht, <- !app_assoc.
    split_and!; [done|done|by eapply Hp|]. intros ->. destruct He as [[_ ->]|[? _]]; [exact Hl|done].
Qed.

Lemma stage_root_wp s :
  wp (_stage_docker_root cfg work)
    (fun p s' => p = stage work /\ exists pulls k l t m, (k < 60)%nat /\ fetches_image pulls /\ probing k l /\ stopping m /\
       trace s' = trace s ++ pulls ++ Spawned (dockerd_argv work) :: l ++
         [Tried info_argv 0; Ran (load_argv image_tar) None [] t 0] ++ m ++ [Slept 3])
    (fun e s' => adds (Forall is_ran) s s' \/
       exists pulls l m, fetches_image pulls /\ Forall (fun e => forall a, e <> Spawned a) l /\ stopping m /\
         (e = Bootstrap DockerdNotReady -> probing 60 l) /\
         trace s' = trace s ++ pulls ++ Spawned (dockerd_argv work) :: l ++ m) s.
Proof.
  unfold _stage_docker_root. apply wp_bind.
  eapply wp_mono; [apply wp_quiet, on_bfs_quiet| |]; cbn beta.
  2:{ intros e s1 Hq. left. exists []. rewrite app_nil_r. by split. }
  intros _ s1 H1. apply wp_bind.
  eapply wp_mono; [apply image_tarball_wp| |]; cbn beta.
  2:{ intros e s2 H2. left. by apply (adds_from _ s1). }
  intros tar s2 [-> (pulls & H2 & Hpulls)]. rewrite H1 in H2. apply wp_bind. unfold tell. apply wp_modify. cbn beta.
  set (s3 := mkB _ _ _ _ _ _ _ _). assert (trace s3 = trace s2) as H3 by done. clearbody s3.
  assert (Forall is_ran pulls) as Hran by (destruct Hpulls; by repeat constructor).
  apply wp_bind. unfold spawn. apply wp_bind.
  eapply wp_mono; [apply wp_quiet, on_bfs_quiet| |]; cbn beta.
  2:{ intros e s4 H4. left. exists pulls. rewrite H4, H3. by split. }
  intros _ s4 H4. rewrite H3, H2 in H4. clear H3. unfold wp at 1, popen.
  destruct (tool_run _ _ _ _ _) as [[rc t]|]; [|left; exists pulls; by split].
  set (s5 := set_btree _ _). assert (trace s5 = trace s4 ++ [Spawned (dockerd_argv work)]) as H5 by done. clearbody s5.
  rewrite H4, <- !app_assoc in H5. apply wp_bind.
  eapply wp_mono; [apply daemon_wp| |]; cbn beta.
  - intros _ s6 (k & l & t' & m & Hk & Hl & Hm & H6). apply wp_bind. unfold _sleep. apply wp_modify, wp_ret.
    split; [done|]. exists pulls, k, l, t', m. split_and!; [done..|]. simpl. rewrite H6, H5. by rewrite <- !app_assoc.
  - intros e s6 (l & m & H6 & Hm & Hl & He). right. exists pulls, l, m. split_and!; [done..|].
    rewrite H6, H5. by rewrite <- !app_assoc.
Qed.
End staging.

(** ** The assembly, event by event *)

Section events.
Context {Y : Layout} {W : Web} {Z' : Zstd} {T : BuildTools}.
Variable P : list event -> Prop.
Context `{HP : !Closed P}.
Hypothesis ran : forall argv d e t rc, argv !! 1%nat <> Some "-q" -> P [Ran argv d e t rc].
Hypothesis captured : forall argv rc, P [Captured argv rc].
Variable cfg : _RootfsConfig.
Variable work : path.
Hypothesis staged : preserves (adds P) (_stage_docker_root cfg work).

#[local] Hint Extern 1 (preserves _ (run _ _ _)) => apply (run_adds P); intros; apply ran; simpl; congruence : built.
#[local] Hint Extern 1 (preserves _ (run_here _)) => apply (run_adds P); intros; apply ran; simpl; congruence : built.
#[local] Hint Extern 1 (preserves _ (capture _)) => apply (capture_adds P); intros; apply captured : built.

Lemma copy_libs_adds b : preserves (adds P) (_copy_libs work b).
Proof. unfold _copy_libs. adds_steps. apply preserves_each; [exact _|]. adds_steps. Qed.
#[local] Hint Resolve copy_libs_adds : built.

Lemma fetch_static_adds : preserves (adds P) (_fetch_static_bundle cfg work).
Proof. unfold _fetch_static_bundle, _verify_static_bundle_digest, unpack_bundle. adds_steps. Qed.

Lemma stage_adbprobe_adds : preserves (adds P) (_stage_adbprobe cfg work).
Proof. unfold _stage_adbprobe. adds_steps. Qed.

Lemma stage_busybox_adds : preserves (adds P) (_stage_busybox cfg work).
Proof. unfold _stage_busybox, link_applet. adds_steps. apply preserves_each; [exact _|]. adds_steps. Qed.

Lemma stage_iptables_adds : preserves (adds P) (_stage_iptables cfg work).
Proof. unfold _stage_iptables. adds_steps. apply preserves_each; [exact _|]. adds_steps. Qed.

Lemma stage_binaries_adds : preserves (adds P) (_stage_docker_binaries work).
Proof. unfold _stage_docker_binaries. adds_steps. apply preserves_each; [exact _|]. adds_steps. Qed.

Lemma skeleton_adds : preserves (adds P) (skeleton work).
Proof. apply preserves_each; [exact _|]. adds_steps. Qed.

#[local] Hint Resolve fetch_static_adds stage_adbprobe_adds stage_busybox_adds stage_iptables_adds
  stage_binaries_adds skeleton_adds staged : built.

Lemma build_tree_adds : preserves (adds P) (_build_tree cfg work).
Proof. unfold _build_tree, _stage_socat. adds_steps. Qed.

Lemma verify_marker_adds : preserves (adds P) (_verify_guest_image_marker work).
Proof. unfold _verify_guest_image_marker. adds_steps. Qed.

Lemma write_marker_adds : preserves (adds P) (_write_version_marker cfg).
Proof. unfold _write_version_marker. adds_steps. Qed.

Lemma build_adds : (forall t rc, P [Ran (pack_argv cfg work) None [] t rc]) -> preserves (adds P) (build_ cfg work).
Proof.
  intros Hp. pose proof build_tree_adds. pose proof verify_marker_adds. pose proof write_marker_adds.
  unfold build_, _pack_image. adds_steps; auto. by apply run_adds.
Qed.
End events.

(** ** What started is stopped *)

(** Every process that was started is stopped later. *)
Definition reaped (l : list event) : Prop := forall l1 a l2, l = l1 ++ Spawned a :: l2 -> Stopped a ∈ l2.

Definition not_spawned (e : event) : Prop := forall a, e <> Spawned a.

Lemma not_spawned_reaped l : Forall not_spawned l -> reaped l.
Proof.
  intros Hl l1 a l2 ->. apply Forall_app in Hl as [_ Hl]. apply Forall_cons in Hl as [Hl _]. by destruct (Hl a).
Qed.

Lemma reaped_app l l' : reaped l -> reaped l' -> reaped (l ++ l').
Proof.
  intros Hl Hl' l1 a l2 H. apply app_eq_inv in H as [(k & -> & H)|(k & -> & ->)]; [|by eapply Hl'].
  destruct k as [|e k]; simpl in H.
  - eapply (Hl' [] a l2). by rewrite H.
  - injection H as <- ->. apply elem_of_app. left. by eapply Hl.
Qed.

#[export] Instance reaped_closed : Closed reaped.
Proof. split; [by intros [|? ?]|apply reaped_app]. Qed.

Lemma reaped_run a l : Forall not_spawned l -> Stopped a ∈ l -> reaped (Spawned a :: l).
Proof.
  intros Hl Ha [|e l1] b l2 H; simpl in H; injection H as Hb Hr; [by rewrite <- Hb, <- Hr|].
  by eapply (not_spawned_reaped _ Hl l1 b l2).
Qed.

Lemma ran_not_spawned l : Forall is_ran l -> Forall not_spawned l.
Proof. intros H. eapply Forall_impl; [exact H|]. by intros []. Qed.

Section reaping.
Context {Y : Layout} {W : Web} {Z' : Zstd} {T : BuildTools}.

Lemma probing_not_spawned work k l : probing work k l -> Forall not_spawned l.
Proof. induction 1; repeat constructor; done. Qed.

Lemma fetches_not_spawned cfg work l : fetches_image cfg work l -> Forall not_spawned l.
Proof. destruct 1; repeat constructor; done. Qed.

Lemma stopping_reaps work m : stopping work m -> Forall not_spawned m /\ Stopped (dockerd_argv work) ∈ m.
Proof. intros [[] ->]; (split; [repeat constructor; done|set_solver]). Qed.

Lemma stage_root_reaped cfg work : preserves (adds reaped) (_stage_docker_root cfg work).
Proof.
  intros s. pose proof (stage_root_wp cfg work s) as H. unfold wp in H.
  destruct (_stage_docker_root cfg work s) as [[p|e] s']; cbn [snd].
  - destruct H as (_ & pulls & k & l & t & m & _ & Hp & Hl & Hm & Ht). destruct (stopping_reaps _ _ Hm) as [Hns Hin].
    eexists. split; [exact Ht|].
    apply reaped_app; [by eapply not_spawned_reaped, fetches_not_spawned|]. apply reaped_run; [|set_solver].
    apply Forall_app. split; [by eapply probing_not_spawned|]. repeat (constructor; [done|]).
    apply Forall_app. split; [exact Hns|repeat constructor; done].
  - destruct H as [(l & Ht & Hl)|(pulls & l & m & Hp & Hl & Hm & _ & Ht)]; eexists; (split; [exact Ht|]).
    + by apply not_spawned_reaped, ran_not_spawned.
    + destruct (stopping_reaps _ _ Hm) as [Hns Hin].
      apply reaped_app; [by eapply not_spawned_reaped, fetches_not_spawned|]. apply reaped_run; [|set_solver].
      apply Forall_app. by split.
Qed.

Lemma stage_root_grows cfg work : preserves (adds (fun _ => True)) (_stage_docker_root cfg work).
Proof. intros s. destruct (stage_root_reaped cfg work s) as (l & Ht & _). by exists l. Qed.

Lemma build_reaped cfg work : preserves (adds reaped) (build_ cfg work).
Proof.
  assert (forall e, not_spawned e -> reaped [e]) as H1 by (intros; apply not_spawned_reaped; by constructor).
  apply build_adds; [..|intros; by apply H1]; first [exact _|by apply stage_root_reaped|intros; by apply H1].
Qed.
End reaping.

(** ** What is unpacked has been checked *)

Section downloads.
Context {Y : Layout} {W : Web} {Z' : Zstd} {T : BuildTools}.

Lemma from_env_reads out dir v s : snd (from_env out dir v s) = s.
Proof.
  unfold from_env, getenv_or, getenv_nonempty, getenv, mbind, M_bind, gets, lift, mret, M_ret. simpl.
  by destruct (_parse_image_size_mb _).
Qed.

(** The configuration a build resolves: what it reads is the environment. *)
Definition resolved out dir v s : result build_error _RootfsConfig := fst (from_env out dir v s).

Lemma from_env_run out dir v s : from_env out dir v s = (resolved out dir v s, s).
Proof. unfold resolved. pose proof (from_env_reads out dir v s). by destruct (from_env _ _ _ s); simpl in *; subst. Qed.

Definition rootfs_work s : path := temp_root ++ [temp_name (b_fs s) temp_root "beetroot-rootfs-" ""].
Definition kernel_work s : path := temp_root ++ [temp_name (b_fs s) temp_root "beetroot-kernel-src-" ""].

Definition has_digest (p : path) (digest : string) (t : btree) : Prop :=
  exists c, contents t p = Some c /\ Download.sha256_hex c = digest.

Definition fetch_bundle cfg work : list string := ["curl"; "-fsSL"; docker_url cfg; "-o"; path_str (tgz work)].
Definition fetch_kernel work : list string :=
  ["curl"; "-fsSL"; _kernel_source_url KERNEL_VERSION; "-o"; path_str (tarball work)].

Lemma check_digest_wp p (digest : string) why s :
  wp (bytes ← read_b p; lift (raise_if (negb (String.eqb (Download.sha256_hex bytes) digest)) (why bytes)) : BM unit)
    (fun _ s1 => has_digest p digest (b_tree s1)) (fun _ _ => True) s.
Proof.
  apply wp_bind, read_b_wp; [|done]. intros c Hc. apply wp_lift; [|done].
  intros ? He%raise_if_ok. apply negb_false_iff, String.eqb_eq in He. by exists c.
Qed.

Lemma verify_bundle_quiet cfg work : preserves quiet (_verify_static_bundle_digest cfg work).
Proof. unfold _verify_static_bundle_digest. adds_steps. Qed.

Lemma fetch_bundle_wp cfg work d s : docker_url_sha256 cfg = Some d ->
  wp (_fetch_static_bundle cfg work)
    (fun _ s' => after_unpack (fetch_bundle cfg work) (unpack_bundle work) (has_digest (tgz work) d) s s')
    (fun _ s' => adds (checked_first (fetch_bundle cfg work) (unpack_bundle work) (has_digest (tgz work) d)) s s') s.
Proof.
  intros Hd. unfold _fetch_static_bundle. apply wp_bind. unfold tell at 1. apply wp_modify. cbn beta.
  set (s1 := mkB _ _ _ _ _ _ _ _).
  assert (trace s1 = trace s) as Ht by done. clearbody s1.
  assert (forall m m' Q R, (forall s, m s = m' s) -> wp m' Q R s1 -> wp (m : BM unit) Q R s1) as Heq.
  { intros m m' Q R Hm. unfold wp. by rewrite Hm. }
  eapply (Heq _ (run_here (fetch_bundle cfg work) ;;
    (_verify_static_bundle_digest cfg work ;; on_bfs (mkdir_p (docker_extract work))) ;; run_here (unpack_bundle work))).
  { intros s0. unfold mbind, M_bind, fetch_bundle. destruct (run_here _ s0) as [[]?]; [|done].
    by destruct (_verify_static_bundle_digest cfg work b) as [[]?]. }
  eapply wp_mono; [apply checked_fetch|intros ? ?; by apply adds_from|intros ? ?; by apply adds_from].
  - adds_steps. apply verify_bundle_quiet.
  - intros s2. unfold _verify_static_bundle_digest. rewrite Hd. apply wp_bind.
    eapply wp_mono; [apply (check_digest_wp (tgz work) d (fun b => Bootstrap (BundleMismatch d (Download.sha256_hex b))))| |done].
    intros _ s3 (c & Hc & Hs). pose proof (mkdir_contents (docker_extract work) _ _ s3 Hc) as Hm.
    unfold wp. destruct (on_bfs _ s3) as [[[]|e] s4]; [|done]. by exists c.
Qed.

Lemma build_checked cfg work d s : docker_url_sha256 cfg = Some d ->
  adds (checked_first (fetch_bundle cfg work) (unpack_bundle work) (has_digest (tgz work) d)) s (snd (build_ cfg work s)).
Proof.
  intros Hd. pose proof (fetch_bundle_wp cfg work d s Hd) as Hf. unfold build_, wp in *.
  unfold mbind at 1, M_bind at 1. destruct (_fetch_static_bundle cfg work s) as [[[]|e] s1]; [|done].
  apply (after_unpack_grows _ _ _ _ _ _ Hf).
  pose proof (build_tree_adds (fun _ => True) ltac:(done) ltac:(done) cfg work (stage_root_grows cfg work)).
  pose proof (verify_marker_adds (fun _ => True) work). pose proof (write_marker_adds (fun _ => True) cfg).
  revert s1 Hf. intros s1 _. revert s1.
  change (preserves grows (_build_tree cfg work ;; _verify_guest_image_marker work ;; _write_version_marker cfg ;;
    _pack_image cfg work ;; mret (out_image cfg))).
  unfold _pack_image. adds_steps; auto. by apply run_adds.
Qed.

(** C7. Nothing of the Docker bundle is unpacked, let alone run, before its digest is the pinned
    one: when the configuration pins a digest, the first command of a root file system build
    fetches the bundle, and the second, if the build gets that far, unpacks it from a tree
    whose tarball has that digest. *)
Theorem bundle_checked_first out dir v s cfg d :
  resolved out dir v s = Ok cfg -> docker_url_sha256 cfg = Some d ->
  adds (checked_first (fetch_bundle cfg (rootfs_work s)) (unpack_bundle (rootfs_work s)) (has_digest (tgz (rootfs_work s)) d))
    s (snd (build_rootfs out dir v s)).
Proof.
  intros Hc Hd. unfold build_rootfs. rewrite (M_bind_ok _ _ s cfg s) by (by rewrite from_env_run, Hc).
  apply with_work_dir_adds; [constructor|]. intros s1 _. by apply build_checked.
Qed.

(** Without [DOCKER_VERSION], [DOCKER_URL] and [DOCKER_SHA256] the digest is the built-in one. *)
Lemma default_bundle_pinned out dir v s cfg : resolved out dir v s = Ok cfg ->
  Dict.get "DOCKER_VERSION" (environ s) = None -> Dict.get "DOCKER_URL" (environ s) = None ->
  Dict.get "DOCKER_SHA256" (environ s) = None -> docker_url_sha256 cfg = Some _DEFAULT_DOCKER_BUNDLE_SHA256.
Proof.
  unfold resolved, from_env, getenv_or, getenv_nonempty, getenv, mbind, M_bind, gets, lift, mret, M_ret. simpl.
  intros H H1 H2 H3. rewrite H1, H2, H3 in H. destruct (_parse_image_size_mb _); simpl in H; [|done].
  by injection H as <-.
Qed.

(** C32. The kernel sources are not unpacked, and no script of theirs is run, before the tarball
    has the digest of the pinned version: the first command of a kernel build fetches them,
    and the second, if the build gets that far, unpacks them from a tree whose tarball has
    that digest. *)
Theorem kernel_source_checked_first kernel_config kernel_out s :
  adds (checked_first (fetch_kernel (kernel_work s)) (unpack_kernel (kernel_work s))
          (has_digest (tarball (kernel_work s)) KERNEL_SOURCE_SHA256))
    s (snd (compile_kernel kernel_config kernel_out s)).
Proof.
  unfold compile_kernel. apply with_work_dir_adds; [constructor|]. intros s1 _. fold (kernel_work s). set (work := kernel_work s).
  set (script := compile_script kernel_config kernel_out).
  set (told := snd (tell (Info ("fetching kernel source " +:+ _kernel_source_url KERNEL_VERSION)) s1)).
  apply (adds_from _ told); [done|].
  set (m := (run_here (fetch_kernel work) ;; _verify_kernel_source_digest (tarball work) ;; run_here (unpack_kernel work)) : BM unit).
  assert (wp m (fun _ s' => after_unpack (fetch_kernel work) (unpack_kernel work) (has_digest (tarball work) KERNEL_SOURCE_SHA256) told s')
    (fun _ s' => adds (checked_first (fetch_kernel work) (unpack_kernel work) (has_digest (tarball work) KERNEL_SOURCE_SHA256)) told s') told) as Hf.
  { apply checked_fetch; [unfold _verify_kernel_source_digest; adds_steps|]. intros s3.
    apply (check_digest_wp (tarball work) KERNEL_SOURCE_SHA256
      (fun b => Bootstrap (KernelMismatch KERNEL_SOURCE_SHA256 (Download.sha256_hex b)))). }
  assert (snd ((src ← _fetch_kernel_source work; run ["sh"; "-c"; script] (Some src) []) s1) =
    snd ((m ;; run ["sh"; "-c"; script] (Some (work ++ ["linux-" +:+ KERNEL_VERSION])) []) told)) as ->.
  { unfold m, _fetch_kernel_source, mbind, M_bind, fetch_kernel, told, tell, modify. simpl snd. cbv beta iota.
    set (s2 := mkB _ _ _ _ _ _ _ _). destruct (run_here _ s2) as [[]?]; [|done].
    destruct (_verify_kernel_source_digest _ b) as [[]?]; [|done]. by destruct (run_here _ b0) as [[]?]. }
  clearbody told. unfold wp in Hf. unfold mbind, M_bind. destruct (m told) as [[[]|e] s2]; [|exact Hf].
  eapply after_unpack_grows; [exact Hf|]. by apply (run_adds (fun _ => True)).
Qed.

(** C22. The staging daemon never outlives the build: in every run of a root file system build,
    whatever its outcome, each process that was started is stopped later: it is sent
    SIGTERM, SIGKILL when it has not ended five seconds later, and its end is waited for. *)
Theorem staging_daemon_stopped out dir v s : adds reaped s (snd (build_rootfs out dir v s)).
Proof.
  unfold build_rootfs, mbind, M_bind. rewrite from_env_run. destruct (resolved out dir v s) as [cfg|e]; [|reflexivity].
  apply with_work_dir_adds; [apply closed_nil|]. intros s1 _. apply build_reaped.
Qed.

(** The life of the staging daemon: it is started after the image is at hand, probed at most
    sixty times a second apart until it answers, given the image once, and stopped; when it
    never answers it is stopped after exactly sixty failed probes, and nothing is loaded. *)
Theorem staging_sequence cfg work s :
  match _stage_docker_root cfg work s with
  | (Ok p, s') => p = stage work /\ exists pulls k l t m, (k < 60)%nat /\ fetches_image cfg work pulls /\ probing work k l /\
      stopping work m /\
      trace s' = trace s ++ pulls ++ Spawned (dockerd_argv work) :: l ++
        [Tried (info_argv work) 0; Ran (load_argv work (image_tar cfg work)) None [] t 0] ++ m ++ [Slept 3]
  | (Err e, s') => adds (Forall is_ran) s s' \/
      exists pulls l m, fetches_image cfg work pulls /\ Forall (fun e => forall a, e <> Spawned a) l /\
        stopping work m /\ (e = Bootstrap DockerdNotReady -> probing work 60 l) /\
        trace s' = trace s ++ pulls ++ Spawned (dockerd_argv work) :: l ++ m
  end.
Proof. exact (stage_root_wp cfg work s). Qed.
End downloads.
