(* ===== verification/BuildSpecs.v ===== *)
(** * What the builds promise

    The markers of a packed root file system, the applets of the guest, the version that is
    read back from an image, the commands of a base image build under their lock, and the
    reports of the preflights. *)
From stdpp Require Import base list strings gmap sorting.
From Stdlib Require Import ZArith Lia Ascii.
From S2P Require Import Prelude PyStr Config Qemu HostFs Paths Download KernelDownload RootfsDownload Shell Adb AdbOps BootCache BuildBase Bake Build BuildOps.
Local Open Scope stdpp_scope.
Local Open Scope Z_scope.

(** ** Links *)

(** None of [ps] is a link. *)
Definition unlinked (ps : list path) (s : bstate) : Prop := forall p, p ∈ ps -> t_links (b_tree s) !! p = None.

Section links.
Context {Y : Layout} {W : Web} {Z' : Zstd} {T : BuildTools}.
Variable ps : list path.
Abbreviation keeps_unlinked := (preserves (carries (unlinked ps))).

Lemma relinks {B} (m : BM B) :
  (forall s, t_links (b_tree (snd (m s))) = t_links (b_tree s)) -> keeps_unlinked m.
Proof. intros H s Hs p Hp. rewrite H. by apply Hs. Qed.

Lemma tell_links l : keeps_unlinked (tell l).
Proof. by apply relinks. Qed.
Lemma on_bfs_links {B} (m : M HostFs.fs os_error B) : keeps_unlinked (on_bfs m).
Proof. apply relinks. intros s. unfold on_bfs, zoom. by destruct (m (b_fs s)) as [[a|e] f]. Qed.
Lemma followed_links p : keeps_unlinked (followed p).
Proof. apply relinks. intros s. unfold followed. by case_match. Qed.
Lemma read_at_links p : keeps_unlinked (read_at p).
Proof. apply relinks. intros s. unfold read_at. by case_match. Qed.
Lemma record_links e : keeps_unlinked (modify (record_ e) : BM unit).
Proof. by apply relinks. Qed.
Lemma capture_links argv : keeps_unlinked (capture argv).
Proof.
  apply relinks. intros s. unfold capture. destruct (tool_capture _ _ _) as [[rc [out|]]|]; try done.
  by destruct (rc =? 0).
Qed.

Lemma modify_links f : (forall s p, p ∈ ps -> t_links (b_tree s) !! p = None -> t_links (b_tree (f s)) !! p = None) ->
  keeps_unlinked (modify f : BM unit).
Proof. intros H s Hs p Hp. apply H; [done|]. by apply Hs. Qed.
End links.

#[export] Hint Resolve tell_links on_bfs_links followed_links read_at_links record_links capture_links : linked.

Ltac links_leaf := first [ apply modify_links; intros; done | solve [eauto 2 with linked nocore] ].
Ltac links_steps := repeat walk_step links_leaf.

Section linking.
Context {Y : Layout} {W : Web} {Z' : Zstd} {T : BuildTools}.
Variable ps : list path.
Abbreviation keeps_unlinked := (preserves (carries (unlinked ps))).

Lemma read_b_links p : keeps_unlinked (read_b p).
Proof. unfold read_b. links_steps. Qed.
Lemma write_b_links p c : keeps_unlinked (write_b p c).
Proof. unfold write_b. links_steps. Qed.
#[local] Hint Resolve read_b_links : linked.
Lemma copy_links a b : keeps_unlinked (copy a b).
Proof. unfold copy. links_steps. Qed.
Lemma chmod_links p m : keeps_unlinked (chmod p m).
Proof. unfold chmod. links_steps. Qed.
#[local] Hint Resolve copy_links chmod_links : linked.
Lemma install_links a b : keeps_unlinked (install a b).
Proof. unfold install. links_steps. Qed.
Lemma copy_lib_links a b : keeps_unlinked (_copy_lib_file a b).
Proof. unfold _copy_lib_file. links_steps. Qed.
Lemma symlink_links target link : link ∉ ps -> keeps_unlinked (_symlink target link).
Proof.
  intros Hl. unfold _symlink. repeat walk_step links_leaf; apply modify_links; intros s p Hp Hs; simpl.
  - rewrite lookup_delete_None. by right.
  - rewrite lookup_insert_ne; [done|]. by intros <-.
Qed.

(** What [resolve] makes of an applet name. *)
Lemma resolve_applet d a : plain a -> resolve d a = d ++ [a].
Proof.
  intros (Hd & Hn & Hs). unfold resolve, components. rewrite (split_on_free _ _ Hs).
  assert (starts_with "/" a = false) as ->.
  { destruct a as [|c a]; [done|]. change (starts_with "/" (String c a)) with (if ascii_dec "/" c then String.prefix "" a else false).
    destruct (ascii_dec "/" c) as [<-|]; [cbn in Hs; set_solver|done]. }
  apply norm_plain. by repeat constructor.
Qed.

(** External commands make no link at the paths [ps]. *)
Hypothesis tools_leave : forall tr argv d e t rc t', tool_run tr argv d e t = Some (rc, t') ->
  forall p, p ∈ ps -> t_links t !! p = None -> t_links t' !! p = None.

Lemma run_links argv d e : keeps_unlinked (run argv d e).
Proof.
  intros s Hs. unfold run. destruct (tool_run _ _ _ _ _) as [[rc t]|] eqn:Ht; [|done].
  intros p Hp. pose proof (tools_leave _ _ _ _ _ _ _ Ht p Hp (Hs p Hp)). by destruct (rc =? 0).
Qed.
Lemma run_here_links argv : keeps_unlinked (run_here argv).
Proof. apply run_links. Qed.
Lemma try_run_links argv : keeps_unlinked (try_run argv).
Proof.
  intros s Hs. unfold try_run. destruct (tool_run _ _ _ _ _) as [[rc t]|] eqn:Ht; [|done].
  intros p Hp. exact (tools_leave _ _ _ _ _ _ _ Ht p Hp (Hs p Hp)).
Qed.
Lemma popen_links argv : keeps_unlinked (popen argv).
Proof.
  intros s Hs. unfold popen. destruct (tool_run _ _ _ _ _) as [[rc t]|] eqn:Ht; [|done].
  intros p Hp. exact (tools_leave _ _ _ _ _ _ _ Ht p Hp (Hs p Hp)).
Qed.
#[local] Hint Resolve run_links run_here_links try_run_links popen_links install_links copy_lib_links write_b_links : linked.

Variable cfg : _RootfsConfig.
Variable work : path.
Hypothesis apart : forall d p, p ∈ ps -> p <> root_ work ++ ["bin"; d] /\ p <> root_ work ++ ["usr"; "sbin"; d].
Hypothesis applets : forall tr t rc out, tool_capture tr [pure_path (busybox_bin cfg); "--list"] t = Some (rc, Some out) ->
  Forall plain (split_ws out).

Lemma applet_link a : plain a -> resolve (root_ work ++ ["bin"]) a ∉ ps.
Proof. intros Ha Hp. rewrite resolve_applet, <- app_assoc in Hp by done. by destruct (apart a _ Hp) as [[] _]. Qed.

Lemma stage_busybox_links : keeps_unlinked (_stage_busybox cfg work).
Proof.
  unfold _stage_busybox. apply preserves_bind; [exact _|links_steps|]. intros _. apply preserves_bind; [exact _|links_steps|].
  intros _. apply preserves_bind_post with (Q := fun l => Forall plain (split_ws l)); [exact _|links_steps|..].
  - intros s l. unfold capture. destruct (tool_capture _ _ _) as [[rc [out|]]|] eqn:Ht; [|done..].
    destruct (rc =? 0); [|done]. intros [= <-]. by eapply applets.
  - intros l Hl. apply preserves_each; [exact _|]. intros a Ha. unfold link_applet. links_steps.
    apply symlink_links, applet_link. by eapply Forall_forall in Ha.
Qed.

Lemma stage_iptables_links : keeps_unlinked (_stage_iptables cfg work).
Proof.
  unfold _stage_iptables, _copy_libs. links_steps; try (apply preserves_each; [exact _|]); links_steps;
    apply symlink_links; intros Hp; by eapply apart.
Qed.

Lemma wait_ready_links n : keeps_unlinked (_wait_docker_ready work n).
Proof. induction n; simpl; unfold _sleep; links_steps. Qed.

Lemma stage_root_links : keeps_unlinked (_stage_docker_root cfg work).
Proof. unfold _stage_docker_root, image_tarball, spawn, stop, _sleep. links_steps. apply wait_ready_links. Qed.

Lemma stage_binaries_links : keeps_unlinked (_stage_docker_binaries work).
Proof. unfold _stage_docker_binaries. links_steps. apply preserves_each; [exact _|]. links_steps. Qed.

Lemma stage_socat_links : keeps_unlinked (_stage_socat cfg work).
Proof. unfold _stage_socat, _copy_libs. links_steps. apply preserves_each; [exact _|]. links_steps. Qed.

Lemma stage_adbprobe_links : keeps_unlinked (_stage_adbprobe cfg work).
Proof. unfold _stage_adbprobe. links_steps. Qed.
End linking.

#[export] Hint Resolve read_b_links write_b_links copy_links chmod_links install_links copy_lib_links : linked.

(** ** The markers of a packed image *)

Section writes.
Context {Y : Layout} {W : Web} {Z' : Zstd} {T : BuildTools}.

Lemma follow_unlinked n t p : t_links t !! p = None -> follow n t p = Some p.
Proof. intros H. destruct n; simpl; by rewrite H. Qed.

Lemma on_bfs_wp {B} (m : M HostFs.fs os_error B) (Q : B -> bstate -> Prop) (R : build_error -> bstate -> Prop) s :
  (match m (b_fs s) with (Ok a, f) => Q a (set_bfs f s) | (Err e, f) => R (BOs e) (set_bfs f s) end) -> wp (on_bfs m) Q R s.
Proof. unfold wp, on_bfs, zoom. by destruct (m (b_fs s)) as [[a|e] f]. Qed.

Lemma write_b_wp q c s : t_links (b_tree s) !! q = None ->
  wp (write_b q c) (fun _ s' => b_fs s' = <[q := FileN c]> (b_fs s)) (fun _ _ => True) s.
Proof.
  intros Hq. unfold write_b. apply wp_bind. unfold wp at 1, followed. rewrite follow_unlinked by done.
  apply on_bfs_wp. destruct (write_file q c (b_fs s)) as [[[]|e] f] eqn:Hw; [|done].
  by apply write_file_ok in Hw as [-> _].
Qed.

(** A copy changes the one file it is made to. *)
Lemma copy_wp src dst s : t_links (b_tree s) !! dst = None -> t_links (b_tree s) !! (dst ++ [path_name src]) = None ->
  wp (copy src dst) (fun _ s' => only [dst; dst ++ [path_name src]] (b_fs s) (b_fs s')) (fun _ _ => True) s.
Proof.
  intros H1 H2. unfold copy. apply wp_bind, wp_gets. set (d := if is_dir_b (b_tree s) dst then _ else _).
  assert (t_links (b_tree s) !! d = None /\ d ∈ [dst; dst ++ [path_name src]]) as [Hd Hin].
  { unfold d. destruct (is_dir_b _ _); split; set_solver. }
  clearbody d. apply wp_bind. unfold wp at 1, followed. destruct (follow 40 (b_tree s) src) as [a|]; [|done].
  apply wp_bind, read_b_wp; [|done]. intros c _. apply wp_bind. unfold wp at 1. rewrite follow_unlinked by done.
  apply wp_bind, wp_lift; [|done]. intros [] _. apply wp_bind, on_bfs_wp.
  pose proof (write_file_only d c (b_fs s)) as Hw. destruct (write_file d c (b_fs s)) as [[[]|e] f]; [|done].
  apply wp_modify. simpl in Hw. eapply only_mono; [|exact Hw]. set_solver.
Qed.

Lemma chmod_fs p m s : b_fs (snd (chmod p m s)) = b_fs s.
Proof.
  unfold chmod, mbind, M_bind, followed, gets, lift, modify. destruct (follow 40 (b_tree s) p); [|done].
  by destruct (raise_if _ _).
Qed.

Lemma install_wp src dst s : t_links (b_tree s) !! dst = None -> t_links (b_tree s) !! (dst ++ [path_name src]) = None ->
  wp (install src dst) (fun _ s' => only [dst; dst ++ [path_name src]] (b_fs s) (b_fs s')) (fun _ _ => True) s.
Proof.
  intros H1 H2. unfold install. apply wp_bind. eapply wp_mono; [by apply copy_wp| |done]. cbn beta.
  intros _ s1 Ho. pose proof (chmod_fs dst MODE_755 s1) as Hc. unfold wp. destruct (chmod _ _ s1) as [[[]|e] s2]; [|done].
  simpl in Hc. by rewrite Hc.
Qed.
End writes.

Section markers.
Context {Y : Layout} {W : Web} {Z' : Zstd} {T : BuildTools}.
Variable cfg : _RootfsConfig.
Variable work : path.

Definition guest_marker : path := _guest_image_marker work.
Definition host_marker : path := rootfs_version_marker (out_image cfg).
Definition guest_init : path := root_ work ++ ["init"].
Definition marker_paths : list path := [guest_marker; host_marker; guest_init; guest_init ++ ["guest-init.sh"]].

(** A tree whose guest carries the name of the image baked into it, beside the version that
    the host reads, which is the one the image is tagged with. *)
Definition marked (t : btree) : Prop :=
  t_fs t !! guest_marker = Some (FileN (line_of (redroid_image cfg))) /\
  exists v, _major_version_from_image (redroid_image cfg) = Ok v /\ t_fs t !! host_marker = Some (FileN (line_of (str_of_Z v))).

(** Only a marked tree is packed. *)
Definition packs_marked (e : event) : Prop :=
  match e with Ran argv _ _ before _ => argv = pack_argv cfg work -> marked before | _ => True end.

Hypothesis tools_leave : forall tr argv d e t rc t', tool_run tr argv d e t = Some (rc, t') ->
  forall p, p ∈ marker_paths -> t_links t !! p = None -> t_links t' !! p = None.
Hypothesis applets : forall tr t rc out, tool_capture tr [pure_path (busybox_bin cfg); "--list"] t = Some (rc, Some out) ->
  Forall plain (split_ws out).
Hypothesis marker_apart : ~ work `prefix_of` host_marker.

Lemma under_work l : work `prefix_of` root_ work ++ l.
Proof. unfold root_. rewrite <- app_assoc. by eexists. Qed.

Lemma links_apart d p : p ∈ marker_paths -> p <> root_ work ++ ["bin"; d] /\ p <> root_ work ++ ["usr"; "sbin"; d].
Proof.
  unfold marker_paths, guest_marker, guest_init, _guest_image_marker. rewrite !elem_of_cons, elem_of_nil, <- app_assoc.
  intros [->|[->|[->|[->|[]]]]]; split; try (intros He%(inj (app (root_ work))); simpl in He; congruence);
    intros He; apply marker_apart; rewrite He; apply under_work.
Qed.

Lemma markers_distinct : guest_marker ∉ [guest_init; guest_init ++ ["guest-init.sh"]] /\ guest_marker <> host_marker.
Proof.
  unfold guest_marker, guest_init, _guest_image_marker. split.
  - rewrite !elem_of_cons, elem_of_nil, <- app_assoc. intros [He|[He|[]]]; apply (inj (app (root_ work))) in He; simpl in He; congruence.
  - intros He. apply marker_apart. rewrite <- He. apply under_work.
Qed.

(** The tree up to the image, which leaves the marker paths alone. *)
Lemma before_marker_links :
  preserves (carries (unlinked marker_paths)) (skeleton work) /\
  preserves (carries (unlinked marker_paths)) (_stage_busybox cfg work) /\
  preserves (carries (unlinked marker_paths)) (_stage_docker_binaries work) /\
  preserves (carries (unlinked marker_paths)) (_stage_iptables cfg work) /\
  preserves (carries (unlinked marker_paths)) (_stage_socat cfg work) /\
  preserves (carries (unlinked marker_paths)) (_stage_adbprobe cfg work) /\
  preserves (carries (unlinked marker_paths)) (_stage_docker_root cfg work).
Proof.
  split_and!.
  - apply preserves_each; [exact _|]. intros. apply on_bfs_links.
  - apply stage_busybox_links; [exact links_apart|exact applets].
  - apply stage_binaries_links.
  - apply stage_iptables_links. exact links_apart.
  - apply stage_socat_links.
  - by apply stage_adbprobe_links.
  - by apply stage_root_links.
Qed.

Lemma carry {B C} (m : BM B) (k : B -> BM C) Q s :
  preserves (carries (unlinked marker_paths)) m -> unlinked marker_paths s ->
  (forall a s1, unlinked marker_paths s1 -> wp (k a) Q (fun _ _ => True) s1) -> wp (m ≫= k) Q (fun _ _ => True) s.
Proof.
  intros Hm Hs Hk. apply wp_bind. eapply wp_mono; [by apply (wp_carries (unlinked marker_paths))|exact Hk|done].
Qed.

Lemma build_tree_wp s : unlinked marker_paths s ->
  wp (_build_tree cfg work)
    (fun _ s' => unlinked marker_paths s' /\ b_fs s' !! guest_marker = Some (FileN (line_of (redroid_image cfg))))
    (fun _ _ => True) s.
Proof.
  intros Hs. destruct before_marker_links as (H1 & H2 & H3 & H4 & H5 & H6 & H7). unfold _build_tree.
  do 10 (apply carry; [first [assumption|apply tell_links|apply chmod_links]|assumption|clear dependent s; intros ? s Hs]).
  apply carry; [by apply run_here_links|done|]. clear dependent s. intros _ s Hs.
  apply carry; [apply tell_links|done|]. clear dependent s. intros _ s Hs.
  apply carry; [apply on_bfs_links|done|]. clear dependent s. intros _ s Hs.
  assert (forall p, p ∈ marker_paths -> t_links (b_tree s) !! p = None) as Hl by done.
  pose proof (Hl guest_marker ltac:(set_solver)) as Hg.
  apply wp_bind. eapply wp_mono; [eapply wp_and; [by apply write_b_wp|apply (wp_carries (unlinked marker_paths)); [apply write_b_links|done]]| |done].
  cbn beta. intros _ s1 [Hf Hs1]. apply wp_bind. unfold tell. apply wp_modify. cbn beta. set (s2 := mkB _ _ _ _ _ _ _ _).
  assert (unlinked marker_paths s2) as Hs2 by exact Hs1. assert (b_fs s2 = b_fs s1) as H12 by done. clearbody s2.
  assert (path_name (vm_asset cfg "guest-init.sh") = "guest-init.sh") as Hn by (unfold path_name, vm_asset; by rewrite last_snoc).
  pose proof (install_wp (vm_asset cfg "guest-init.sh") guest_init s2) as Hw. rewrite Hn in Hw.
  eapply wp_mono; [eapply wp_and; [apply Hw; apply Hs2; set_solver|
    apply (wp_carries (unlinked marker_paths)); [apply install_links|done]]| |done].
  cbn beta. intros _ s3 [Ho Hs3]. split; [done|]. eapply only_file; [exact Ho|apply markers_distinct|].
  rewrite H12, Hf. apply lookup_insert_eq.
Qed.

Lemma verify_marker_run s : snd (_verify_guest_image_marker work s) = s.
Proof.
  unfold _verify_guest_image_marker, read_b, followed, read_at, mbind, M_bind, gets, lift, mret, M_ret.
  destruct (is_file_b _ _); [|done]. destruct (follow 40 _ _); [|done]. by destruct (read_file _ _).
Qed.

Lemma write_marker_wp s : unlinked marker_paths s ->
  b_fs s !! guest_marker = Some (FileN (line_of (redroid_image cfg))) ->
  wp (_write_version_marker cfg) (fun _ s' => marked (b_tree s')) (fun _ _ => True) s.
Proof.
  intros Hs Hg. unfold _write_version_marker. apply wp_bind, wp_lift; [|done]. intros v Hv.
  apply wp_bind. unfold tell. apply wp_modify. cbn beta. set (s2 := mkB _ _ _ _ _ _ _ _).
  assert (t_links (b_tree s2) !! host_marker = None) as Hh by (apply Hs; set_solver).
  eapply wp_mono; [by apply write_b_wp| |done]. cbn beta. intros _ s3 Hf. split; change (t_fs (b_tree s3)) with (b_fs s3); rewrite Hf.
  - rewrite lookup_insert_ne; [exact Hg|]. symmetry. apply markers_distinct.
  - exists v. split; [done|]. apply lookup_insert_eq.
Qed.

Definition before_pack : BM unit :=
  _fetch_static_bundle cfg work ;; _build_tree cfg work ;; _verify_guest_image_marker work ;; _write_version_marker cfg.

Lemma build_split s : build_ cfg work s = (before_pack ;; _pack_image cfg work ;; mret (out_image cfg)) s.
Proof.
  unfold before_pack, build_, mbind, M_bind. destruct (_fetch_static_bundle _ _ s) as [[[]|e] s1]; [|done].
  destruct (_build_tree _ _ s1) as [[[]|e] s2]; [|done]. by destruct (_verify_guest_image_marker _ s2) as [[[]|e] s3].
Qed.

Lemma before_pack_adds : preserves (adds (Forall packs_marked)) before_pack.
Proof.
  assert (forall argv d e t rc, argv !! 1%nat <> Some "-q" -> Forall packs_marked [Ran argv d e t rc]) as Hr.
  { intros argv d e t rc Ha. apply Forall_singleton. simpl. intros ->. by destruct Ha. }
  assert (forall argv rc, Forall packs_marked [Captured argv rc]) as Hc by (intros; by repeat constructor).
  assert (preserves (adds (Forall packs_marked)) (_stage_docker_root cfg work)) as Hd.
  { assert (forall n, preserves (adds (Forall packs_marked)) (_wait_docker_ready work n)) as Hw.
    { induction n; simpl; unfold _sleep; adds_steps; first [assumption|apply try_run_adds|apply record_adds]; try exact _; intros; by apply Forall_singleton. }
    unfold _stage_docker_root, image_tarball, spawn, stop, _sleep. adds_steps; first [apply Hw|apply popen_adds|apply record_adds|apply run_adds];
      try exact _; intros; first [by apply Hr|by apply Forall_singleton]. }
  pose proof (fetch_static_adds _ Hr cfg work). pose proof (build_tree_adds _ Hr Hc cfg work Hd).
  pose proof (verify_marker_adds (Forall packs_marked) work). pose proof (write_marker_adds (Forall packs_marked) cfg).
  unfold before_pack. adds_steps; auto.
Qed.

Lemma before_pack_wp s : unlinked marker_paths s -> wp before_pack (fun _ s' => marked (b_tree s')) (fun _ _ => True) s.
Proof.
  intros Hs. unfold before_pack. apply carry; [|done|].
  { unfold _fetch_static_bundle, _verify_static_bundle_digest. links_steps; by apply run_here_links. }
  clear dependent s. intros _ s Hs. apply wp_bind. eapply wp_mono; [by apply build_tree_wp| |done]. cbn beta.
  intros _ s1 [Hs1 Hg]. apply wp_bind. pose proof (verify_marker_run s1) as Hv. unfold wp at 1.
  destruct (_verify_guest_image_marker work s1) as [[[]|e] s2]; [|done]. simpl in Hv. subst s2. by apply write_marker_wp.
Qed.

(** C14. The image that is packed says what is in it.  Given that none of the four paths is a
    link when the build starts, that the external commands make none there, and that the
    applets of busybox have plain names: in every outcome the file system is only ever
    packed from a tree whose guest marker holds the image's name and whose host marker
    holds the version of that very image, and a build that returns has packed it, last. *)
Theorem packed_image_markers s : unlinked marker_paths s ->
  adds (Forall packs_marked) s (snd (build_ cfg work s)) /\
  forall p s', build_ cfg work s = (Ok p, s') ->
    p = out_image cfg /\ exists before, last (trace s') = Some (Ran (pack_argv cfg work) None [] before 0) /\ marked before.
Proof.
  intros Hs. rewrite build_split. pose proof (before_pack_adds s) as Ha. pose proof (before_pack_wp s Hs) as Hm.
  unfold wp in Hm. unfold mbind at 1 3, M_bind at 1 3. destruct (before_pack s) as [[[]|e] s1]; [|by split].
  cbn [snd] in Ha.
  assert (wp (_pack_image cfg work ;; mret (out_image cfg))
    (fun p s' => adds (Forall packs_marked) s1 s' /\ p = out_image cfg /\
       exists before, last (trace s') = Some (Ran (pack_argv cfg work) None [] before 0) /\ marked before)
    (fun _ s' => adds (Forall packs_marked) s1 s') s1) as Hw.
  { unfold _pack_image. apply wp_bind, wp_bind. unfold tell. apply wp_modify. cbn beta. set (s2 := mkB _ _ _ _ _ _ _ _).
    assert (marked (b_tree s2)) as Hm2 by exact Hm. assert (trace s2 = trace s1) as Ht by done. clearbody s2.
    apply run_wp; [exists []; rewrite app_nil_r; by split|]. intros rc t s3 _.
    assert (adds (Forall packs_marked) s1 s3) as H3.
    { exists [Ran (pack_argv cfg work) None [] (b_tree s2) rc]. unfold s3. simpl. rewrite Ht. split; [done|]. apply Forall_singleton. by intros _. }
    destruct (Z.eqb_spec rc 0) as [->|]; [|done]. apply wp_ret. split_and!; [done..|]. exists (b_tree s2). split; [|done].
    unfold s3. simpl. by rewrite last_snoc. }
  unfold wp in Hw. destruct ((_pack_image cfg work ≫= _) s1) as [[p|e] s2]; cbn [snd].
  - destruct Hw as (H1 & H2 & H3). split; [by etransitivity|]. intros p' s' [= <- <-]. by split.
  - split; [by etransitivity|done].
Qed.
End markers.

(** ** The applets of the guest *)

Section applets.
Context {Y : Layout} {W : Web} {Z' : Zstd} {T : BuildTools}.
Variable cfg : _RootfsConfig.
Variable work : path.

Lemma read_keeps p s : snd (read_b p s) = s.
Proof.
  unfold read_b, followed, read_at, mbind, M_bind. destruct (follow 40 _ _); [|done]. by destruct (read_file _ _).
Qed.

Lemma install_exact src dst s : t_links (b_tree s) !! dst = None -> is_dir_at (b_fs s) dst = false ->
  wp (install src dst)
    (fun _ s' => exists c, contents (b_tree s) src = Some c /\ b_fs s' = <[dst := FileN c]> (b_fs s) /\
       t_links (b_tree s') = t_links (b_tree s) /\ t_modes (b_tree s') !! dst = Some MODE_755) (fun _ _ => True) s.
Proof.
  intros Hl Hd. unfold install, copy. apply wp_bind, wp_bind, wp_gets.
  assert (is_dir_b (b_tree s) dst = false) as -> by (unfold is_dir_b; by rewrite follow_unlinked).
  apply wp_bind. unfold wp at 1, followed. destruct (follow 40 (b_tree s) src) as [a|]; [|done].
  apply wp_bind, read_b_wp; [|done]. intros c Hc. apply wp_bind. unfold wp at 1. rewrite follow_unlinked by done.
  apply wp_bind, wp_lift; [|done]. intros [] _. apply wp_bind, on_bfs_wp.
  destruct (write_file dst c (b_fs s)) as [[[]|e] f] eqn:Hw; [|done]. apply write_file_ok in Hw as [-> _]. apply wp_modify.
  set (s1 := set_btree _ _). unfold chmod. apply wp_bind. unfold wp at 1, followed. rewrite follow_unlinked by done.
  apply wp_bind, wp_gets, wp_bind, wp_lift; [|done]. intros [] _. apply wp_modify. exists c. split_and!; [done..|].
  apply lookup_insert_eq.
Qed.

Lemma symlink_wp target link s :
  wp (_symlink target link)
    (fun _ s' => t_links (b_tree s') !! link = Some target /\ t_modes (b_tree s') = t_modes (b_tree s) /\
       forall q, q <> link -> t_links (b_tree s') !! q = t_links (b_tree s) !! q /\
         forall c, b_fs s !! q = Some (FileN c) -> b_fs s' !! q = Some (FileN c)) (fun _ _ => True) s.
Proof.
  unfold _symlink. apply wp_bind, wp_gets.
  assert (forall s1, (t_modes (b_tree s1) = t_modes (b_tree s) /\ forall q, q <> link -> t_links (b_tree s1) !! q = t_links (b_tree s) !! q /\
    forall c, b_fs s !! q = Some (FileN c) -> b_fs s1 !! q = Some (FileN c)) ->
    wp (there ← gets (fun s => exists_at (b_fs s) link); lift (raise_if (there : bool) (BOs FileExists)) ;;
        dir ← gets (fun s => node_at (b_fs s) (parent link));
        match dir with
        | Some DirN => modify (fun s => let t := b_tree s in set_btree (mkTree (t_fs t) (<[link := target]> (t_links t)) (t_modes t)) s)
        | Some (FileN _) => raise (BOs NotADirectory)
        | None => raise (BOs NoSuchFile)
        end) (fun _ s' => t_links (b_tree s') !! link = Some target /\ t_modes (b_tree s') = t_modes (b_tree s) /\
       forall q, q <> link -> t_links (b_tree s') !! q = t_links (b_tree s) !! q /\
         forall c, b_fs s !! q = Some (FileN c) -> b_fs s' !! q = Some (FileN c)) (fun _ _ => True) s1) as Hk.
  { intros s1 [Hm H1]. apply wp_bind, wp_gets, wp_bind, wp_lift; [|done]. intros [] _. apply wp_bind, wp_gets.
    destruct (node_at _ _) as [[|c]|]; [|done..]. apply wp_modify. simpl. split_and!; [apply lookup_insert_eq|done|].
    intros q Hq. rewrite lookup_insert_ne by done. by apply H1. }
  apply wp_bind. destruct (bool_decide _).
  - apply wp_modify, Hk. split; [done|]. intros q Hq. simpl. by rewrite lookup_delete_ne.
  - apply on_bfs_wp. pose proof (unlink_missing_ok_only link (b_fs s)) as Ho.
    destruct (unlink_missing_ok link (b_fs s)) as [[[]|e] f]; [|done]. apply Hk. split; [done|].
    intros q Hq. split; [done|]. intros c Hc. eapply only_file; [exact Ho| |exact Hc].
    by intros [->|?%elem_of_nil]%elem_of_cons.
Qed.

(** Where [busybox] is the program [c], and every applet made so far leads to it. *)
Definition applet_at (a : string) : path := root_ work ++ ["bin"; a].
Definition applets_ok (c : string) (done_ : list string) (s : bstate) : Prop :=
  t_links (b_tree s) !! bin_ work "busybox" = None /\ b_fs s !! bin_ work "busybox" = Some (FileN c) /\
  t_modes (b_tree s) !! bin_ work "busybox" = Some MODE_755 /\
  forall a, a ∈ done_ -> a <> "busybox" -> t_links (b_tree s) !! applet_at a = Some "busybox".

Lemma applet_inj a b : applet_at a = applet_at b -> a = b.
Proof. unfold applet_at. intros H%(inj (app _)). by injection H. Qed.

Lemma link_applet_wp c l a s : plain a -> applets_ok c l s ->
  wp (link_applet work a) (fun _ s' => applets_ok c (a :: l) s') (fun _ _ => True) s.
Proof.
  intros Ha (H1 & H2 & H3 & H4). unfold link_applet. destruct (String.eqb_spec a "busybox") as [->|Hne].
  - apply wp_ret. split_and!; [done..|]. intros b [->|Hb]%elem_of_cons ?; [done|by apply H4].
  - rewrite resolve_applet, <- app_assoc by done. change ([_] ++ [a]) with ["bin"; a]. fold (applet_at a).
    eapply wp_mono; [apply symlink_wp| |done]. cbn beta. intros _ s' (Hl & Hm & Hk).
    assert (bin_ work "busybox" <> applet_at a) as Hb by (intros He; by destruct Hne; apply applet_inj in He).
    destruct (Hk _ Hb) as [Hk1 Hk2]. unfold applets_ok. rewrite Hk1, Hm. split_and!; [done|by apply Hk2|done|].
    intros b [->|Hb']%elem_of_cons Hbb; [done|]. destruct (decide (b = a)) as [->|]; [done|].
    destruct (Hk (applet_at b)) as [-> _]; [|by apply H4]. by intros ?%applet_inj.
Qed.

Lemma link_applets_wp c names l s : Forall plain names -> applets_ok c l s ->
  wp (each_b (link_applet work) names) (fun _ s' => applets_ok c (names ++ l) s') (fun _ _ => True) s.
Proof.
  intros Hn. revert l s. induction Hn as [|a names Ha _ IH]; intros l s Hs; simpl; [by apply wp_ret|].
  apply wp_bind. eapply wp_mono; [by apply link_applet_wp| |done]. cbn beta. intros _ s1 H1.
  eapply wp_mono; [by apply IH| |done]. cbn beta. intros _ s2 (? & ? & ? & H4). split_and!; [done..|].
  intros b Hb. apply H4. set_solver.
Qed.

Lemma busybox_plain : plain "busybox".
Proof. apply (bool_decide_unpack _). vm_compute. exact I. Qed.

Lemma applet_contents c l s a : applets_ok c l s -> a ∈ l -> contents (b_tree s) (applet_at a) = Some c.
Proof.
  intros (H1 & H2 & _ & H4) Ha. unfold contents.
  assert (follow 40 (b_tree s) (applet_at a) = Some (bin_ work "busybox")) as ->.
  { destruct (decide (a = "busybox")) as [->|Hne]; [by apply follow_unlinked|].
    change (follow 40 (b_tree s) (applet_at a)) with
      (match t_links (b_tree s) !! applet_at a with None => Some (applet_at a)
       | Some target => follow 39 (b_tree s) (resolve (parent (applet_at a)) target) end).
    rewrite H4 by done. unfold applet_at. change ["bin"; a] with (["bin"] ++ [a]). rewrite app_assoc, parent_snoc.
    rewrite (resolve_applet _ _ busybox_plain), <- app_assoc. by apply follow_unlinked. }
  simpl. rewrite node_at_cons; [|unfold bin_, root_; by destruct work]. unfold b_fs in H2. by rewrite H2.
Qed.

(** C35. Every applet of the guest is busybox: when busybox was staged into a tree where its
    place is neither a link nor a directory, and the names it lists are plain, then
    [bin/busybox] is an executable regular file with the contents of the host's binary, and
    reading [bin/a] gives those contents for every applet [a] it lists. *)
Theorem applets_are_busybox s s' : 
  t_links (b_tree s) !! bin_ work "busybox" = None -> is_dir_at (b_fs s) (bin_ work "busybox") = false ->
  (forall tr t rc out, tool_capture tr [pure_path (busybox_bin cfg); "--list"] t = Some (rc, Some out) -> Forall plain (split_ws out)) ->
  _stage_busybox cfg work s = (Ok tt, s') ->
  exists c tr t listing, contents (b_tree s) (at_ (busybox_bin cfg)) = Some c /\
    tool_capture tr [pure_path (busybox_bin cfg); "--list"] t = Some (0, Some listing) /\
    b_fs s' !! bin_ work "busybox" = Some (FileN c) /\ t_modes (b_tree s') !! bin_ work "busybox" = Some MODE_755 /\
    forall a, a ∈ split_ws listing -> contents (b_tree s') (applet_at a) = Some c.
Proof.
  intros Hl Hd Hp. assert (wp (_stage_busybox cfg work) (fun _ s' => exists c tr t listing,
    contents (b_tree s) (at_ (busybox_bin cfg)) = Some c /\
    tool_capture tr [pure_path (busybox_bin cfg); "--list"] t = Some (0, Some listing) /\
    applets_ok c (split_ws listing) s') (fun _ _ => True) s) as Hw.
  { unfold _stage_busybox. apply wp_bind. unfold tell. apply wp_modify. cbn beta. apply wp_bind.
    eapply wp_mono; [by apply install_exact| |done]. cbn beta. intros _ s1 (c & Hc & Hf & Hk & Hm).
    change (b_tree (mkB _ _ _ _ _ _ _ _)) with (b_tree s) in *. apply wp_bind. unfold wp at 1, capture.
    destruct (tool_capture _ _ _) as [[rc [out|]]|] eqn:Ht; [|done..]. destruct (Z.eqb_spec rc 0) as [->|]; [|done].
    eapply wp_mono; [apply (link_applets_wp c _ [])| |done].
    - by eapply Hp.
    - split_and!; [simpl; by rewrite Hk| |done|by intros ? ?%elem_of_nil].
      change (b_fs (record_ _ s1)) with (b_fs s1). rewrite Hf. apply lookup_insert_eq.
    - cbn beta. intros _ s2 H2. rewrite app_nil_r in H2. by exists c, (trace s1), (b_tree s1), out. }
  intros Hr. unfold wp in Hw. rewrite Hr in Hw. destruct Hw as (c & tr & t & listing & Hc & Ht & Ha).
  exists c, tr, t, listing. split_and!; [done..|by apply Ha|by apply Ha|]. intros a Hin. by eapply applet_contents.
Qed.
End applets.

(** ** The version of an image *)

Section versions.
Context {Y : Layout} {W : Web} {Z' : Zstd} {T : BuildTools}.

Lemma partition_app c s t : c ∉ chars s -> partition_on c (s +:+ String c t) = (s, Some t).
Proof.
  induction s as [|d s IH]; intros H.
  - rewrite app_empty_str. simpl. by destruct (ascii_dec c c).
  - rewrite app_cons_str. cbn in H |- *. destruct (ascii_dec d c) as [->|]; [set_solver|]. by rewrite IH by set_solver.
Qed.

(** The version marker names the version that was asked for: the version read back from the
    image a version selects is that version. *)
Theorem image_version_roundtrip v : 0 <= v < 2 ^ 31 -> _major_version_from_image (vm_redroid_image v) = Ok v.
Proof.
  intros Hv. unfold _major_version_from_image.
  assert (vm_redroid_image v = "redroid/redroid" +:+ String ":" (str_of_Z v +:+ String "." "0.0-latest")) as -> by done.
  rewrite partition_app by (apply (bool_decide_unpack _); vm_compute; exact I). cbv [snd default from_option id].
  rewrite split_on_app by (apply str_of_Z_free; [lia|done]). cbv [head default from_option id]. by rewrite py_int_str.
Qed.

(** The tag of an image whose registry has a port is not found: what follows the FIRST
    colon is taken for the tag. *)
Lemma registry_port_rejected host port rest :
  ":"%char ∉ chars host -> "."%char ∉ chars port -> py_int port = None ->
  _major_version_from_image (host +:+ ":" +:+ port +:+ "." +:+ rest) =
    Err (Bootstrap (BadImageTag (host +:+ ":" +:+ port +:+ "." +:+ rest))).
Proof.
  intros Hh Hp Hn. unfold _major_version_from_image.
  assert (partition_on ":"%char (host +:+ ":" +:+ port +:+ "." +:+ rest) = (host, Some (port +:+ String "." rest))) as ->
    by exact (partition_app _ _ (port +:+ String "." rest) Hh).
  cbv [snd default from_option id]. rewrite split_on_app by done. cbv [head default from_option id]. by rewrite Hn.
Qed.

Example registry_port_example : _major_version_from_image "localhost:5000/redroid:13.0.0-latest" =
  Err (Bootstrap (BadImageTag "localhost:5000/redroid:13.0.0-latest")).
Proof. vm_compute. reflexivity. Qed.
End versions.
