(* ===== verification/BuildVerbs.v ===== *)
(** * What the build commands guarantee

    The base image build under its lock, the requirements that the preflights report, and
    the exit codes and refusals of [beetroot build]. *)
From stdpp Require Import base list strings gmap sorting.
From Stdlib Require Import ZArith Lia Ascii.
From S2P Require Import Prelude PyStr Config Qemu HostFs Paths Download KernelDownload RootfsDownload Shell Adb AdbOps BootCache BuildBase Bake Build BuildOps.
Local Open Scope stdpp_scope.
Local Open Scope Z_scope.

(** ** The redroid base image *)

Section image.
Context {Y : Layout} {W : Web} {Z' : Zstd} {T : BuildTools}.
Variable work : path.
Variable url : string.
Variable version : Z.

Definition clone_lock : path := parent work ++ [path_name work +:+ ".lock"].
Definition rm_argv : list string := ["rm"; "-rf"; path_str work].

(** An existing clone of the same source is used again; another is replaced. *)
Inductive cloning : list event -> Prop :=
| clone_reused : cloning []
| clone_replaced t1 t2 : cloning [Ran rm_argv None [] t1 0; Ran (clone_argv url work) None [] t2 0].

Lemma clone_url_quiet : preserves quiet (_clone_url_matches work url).
Proof. unfold _clone_url_matches. adds_steps. Qed.

Lemma clone_and_patch_wp flags s :
  wp (clone_and_patch work url version flags)
    (fun _ s' => exists l t, cloning l /\ trace s' = trace s ++ l ++ [Ran (patcher_argv version flags) (Some work) [] t 0])
    (fun _ s' => adds (Forall is_ran) s s') s.
Proof.
  unfold clone_and_patch. apply wp_bind. eapply wp_mono; [apply wp_quiet, clone_url_quiet| |]; cbn beta.
  2:{ intros _ s1 H1. exists []. rewrite app_nil_r. by split. }
  intros same s1 H1. apply wp_bind.
  eapply wp_mono with (Q := fun _ s2 => exists l, cloning l /\ trace s2 = trace s ++ l)
    (R := fun _ s' => adds (Forall is_ran) s s').
  - destruct same.
    + unfold tell. apply wp_modify. exists []. rewrite app_nil_r. split; [constructor|done].
    + apply wp_bind, run_wp; [exists []; rewrite app_nil_r; by split|]. intros rc t s2 _.
      assert (trace s2 = trace s ++ [Ran rm_argv None [] (b_tree s1) rc]) as H2 by (by rewrite <- H1). clearbody s2.
      destruct (Z.eqb_spec rc 0) as [->|]; [|eexists; split; [exact H2|by repeat constructor]].
      apply run_wp; [eexists; split; [exact H2|by repeat constructor]|]. intros rc2 t2 s3 _.
      assert (trace s3 = trace s2 ++ [Ran (clone_argv url work) None [] (b_tree s2) rc2]) as H3 by done. clearbody s3.
      pose proof (trace_app _ _ _ _ _ H2 H3) as H4.
      destruct (Z.eqb_spec rc2 0) as [->|]; eexists; split; [|exact H4|exact H4|]; by repeat constructor.
  - cbn beta. intros _ s2 (l & Hl & H2).
    assert (Forall is_ran l) as Hr by (destruct Hl; by repeat constructor).
    apply run_wp; [by exists l|]. intros rc t s3 _.
    assert (trace s3 = trace s2 ++ [Ran (patcher_argv version flags) (Some work) [] (b_tree s2) rc]) as H3 by done. clearbody s3.
    pose proof (trace_app _ _ _ _ _ H2 H3) as H4.
    destruct (Z.eqb_spec rc 0) as [->|]; [by exists l, (b_tree s2)|].
    eexists. split; [exact H4|]. apply Forall_app. split; [done|by repeat constructor].
  - done.
Qed.

(** Whatever the body does happens between the lock and its release. *)
Lemma clone_dir_lock_wp {B} (body : BM B) (Q : B -> list event -> Prop) (R : list event -> Prop) s :
  (forall s1, wp body (fun a s' => adds (Q a) s1 s') (fun _ s' => adds R s1 s') s1) ->
  wp (_clone_dir_lock work body)
    (fun a s' => adds (fun l => exists l0, Q a l0 /\ l = [Locked clone_lock] ++ l0 ++ [Unlocked clone_lock]) s s')
    (fun _ s' => trace s' = trace s \/ adds (fun l => exists l0, R l0 /\ l = [Locked clone_lock] ++ l0 ++ [Unlocked clone_lock]) s s') s.
Proof.
  intros Hb. unfold _clone_dir_lock. fold clone_lock. apply wp_bind.
  eapply wp_mono; [apply wp_quiet, on_bfs_quiet| |cbn beta; intros _ s1 H; by left]. cbn beta. intros _ s1 H1. apply wp_bind, wp_gets, wp_bind.
  eapply wp_mono with (Q := fun _ s2 => trace s2 = trace s1) (R := fun _ s2 => trace s2 = trace s1).
  { apply wp_quiet. destruct (node_at _ _) as [[|c]|]; adds_steps. }
  2:{ intros _ s2 H2. left. congruence. }
  intros _ s2 H2. apply wp_bind, wp_modify, wp_finally. cbn beta. set (s3 := record_ _ s2).
  assert (trace s3 = trace s ++ [Locked clone_lock]) as H3 by (unfold s3; simpl; congruence). clearbody s3.
  eapply wp_mono; [apply Hb| |]; cbn beta.
  - intros a s4 (l & H4 & Hq). apply wp_modify. exists ([Locked clone_lock] ++ l ++ [Unlocked clone_lock]).
    split; [|by exists l]. simpl. by rewrite H4, H3, <- !app_assoc.
  - intros e s4 (l & H4 & Hq). apply wp_modify. right. exists ([Locked clone_lock] ++ l ++ [Unlocked clone_lock]).
    split; [|by exists l]. simpl. by rewrite H4, H3, <- !app_assoc.
Qed.
End image.

Section build_image.
Context {Y : Layout} {W : Web} {Z' : Zstd} {T : BuildTools}.

Definition gapps_flags (a : Android) : list string :=
  match resolve_gapps_vendor a with None => [] | Some v => GAPPS_VENDOR_FLAGS v end.

(** The build context that the steps use. *)
Definition context_of (build_context : option string) : BM string :=
  match (match build_context with Some c => Some c | None => _build_context_from_env end) with
  | Some c => mret (pure_path c)
  | None => p ← _default_build_context; mret (path_str p)
  end.

Definition requested gapps vendor version : result cfg_error Android := Android_validate (mkAndroid version gapps vendor).

Lemma context_quiet c : preserves quiet (context_of c).
Proof. unfold context_of, _default_build_context. adds_steps. Qed.

(** The steps, once the configuration is known to be sound and the daemon to answer. *)
Definition build_steps work url version (a : Android) (ctx : string) : BM string :=
  _clone_dir_lock work (clone_and_patch work url version (gapps_flags a)) ;;
  compose_file ← on_bassets bundled_compose_file;
  run (layer_argv compose_file ctx) None (layer_env (base_image_tag a) ctx) ;;
  mret (base_image_tag a).

Lemma build_image_steps gapps vendor version url work_dir build_context s :
  build_image gapps vendor version url work_dir build_context s =
  (ctx ← context_of build_context; a ← lift (match requested gapps vendor version with Ok a => Ok a | Err e => Err (BConfig e) end);
   up ← gets (fun s => daemon_responsive (trace s)); lift (raise_if (negb up) (Bootstrap DaemonDown)) ;;
   build_steps (default _default_work_dir work_dir) url version a ctx) s.
Proof. reflexivity. Qed.

Definition locked work (l l' : list event) : list event := Locked (clone_lock work) :: l ++ Unlocked (clone_lock work) :: l'.

Definition layer_failed (a : Android) (l' : list event) : Prop :=
  l' = [] \/ exists compose_file ctx t rc, l' = [Ran (layer_argv compose_file ctx) None (layer_env (base_image_tag a) ctx) t rc] /\ rc <> 0.

Lemma build_steps_wp work url version a ctx s :
  wp (build_steps work url version a ctx)
    (fun tag s' => tag = base_image_tag a /\ exists compose_file l t1 t2, cloning work url l /\
       trace s' = trace s ++ locked work (l ++ [Ran (patcher_argv version (gapps_flags a)) (Some work) [] t1 0])
                                         [Ran (layer_argv compose_file ctx) None (layer_env tag ctx) t2 0])
    (fun _ s' => trace s' = trace s \/
       exists l l', Forall is_ran l /\ layer_failed a l' /\ trace s' = trace s ++ locked work l l') s.
Proof.
  unfold build_steps. apply wp_bind. eapply wp_mono.
  { apply (clone_dir_lock_wp work (clone_and_patch work url version (gapps_flags a))
      (fun _ l0 => exists l t, cloning work url l /\ l0 = l ++ [Ran (patcher_argv version (gapps_flags a)) (Some work) [] t 0]) (Forall is_ran)).
    intros s1. eapply wp_mono; [apply clone_and_patch_wp| |done]. cbn beta.
    intros _ s2 (l & t & Hl & Ht). exists (l ++ [Ran (patcher_argv version (gapps_flags a)) (Some work) [] t 0]). split; [done|]. by exists l, t. }
  2:{ cbn beta. intros _ s1 [H|(l & Ht & l0 & Hl & ->)]; [by left|]. right. exists l0, []. split_and!; [done|by left|exact Ht]. }
  cbn beta. intros _ s1 (l1 & H1 & l0 & (l & t & Hl & ->) & ->).
  assert (Forall is_ran (l ++ [Ran (patcher_argv version (gapps_flags a)) (Some work) [] t 0])) as Hr.
  { apply Forall_app. split; [by destruct Hl; repeat constructor|by repeat constructor]. }
  apply wp_bind. eapply wp_mono; [apply wp_quiet, on_bassets_quiet| |]; cbn beta.
  2:{ intros _ s2 H2. right. eexists _, []. split_and!; [exact Hr|by left|]. by rewrite H2, H1. }
  intros compose_file s2 H2. rewrite H1 in H2. apply wp_bind, run_wp.
  { right. eexists _, []. split_and!; [exact Hr|by left|]. by rewrite H2. }
  intros rc t2 s3 _.
  assert (trace s3 = trace s ++ locked work (l ++ [Ran (patcher_argv version (gapps_flags a)) (Some work) [] t 0])
    [Ran (layer_argv compose_file ctx) None (layer_env (base_image_tag a) ctx) (b_tree s2) rc]) as H3.
  { unfold s3, locked. simpl. rewrite H2, <- !app_assoc. simpl. done. }
  destruct (Z.eqb_spec rc 0) as [->|Hrc].
  - apply wp_ret. split; [done|]. by exists compose_file, l, t, (b_tree s2).
  - right. eexists _, _. split_and!; [exact Hr| |exact H3]. right. by eexists _, _, _, _.
Qed.

(** C18. A base image is built by one sequence of commands: a configuration that contradicts
    itself and a daemon that does not answer are reported before any command runs; the
    clone is replaced and patched between taking the lock of its directory and releasing
    it, whatever the outcome; the layer is built after that, from the tag the configuration
    selects, which is what the build returns; and a build that returns has run every step,
    each with exit code 0. *)
Theorem build_image_sequence gapps vendor version url work_dir build_context s :
  let work := default _default_work_dir work_dir in
  match build_image gapps vendor version url work_dir build_context s with
  | (Ok tag, s') => exists a compose_file ctx l t1 t2, requested gapps vendor version = Ok a /\ tag = base_image_tag a /\
      cloning work url l /\ daemon_responsive (trace s) = true /\
      trace s' = trace s ++ locked work (l ++ [Ran (patcher_argv version (gapps_flags a)) (Some work) [] t1 0])
                                        [Ran (layer_argv compose_file ctx) None (layer_env tag ctx) t2 0]
  | (Err _, s') => trace s' = trace s \/
      exists a l l', requested gapps vendor version = Ok a /\ daemon_responsive (trace s) = true /\
        Forall is_ran l /\ layer_failed a l' /\ trace s' = trace s ++ locked work l l'
  end.
Proof.
  cbv zeta. rewrite build_image_steps. unfold mbind at 1, M_bind at 1.
  pose proof (context_quiet build_context s) as Hq%quiet_trace. destruct (context_of build_context s) as [[ctx|e] s1]; [|by left].
  cbn [snd] in Hq. destruct (requested gapps vendor version) as [a|e] eqn:Ha; [|by left].
  rewrite lift_ok_bind. unfold mbind at 1, M_bind at 1, gets. rewrite Hq.
  destruct (daemon_responsive (trace s)) eqn:Hd; [|by left]. cbv [negb raise_if]. rewrite lift_ok_bind.
  pose proof (build_steps_wp (default _default_work_dir work_dir) url version a ctx s1) as H. unfold wp in H. rewrite Hq in H.
  destruct (build_steps _ _ _ _ _ s1) as [[tag|e] s2].
  - destruct H as (-> & cf & l & t1 & t2 & Hl & Ht). by exists a, cf, ctx, l, t1, t2.
  - destruct H as [Ht|(l & l' & Hl & Hf & Ht)]; [by left|right]. by exists a, l, l'.
Qed.
End build_image.

(** ** What a host must have *)

Section preflight.
Context {Y : Layout} {W : Web} {Z' : Zstd} {T : BuildTools}.

(** The requirements of a local bake, each with the problem that its absence is. *)
Definition size_requirement (env : list (string * string)) : list (bool * PreflightProblem) :=
  match _parse_image_size_mb (Dict.get "IMAGE_SIZE_MB" env) with
  | Err (Bootstrap (BadImageSize r)) =>
      [(false, mkProblem "IMAGE_SIZE_MB" ("IMAGE_SIZE_MB must be a positive integer, got " +:+ py_repr r)
          "unset IMAGE_SIZE_MB or set it to a positive integer (MiB)")]
  | _ => []
  end.

Definition binaries (env : list (string * string)) : list (string * string) :=
  [(default "/usr/bin/busybox" (Dict.get "BUSYBOX_BIN" env), "busybox-static"); ("/usr/bin/socat", "socat");
   ("/usr/sbin/xtables-legacy-multi", "iptables")].

Definition image_requirements s (tar : option string) : list (bool * PreflightProblem) :=
  match tar with
  | Some t => [(is_file_b (b_tree s) (at_ t), tar_problem t)]
  | None => [(on_path docker_bin_, docker_problem); (negb (on_path docker_bin_) || daemon_responsive (trace s), daemon_problem)]
  end.

Definition tool_requirements (l : list (string * string)) : list (bool * PreflightProblem) :=
  map (fun '(tool, pkg) => (on_path tool, mkProblem tool "not found on PATH" ("apt-get install " +:+ pkg))) l.

Definition bake_requirements s (tar : option string) : list (bool * PreflightProblem) :=
  size_requirement (environ s) ++ [(host_is_guest_arch host_machine, arch_problem)] ++
  map (fun '(p, pkg) => (is_file_b (b_tree s) (at_ p), binary_problem p pkg)) (binaries (environ s)) ++
  tool_requirements _VM_BAKE_PATH_TOOLS ++ [(is_root, root_problem)] ++ image_requirements s tar.

Definition unmet (l : list (bool * PreflightProblem)) : list PreflightProblem := map snd (filter (fun p => p.1 = false) l).

Lemma unmet_app l l' : unmet (l ++ l') = unmet l ++ unmet l'.
Proof. unfold unmet. by rewrite filter_app, map_app. Qed.
Lemma unmet_one c p : unmet [(c, p)] = when (negb c) p.
Proof. by destruct c. Qed.
Lemma unmet_tools l : unmet (tool_requirements l) = missing_tools l.
Proof.
  unfold unmet, tool_requirements, missing_tools. induction l as [|[t pkg] l IH]; [done|]. cbn [map].
  rewrite !filter_cons. cbn [fst]. destruct (decide (on_path t = false)); simpl; by rewrite ?IH.
Qed.
Lemma unmet_nil l : unmet l = [] <-> Forall (fun p => p.1 = true) l.
Proof.
  unfold unmet. induction l as [|[c p] l IH]; [done|]. rewrite filter_cons. cbn [fst].
  destruct c; simpl; rewrite Forall_cons; cbn [fst]; [rewrite IH; naive_solver|naive_solver].
Qed.
Lemma unmet_binaries s l :
  unmet (map (fun '(p, pkg) => (is_file_b (b_tree s) (at_ p), binary_problem p pkg)) l) =
  concat (map (fun '(p, pkg) => when (negb (is_file_b (b_tree s) (at_ p))) (binary_problem p pkg)) l).
Proof.
  induction l as [|[p pkg] l IH]; [done|]. cbn [map concat]. rewrite <- IH, <- unmet_one. by rewrite <- unmet_app.
Qed.

(** The configuration of the preflight fails on nothing but the size. *)
Lemma preflight_config_run s :
  exists c, busybox_bin c = default "/usr/bin/busybox" (Dict.get "BUSYBOX_BIN" (environ s)) /\
    socat_bin c = "/usr/bin/socat" /\ xtables_multi c = "/usr/sbin/xtables-legacy-multi" /\
    preflight_config s = (match _parse_image_size_mb (Dict.get "IMAGE_SIZE_MB" (environ s)) with Ok _ => Ok c | Err e => Err e end, s).
Proof.
  unfold preflight_config, from_env, getenv_or, getenv_nonempty, getenv, mbind, M_bind, gets, lift, mret, M_ret. cbn -[vm_redroid_image at_].
  destruct (_parse_image_size_mb _) as [z|e]; [|eexists (mkRootfs [] "" 0 0 "" "" None "" None None (default "/usr/bin/busybox" (Dict.get "BUSYBOX_BIN" (environ s))) "/usr/sbin/xtables-legacy-multi" "/usr/bin/socat" ""); by split_and!].
  eexists. split_and!; [| | |reflexivity]; done.
Qed.

Lemma size_errors raw e : _parse_image_size_mb raw = Err e -> exists r, e = Bootstrap (BadImageSize r).
Proof.
  unfold _parse_image_size_mb. destruct raw as [[|c r]|]; [done| |done]. destruct (py_int _) as [z|]; [|intros [= <-]; by eexists].
  destruct (z <=? 0); [|done]. intros [= <-]. by eexists.
Qed.

Lemma same_environ s : set_environ (environ s) s = s.
Proof. by destruct s. Qed.

(** The preflight of a local bake reports exactly the requirements that are not met, all of
    them and in a fixed order: a size that does not parse is one of them, and hides none of
    the others.  It runs nothing and changes nothing, but for the place of IMAGE_SIZE_MB in
    the environment. *)
Lemma bake_preflight_run s tar : Dict.wf (environ s) ->
  exists env, vm_bake_preflight tar s = (Ok (unmet (bake_requirements s tar)), set_environ env s) /\
    forall n, Dict.get n env = Dict.get n (environ s).
Proof.
  intros Hwf. destruct (preflight_config_run s) as (c & Hb & Hso & Hx & Hc).
  assert (exists env c', _resolve_preflight_config s = (Ok (unmet (size_requirement (environ s)), c'), set_environ env s) /\
    (forall n, Dict.get n env = Dict.get n (environ s)) /\
    busybox_bin c' = default "/usr/bin/busybox" (Dict.get "BUSYBOX_BIN" (environ s)) /\
    socat_bin c' = "/usr/bin/socat" /\ xtables_multi c' = "/usr/sbin/xtables-legacy-multi") as (env & c' & Hr & He & Hb' & Hs' & Hx').
  { unfold _resolve_preflight_config, size_requirement, catch. unfold mbind at 1, M_bind at 1. rewrite Hc.
    destruct (_parse_image_size_mb _) as [z|e] eqn:Hp.
    - exists (environ s), c. rewrite same_environ. by split_and!.
    - apply size_errors in Hp as Hr. destruct Hr as [r ->].
      unfold getenv. unfold mbind at 1, M_bind at 1, gets at 1. unfold mbind at 1, M_bind at 1, modify at 1.
      set (s1 := set_environ (Dict.pop "IMAGE_SIZE_MB" (environ s)) s).
      destruct (preflight_config_run s1) as (c1 & Hb1 & Hs1 & Hx1 & Hc1).
      assert (Dict.get "IMAGE_SIZE_MB" (environ s1) = None) as Hg by (by apply Dict.get_pop_eq).
      rewrite Hg in Hc1. simpl in Hc1. unfold mbind at 1, M_bind at 1, finally. rewrite Hc1.
      destruct (Dict.get "IMAGE_SIZE_MB" (environ s)) as [v|] eqn:Hv; [|done]. cbn [fst snd modify].
      eexists _, c1. split; [reflexivity|]. split_and!; [|rewrite Hb1; simpl; by rewrite Dict.get_pop_ne|done..].
      intros n. destruct (decide (n = "IMAGE_SIZE_MB")) as [->|Hn]; [by rewrite Dict.get_set_eq|].
      rewrite Dict.get_set_ne by done. simpl. by apply Dict.get_pop_ne. }
  exists env. split; [|done]. unfold vm_bake_preflight. unfold mbind at 1, M_bind at 1. rewrite Hr.
  unfold mbind, M_bind, gets, mret, M_ret. f_equal. f_equal. unfold bake_requirements.
  rewrite !unmet_app, !unmet_one, unmet_tools, unmet_binaries. cbn [binaries _VM_STATIC_BINS map].
  rewrite Hb', Hs', Hx'. do 5 f_equal. unfold image_problems, image_requirements.
  destruct tar as [t|]; [by rewrite unmet_one|]. unfold unmet. rewrite !filter_cons, filter_nil. cbn [fst].
  destruct (on_path docker_bin_); simpl; [|done]. by destruct (daemon_responsive _).
Qed.

(** The same with what a fetch needs, which [build --vm-kernel --check] reports. *)
Definition build_requirements s (tar : option string) : list (bool * PreflightProblem) :=
  tool_requirements _VM_FETCH_PATH_TOOLS ++ bake_requirements s tar.

Lemma build_preflight_run s tar : Dict.wf (environ s) ->
  exists env, vm_build_preflight tar s = (Ok (unmet (build_requirements s tar)), set_environ env s) /\
    forall n, Dict.get n env = Dict.get n (environ s).
Proof.
  intros Hwf. destruct (bake_preflight_run s tar Hwf) as (env & Hr & He). exists env. split; [|done].
  unfold vm_build_preflight, mbind, M_bind. rewrite Hr. unfold build_requirements. by rewrite unmet_app, unmet_tools.
Qed.

(** C23. A preflight reports exactly the requirements that are not met, all of them and in a
    fixed order: an [IMAGE_SIZE_MB] that does not parse is one of them, and hides none of
    the others.  Nothing is run, and of the state only the order of the environment may
    change: the variable that was taken out for the second reading is put back. *)
Theorem preflight_reports_all s tar : Dict.wf (environ s) ->
  exists env, vm_build_preflight tar s = (Ok (unmet (build_requirements s tar)), set_environ env s) /\
    (forall n, Dict.get n env = Dict.get n (environ s)) /\
    (unmet (build_requirements s tar) = [] <-> Forall (fun p => p.1 = true) (build_requirements s tar)).
Proof.
  intros Hwf. destruct (build_preflight_run s tar Hwf) as (env & Hr & He). exists env.
  split; [exact Hr|]. split; [exact He|]. apply unmet_nil.
Qed.

Definition tar_of s : option string := match Dict.get "REDROID_TAR" (environ s) with Some "" => None | v => v end.

Lemma tar_run s : redroid_tar_env s = (Ok (tar_of s), s).
Proof.
  unfold redroid_tar_env, getenv_nonempty, getenv, tar_of, mbind, M_bind, gets, mret, M_ret. simpl.
  by destruct (Dict.get _ _) as [[|]|].
Qed.

Lemma told_all l s : exists o, each_b (fun p => tell (Problem p)) l s =
  (Ok tt, mkB (b_tree s) (b_compose_cache s) (b_vm_cache s) (b_requests s) (b_notes s) (environ s) (trace s) o) .
Proof.
  revert s. induction l as [|p l IH]; intros s; simpl; [exists (b_out s); by destruct s|].
  unfold mbind at 1, M_bind at 1, tell at 1, modify at 1. set (s1 := mkB _ _ _ _ _ _ _ _).
  destruct (IH s1) as [o Ho]. by exists o.
Qed.

Lemma check_run s : Dict.wf (environ s) -> exists s',
  cli_check s = (if bool_decide (Forall (fun p => p.1 = true) (build_requirements s (tar_of s))) then Ok tt else Err (BExit 1), s') /\
  b_tree s' = b_tree s /\ trace s' = trace s.
Proof.
  intros Hwf. unfold cli_check. rewrite (M_bind_ok _ _ _ _ _ (tar_run s)).
  destruct (build_preflight_run s (tar_of s) Hwf) as (env & Hr & _). rewrite (M_bind_ok _ _ _ _ _ Hr).
  destruct (told_all (unmet (build_requirements s (tar_of s))) (set_environ env s)) as [o Ho].
  rewrite (M_bind_ok _ _ _ _ _ Ho). pose proof (unmet_nil (build_requirements s (tar_of s))) as Hn.
  destruct (decide (unmet (build_requirements s (tar_of s)) = [])) as [He|He]; eexists.
  - rewrite (bool_decide_true (unmet _ = [])), (bool_decide_true (Forall _ _)) by (first [exact He|by apply Hn]). by split.
  - rewrite (bool_decide_false (unmet _ = [])), (bool_decide_false (Forall _ _)) by (first [exact He|by rewrite <- Hn]). by split.
Qed.

(** [build --vm-kernel --check] ends with code 0 if the host meets every requirement of a
    build and with code 1 otherwise; it runs no command and leaves the file system alone. *)
Theorem build_check_exit_code gapps vendor from_source ctx v s :
  Dict.wf (environ s) -> is_ok (validate_android_version v) = true ->
  let r := build_main (cli_build gapps vendor true from_source true ctx v) s in
  fst r = BuildExit (if bool_decide (Forall (fun p => p.1 = true) (build_requirements s (tar_of s))) then 0 else 1) /\
  b_tree (snd r) = b_tree s /\ trace (snd r) = trace s.
Proof.
  intros Hwf Hv. cbv zeta.
  assert (cli_build gapps vendor true from_source true ctx v s = cli_check s) as Hb.
  { unfold cli_build. rewrite andb_false_r. by destruct (validate_android_version v). }
  unfold build_main. rewrite Hb. destruct (check_run s Hwf) as (s' & -> & Ht & Hr). by destruct (bool_decide _).
Qed.

(** A bake that is asked for — with [--from-source], or by an override in the environment —
    on a host that does not meet the requirements of a bake is refused with the whole list
    of them, before any command and with the file system as it was. *)
Theorem forced_bake_refused from_source out dir v s :
  Dict.wf (environ s) -> from_source = true \/ fst (rootfs_bake_override_set s) <> Ok None ->
  unmet (bake_requirements s (tar_of s)) <> [] ->
  exists s', obtain_rootfs from_source out dir v s =
    (Err (Bootstrap (Prerequisites (unmet (bake_requirements s (tar_of s))))), s') /\
    b_tree s' = b_tree s /\ trace s' = trace s.
Proof.
  intros Hwf Hf Hu.
  assert (forall s1, b_tree s1 = b_tree s -> trace s1 = trace s -> environ s1 = environ s ->
    exists s', bake out dir v s1 = (Err (Bootstrap (Prerequisites (unmet (bake_requirements s (tar_of s))))), s') /\
      b_tree s' = b_tree s /\ trace s' = trace s) as Hb.
  { intros s1 H1 H2 H3. unfold bake. rewrite (M_bind_ok _ _ _ _ _ (tar_run s1)). rewrite <- H3 in Hwf.
    destruct (bake_preflight_run s1 (tar_of s1) Hwf) as (env & Hr & _). rewrite (M_bind_ok _ _ _ _ _ Hr).
    assert (bake_requirements s1 (tar_of s1) = bake_requirements s (tar_of s)) as ->.
    { unfold bake_requirements, image_requirements, tar_of. by rewrite H1, H2, H3. }
    unfold mbind at 1, M_bind at 1. rewrite bool_decide_true by done. by exists (set_environ env s1). }
  unfold obtain_rootfs, rootfs_bake_override_set in *. unfold gets in *. unfold mbind at 1, M_bind at 1.
  cbn [fst] in Hf. destruct (head _) as [name|].
  - destruct from_source; [by apply Hb|]. unfold mbind at 1 2, M_bind at 1 2, tell, modify. by apply Hb.
  - destruct from_source; [by apply Hb|]. destruct Hf as [?|Hf]; [done|by destruct Hf].
Qed.

(** The options of the VM build are refused without [--vm-kernel], before anything runs. *)
Theorem vm_options_need_vm_kernel gapps vendor from_source check ctx v s :
  check = true \/ from_source = true \/ v <> DEFAULT_ANDROID_VERSION ->
  let r := build_main (cli_build gapps vendor false from_source check ctx v) s in
  fst r = BuildExit 1 /\ b_tree (snd r) = b_tree s /\ trace (snd r) = trace s.
Proof.
  intros Hc. cbv zeta. unfold build_main, cli_build, build_fails.
  destruct check; [done|]. destruct from_source; [done|]. destruct (Z.eqb_spec v DEFAULT_ANDROID_VERSION) as [->|]; [|done].
  by destruct Hc as [?|[?|?]].
Qed.
End preflight.
