(* ===== verification/BuildSample.v ===== *)
(** * The image builder on a concrete host

    A host whose tools do what their arguments say, a bake that goes through on it, and the
    theorems of [BuildOps], [BuildSpecs] and [BuildVerbs] at work. *)
From stdpp Require Import base list strings gmap sorting.
From Stdlib Require Import ZArith Lia Ascii.
From S2P Require Import Prelude PyStr Config Qemu HostFs Paths Download KernelDownload RootfsDownload Shell Adb AdbOps BootCache BuildBase Bake Build BuildOps BuildSpecs BuildVerbs.
Local Open Scope stdpp_scope.
Local Open Scope Z_scope.

Module BuildSample.
Import DlSample.

Definition no_zstd : Zstd := {| zstd_reads _ := ([], false) |}.
#[export] Existing Instance no_zstd.

(** The files a command writes. *)
Definition written (argv : list string) (f : HostFs.fs) : HostFs.fs :=
  match argv with
  | ["curl"; _; _; _; out] => <[resolve [] out := FileN "BUNDLE"]> f
  | ["tar"; "-xzf"; _; _; dir] =>
      foldr (fun n f => <[resolve [] dir ++ ["docker"; n] := FileN ("ELF " +:+ n)]> f)
        (<[resolve [] dir ++ ["docker"] := DirN]> f) _DOCKER_STATIC_BINS
  | ["docker"; "save"; _; _; out] => <[resolve [] out := FileN "IMAGE"]> f
  | ["cp"; _; _; dst] => <[resolve [] dst := DirN]> f
  | ["mke2fs"; _; _; _; _; _; out; _] => <[resolve [] out := FileN "EXT4"]> f
  | _ => f
  end.

Definition listings (argv : list string) : string :=
  match argv with
  | "ldd" :: _ => "	libc.so.6 => /lib/libc.so.6 (0x00)" +:+ String newline ""
  | _ => join (String newline "") ["ash"; "busybox"; "ls"; "sh"]
  end.

(** A host with or without root, whose daemon answers. *)
Definition host (root : bool) : BuildTools := {|
  tool_run _ argv _ _ t := Some (0, mkTree (written argv (t_fs t)) (t_links t) (t_modes t));
  tool_capture _ argv _ := Some (0, Some (listings argv));
  daemon_responsive _ := true; exits_on_term _ _ := true; on_path t := negb (String.eqb t "cc"); runnable _ _ := false; is_root := root;
  host_machine := "x86_64"; temp_root := ["tmp"]; docker_bin_ := "docker"; build_context_ := "";
  BuildBase.cwd_ := ["home"] |}.

Definition files : HostFs.fs := list_to_map
  [(["tmp"], DirN); (["out"], DirN); (["vm"], DirN); (["vm"; "guest-init.sh"], FileN "#!/bin/sh");
   (["vm"; "kernel.config"], FileN "CONFIG_X=y"); (["usr"], DirN); (["usr"; "bin"], DirN); (["usr"; "sbin"], DirN);
   (["usr"; "bin"; "busybox"], FileN "BUSYBOX"); (["usr"; "bin"; "socat"], FileN "SOCAT");
   (["usr"; "sbin"; "xtables-legacy-multi"], FileN "XTABLES"); (["lib"], DirN); (["lib"; "libc.so.6"], FileN "LIBC")].

Definition env : list (string * string) := [("PATH", "/bin"); ("DOCKER_SHA256", toy_digest "BUNDLE")].
Definition started (e : list (string * string)) : bstate := mkB (mkTree files ∅ ∅) None None 0 [] e [] [].
Definition out : path := ["out"; "rootdisk.img"].

(** A host on which [mke2fs] fails. *)
Definition full_disk : BuildTools := {|
  tool_run tr argv d e t := match argv with "mke2fs" :: _ => Some (1, t) | _ => @tool_run (host true) tr argv d e t end;
  tool_capture _ argv _ := Some (0, Some (listings argv));
  daemon_responsive _ := true; exits_on_term _ _ := true; on_path _ := true; runnable _ _ := false; is_root := true;
  host_machine := "x86_64"; temp_root := ["tmp"]; docker_bin_ := "docker"; build_context_ := "";
  BuildBase.cwd_ := ["home"] |}.

(** An older image beside its marker. *)
Definition with_old_image : bstate :=
  set_bfs (<[out := FileN "OLD"]> (<[rootfs_version_marker out := FileN (line_of "12")]> files)) (started env).

(** A failed packing leaves the older image under the version of the new one. *)
Example failed_pack_mislabels_image :
  let r := build_rootfs (T := full_disk) out "/vm" 13 with_old_image in
  is_ok (fst r) = false /\ b_fs (snd r) !! out = Some (FileN "OLD") /\
  read_rootfs_version (b_fs with_old_image) out = Some 12 /\ read_rootfs_version (b_fs (snd r)) out = Some 13.
Proof. vm_compute. repeat split; reflexivity. Qed.

Section rooted.
#[local] Instance rooted : BuildTools := host true.

Definition baked : result build_error path * bstate := build_rootfs out "/vm" 13 (started env).

Example bake_goes_through : fst baked = Ok out.
Proof. vm_compute. reflexivity. Qed.
Example marker_beside : b_fs (snd baked) !! ["out"; "rootdisk.img.android-version"] = Some (FileN (line_of "13")).
Proof. vm_compute. reflexivity. Qed.
Example work_dir_gone : children (b_fs (snd baked)) ["tmp"] = [].
Proof. vm_compute. reflexivity. Qed.
Example events : length (trace (snd baked)) = 15%nat.
Proof. vm_compute. reflexivity. Qed.

Definition cfg : _RootfsConfig :=
  match resolved out "/vm" 13 (started env) with
  | Ok c => c
  | Err _ => mkRootfs [] "" 0 0 "" "" None "" None None "" "" "" ""
  end.

Lemma bundle_checked_first_witness :
  adds (checked_first (fetch_bundle cfg (rootfs_work (started env))) (unpack_bundle (rootfs_work (started env)))
          (has_digest (tgz (rootfs_work (started env))) (toy_digest "BUNDLE"))) (started env) (snd baked).
Proof.
  apply (bundle_checked_first out "/vm" 13 (started env) cfg (toy_digest "BUNDLE")); vm_compute; reflexivity.
Defined.

Definition wd : path := ["tmp"; "w"].

(** The same bake in a directory of its own. *)
Definition assembled : result build_error path * bstate := build_ cfg wd (started env).

Example assembled_ok : fst assembled = Ok out.
Proof. vm_compute. reflexivity. Qed.

Lemma packed_image_markers_witness : exists before,
  last (trace (snd assembled)) = Some (Ran (pack_argv cfg wd) None [] before 0) /\ marked cfg wd before.
Proof.
  destruct (packed_image_markers cfg wd) with (s := started env) as [_ H].
  - intros tr argv d e t rc t' H p _ Hp. simpl in H. injection H as <- <-. exact Hp.
  - intros tr t rc o H. simpl in H. injection H as <- <-. apply (bool_decide_unpack _). vm_compute. exact I.
  - apply (bool_decide_unpack _). vm_compute. exact I.
  - intros p _. apply lookup_empty.
  - destruct assembled as [r s'] eqn:Ha. assert (r = Ok out) as -> by (change r with (fst (r, s')); rewrite <- Ha; exact assembled_ok).
    exact (proj2 (H _ _ Ha)).
Defined.

(** The tree of the guest, ready for busybox. *)
Definition tree : bstate := snd (skeleton wd (started env)).

Lemma applets_are_busybox_witness : exists s', _stage_busybox cfg wd tree = (Ok tt, s') /\
  contents (b_tree s') (applet_at wd "sh") = Some "BUSYBOX".
Proof.
  destruct (_stage_busybox cfg wd tree) as [r s'] eqn:Hr.
  assert (r = Ok tt) as -> by (change r with (fst (r, s')); rewrite <- Hr; vm_compute; reflexivity).
  exists s'. split; [reflexivity|].
  destruct (applets_are_busybox cfg wd tree s') as (c & tr & t & l & Hc & Hl & _ & _ & Ha).
  - vm_compute. reflexivity.
  - vm_compute. reflexivity.
  - intros tr t rc o H. simpl in H. injection H as <- <-. apply (bool_decide_unpack _). vm_compute. exact I.
  - exact Hr.
  - rewrite (Ha "sh").
    + rewrite <- Hc. vm_compute. reflexivity.
    + simpl in Hl. injection Hl as <-. apply (bool_decide_unpack _). vm_compute. exact I.
Defined.

Lemma image_version_roundtrip_witness : _major_version_from_image (vm_redroid_image 13) = Ok 13.
Proof. apply (image_version_roundtrip 13). lia. Defined.

(** A variable that is set but empty is no override, yet it is the image that is baked; the
    build notices only after the bake. *)
Example empty_image_is_baked :
  let s := started (("REDROID_IMAGE", "") :: env) in
  fst (rootfs_bake_override_set s) = Ok None /\
  fst (build_rootfs out "/vm" 13 s) = Err (Bootstrap (GuestMarkerMissing (_guest_image_marker (rootfs_work s)))) /\
  length (trace (snd (build_rootfs out "/vm" 13 s))) = 14%nat.
Proof. vm_compute. repeat split; reflexivity. Qed.

(** An image size that does not parse is reported beside what is missing. *)
Definition bad_size : list (string * string) := ("IMAGE_SIZE_MB", "lots") :: ("BUSYBOX_BIN", "/usr/bin/none") :: env.

Lemma bad_size_wf : Dict.wf (environ (started bad_size)).
Proof. apply (bool_decide_unpack _). vm_compute. exact I. Qed.

Example bad_size_report : map requirement (unmet (build_requirements (started bad_size) None)) = ["IMAGE_SIZE_MB"; "none"].
Proof. vm_compute. reflexivity. Qed.

Lemma preflight_reports_all_witness : exists env',
  vm_build_preflight None (started bad_size) =
    (Ok (unmet (build_requirements (started bad_size) None)), set_environ env' (started bad_size)).
Proof. destruct (preflight_reports_all (started bad_size) None bad_size_wf) as (env' & H & _). by exists env'. Defined.

Lemma vm_options_need_vm_kernel_witness :
  fst (build_main (cli_build gapps_none None false true false None 13) (started env)) = BuildExit 1.
Proof. exact (proj1 (vm_options_need_vm_kernel gapps_none None true false None 13 (started env) (or_intror (or_introl eq_refl)))). Defined.
End rooted.

Section rootless.
#[local] Instance rootless : BuildTools := host false.

Lemma env_wf : Dict.wf (environ (started env)).
Proof. apply (bool_decide_unpack _). vm_compute. exact I. Qed.

Lemma build_check_exit_code_witness :
  fst (build_main (cli_build gapps_none None true false true None 13) (started env)) = BuildExit 1.
Proof.
  destruct (build_check_exit_code gapps_none None false None 13 (started env) env_wf eq_refl) as [H _].
  rewrite H. vm_compute. reflexivity.
Defined.

Lemma forced_bake_refused_witness : exists s', obtain_rootfs true out "/vm" 13 (started env) =
  (Err (Bootstrap (Prerequisites [root_problem])), s') /\ trace s' = [].
Proof.
  destruct (forced_bake_refused true out "/vm" 13 (started env) env_wf (or_introl eq_refl)) as (s' & H & _ & Ht).
  - vm_compute. discriminate.
  - exists s'. split; [|exact Ht]. rewrite H. vm_compute. reflexivity.
Defined.
End rootless.
End BuildSample.
