(* ===== verification/Lint.v ===== *)
(** * The changelog linter ([src/scripts/lint_changelog.py])

    The scan of the unreleased section for fenced shell lines and inline code, the
    invocations of the command line they cite, and their check against [--help].  A line
    holds no newline; the box-drawing characters that [_strip_box_drawing] replaces are all
    outside ASCII. *)
From stdpp Require Import base list strings gmap sets sorting.
From Stdlib Require Import ZArith Lia Ascii.
From S2P Require Import Prelude PyStr BootCache.
Local Open Scope stdpp_scope.
Local Open Scope Z_scope.

Module Lint.

(** ** Matchers *)

Fixpoint take_while (p : ascii -> bool) (l : list ascii) : list ascii :=
  match l with c :: l' => if p c then c :: take_while p l' else [] | [] => [] end.
Fixpoint drop_while (p : ascii -> bool) (l : list ascii) : list ascii :=
  match l with c :: l' => if p c then drop_while p l' else l | [] => [] end.

(** What follows the prefix [p]. *)
Fixpoint after (p l : list ascii) : option (list ascii) :=
  match p, l with
  | [], _ => Some l
  | c :: p', d :: l' => if ascii_dec c d then after p' l' else None
  | _ :: _, [] => None
  end.

Definition is_char (d c : ascii) : bool := if ascii_dec c d then true else false.
Definition tick : ascii := "`".
Definition is_word (c : ascii) : bool := is_alnum c || is_char "_" c.

Definition UNRELEASED_HEADING (line : string) : bool :=
  match after (chars "## Unreleased") (chars line) with Some r => forallb is_space r | None => false end.

Definition NEXT_TOP_HEADING (line : string) : bool :=
  match after (chars "## ") (chars line) with
  | None => false
  | Some r =>
      match after (chars "Unreleased") r with
      | Some (c :: _) => is_word c
      | Some [] => false
      | None => true
      end
  end.

Definition lang_char (c : ascii) : bool := is_alnum c || is_char "_" c || is_char "+" c || is_char "-" c.
(** The language of a fence delimiter. *)
Definition FENCE_DELIMITER (line : string) : option string :=
  r ← after [tick; tick; tick] (chars line);
  if forallb is_space (drop_while lang_char r) then Some (of_chars (take_while lang_char r)) else None.
Definition SHELL_LANGS : list string := [""; "bash"; "sh"; "shell"; "console"].

(** [INLINE_CODE_SPAN.finditer]. *)
Definition span_char (c : ascii) : bool := negb (is_char tick c) && negb (is_char newline c).
Fixpoint code_spans (fuel : nat) (l : list ascii) : list string :=
  match fuel, l with
  | S n, c :: r =>
      if is_char tick c then
        match take_while span_char r, drop_while span_char r with
        | ((_ :: _) as body), d :: r' => if is_char tick d then of_chars body :: code_spans n r' else code_spans n r
        | _, _ => code_spans n r
        end
      else code_spans n r
  | _, _ => []
  end.
Definition INLINE_CODE_SPAN (line : string) : list string := code_spans (S (String.length line)) (chars line).

(** [_SHELL_SEPARATORS.split]. *)
Definition separator (l : list ascii) : option (list ascii) :=
  match l with
  | c :: r =>
      if is_char "&" c then after ["&"%char] r
      else if is_char "|" c then Some (default r (after ["|"%char] r))
      else if is_char ";" c || is_char newline c then Some r
      else None
  | [] => None
  end.
Definition blank (c : ascii) : bool := is_space c && negb (is_char newline c).
Fixpoint segments (fuel : nat) (cur l : list ascii) : list string :=
  match fuel with
  | O => [of_chars (rev cur)]
  | S n =>
      match separator (drop_while blank l), l with
      | Some r, _ => of_chars (rev cur) :: segments n [] (drop_while is_space r)
      | None, c :: l' => segments n (c :: cur) l'
      | None, [] => [of_chars (rev cur)]
      end
  end.
Definition _SHELL_SEPARATORS (raw : string) : list string := segments (S (String.length raw)) [] (chars raw).

(** [BEETROOT_INVOCATION.finditer]: what follows each [beetroot]; a match of blanks only
    has no tokens, and is left out. *)
Definition rest_char (c : ascii) : bool := negb (is_char newline c) && negb (is_char "#" c) && negb (is_char tick c).
Fixpoint invocations (fuel : nat) (boundary : bool) (l : list ascii) : list string :=
  match fuel, l with
  | S n, c :: l' =>
      match (if boundary then after (chars "beetroot") l else None) with
      | Some ((d :: _) as r) =>
          if is_space d then
            let body := take_while rest_char (drop_while is_space r) in
            let r' := drop_while rest_char (drop_while is_space r) in
            match body with
            | [] => invocations n true r'
            | _ => of_chars body :: invocations n (match rev body with e :: _ => negb (is_word e) | [] => true end) r'
            end
          else invocations n (negb (is_word c)) l'
      | _ => invocations n (negb (is_word c)) l'
      end
  | _, _ => []
  end.
Definition BEETROOT_INVOCATION (segment : string) : list string :=
  invocations (S (String.length segment)) true (chars segment).

(** [raw.lstrip().startswith(("from ", "import "))]. *)
Definition python_import (raw : string) : bool :=
  let s := of_chars (lstrip_chars (chars raw)) in starts_with "from " s || starts_with "import " s.

(** [_ANSI_ESCAPE.sub("", text)]. *)
Definition csi_final (c : ascii) : bool := in_range "@" "~" c.
Definition esc : ascii := ascii_of_nat 27.
Fixpoint strip_ansi (fuel : nat) (l : list ascii) : list ascii :=
  match fuel, l with
  | S n, c :: l' =>
      if is_char esc c then
        match l' with
        | d :: r =>
            if is_char "[" d then
              match drop_while (in_range " " "/") (drop_while (in_range "0" "?") r) with
              | e :: r' => if csi_final e then strip_ansi n r' else c :: strip_ansi n l'
              | [] => c :: strip_ansi n l'
              end
            else if in_range "@" "_" d then strip_ansi n r
            else c :: strip_ansi n l'
        | [] => [c]
        end
      else c :: strip_ansi n l'
  | _, _ => []
  end.
Definition _strip_ansi (text : string) : string := of_chars (strip_ansi (S (String.length text)) (chars text)).

Definition _VERB_NAME (s : string) : bool :=
  match chars s with
  | c :: r => is_lower c && forallb (fun c => is_lower c || is_digit c || is_char "-" c) r
  | [] => false
  end.

(** ** The section *)

Record section_state := mkScan { in_unreleased : bool; in_fence : bool; fence_is_shell : bool }.
Abbreviation source := (Z * string)%type.

(** One line; [None] ends the scan. *)
Definition scan_entry (st : section_state) (idx : Z) (line : string) : option (section_state * list source * list source) :=
  if UNRELEASED_HEADING line then Some (mkScan true (in_fence st) (fence_is_shell st), [], [])
  else if in_unreleased st && NEXT_TOP_HEADING line then None
  else if negb (in_unreleased st) then Some (st, [], [])
  else match FENCE_DELIMITER line with
  | Some lang =>
      if in_fence st then Some (mkScan true false false, [], [])
      else Some (mkScan true true (bool_decide (lang ∈ SHELL_LANGS)), [], [])
  | None =>
      if in_fence st then Some (st, (if fence_is_shell st then [(idx, line)] else []), [])
      else Some (st, [], map (fun t => (idx, t)) (INLINE_CODE_SPAN line))
  end.

Fixpoint scan_entries (st : section_state) (idx : Z) (lines : list string) : list source * list source :=
  match lines with
  | [] => ([], [])
  | line :: lines' =>
      match scan_entry st idx line with
      | None => ([], [])
      | Some (st', f, i) => let '(fs, spans) := scan_entries st' (idx + 1) lines' in (f ++ fs, i ++ spans)
      end
  end.

Definition _extract_unreleased_lines (lines : list string) : list source * list source :=
  scan_entries (mkScan false false false) 1 lines.

(** ** Help *)

Definition _parse_verbs (help_text : string) : gset string :=
  list_to_set (filter (fun h => _VERB_NAME h = true) (map (fun raw => default "" (head (split_ws raw))) (splitlines (_strip_ansi help_text))))
  ∖ {["options"; "commands"; "arguments"; "usage"]}.

(** [re.finditer(r"--[A-Za-z][A-Za-z0-9-]*", text)]. *)
Definition flag_char (c : ascii) : bool := is_alnum c || is_char "-" c.
Fixpoint long_flags (fuel : nat) (l : list ascii) : list string :=
  match fuel, l with
  | S n, c :: l' =>
      match after (chars "--") l with
      | Some ((d :: _) as r) =>
          if is_lower d || is_upper d
          then of_chars (chars "--" ++ take_while flag_char r) :: long_flags n (drop_while flag_char r)
          else long_flags n l'
      | _ => long_flags n l'
      end
  | _, _ => []
  end.
Definition _parse_long_flags (help_text : string) : gset string :=
  let t := _strip_ansi help_text in
  list_to_set (long_flags (S (String.length t)) (chars t)) ∪ {["--help"; "--install-completion"; "--show-completion"]}.

(** [uv run beetroot [verb] --help]: exit code and output, which may depend on the calls
    made before. *)
Class Help := {
  uv_on_path : bool;
  help : list (option string) -> option string -> Z * string }.

Inductive lint_error : Type := HelpFailed (verb : option string) (rc : Z).   (* RuntimeError *)
Record lint := mkLint { calls : list (option string); flag_cache : list (string * gset string) }.
Abbreviation LM := (M lint lint_error).

Inductive complaint : Type :=
| UnknownVerb (line_no : Z) (verb raw : string)
| UnknownFlag (line_no : Z) (flag verb raw : string).

Section linter.
Context {H : Help}.

Definition help_text (verb : option string) : LM string := fun s =>
  let '(rc, out) := help (calls s) verb in
  ((if rc =? 0 then Ok out else Err (HelpFailed verb rc)), mkLint (calls s ++ [verb]) (flag_cache s)).

Definition _registered_verbs : LM (gset string) := t ← help_text None; mret (_parse_verbs t).
Definition _verb_long_flags (verb : string) : LM (gset string) := t ← help_text (Some verb); mret (_parse_long_flags t).

(** The flags of a verb, from the cache. *)
Definition allowed_flags (verb : string) : LM (gset string) :=
  known ← gets (fun s => Dict.get verb (flag_cache s));
  match known with
  | Some a => mret a
  | None =>
      a ← _verb_long_flags verb;
      modify (fun s => mkLint (calls s) (Dict.set verb a (flag_cache s))) ;;
      mret a
  end.

(** The flags before [--] that are not allowed. *)
Fixpoint bad_flags (allowed : gset string) (tokens : list string) : list string :=
  match tokens with
  | [] => []
  | tok :: tokens' =>
      if String.eqb tok "--" then []
      else if negb (starts_with "--" tok) then bad_flags allowed tokens'
      else let bare := default "" (head (split_on "=" tok)) in
           if bool_decide (bare ∈ allowed) then bad_flags allowed tokens' else bare :: bad_flags allowed tokens'
  end.

Definition check_invocation (known : gset string) (line_no : Z) (raw rest : string) : LM (list complaint) :=
  match split_ws (strip rest) with
  | [] => mret []
  | verb :: tokens =>
      if starts_with "-" verb then mret []
      else if negb (bool_decide (verb ∈ known)) then mret [UnknownVerb line_no verb (strip raw)]
      else
        allowed ← allowed_flags verb;
        mret (map (fun f => UnknownFlag line_no f verb (strip raw)) (bad_flags allowed tokens))
  end.

Fixpoint collect {B} (f : B -> LM (list complaint)) (l : list B) : LM (list complaint) :=
  match l with
  | [] => mret []
  | x :: l' => a ← f x; b ← collect f l'; mret (a ++ b)
  end.

(** The invocations that a source cites. *)
Definition cited (raw : string) : list string :=
  if python_import raw then [] else concat (map BEETROOT_INVOCATION (_SHELL_SEPARATORS raw)).

Definition _check_invocations (sources : list source) (known : gset string) : LM (list complaint) :=
  collect (fun '(line_no, raw) => collect (check_invocation known line_no raw) (cited raw)) sources.

Inductive printed : Type := NotFound | NoUv | Invalid (errors : list complaint).

(** [main]: the exit code and what is printed. *)
Definition main (changelog : option string) : LM (Z * list printed) :=
  match changelog with
  | None => mret (1, [NotFound])
  | Some text =>
      if negb uv_on_path then mret (1, [NoUv])
      else
        let '(fence_lines, inline_spans) := _extract_unreleased_lines (splitlines text) in
        if bool_decide (fence_lines = []) && bool_decide (inline_spans = []) then mret (0, [])
        else
          known ← _registered_verbs;
          e1 ← _check_invocations fence_lines known;
          e2 ← _check_invocations inline_spans known;
          if bool_decide (e1 ++ e2 = []) then mret (0, []) else mret (1, [Invalid (e1 ++ e2)])
  end.
End linter.
End Lint.
