(* ===== verification/LintOps.v ===== *)
(** * What the changelog linter guarantees

    Facts over [Lint]: what is scanned and under which line number, that a clean run means
    that every invocation is known, and that the help of a verb is asked for once. *)
From stdpp Require Import base list strings gmap sets sorting.
From Stdlib Require Import ZArith Lia Ascii.
From S2P Require Import Prelude PyStr BootCache Lint.
Local Open Scope stdpp_scope.
Local Open Scope Z_scope.

Module LintOps.
Import Lint.

(** ** The section *)

Lemma scan_before st idx pre rest : in_unreleased st = false ->
  Forall (fun l => UNRELEASED_HEADING l = false) pre ->
  scan_entries st idx (pre ++ rest) = scan_entries st (idx + Z.of_nat (length pre)) rest.
Proof.
  intros Hst Hp. revert idx. induction Hp as [|l pre Hl _ IH]; intros idx; simpl; [by rewrite Z.add_0_r|].
  unfold scan_entry. rewrite Hl, Hst. simpl. rewrite IH.
  replace (idx + 1 + Z.of_nat (length pre)) with (idx + Z.of_nat (S (length pre))) by lia.
  by destruct (scan_entries st _ rest).
Qed.

Lemma scan_until st idx body rest : in_unreleased st = true ->
  Forall (fun l => NEXT_TOP_HEADING l = false) body ->
  match rest with [] => True | l :: _ => NEXT_TOP_HEADING l = true /\ UNRELEASED_HEADING l = false end ->
  scan_entries st idx (body ++ rest) = scan_entries st idx body.
Proof.
  intros Hst Hb Hr. revert st idx Hst. induction Hb as [|l body Hl _ IH]; intros st idx Hst; simpl.
  - destruct rest as [|l rest]; [done|]. simpl. unfold scan_entry. destruct Hr as [-> ->]. by rewrite Hst.
  - destruct (scan_entry st idx l) as [[[st' f] i]|] eqn:Hs; [|done]. rewrite IH; [done|].
    revert Hs. unfold scan_entry. rewrite Hst, Hl. simpl.
    destruct (UNRELEASED_HEADING l); [by intros [= <- <- <-]|].
    destruct (FENCE_DELIMITER l), (in_fence st); by intros [= <- <- <-].
Qed.

(** Only the unreleased section is scanned: from the line after the first heading
    [## Unreleased] up to the next heading of that level or the end of the file, whatever
    stands before and after. *)
Theorem only_unreleased_scanned pre h body rest :
  Forall (fun l => UNRELEASED_HEADING l = false) pre -> UNRELEASED_HEADING h = true ->
  Forall (fun l => NEXT_TOP_HEADING l = false) body ->
  match rest with [] => True | l :: _ => NEXT_TOP_HEADING l = true /\ UNRELEASED_HEADING l = false end ->
  _extract_unreleased_lines (pre ++ h :: body ++ rest) =
    scan_entries (mkScan true false false) (Z.of_nat (length pre) + 2) body.
Proof.
  intros Hp Hh Hb Hr. unfold _extract_unreleased_lines. rewrite scan_before by done. simpl.
  unfold scan_entry at 1. rewrite Hh. simpl. replace (1 + Z.of_nat (length pre) + 1) with (Z.of_nat (length pre) + 2) by lia.
  rewrite scan_until by done. by destruct (scan_entries _ _ body).
Qed.

Lemma scan_line_anchored st idx l st' f i : scan_entry st idx l = Some (st', f, i) ->
  Forall (fun p => p = (idx, l)) f /\ Forall (fun p => p.1 = idx /\ p.2 ∈ INLINE_CODE_SPAN l) i.
Proof.
  unfold scan_entry. destruct (UNRELEASED_HEADING l); [intros [= <- <- <-]; by split|].
  destruct (in_unreleased st && NEXT_TOP_HEADING l); [done|]. destruct (negb (in_unreleased st)); [intros [= <- <- <-]; by split|].
  destruct (FENCE_DELIMITER l), (in_fence st); intros [= <- <- <-]; try (by split).
  - split; [|done]. destruct (fence_is_shell st); by repeat constructor.
  - split; [done|]. apply Forall_forall. intros [n t] Hx. apply list_elem_of_fmap in Hx as (x & [= -> ->] & Hx). by split.
Qed.

Lemma scan_anchored st idx lines : let '(fs, spans) := scan_entries st idx lines in
  Forall (fun p => exists k, p.1 = idx + Z.of_nat k /\ lines !! k = Some p.2) fs /\
  Forall (fun p => exists k l, p.1 = idx + Z.of_nat k /\ lines !! k = Some l /\ p.2 ∈ INLINE_CODE_SPAN l) spans.
Proof.
  revert st idx. induction lines as [|l lines IH]; intros st idx; simpl; [done|].
  destruct (scan_entry st idx l) as [[[st' f] i]|] eqn:Hs; [|done]. apply scan_line_anchored in Hs as [Hf Hi].
  specialize (IH st' (idx + 1)). destruct (scan_entries st' (idx + 1) lines) as [fs spans]. destruct IH as [H1 H2].
  split; apply Forall_app; split.
  - eapply Forall_impl; [exact Hf|]. intros p ->. exists 0%nat. simpl. split; [lia|done].
  - eapply Forall_impl; [exact H1|]. intros p (k & Hk & Hl). exists (S k). split; [lia|done].
  - eapply Forall_impl; [exact Hi|]. intros p [Hk Hl]. exists 0%nat, l. simpl. split_and!; [lia|done..].
  - eapply Forall_impl; [exact H2|]. intros p (k & l' & Hk & Hl & Hin). exists (S k), l'. split_and!; [lia|done..].
Qed.

(** Every source is anchored where it stands: a fenced source is the line of its number, and
    an inline source is a code span of the line of its number. *)
Theorem sources_anchored lines : let '(fs, spans) := _extract_unreleased_lines lines in
  Forall (fun p => lines !! Z.to_nat (p.1 - 1) = Some p.2) fs /\
  Forall (fun p => exists l, lines !! Z.to_nat (p.1 - 1) = Some l /\ p.2 ∈ INLINE_CODE_SPAN l) spans.
Proof.
  unfold _extract_unreleased_lines. pose proof (scan_anchored (mkScan false false false) 1 lines) as H.
  destruct (scan_entries _ 1 lines) as [fs spans]. destruct H as [H1 H2]. split; (eapply Forall_impl; [eassumption|]).
  - intros p (k & -> & Hl). by replace (Z.to_nat (1 + Z.of_nat k - 1)) with k by lia.
  - intros p (k & l & -> & Hl & Hin). exists l. by replace (Z.to_nat (1 + Z.of_nat k - 1)) with k by lia.
Qed.

(** ** Asking for help *)

Section linter.
Context {H : Help}.

Definition asked_once (s : lint) : Prop := NoDup (calls s).
Definition remembered (s : lint) : Prop :=
  asked_once s /\ forall v, Some v ∈ calls s -> is_Some (Dict.get v (flag_cache s)).

Lemma allowed_flags_wp v s : remembered s -> wp (allowed_flags v) (fun _ => remembered) (fun _ => asked_once) s.
Proof.
  intros [Hn Hc]. unfold allowed_flags. apply wp_bind, wp_gets. destruct (Dict.get v (flag_cache s)) as [a|] eqn:Hv.
  { by apply wp_ret. }
  assert (NoDup (calls s ++ [Some v])) as Hn'.
  { apply NoDup_app. split_and!; [done| |apply NoDup_singleton]. intros x Hx ->%list_elem_of_singleton.
    apply Hc in Hx. rewrite Hv in Hx. by destruct Hx. }
  apply wp_bind. unfold _verb_long_flags. apply wp_bind. unfold wp at 1, help_text.
  destruct (help (calls s) (Some v)) as [rc out]. destruct (rc =? 0); [|exact Hn'].
  apply wp_ret, wp_bind, wp_modify, wp_ret. split; [exact Hn'|]. simpl. intros w [Hw|Hw]%elem_of_app.
  - destruct (decide (v = w)) as [->|]; [rewrite Dict.get_set_eq; by eexists|]. rewrite Dict.get_set_ne by done. by apply Hc.
  - apply list_elem_of_singleton in Hw as [= ->]. rewrite Dict.get_set_eq. by eexists.
Qed.

Lemma check_invocation_wp known n raw rest s : remembered s ->
  wp (check_invocation known n raw rest) (fun _ => remembered) (fun _ => asked_once) s.
Proof.
  intros Hs. unfold check_invocation. destruct (split_ws (strip rest)) as [|verb tokens]; [by apply wp_ret|].
  destruct (starts_with "-" verb); [by apply wp_ret|]. destruct (negb _); [by apply wp_ret|].
  apply wp_bind. eapply wp_mono; [by apply allowed_flags_wp| |done]. cbn beta. intros a s1 H1. by apply wp_ret.
Qed.

Lemma collect_wp {B} (f : B -> LM (list complaint)) l s : remembered s ->
  (forall x s, remembered s -> wp (f x) (fun _ => remembered) (fun _ => asked_once) s) ->
  wp (collect f l) (fun _ => remembered) (fun _ => asked_once) s.
Proof.
  intros Hs Hf. revert s Hs. induction l as [|x l IH]; intros s Hs; simpl; [by apply wp_ret|].
  apply wp_bind. eapply wp_mono; [by apply Hf| |done]. cbn beta. intros a s1 H1. apply wp_bind.
  eapply wp_mono; [by apply IH| |done]. cbn beta. intros b s2 H2. by apply wp_ret.
Qed.

Lemma check_invocations_wp sources known s : remembered s ->
  wp (_check_invocations sources known) (fun _ => remembered) (fun _ => asked_once) s.
Proof.
  intros Hs. apply collect_wp; [done|]. intros [n raw] s1 H1. apply collect_wp; [done|].
  intros rest s2 H2. by apply check_invocation_wp.
Qed.

Definition fresh : lint := mkLint [] [].

(** The help of the command line and of each verb is asked for at most once in a run,
    whatever the changelog cites and whatever the answers, an answer that ends the run
    included. *)
Theorem help_asked_once changelog : NoDup (calls (snd (main changelog fresh))).
Proof.
  assert (wp (main changelog) (fun _ => asked_once) (fun _ => asked_once) fresh) as Hw.
  { unfold main. destruct changelog as [text|]; [|apply wp_ret; constructor].
    destruct (negb uv_on_path); [apply wp_ret; constructor|].
    destruct (_extract_unreleased_lines _) as [fs spans].
    destruct (bool_decide (fs = []) && _); [apply wp_ret; constructor|].
    apply wp_bind. unfold _registered_verbs. apply wp_bind. unfold wp at 1, help_text. simpl.
    destruct (help [] None) as [rc out]. destruct (rc =? 0); [|apply NoDup_singleton]. apply wp_ret.
    assert (remembered (mkLint [None] [])) as Hr.
    { split; [apply NoDup_singleton|]. intros v Hv. by apply list_elem_of_singleton in Hv. }
    apply wp_bind. eapply wp_mono; [by apply check_invocations_wp| |done]. cbn beta. intros e1 s1 H1. apply wp_bind.
    eapply wp_mono; [by apply check_invocations_wp| |done]. cbn beta. intros e2 s2 [H2 _].
    destruct (bool_decide _); by apply wp_ret. }
  unfold wp in Hw. by destruct (main changelog fresh) as [[?|?] ?].
Qed.
End linter.

(** ** What a clean run means *)

Section answers.
Context {H : Help}.
(** What [--help] says does not depend on the calls before. *)
Variable verbs : gset string.
Variable flags : string -> gset string.
Hypothesis top_help : forall l, exists out, help l None = (0, out) /\ _parse_verbs out = verbs.
Hypothesis verb_help : forall l v, v ∈ verbs -> exists out, help l (Some v) = (0, out) /\ _parse_long_flags out = flags v.

(** The tokens before [--]. *)
Fixpoint options (tokens : list string) : list string :=
  match tokens with [] => [] | t :: l => if String.eqb t "--" then [] else t :: options l end.
Definition bare (tok : string) : string := default "" (head (split_on "=" tok)).

(** An invocation the command line has: a verb it knows, followed by long flags of that verb;
    what starts with an option is not looked at. *)
Definition valid (rest : string) : Prop :=
  match split_ws (strip rest) with
  | [] => True
  | verb :: tokens =>
      starts_with "-" verb = true \/
      verb ∈ verbs /\ Forall (fun t => starts_with "--" t = true -> bare t ∈ flags verb) (options tokens)
  end.

Lemma bad_flags_nil allowed tokens :
  bad_flags allowed tokens = [] <-> Forall (fun t => starts_with "--" t = true -> bare t ∈ allowed) (options tokens).
Proof.
  induction tokens as [|t l IH]; simpl; [done|]. destruct (String.eqb_spec t "--") as [->|Hne]; [done|].
  rewrite Forall_cons. fold (bare t). destruct (starts_with "--" t) eqn:Hs; simpl; [|rewrite IH; naive_solver].
  destruct (decide (bare t ∈ allowed)) as [Hin|Hin].
  - rewrite bool_decide_true by done. rewrite IH. naive_solver.
  - rewrite bool_decide_false by done. split; [done|]. intros [Hb _]. destruct Hin. by apply Hb.
Qed.

(** The cache holds what the help says. *)
Definition faithful (s : lint) : Prop := forall v a, Dict.get v (flag_cache s) = Some a -> a = flags v.

Lemma allowed_flags_run v s : faithful s -> v ∈ verbs ->
  exists s', allowed_flags v s = (Ok (flags v), s') /\ faithful s'.
Proof.
  intros Hs Hv. unfold allowed_flags. unfold mbind at 1, M_bind at 1, gets. destruct (Dict.get v (flag_cache s)) as [a|] eqn:Hg.
  { apply Hs in Hg as ->. by exists s. }
  destruct (verb_help (calls s) v Hv) as (out & Hh & Hp). unfold _verb_long_flags, help_text, mbind, M_bind, modify, mret, M_ret.
  rewrite Hh. simpl. rewrite Hp. eexists. split; [reflexivity|]. intros w a. simpl.
  destruct (decide (v = w)) as [->|]; [rewrite Dict.get_set_eq; by intros [= <-]|]. rewrite Dict.get_set_ne by done. apply Hs.
Qed.

Lemma check_invocation_run n raw rest s : faithful s -> exists l s',
  check_invocation verbs n raw rest s = (Ok l, s') /\ faithful s' /\ (l = [] <-> valid rest).
Proof.
  intros Hs. unfold check_invocation, valid. destruct (split_ws (strip rest)) as [|verb tokens]; [exists [], s; by split_and!|].
  destruct (starts_with "-" verb); [exists [], s; split_and!; [done..|]; split; [by left|done]|].
  destruct (decide (verb ∈ verbs)) as [Hv|Hv].
  - rewrite bool_decide_true by done. simpl. destruct (allowed_flags_run verb s Hs Hv) as (s' & Ha & Hs').
    rewrite (M_bind_ok _ _ _ _ _ Ha). eexists _, s'. split; [reflexivity|]. split; [done|].
    pose proof (bad_flags_nil (flags verb) tokens) as Hb. destruct (bad_flags (flags verb) tokens); naive_solver.
  - rewrite bool_decide_false by done. simpl. eexists _, s. split; [reflexivity|]. split; [done|]. naive_solver.
Qed.

Lemma collect_run {B} (f : B -> LM (list complaint)) (P : B -> Prop) l s : faithful s ->
  (forall x s, faithful s -> exists r s', f x s = (Ok r, s') /\ faithful s' /\ (r = [] <-> P x)) ->
  exists r s', collect f l s = (Ok r, s') /\ faithful s' /\ (r = [] <-> Forall P l).
Proof.
  intros Hs Hf. revert s Hs. induction l as [|x l IH]; intros s Hs; simpl; [exists [], s; split_and!; [done..|]; by split|].
  destruct (Hf x s Hs) as (r1 & s1 & H1 & Hs1 & Hr1). destruct (IH s1 Hs1) as (r2 & s2 & H2 & Hs2 & Hr2).
  rewrite (M_bind_ok _ _ _ _ _ H1), (M_bind_ok _ _ _ _ _ H2). eexists _, s2. split; [reflexivity|]. split; [done|].
  rewrite Forall_cons, <- Hr1, <- Hr2. apply app_nil.
Qed.

Definition source_valid (p : Z * string) : Prop := Forall valid (cited p.2).

Lemma check_all_run sources s : faithful s -> exists r s',
  _check_invocations sources verbs s = (Ok r, s') /\ faithful s' /\ (r = [] <-> Forall source_valid sources).
Proof.
  intros Hs. apply collect_run; [done|]. intros [n raw] s1 Hs1. unfold source_valid. simpl.
  apply collect_run; [done|]. intros rest s2 Hs2. by apply check_invocation_run.
Qed.

(** A run of the linter ends with code 0 exactly when every invocation cited in the shell
    fences and in the code spans of the unreleased section is one the command line has, and
    with code 1 otherwise. *)
Theorem clean_iff_valid text : uv_on_path = true ->
  let '(fs, spans) := _extract_unreleased_lines (splitlines text) in
  exists out s', main (Some text) fresh =
    (Ok (if bool_decide (out = []) then 0 else 1, out), s') /\ (out = [] <-> Forall source_valid (fs ++ spans)).
Proof.
  intros Huv. unfold main. rewrite Huv. simpl. destruct (_extract_unreleased_lines (splitlines text)) as [fs spans].
  destruct (decide (fs = [] /\ spans = [])) as [[-> ->]|Hne].
  { exists [], fresh. split; [reflexivity|]. by split. }
  assert (bool_decide (fs = []) && bool_decide (spans = []) = false) as ->.
  { apply not_true_iff_false. rewrite andb_true_iff, !bool_decide_eq_true. done. }
  destruct (top_help []) as (o & Ho & Hp).
  assert (_registered_verbs fresh = (Ok verbs, mkLint [None] [])) as Hreg.
  { unfold _registered_verbs, help_text, mbind, M_bind, mret, M_ret. simpl. rewrite Ho. simpl. by rewrite Hp. }
  rewrite (M_bind_ok _ _ _ _ _ Hreg).
  destruct (check_all_run fs (mkLint [None] [])) as (e1 & s1 & H1 & Hs1 & Hr1); [done|].
  rewrite (M_bind_ok _ _ _ _ _ H1). destruct (check_all_run spans s1 Hs1) as (e2 & s2 & H2 & Hs2 & Hr2).
  rewrite (M_bind_ok _ _ _ _ _ H2).
  assert (e1 ++ e2 = [] <-> Forall source_valid (fs ++ spans)) as Hall.
  { rewrite Forall_app, <- Hr1, <- Hr2. apply app_nil. }
  destruct (decide (e1 ++ e2 = [])) as [He|He].
  - rewrite bool_decide_true by done. exists [], s2. split; [reflexivity|]. split; [by intros _; apply Hall|done].
  - rewrite bool_decide_false by done. exists [Invalid (e1 ++ e2)], s2. split; [reflexivity|]. split; [done|].
    intros Hv. by destruct He; apply Hall.
Qed.
End answers.

(** ** A command line with two verbs *)

Definition nl : string := String newline "".
Definition two_verbs : Help := {|
  uv_on_path := true;
  help _ v := (0, match v with None => "up  Start" +:+ nl +:+ "down  Stop" | Some _ => "  --all  Every instance" end) |}.
#[export] Existing Instance two_verbs.

Definition log (body : list string) : string := join nl (["# Changelog"; "## Unreleased"] ++ body ++ ["## 0.3"; "`beetroot gone`"]).

Example clean_log : fst (main (Some (log ["Use `beetroot up --all`."; "```bash"; "beetroot down a && beetroot up b"; "```"])) fresh) = Ok (0, []).
Proof. vm_compute. reflexivity. Qed.
Example second_verb : fst (main (Some (log ["```"; "beetroot down a && beetroot gone"; "```"])) fresh) =
  Ok (1, [Invalid [UnknownVerb 4 "gone" "beetroot down a && beetroot gone"]]).
Proof. vm_compute. reflexivity. Qed.

(** A shell comment that begins with two hashes ends the section. *)
Example comment_ends_section :
  fst (main (Some (log ["```bash"; "## first"; "beetroot gone"; "```"])) fresh) = Ok (0, []).
Proof. vm_compute. reflexivity. Qed.

(** After a span in double backticks the spans of its line are taken the wrong way round. *)
Example double_ticks_hide_spans :
  fst (main (Some (log ["The ``up`` verb, not `beetroot gone`."])) fresh) = Ok (0, []) /\
  fst (main (Some (log ["The up verb, not `beetroot gone`."])) fresh) = Ok (1, [Invalid [UnknownVerb 3 "gone" "beetroot gone"]]).
Proof. vm_compute. split; reflexivity. Qed.

Lemma only_unreleased_scanned_witness :
  _extract_unreleased_lines ["# Changelog"; "## Unreleased"; "`beetroot up`"; "## 0.3"; "`x`"] = ([], [(3, "beetroot up")]).
Proof.
  refine (eq_trans (only_unreleased_scanned ["# Changelog"] "## Unreleased" ["`beetroot up`"] ["## 0.3"; "`x`"] _ _ _ _) _).
  - repeat constructor.
  - reflexivity.
  - repeat constructor.
  - split; reflexivity.
  - vm_compute. reflexivity.
Defined.

Lemma clean_iff_valid_witness :
  Forall (source_valid {["up"; "down"]} (fun _ => _parse_long_flags "  --all  Every instance")) [(3, "beetroot up --all")].
Proof.
  pose proof (clean_iff_valid {["up"; "down"]} (fun _ => _parse_long_flags "  --all  Every instance")) as Hc.
  specialize (Hc ltac:(intros l; eexists; split; [reflexivity|apply (bool_decide_unpack _); vm_compute; exact I])).
  specialize (Hc ltac:(intros l v _; eexists; split; reflexivity) (log ["`beetroot up --all`"]) eq_refl).
  change (_extract_unreleased_lines (splitlines (log ["`beetroot up --all`"]))) with (@nil (Z * string), [(3, "beetroot up --all")]) in Hc.
  destruct Hc as (out & s' & Hm & Hi). apply Hi.
  assert (fst (main (Some (log ["`beetroot up --all`"])) fresh) = Ok (0, [])) as Hv by (vm_compute; reflexivity).
  rewrite Hm in Hv. simpl in Hv. by injection Hv.
Defined.
End LintOps.
