(* ===== verification/CacheKey.v ===== *)
(** * The cache key of the continuous-integration jobs ([src/scripts/vm_cache_key.py])

    The memoised digest of a file and the key over a set of files.  SHA-256 is a parameter;
    the files are those of [BootCache], whose [_hash_file] this script keeps in step with. *)
From stdpp Require Import base list strings gmap sorting.
From Stdlib Require Import ZArith Lia Ascii OrdersEx.
From S2P Require Import Prelude PyStr Qemu HostFs BootCache.
Local Open Scope stdpp_scope.
Local Open Scope Z_scope.

Module CacheKey.

Definition DEFAULT_PREFIX : string := "vm-snapshot".
Definition _KEY_HEX_LEN : nat := 16.

Inductive key_error : Type :=
| NoInput                                        (* ValueError *)
| NoFile (path : string).                        (* FileNotFoundError *)

(** The files and [_HASH_CACHE]. *)
Record key_state := mkKeyState { k_files : gmap string file; _HASH_CACHE : gmap (string * Z * Z) string }.
Abbreviation KM := (M key_state key_error).

Section key.
Variable sha256 : string -> string.

Definition hash_file (path : string) : KM string :=
  s ← gets id;
  match k_files s !! path with
  | None => raise (NoFile path)
  | Some f =>
      let key := (path, f_size f, f_mtime f) in
      match _HASH_CACHE s !! key with
      | Some cached => mret cached
      | None =>
          let hexdigest := sha256 (f_bytes f) in
          modify (fun s => mkKeyState (k_files s) (<[key := hexdigest]> (_HASH_CACHE s))) ;;
          mret hexdigest
      end
  end.

(** [{path: hash_file(path) for path in paths}]. *)
Fixpoint digests_of (d : list (string * string)) (paths : list string) : KM (list (string * string)) :=
  match paths with
  | [] => mret d
  | p :: paths' => h ← hash_file p; digests_of (Dict.set p h d) paths'
  end.

(** The order of the tuples (name, digest); equal tuples fold in alike. *)
Definition tuple_le (a b : string * string) : Prop := tuple_lt b a = false.
#[export] Instance tuple_le_dec a b : Decision (tuple_le a b).
Proof. unfold tuple_le. apply _. Defined.

Definition entries (d : list (string * string)) : list (string * string) :=
  merge_sort tuple_le (map (fun '(p, h) => (basename p, h)) d).
Definition combined (d : list (string * string)) : string := nul_terminated (concat (map (fun '(n, h) => [n; h]) (entries d))).

Definition compute_cache_key (paths : list string) (prefix : string) : KM string :=
  match paths with
  | [] => raise NoInput
  | _ =>
      d ← digests_of [] paths;
      mret (prefix +:+ "-" +:+ String.substring 0 _KEY_HEX_LEN (sha256 (combined d)))
  end.

(** [main]: the line printed and the exit code; the arguments come parsed. *)
Definition main (paths : list string) (prefix : option string) : KM (string * Z) :=
  key ← compute_cache_key paths (default DEFAULT_PREFIX prefix);
  mret (key, 0).
End key.

(** ** The order of the entries *)

Lemma compare_ot a b : String.compare a b = OrdersEx.String_as_OT.compare a b.
Proof. revert b. induction a as [|c a IH]; intros [|d b]; simpl; try done; by rewrite IH. Qed.

Lemma ltb_lt a b : String.ltb a b = true <-> OrdersEx.String_as_OT.lt a b.
Proof. unfold String.ltb, OrdersEx.String_as_OT.lt. rewrite compare_ot. by destruct (OrdersEx.String_as_OT.compare a b). Qed.

Lemma lt_trichotomy a b : OrdersEx.String_as_OT.lt a b \/ a = b \/ OrdersEx.String_as_OT.lt b a.
Proof. destruct (OrdersEx.String_as_OT.compare_spec a b); auto. Qed.

Lemma tuple_lt_spec a b : tuple_lt a b = true <->
  OrdersEx.String_as_OT.lt a.1 b.1 \/ a.1 = b.1 /\ OrdersEx.String_as_OT.lt a.2 b.2.
Proof. unfold tuple_lt. by rewrite orb_true_iff, andb_true_iff, String.eqb_eq, !ltb_lt. Qed.

Lemma lt_irrefl a : ~ OrdersEx.String_as_OT.lt a a.
Proof. apply OrdersEx.String_as_OT.lt_strorder. Qed.
Lemma lt_transitive a b c : OrdersEx.String_as_OT.lt a b -> OrdersEx.String_as_OT.lt b c -> OrdersEx.String_as_OT.lt a c.
Proof. apply OrdersEx.String_as_OT.lt_strorder. Qed.

Lemma tuple_trichotomy a b : tuple_lt a b = true \/ a = b \/ tuple_lt b a = true.
Proof.
  destruct a as [n d], b as [m e]. rewrite !tuple_lt_spec. cbn [fst snd].
  destruct (lt_trichotomy n m) as [?|[->|?]]; [by left; left| |by right; right; left].
  destruct (lt_trichotomy d e) as [?|[->|?]]; [left; right; by split|right; by left|right; right; right; by split].
Qed.

Lemma tuple_lt_trans a b c : tuple_lt a b = true -> tuple_lt b c = true -> tuple_lt a c = true.
Proof.
  rewrite !tuple_lt_spec. destruct a as [n d], b as [m e], c as [k g]. cbn [fst snd].
  intros [?|[-> ?]] [?|[-> ?]]; eauto using lt_transitive.
Qed.

Lemma tuple_lt_irrefl a : tuple_lt a a = false.
Proof. apply not_true_iff_false. rewrite tuple_lt_spec. intros [?%lt_irrefl|[_ ?%lt_irrefl]]; done. Qed.

#[export] Instance tuple_le_total : Total tuple_le.
Proof.
  intros a b. unfold tuple_le. destruct (tuple_lt b a) eqn:Hb; [right|by left].
  apply not_true_iff_false. intros Ha. pose proof (tuple_lt_trans _ _ _ Ha Hb) as H. by rewrite tuple_lt_irrefl in H.
Qed.
#[export] Instance tuple_le_antisym : AntiSymm (=) tuple_le.
Proof. intros a b Ha Hb. unfold tuple_le in *. destruct (tuple_trichotomy a b) as [?|[?|?]]; congruence. Qed.
#[export] Instance tuple_le_trans : Transitive tuple_le.
Proof.
  intros a b c Ha Hb. unfold tuple_le in *. apply not_true_iff_false. intros Hc.
  destruct (tuple_trichotomy b a) as [?|[->|Hba]]; [congruence..|].
  destruct (tuple_trichotomy c b) as [?|[->|Hcb]]; [congruence..|].
  pose proof (tuple_lt_trans _ _ _ Hc (tuple_lt_trans _ _ _ Hba Hcb)) as H. by rewrite tuple_lt_irrefl in H.
Qed.

(** Sorted entries depend on the collection only. *)
Lemma entries_perm d d' : Permutation d d' -> entries d = entries d'.
Proof.
  intros Hd. unfold entries. apply (Sorted_unique tuple_le); try (apply Sorted_merge_sort; exact _).
  rewrite !merge_sort_Permutation. by rewrite Hd.
Qed.

(** ** The memo *)

Section keyed.
Variable sha256 : string -> string.
Hypothesis sha256_hex : forall s, nul ∉ chars (sha256 s).
(** What every file with a given path, size and modification time holds. *)
Variable content_at : string * Z * Z -> string.

Record honest (s : key_state) : Prop := {
  files_ok : forall path f, k_files s !! path = Some f -> content_at (path, f_size f, f_mtime f) = f_bytes f;
  memo_ok : forall key h, _HASH_CACHE s !! key = Some h -> h = sha256 (content_at key) }.

Definition digest_at s (path : string) : string :=
  match k_files s !! path with Some f => sha256 (f_bytes f) | None => "" end.

(** The memo never changes an answer. *)
Lemma memo_run s path : honest s -> is_Some (k_files s !! path) -> exists c,
  hash_file sha256 path s = (Ok (digest_at s path), mkKeyState (k_files s) c) /\ honest (mkKeyState (k_files s) c).
Proof.
  intros [Hf Hm] [f Hp]. unfold hash_file, digest_at, gets, mbind, M_bind. cbn [id]. rewrite Hp.
  destruct (_HASH_CACHE s !! (path, f_size f, f_mtime f)) as [h|] eqn:Hh.
  - exists (_HASH_CACHE s). rewrite (Hm _ _ Hh), (Hf _ _ Hp). split; [by destruct s|by split].
  - eexists. split; [reflexivity|]. split; [done|]. intros key h. cbn [_HASH_CACHE].
    destruct (decide (key = (path, f_size f, f_mtime f))) as [->|Hne].
    + rewrite lookup_insert_eq. intros [= <-]. by rewrite (Hf _ _ Hp).
    + rewrite lookup_insert_ne by done. apply Hm.
Qed.

Lemma elem_iff n h (d : list (string * string)) : Dict.wf d -> (n, h) ∈ d <-> Dict.get n d = Some h.
Proof. intros Hd. split; [by apply Dict.elem_get|apply Dict.get_Some_elem]. Qed.

Definition digests s (d : list (string * string)) (paths : list string) : list (string * string) :=
  foldl (fun d p => Dict.set p (digest_at s p) d) d paths.

Lemma digests_run paths s d : honest s -> Forall (fun p => is_Some (k_files s !! p)) paths -> exists c,
  digests_of sha256 d paths s = (Ok (digests s d paths), mkKeyState (k_files s) c).
Proof.
  intros Hs Hp. revert s d Hs Hp. induction paths as [|p paths IH]; intros s d Hs Hp; simpl; [exists (_HASH_CACHE s); by destruct s|].
  apply Forall_cons in Hp as [Hp Hps]. destruct (memo_run s p Hs Hp) as (c & Hh & Hc).
  rewrite (M_bind_ok _ _ _ _ _ Hh). by apply (IH (mkKeyState (k_files s) c)).
Qed.

Lemma digests_spec s paths d : Dict.wf d -> Forall (fun x => x.2 = digest_at s x.1) d ->
  Dict.wf (digests s d paths) /\
  forall x, x ∈ digests s d paths <-> x ∈ d \/ x.1 ∈ paths /\ x.2 = digest_at s x.1.
Proof.
  revert d. induction paths as [|p paths IH]; intros d Hw Hd; simpl; [split; [done|]; set_solver|].
  assert (forall x, x ∈ Dict.set p (digest_at s p) d <-> x ∈ d \/ x = (p, digest_at s p)) as Hset.
  { intros [n h]. rewrite !elem_iff by (done || by apply Dict.wf_set).
    destruct (decide (p = n)) as [->|Hne].
    - rewrite Dict.get_set_eq. split; [intros [= <-]; by right|]. intros [Hg|[= ->]]; [|done].
      apply Dict.get_Some_elem in Hg. rewrite Forall_forall in Hd. by apply Hd in Hg; simpl in Hg; subst.
    - rewrite Dict.get_set_ne by done. naive_solver. }
  destruct (IH (Dict.set p (digest_at s p) d)) as [Hw' Hx].
  - by apply Dict.wf_set.
  - apply Forall_forall. intros x [Hin| ->]%Hset; [|done]. rewrite Forall_forall in Hd. by apply Hd.
  - split; [exact Hw'|]. intros [n h]. rewrite Hx, Hset, elem_of_cons. cbn [fst snd]. naive_solver.
Qed.

Definition here s (paths : list string) : Prop := Forall (fun p => is_Some (k_files s !! p)) paths.

Lemma digests_perm s ps qs : Permutation ps qs -> Permutation (digests s [] ps) (digests s [] qs).
Proof.
  intros Hp. destruct (digests_spec s ps []) as [H1 H2]; [constructor|constructor|].
  destruct (digests_spec s qs []) as [H3 H4]; [constructor|constructor|].
  apply NoDup_Permutation; [by apply NoDup_fmap_1 in H1|by apply NoDup_fmap_1 in H3|].
  intros x. rewrite H2, H4. by rewrite Hp.
Qed.

Definition key_of s (paths : list string) (prefix : string) : string :=
  prefix +:+ "-" +:+ String.substring 0 _KEY_HEX_LEN (sha256 (combined (digests s [] paths))).

Lemma key_run s paths prefix : honest s -> here s paths -> paths <> [] ->
  fst (compute_cache_key sha256 paths prefix s) = Ok (key_of s paths prefix).
Proof.
  intros Hs Hh Hne. unfold compute_cache_key. destruct paths as [|p paths]; [done|].
  destruct (digests_run (p :: paths) s [] Hs Hh) as (c & Hd). by rewrite (M_bind_ok _ _ _ _ _ Hd).
Qed.

(** The key of a set of files does not depend on the order in which they are named, nor on
    what the memo holds. *)
Theorem key_order_independent s c ps qs prefix : honest s -> honest (mkKeyState (k_files s) c) -> here s ps ->
  Permutation ps qs -> fst (compute_cache_key sha256 ps prefix s) = fst (compute_cache_key sha256 qs prefix (mkKeyState (k_files s) c)).
Proof.
  intros Hs Hc Hh Hp. destruct (decide (ps = [])) as [->|Hne].
  { apply Permutation_nil_l in Hp. subst qs. reflexivity. }
  rewrite key_run by done. rewrite key_run; [|done|unfold here in *; simpl; by rewrite <- Hp|by intros ->; apply Permutation_nil_r in Hp].
  unfold key_of, combined. by rewrite (entries_perm _ _ (digests_perm s ps qs Hp)).
Qed.

(** What is hashed into the key determines the names and the contents of the files: two sets
    of files with the same digest input have the same pairs of name and digest. *)
Theorem key_input_faithful s s' ps qs :
  Forall (fun p => nul ∉ chars (basename p)) (ps ++ qs) -> here s ps -> here s' qs ->
  combined (digests s [] ps) = combined (digests s' [] qs) ->
  Permutation (map (fun '(p, h) => (basename p, h)) (digests s [] ps)) (map (fun '(p, h) => (basename p, h)) (digests s' [] qs)).
Proof.
  intros Hn%Forall_app Hp Hq Hc. destruct Hn as [Hnp Hnq].
  assert (forall s ps, Forall (fun p => nul ∉ chars (basename p)) ps -> here s ps ->
    Forall (fun t => nul ∉ chars t) (concat (map (fun '(n, h) => [n; h]) (entries (digests s [] ps))))) as Hf.
  { clear s s' ps qs Hp Hq Hc Hnp Hnq. intros s ps Hn Hp. destruct (digests_spec s ps []) as [_ Hx]; [constructor|constructor|].
    apply Forall_forall. intros t Ht. apply list_elem_of_In, in_concat in Ht as (l & Hl & Ht).
    apply in_map_iff in Hl as ([n h] & <- & Hin). apply list_elem_of_In in Hin. unfold entries in Hin.
    rewrite merge_sort_Permutation in Hin. apply list_elem_of_fmap in Hin as ([p h'] & [= -> ->] & Hin).
    apply Hx in Hin as [Hin|[Hin Hd]]; [by apply elem_of_nil in Hin|]. cbn [fst snd] in Hin, Hd. subst h'.
    rewrite Forall_forall in Hn. destruct Ht as [<-|[<-|[]]]; [by apply Hn|].
    unfold digest_at. destruct (k_files s !! p); [apply sha256_hex|set_solver]. }
  unfold combined in Hc. apply nul_terminated_inj in Hc; [|by apply Hf..].
  rewrite <- (merge_sort_Permutation tuple_le (map _ (digests s [] ps))), <- (merge_sort_Permutation tuple_le (map _ (digests s' [] qs))).
  change (Permutation (entries (digests s [] ps)) (entries (digests s' [] qs))). 
  destruct (pairs_inj (entries (digests s [] ps)) (entries (digests s' [] qs)) ["";"";""] ["";"";""]) as [-> _]; [done..|by rewrite Hc|done].
Qed.
End keyed.
End CacheKey.
