(* ===== verification/Settings.v ===== *)
(** * Settings ([src/src/beetroot/settings.py])

    The overrides from the environment behind their lazy proxy.  The validation of the
    environment by pydantic is a parameter. *)
From stdpp Require Import base list strings gmap.
From Stdlib Require Import ZArith Lia.
From S2P Require Import Prelude.
Local Open Scope stdpp_scope.
Local Open Scope Z_scope.

Module Settings.

Record Settings := mkSettings {
  docker_bin : string; frida_arch : string; http_timeout : Z; magisk_db : string; modules_dir : string;
  frida_bin : string; build_context : string; qemu_bin : string; qemu_img_bin : string; vm_kernel : string;
  vm_rootfs : string; vm_adb_connect_timeout : Z }.

Definition Settings_default : Settings :=
  mkSettings "docker" "android-x86_64" 30 "/data/adb/magisk.db" "/data/adb/modules_update"
    "/data/local/tmp/frida-server" "" "qemu-system-x86_64" "qemu-img" "" "" 60.

(** [PositiveInt] of the two timeouts. *)
Definition Settings_ok (c : Settings) : Prop := 0 < http_timeout c /\ 0 < vm_adb_connect_timeout c.

(** [Settings()] in an environment; [None] for a [ValidationError]. *)
Class Environment := { validated : list (string * string) -> option Settings }.
Class EnvironmentLaws (V : Environment) : Prop := {
  validated_ok e c : validated e = Some c -> Settings_ok c;
  validated_unset e c : (forall n v, (n, v) ∈ e -> String.prefix "BEETROOT_" n = false) -> validated e = Some c -> c = Settings_default }.

Inductive settings_error : Type := InvalidSettingsError.

(** The process: its environment, the proxy, and how often the environment was read. *)
Record process := mkProcess { p_environ : list (string * string); _resolved : option Settings; reads : nat }.
Abbreviation SM := (M process settings_error).

Section settings.
Context {V : Environment}.

Definition _build_settings : SM Settings := fun s =>
  ((match validated (p_environ s) with Some c => Ok c | None => Err InvalidSettingsError end),
   mkProcess (p_environ s) (_resolved s) (S (reads s))).

Definition _get : SM Settings :=
  known ← gets _resolved;
  match known with
  | Some c => mret c
  | None =>
      c ← _build_settings;
      modify (fun s => mkProcess (p_environ s) (Some c) (reads s)) ;;
      mret c
  end.

(** [settings.<field>]. *)
Definition __getattr__ {B} (field : Settings -> B) : SM B := c ← _get; mret (field c).

(** What a process does with its settings: it changes its environment or reads a field. *)
Inductive action : Type := Putenv (name v : string) | Access.
Definition step (a : action) : SM unit :=
  match a with
  | Putenv n v => modify (fun s => mkProcess (Dict.set n v (p_environ s)) (_resolved s) (reads s))
  | Access => fun s => (Ok tt, snd (_get s))
  end.
Fixpoint steps (l : list action) : SM unit :=
  match l with [] => mret tt | a :: l' => step a ;; steps l' end.

(** The settings that were resolved come from a valid environment. *)
Definition sound (s : process) : Prop := forall c, _resolved s = Some c -> exists e, validated e = Some c.

Lemma get_cases s :
  match _resolved s, validated (p_environ s) with
  | Some c, _ => _get s = (Ok c, s)
  | None, Some c => _get s = (Ok c, mkProcess (p_environ s) (Some c) (S (reads s)))
  | None, None => _get s = (Err InvalidSettingsError, mkProcess (p_environ s) None (S (reads s)))
  end.
Proof.
  unfold _get, _build_settings, gets, mbind, M_bind, modify, mret, M_ret. destruct (_resolved s) as [c|] eqn:Hr; [done|].
  rewrite Hr. by destruct (validated _).
Qed.

(** Once a field was read the environment no longer matters and is not read again. *)
Theorem settings_read_once l s c : _resolved s = Some c ->
  _resolved (snd (steps l s)) = Some c /\ reads (snd (steps l s)) = reads s /\
  forall B (field : Settings -> B), fst (__getattr__ field (snd (steps l s))) = Ok (field c).
Proof.
  intros Hc. assert (_resolved (snd (steps l s)) = Some c /\ reads (snd (steps l s)) = reads s) as [H1 H2].
  { revert s Hc. induction l as [|a l IH]; intros s Hc; [done|]. simpl. unfold mbind, M_bind.
    destruct a as [n v|]; simpl; [by apply (IH (mkProcess (Dict.set n v (p_environ s)) (_resolved s) (reads s)))|]. pose proof (get_cases s) as Hg. rewrite Hc in Hg. rewrite Hg. by apply IH. }
  split_and!; [done..|]. intros B field. unfold __getattr__. pose proof (get_cases (snd (steps l s))) as Hg.
  rewrite H1 in Hg. by rewrite (M_bind_ok _ _ _ _ _ Hg).
Qed.

(** A malformed variable fails each read and leaves the proxy unresolved, so that a process
    that mends its environment goes on. *)
Theorem malformed_is_not_cached s B (field : Settings -> B) : _resolved s = None -> validated (p_environ s) = None ->
  fst (__getattr__ field s) = Err InvalidSettingsError /\ _resolved (snd (__getattr__ field s)) = None.
Proof.
  intros Hr Hv. unfold __getattr__. pose proof (get_cases s) as Hg. rewrite Hr, Hv in Hg.
  by rewrite (M_bind_err _ _ _ _ _ Hg).
Qed.

(** Every timeout the code gets is positive. *)
Theorem timeouts_positive `{L : !EnvironmentLaws V} l s : sound s ->
  forall c, fst (_get (snd (steps l s))) = Ok c -> Settings_ok c.
Proof.
  intros Hs. assert (sound (snd (steps l s))) as Hl.
  { revert s Hs. induction l as [|a l IH]; intros s Hs; [done|]. simpl. unfold mbind, M_bind.
    destruct a as [n v|]; simpl; apply IH; [done|]. pose proof (get_cases s) as Hg.
    destruct (_resolved s) eqn:Hr; [by rewrite Hg|]. destruct (validated _) as [c|] eqn:Hv; rewrite Hg; [|done].
    intros c' [= <-]. by exists (p_environ s). }
  intros c Hc. pose proof (get_cases (snd (steps l s))) as Hg.
  destruct (_resolved _) as [c'|] eqn:Hr; [|destruct (validated _) as [c'|] eqn:Hv; [|by rewrite Hg in Hc]];
    rewrite Hg in Hc; injection Hc as ->; [|by eapply validated_ok].
  destruct (Hl c Hr) as [e He]. by eapply validated_ok.
Qed.
End settings.

(** An environment that refuses every override. *)
Definition strict : Environment := {|
  validated e := if existsb (fun p => String.prefix "BEETROOT_" p.1) e then None else Some Settings_default |}.
Lemma strict_laws : EnvironmentLaws strict.
Proof.
  split; simpl.
  - intros e c. destruct (existsb _ e); [done|]. by intros [= <-].
  - intros e c _. destruct (existsb _ e); [done|]. by intros [= <-].
Qed.

(** The first read decides. *)
Example first_read : fst (_get (V := strict) (snd (steps (V := strict) [Access; Putenv "BEETROOT_HTTP_TIMEOUT" "x"] (mkProcess [] None 0)))) = Ok Settings_default.
Proof. reflexivity. Qed.
Example late_override : fst (_get (V := strict) (snd (steps (V := strict) [Putenv "BEETROOT_HTTP_TIMEOUT" "x"] (mkProcess [] None 0)))) = Err InvalidSettingsError.
Proof. reflexivity. Qed.
End Settings.
