(* ===== verification/Console.v ===== *)
(** * [src/src/beetroot/console.py]: what the terminal is told

    The helpers as calls of [rich] on two console objects that tests can replace.
    [rich] itself — its escaping, its rendering, when it raises — is the class [Rich],
    with its documented behaviour as [RichLaws]. *)
From stdpp Require Import base list strings gmap.
From Stdlib Require Import ZArith QArith Lia Ascii.
From S2P Require Import Prelude PyStr.
Local Open Scope stdpp_scope.
Local Open Scope Z_scope.

(** ** Rich *)

(** A console object: whether its file is a terminal, and its width. *)
Record console := mkConsole { is_terminal : bool; width : Z }.

(** A [Table]: [t_columns] are the headers with [overflow="fold"]. *)
Record rich_table := mkRichTable {
  boxed : bool; pad_edge : bool; t_columns : list (string * bool); t_rows : list (list string) }.

Inductive column : Type := Description | Bar | Percentage | TimeRemaining.

(** A call on a console, or on a [Progress] that draws on one. *)
Inductive call : Type :=
| Print (markup : string) (soft_wrap : bool)
| PrintTable (t : rich_table) (crop : bool) (at_width : Z)
| StartProgress (columns : list column)
| AddTask (description : string) (total : option Q)
| Advance (task : nat) (amount : Q)
| StopProgress.

Class Rich := {
  escape : string -> string;
  (** The text of a markup line on a console that is not a terminal. *)
  plain : string -> option string;
  rich_error : Type;
  (** [Some]: the call raises. *)
  raises : console -> call -> option rich_error }.

(** Styled text: a literal, or a tag around more of it. *)
Inductive styled : Type :=
| Text (s : string)
| Tag (style : string) (l : list styled).

Definition ends_in_backslash (s : string) : bool :=
  match last (chars s) with Some c => bool_decide (c = "\"%char) | None => false end.

Definition has_char (c : ascii) (s : string) : bool := bool_decide (c ∈ chars s).

Definition str_concat (l : list string) : string := fold_right String.append "" l.

Section console.
Context `{R : Rich}.

Fixpoint markup_of (x : styled) : string :=
  match x with
  | Text s => escape s
  | Tag style l => "[" +:+ style +:+ "]" +:+ str_concat (map markup_of l) +:+ "[/" +:+ style +:+ "]"
  end.

Fixpoint text_of (x : styled) : string :=
  match x with
  | Text s => s
  | Tag _ l => str_concat (map text_of l)
  end.

(** Styles without brackets; a literal before a tag must not end in a backslash, which
    [escape] handles in a way that differs between versions. *)
Fixpoint well_styled (x : styled) : bool :=
  match x with
  | Text s => negb (ends_in_backslash s)
  | Tag style l =>
      negb (has_char "["%char style) && negb (has_char "]"%char style) &&
      negb (has_char "\"%char style) && forallb well_styled l
  end.

Class RichLaws : Prop := {
  (** Markup built from tags and escaped text renders as that text. *)
  plain_styled : forall l, forallb well_styled l = true ->
    plain (str_concat (map markup_of l)) = Some (str_concat (map text_of l));
  (** Escaping puts a backslash before a bracket and leaves other text alone. *)
  escape_brand : escape "[beetroot]" = "\[beetroot]";
  escape_harmless : forall s, has_char "["%char s = false -> has_char "\"%char s = false ->
    escape s = s }.

(** ** The module's state *)

(** Console objects, the two the module uses, and the calls made on each. *)
Record consoles := mkConsoles {
  objects : nat -> console;
  _stdout_console : nat;
  _stderr_console : nat;
  calls : list (nat * call) }.

Abbreviation CM := (M consoles rich_error).

Definition set_consoles (stdout stderr : option nat) : CM unit :=
  modify (fun s => mkConsoles (objects s) (default (_stdout_console s) stdout)
                     (default (_stderr_console s) stderr) (calls s)).

Definition called (id : nat) (c : call) (s : consoles) : consoles :=
  mkConsoles (objects s) (_stdout_console s) (_stderr_console s) (calls s ++ [(id, c)]).

Definition call_on (id : nat) (c : call) : CM unit := fun s =>
  match raises (objects s id) c with
  | Some e => (Err e, s)
  | None => (Ok tt, called id c s)
  end.

Definition set_width (id : nat) (w : Z) (s : consoles) : consoles :=
  mkConsoles (fun k => if decide (k = id) then mkConsole (is_terminal (objects s id)) w else objects s k)
    (_stdout_console s) (_stderr_console s) (calls s).

(** [try: m finally: last]: what [last] raises replaces what [m] did. *)
Definition finally {A} (m : CM A) (last : CM unit) : CM A := fun s =>
  let '(r, s1) := m s in
  match last s1 with
  | (Ok _, s2) => (r, s2)
  | (Err e, s2) => (Err e, s2)
  end.

(** ** Lines *)

Definition _BRAND : string := "\[beetroot]".

Definition _emit (id : nat) (markup : string) : CM unit := call_on id (Print markup true).

Definition to_stdout (markup : string) : CM unit := id ← gets _stdout_console; _emit id markup.
Definition to_stderr (markup : string) : CM unit := id ← gets _stderr_console; _emit id markup.

Definition error (msg : string) : CM unit := to_stderr ("[bold red]error:[/bold red] " +:+ escape msg).
Definition warn (msg : string) : CM unit := to_stderr ("[bold yellow]warn:[/bold yellow] " +:+ escape msg).
Definition info (msg : string) : CM unit := to_stderr ("[bold cyan]info:[/bold cyan] " +:+ escape msg).
Definition success (msg : string) : CM unit := to_stderr ("[bold green]ok:[/bold green] " +:+ escape msg).
Definition status (msg : string) : CM unit :=
  to_stdout ("[bold cyan]" +:+ _BRAND +:+ "[/bold cyan] " +:+ escape msg).
Definition note (msg : string) : CM unit :=
  to_stderr ("[bold yellow]" +:+ _BRAND +:+ "[/bold yellow] " +:+ escape msg).
Definition step (msg : string) : CM unit := to_stdout ("[dim]→ " +:+ escape msg +:+ "[/dim]").
Definition hint (msg : string) : CM unit := to_stdout ("[dim]" +:+ escape msg +:+ "[/dim]").
Definition out (msg style : string) : CM unit :=
  let text := escape msg in
  to_stdout (if String.eqb style "" then text else "[" +:+ style +:+ "]" +:+ text +:+ "[/" +:+ style +:+ "]").

(** ** Tables *)

Definition str_len (s : string) : Z := Z.of_nat (String.length s).

Definition max_cell (columns : list string) (rows : list (list string)) : Z :=
  fold_right Z.max 0 (map str_len (concat (columns :: rows))).

Definition table_width (columns : list string) (rows : list (list string)) : Z :=
  let n := Z.of_nat (length columns) in Z.max (max_cell columns rows * n + n) 80.

Definition table (columns : list string) (rows : list (list string)) : CM unit :=
  id ← gets _stdout_console;
  c ← gets (fun s => objects s id);
  if is_terminal c
  then call_on id (PrintTable (mkRichTable true true (map (fun h => (escape h, false)) columns)
                                 (map (map escape) rows)) true (width c))
  else
    let t := mkRichTable false false (map (fun h => (escape h, true)) columns) (map (map escape) rows) in
    let saved_width := width c in
    finally
      (modify (set_width id (table_width columns rows)) ;;
       call_on id (PrintTable t false (table_width columns rows)))
      (modify (set_width id saved_width)).

(** ** Progress *)

(** [ProgressContext]: [drawn_on] is the console its [Progress] was built with. *)
Record ProgressContext := mkProgressContext {
  _description : string; _total : option Q; _columns : list column;
  drawn_on : nat; _task_id : option nat }.

Definition progress_init (description : string) (total : option Q) : CM ProgressContext :=
  id ← gets _stderr_console;
  mret (mkProgressContext description total
          ([Description; Bar] ++ match total with Some _ => [Percentage; TimeRemaining] | None => [] end)
          id None).

(** The first task of a [Progress] has the number 0. *)
Definition progress_enter (p : ProgressContext) : CM ProgressContext :=
  call_on (drawn_on p) (StartProgress (_columns p)) ;;
  call_on (drawn_on p) (AddTask (_description p) (_total p)) ;;
  mret (mkProgressContext (_description p) (_total p) (_columns p) (drawn_on p) (Some 0%nat)).

Definition advance (p : ProgressContext) (amount : Q) : CM unit :=
  match _task_id p with
  | Some task => call_on (drawn_on p) (Advance task amount)
  | None => mret tt
  end.

Definition progress_exit (p : ProgressContext) : CM unit := call_on (drawn_on p) StopProgress.

(** [with progress(description, total=total) as p: body(p)]. *)
Definition progress {A} (description : string) (total : option Q) (body : ProgressContext -> CM A) : CM A :=
  p ← progress_init description total;
  p ← progress_enter p;
  finally (body p) (progress_exit p).

(** ** Accessors *)

Definition stdout_console : CM nat := gets _stdout_console.
Definition stderr_console : CM nat := gets _stderr_console.

(** ** Messages are not markup *)

Context {L : RichLaws}.

(** [m] prints one line without wrapping, whose text on a console that is not a
    terminal is [text]. *)
Definition shows (m : CM unit) (stdout : bool) (text : string) : Prop :=
  exists markup, plain markup = Some text /\
    forall s, m s = call_on (if stdout then _stdout_console s else _stderr_console s)
                      (Print markup true) s.

Lemma shows_styled (stdout : bool) markup l :
  forallb well_styled l = true -> markup = str_concat (map markup_of l) ->
  shows (if stdout then to_stdout markup else to_stderr markup) stdout (str_concat (map text_of l)).
Proof. intros Hl ->. eexists. split; [by apply plain_styled|]. by destruct stdout. Qed.

(** Two concatenations with the same characters. *)
Ltac same_chars := apply chars_inj; simpl;
  repeat (progress (rewrite ?chars_app, <- ?app_assoc, ?app_nil_r; simpl)); try done.

Lemma shows_as (stdout : bool) markup text l :
  forallb well_styled l = true -> markup = str_concat (map markup_of l) ->
  text = str_concat (map text_of l) ->
  shows (if stdout then to_stdout markup else to_stderr markup) stdout text.
Proof. intros Hl Hm ->. by apply shows_styled. Qed.

(** A tagged head, a blank, and the message. *)
Lemma shows_headed (stdout : bool) style head msg shown :
  well_styled (Tag style [Text head]) = true -> ends_in_backslash msg = false ->
  escape head = shown ->
  shows (let markup := "[" +:+ style +:+ "]" +:+ shown +:+ "[/" +:+ style +:+ "] " +:+ escape msg in
         if stdout then to_stdout markup else to_stderr markup)
    stdout (head +:+ " " +:+ msg).
Proof.
  intros Hw Hm <-. apply (shows_as stdout _ _ [Tag style [Text head]; Text " "; Text msg]).
  - simpl in *. by rewrite Hw, Hm.
  - simpl. rewrite (escape_harmless " ") by done. same_chars.
  - simpl. same_chars.
Qed.

(** Every helper shows its message verbatim, on the stream and after the prefix it is
    documented with, whatever brackets the message holds. *)
Theorem messages_verbatim msg : ends_in_backslash msg = false ->
  shows (error msg) false ("error: " +:+ msg) /\
  shows (warn msg) false ("warn: " +:+ msg) /\
  shows (info msg) false ("info: " +:+ msg) /\
  shows (success msg) false ("ok: " +:+ msg) /\
  shows (note msg) false ("[beetroot] " +:+ msg) /\
  shows (status msg) true ("[beetroot] " +:+ msg) /\
  shows (step msg) true ("→ " +:+ msg) /\
  shows (hint msg) true msg /\
  forall style, well_styled (Tag style []) = true -> shows (out msg style) true msg.
Proof.
  intros Hm. split_and!.
  - exact (shows_headed false "bold red" "error:" msg "error:" eq_refl Hm (escape_harmless "error:" eq_refl eq_refl)).
  - exact (shows_headed false "bold yellow" "warn:" msg "warn:" eq_refl Hm (escape_harmless "warn:" eq_refl eq_refl)).
  - exact (shows_headed false "bold cyan" "info:" msg "info:" eq_refl Hm (escape_harmless "info:" eq_refl eq_refl)).
  - exact (shows_headed false "bold green" "ok:" msg "ok:" eq_refl Hm (escape_harmless "ok:" eq_refl eq_refl)).
  - exact (shows_headed false "bold yellow" "[beetroot]" msg _BRAND eq_refl Hm escape_brand).
  - exact (shows_headed true "bold cyan" "[beetroot]" msg _BRAND eq_refl Hm escape_brand).
  - apply (shows_as true _ _ [Tag "dim" [Text "→ "; Text msg]]); simpl; [by rewrite Hm| |same_chars].
    rewrite (escape_harmless "→ ") by done. same_chars.
  - apply (shows_as true _ _ [Tag "dim" [Text msg]]); simpl; [by rewrite Hm|same_chars..].
  - intros style Hs. unfold out. destruct (String.eqb_spec style "") as [->|Hne].
    + apply (shows_as true _ _ [Text msg]); simpl; [by rewrite Hm|same_chars..].
    + apply (shows_as true _ _ [Tag style [Text msg]]); simpl in *; [|same_chars..].
      rewrite Hm. rewrite !andb_true_r in *. by rewrite Hs.
Qed.

(** ** Tables keep the console as it was *)

(** Whatever [print] does, every console object has its width back, and no other call
    was made; when the call did not raise, it was made at [table_width] off a terminal
    and at the console's own width on one. *)
Theorem table_restores_width columns rows s r s' :
  table columns rows s = (r, s') ->
  (forall k, objects s' k = objects s k) /\
  let c := objects s (_stdout_console s) in
  let w := if is_terminal c then width c else table_width columns rows in
  match r with
  | Ok _ => exists t crop, calls s' = calls s ++ [(_stdout_console s, PrintTable t crop w)]
  | Err _ => calls s' = calls s
  end.
Proof.
  unfold table, mbind, M_bind, gets. simpl. set (c := objects s (_stdout_console s)).
  destruct (is_terminal c) eqn:Ht.
  - unfold call_on. destruct (raises _ _); intros [= <- <-]; simpl; eauto.
  - assert (forall k, objects (set_width (_stdout_console s) (width c)
        (set_width (_stdout_console s) (table_width columns rows) s)) k = objects s k) as Hback.
    { intros k. simpl. destruct (decide (k = _stdout_console s)) as [->|]; [|done].
      rewrite decide_True by done. unfold c. by destruct (objects s (_stdout_console s)). }
    unfold finally, call_on, modify. simpl. destruct (raises _ _); intros [= <- <-].
    + split; [exact Hback|done].
    + split; [exact Hback|]. simpl. eauto.
Qed.

Lemma max_cell_bound columns rows row cell :
  row ∈ columns :: rows -> cell ∈ row -> str_len cell <= max_cell columns rows.
Proof.
  intros Hr Hc. unfold max_cell.
  assert (str_len cell ∈ map str_len (concat (columns :: rows))) as Hin.
  { apply list_elem_of_fmap. exists cell. split; [done|].
    apply list_elem_of_In, in_concat. exists row. by rewrite <- !list_elem_of_In. }
  induction Hin; simpl; lia.
Qed.

Definition sum_lengths (row : list string) : Z := fold_right Z.add 0 (map str_len row).

Lemma sum_lengths_bound row m : (forall cell, cell ∈ row -> str_len cell <= m) ->
  sum_lengths row <= m * Z.of_nat (length row).
Proof.
  unfold sum_lengths. induction row as [|c row IH]; intros H; cbn [map fold_right length]; [lia|].
  pose proof (H c ltac:(left)). assert (forall cell, cell ∈ row -> str_len cell <= m) as Hr.
  { intros x Hx. apply H. by right. }
  specialize (IH Hr). lia.
Qed.

(** Off a terminal a row fits with one blank after each cell, and the width is never
    below the default of 80. *)
Theorem table_width_fits columns rows row :
  row ∈ columns :: rows -> length row = length columns ->
  sum_lengths row + Z.of_nat (length columns) <= table_width columns rows /\
  80 <= table_width columns rows.
Proof.
  intros Hr Hl. unfold table_width.
  pose proof (sum_lengths_bound row (max_cell columns rows)
    (fun c Hc => max_cell_bound columns rows row c Hr Hc)) as H.
  rewrite Hl in H. lia.
Qed.

(** [rich] separates columns by [gap] blanks; its default padding makes that two. *)
Definition row_width (gap : Z) (row : list string) : Z :=
  sum_lengths row + gap * (Z.of_nat (length row) - 1).

(** ... which is too narrow for three columns or more whose cells are all as wide as
    the widest one, so that such a row is folded. *)
Theorem equal_columns_do_not_fit columns rows row m :
  row ∈ columns :: rows -> length row = length columns -> (3 <= length columns)%nat ->
  (forall cell, cell ∈ row -> str_len cell = m) -> max_cell columns rows = m -> 26 <= m ->
  table_width columns rows < row_width 2 row.
Proof.
  intros Hr Hl Hn Hc Hm Hbig. unfold table_width, row_width. rewrite Hm, Hl.
  assert (sum_lengths row = m * Z.of_nat (length row)) as ->; [|rewrite Hl; nia].
  clear -Hc. unfold sum_lengths. induction row as [|c row IH]; cbn [map fold_right length]; [lia|].
  rewrite (Hc c) by left. rewrite IH; [lia|]. intros x Hx. apply Hc. by right.
Qed.

(** ** Progress bars are always taken down *)

(** Once the bar is up, it is taken down after the body, whatever the body did, and the
    body's outcome is the outcome — unless taking it down raises. *)
Theorem progress_stops {A} description total (body : ProgressContext -> CM A) s p s1 r s2 :
  (p ← progress_init description total; progress_enter p) s = (Ok p, s1) ->
  body p s1 = (r, s2) -> raises (objects s2 (_stderr_console s)) StopProgress = None ->
  progress description total body s = (r, called (_stderr_console s) StopProgress s2) /\
  s1 = called (_stderr_console s) (AddTask description total)
         (called (_stderr_console s) (StartProgress (_columns p)) s) /\
  (forall s' amount, advance p amount s' = call_on (_stderr_console s) (Advance 0 amount) s').
Proof.
  intros Hin Hb Hx. unfold progress, progress_init, progress_enter in *.
  unfold mbind, M_bind, gets, mret, M_ret in *. simpl in *. unfold call_on in *.
  destruct (raises _ (StartProgress _)); [done|]. destruct (raises _ (AddTask _ _)); [done|].
  injection Hin as <- <-. split_and!; [|done|done].
  unfold finally. rewrite Hb. unfold progress_exit, call_on. simpl. by rewrite Hx.
Qed.

End console.

(** ** An implementation of [rich]'s markup

    Backslashes before brackets and backslashes, tags skipped: [RichLaws] holds of it. *)
Module Sample.

Fixpoint quote (l : list ascii) : list ascii :=
  match l with
  | [] => []
  | c :: l' => if decide (c = "["%char \/ c = "\"%char) then "\"%char :: c :: quote l' else c :: quote l'
  end.

(** [inside]: between the brackets of a tag. *)
Fixpoint scan (inside : bool) (l : list ascii) : list ascii :=
  match l with
  | [] => []
  | c :: l' =>
      if inside then scan (negb (bool_decide (c = "]"%char))) l'
      else if decide (c = "\"%char) then match l' with d :: l'' => d :: scan false l'' | [] => [] end
      else if decide (c = "["%char) then scan true l'
      else c :: scan false l'
  end.

#[export] Instance sample : Rich := {|
  escape := fun s => of_chars (quote (chars s));
  plain := fun s => Some (of_chars (scan false (chars s)));
  rich_error := unit;
  raises := fun _ _ => None |}.

Lemma scan_quote l rest : scan false (quote l ++ rest) = l ++ scan false rest.
Proof.
  induction l as [|c l IH]; [done|]. simpl. case_decide as Hc; simpl.
  - by rewrite IH.
  - rewrite !decide_False by tauto. by rewrite IH.
Qed.

Lemma scan_tag style rest : "]"%char ∉ style -> scan true (style ++ "]"%char :: rest) = scan false rest.
Proof.
  induction style as [|c l IH]; intros Hs; simpl; [done|].
  apply not_elem_of_cons in Hs as [Hc Hl].
  rewrite bool_decide_eq_false_2 by done. by apply IH.
Qed.

Lemma scan_styled x rest : well_styled x = true ->
  scan false (chars (markup_of x) ++ rest) = chars (text_of x) ++ scan false rest.
Proof.
  revert x rest. fix IH 1. intros [s|style l] rest Hw.
  - cbn [markup_of text_of]. unfold escape, sample. rewrite chars_of_chars. apply scan_quote.
  - cbn [well_styled] in Hw. rewrite !andb_true_iff, !negb_true_iff in Hw.
    destruct Hw as (((_ & Hs%bool_decide_eq_false) & _) & Hl).
    assert (forall r, scan false (chars (str_concat (map markup_of l)) ++ r) =
                      chars (str_concat (map text_of l)) ++ scan false r) as Hin.
    { clear Hs. revert l Hl. fix IHl 1. intros [|x l] Hl r; [done|].
      cbn [forallb] in Hl. apply andb_true_iff in Hl as [Hx Hl].
      cbn [map str_concat fold_right]. rewrite !chars_app, <- !app_assoc, (IH x _ Hx).
      f_equal. by apply IHl. }
    cbn [markup_of text_of]. rewrite !chars_app, <- !app_assoc. simpl.
    rewrite scan_tag by done. rewrite Hin. f_equal. simpl.
    rewrite scan_tag; [done|done].
Qed.

#[export] Instance sample_laws : RichLaws.
Proof.
  split; [|reflexivity|].
  - intros l Hl. simpl. f_equal. apply chars_inj. rewrite chars_of_chars.
    rewrite <- (app_nil_r (chars (str_concat (map markup_of l)))).
    rewrite <- (app_nil_r (chars (str_concat (map text_of l)))).
    induction l as [|x l IH]; [done|]. cbn [forallb] in Hl. apply andb_true_iff in Hl as [Hx Hl].
    cbn [map str_concat fold_right]. rewrite !chars_app, <- !app_assoc, scan_styled by done.
    f_equal. by apply IH.
  - intros s H1%bool_decide_eq_false H2%bool_decide_eq_false. simpl. apply chars_inj.
    rewrite chars_of_chars. induction (chars s) as [|c l IH]; [done|]. simpl.
    apply not_elem_of_cons in H1 as [? ?], H2 as [? ?].
    rewrite decide_False by (intros [?|?]; by subst). by rewrite IH.
Qed.

(** A message full of brackets, and a table of three equal columns. *)
Example brackets_are_text :
  plain ("[bold red]error:[/bold red] " +:+ escape "no [bold]such[/bold] file [x\]") =
    Some "error: no [bold]such[/bold] file [x\]".
Proof. vm_compute. reflexivity. Qed.

Definition forty : string := "/srv/beetroot/instances/alpha-0123456789".
Example three_equal_columns :
  table_width [forty; forty; forty] [[forty; forty; forty]] = 123 /\ row_width 2 [forty; forty; forty] = 124.
Proof. vm_compute. done. Qed.

End Sample.
