(* ===== verification/Bench.v ===== *)
(** * [src/scripts/bench.py]: the benchmark harness

    Samples are binary64 numbers ([spec_float] at 53 bits), with [fmean] as the exactly
    rounded sum divided by the count and [format] rounding the exact value to even.  A
    samples file is what [json.loads] makes of it; the results and the summaries are
    written elsewhere.  The clock, the timed command, the
    order in which a set is iterated and the conversions between text and numbers that
    the harness's own files do not need are the class [BenchHost]; the arguments come
    parsed. *)
From stdpp Require Import base list strings sorting gmap.
From Stdlib Require Import ZArith Lia Ascii.
From Stdlib Require Import SpecFloat.
From S2P Require Import Prelude PyStr Config HostFs.
Local Open Scope stdpp_scope.
Local Open Scope Z_scope.

(** ** binary64 *)

Definition float : Type := spec_float.
Definition fdiv : float -> float -> float := SFdiv 53 1024.
Definition fsub : float -> float -> float := SFsub 53 1024.
Definition fgt (a b : float) : bool := SFltb b a.
Definition is_zero (a : float) : bool := SFeqb a (S754_zero false).
(** [m * 2^e], rounded. *)
Definition rounded (m e : Z) : float := binary_normalize 53 1024 m e false.
Definition float_of_Z (z : Z) : float := rounded z 0.
Definition one : float := float_of_Z 1.
Definition two : float := float_of_Z 2.

Definition zeros (n : nat) : string := of_chars (replicate n "0"%char).

(** [f"{x:.<d>f}"]. *)
Definition fixed (d : nat) (x : float) : string :=
  let shown (sign : bool) (n : Z) :=
    let digits := str_of_Z n in
    let digits := zeros (S d - String.length digits) +:+ digits in
    let k := (String.length digits - d)%nat in
    (if sign then "-" else "") +:+ of_chars (take k (chars digits)) +:+ "." +:+
      of_chars (drop k (chars digits)) in
  match x with
  | S754_zero s => shown s 0
  | S754_infinity s => if s then "-inf" else "inf"
  | S754_nan => "nan"
  | S754_finite s m e =>
      shown s (if 0 <=? e then Z.pos m * 2 ^ e * 10 ^ Z.of_nat d
               else round_half_even (Z.pos m * 10 ^ Z.of_nat d) (2 ^ (- e)))
  end.

(** ** Files *)

Inductive bjson : Type :=
| BNull
| BBool (b : bool)
| BInt (z : Z)
| BFloat (x : float)
| BStr (s : string)
| BList (l : list bjson)
| BObj (d : list (string * bjson)).

(** [None]: not JSON. *)
Definition bench_file : Type := option bjson.

Record Sample := mkSample { s_backend : string; s_metric : string; seconds : float }.
Record Regression := mkRegression {
  r_backend : string; r_metric : string; r_current : float; r_baseline : float; factor : float }.

Inductive bench_error : Type :=
| JsonDecode | KeyMissing (key : string) | NotIterable | NotSubscriptable
| NotANumber | IntTooLarge                        (* float(...) *)
| InfMinusInf | SumOverflow                       (* math.fsum *)
| CannotSpawn.

Record bench := mkBench {
  b_files : gmap string bench_file;
  b_texts : gmap string string;                   (* the summaries, appended to *)
  b_results : gmap string bjson;                  (* what report writes *)
  b_out : list string; b_err : list string }.

Abbreviation BM := (M bench bench_error).
Abbreviation pair_key := (string * string)%type.
Abbreviation means := (list (pair_key * float)).
Abbreviation ratios_map := (list (string * list (string * float))).

Class BenchHost := {
  (** [str(v)] of a value that is no string, [float(s)] of a string. *)
  str_of_value : bjson -> string;
  float_of_str : string -> option float;
  (** The order in which Python iterates the set of these elements. *)
  set_order : list string -> list string;
  (** [subprocess.run]: the exit code, and what the command did to the files; the
      monotonic clock before and after it. *)
  run_command : list string -> bench -> option Z * bench;
  clock : list string -> float * float;
  now_iso : string;
  environ : list (string * string) }.

Definition set_order_ok `{BenchHost} : Prop := forall l, NoDup l -> set_order l ≡ₚ l.

Section bench.
Context `{H : BenchHost}.

Definition DEFAULT_REGRESSION_FACTOR : float := two.
Definition KNOWN_BACKENDS : list string := ["host"; "vm-kvm"; "vm-tcg"].
Definition KNOWN_METRICS : list string := ["compile_seconds"; "boot_seconds"; "postboot_seconds"].
Definition RATIO_BASELINE_BACKEND : string := "host".

Definition sample_row (s : Sample) : bjson :=
  BObj [("backend", BStr (s_backend s)); ("metric", BStr (s_metric s)); ("seconds", BFloat (seconds s))].
Definition _samples_to_jsonable (samples : list Sample) : list bjson := map sample_row samples.

(** ** Loading and saving *)

Definition to_str (v : bjson) : string := match v with BStr s => s | _ => str_of_value v end.

Definition to_float (v : bjson) : result bench_error float :=
  match v with
  | BFloat x => Ok x
  | BInt z => match float_of_Z z with S754_infinity _ => Err IntTooLarge | x => Ok x end
  | BBool b => Ok (float_of_Z (if b then 1 else 0))
  | BStr s => match float_of_str s with Some x => Ok x | None => Err NotANumber end
  | _ => Err NotANumber
  end.

(** [r[key]]. *)
Definition item (key : string) (r : bjson) : result bench_error bjson :=
  match r with
  | BObj d => match Dict.get key d with Some v => Ok v | None => Err (KeyMissing key) end
  | _ => Err NotSubscriptable
  end.

Definition load_row (r : bjson) : result bench_error Sample :=
  b ← item "backend" r;
  m ← item "metric" r;
  v ← item "seconds" r;
  x ← to_float v;
  mret (mkSample (to_str b) (to_str m) x).

Fixpoint load_rows (rows : list bjson) : result bench_error (list Sample) :=
  match rows with
  | [] => Ok []
  | r :: rows' => s ← load_row r; l ← load_rows rows'; Ok (s :: l)
  end.

(** Iterating a dict gives its keys, a string its characters: neither is a row. *)
Definition iterate (rows : bjson) : result bench_error (list bjson) :=
  match rows with
  | BList l => Ok l
  | BObj d => Ok (map (fun kv => BStr (fst kv)) d)
  | BStr s => Ok (map (fun c => BStr (of_chars [c])) (chars s))
  | _ => Err NotIterable
  end.

Definition parse_samples (raw : bjson) : result bench_error (list Sample) :=
  rows ← (match raw with BObj _ => item "samples" raw | _ => Ok raw end);
  l ← iterate rows;
  load_rows l.

Definition load_samples (path : string) : BM (list Sample) :=
  f ← gets (fun s => b_files s !! path);
  match f with
  | None => mret []
  | Some None => raise JsonDecode
  | Some (Some raw) => lift (parse_samples raw)
  end.

Definition write_file (path : string) (d : bjson) : BM unit :=
  modify (fun s => mkBench (<[path := Some d]> (b_files s)) (b_texts s) (b_results s) (b_out s) (b_err s)).

Definition runner_label (runner : option string) : string :=
  match runner with
  | Some r => if String.eqb r "" then default "unknown" (Dict.get "RUNNER_NAME" environ) else r
  | None => default "unknown" (Dict.get "RUNNER_NAME" environ)
  end.

(** [json.dumps(..., sort_keys=True)]. *)
Definition payload (samples : list Sample) (runner : option string) : bjson :=
  BObj [("generated_at", BStr now_iso); ("runner", BStr (runner_label runner));
        ("samples", BList (_samples_to_jsonable samples))].

Definition save_samples (path : string) (samples : list Sample) (runner : option string) : BM unit :=
  write_file path (payload samples runner).

(** ** Means and ratios *)

Definition group (samples : list Sample) : list (pair_key * list float) :=
  fold_left (fun g s => let k := (s_backend s, s_metric s) in
               Dict.set k (default [] (Dict.get k g) ++ [seconds s]) g) samples [].

Definition is_finite (x : float) : bool :=
  match x with S754_zero _ | S754_finite _ _ _ => true | _ => false end.

(** A finite value as [m * 2^e]. *)
Definition dyadic (x : float) : Z * Z :=
  match x with
  | S754_finite s m e => (if s then Z.neg m else Z.pos m, e)
  | _ => (0, 0)
  end.

Definition exact_sum (l : list float) : Z * Z :=
  let e0 := fold_right Z.min 0 (map (fun x => snd (dyadic x)) l) in
  (fold_right Z.add 0 (map (fun x => let '(m, e) := dyadic x in m * 2 ^ (e - e0)) l), e0).

(** [math.fsum]; an overflow that a later term cancels is not distinguished. *)
Definition fsum (l : list float) : result bench_error float :=
  if forallb is_finite l then
    let '(m, e) := exact_sum l in
    match rounded m e with S754_infinity _ => Err SumOverflow | x => Ok x end
  else if existsb (fun x => SFeqb x (S754_infinity false)) l && existsb (fun x => SFeqb x (S754_infinity true)) l
  then Err InfMinusInf
  else if existsb (fun x => match x with S754_nan => true | _ => false end) l then Ok S754_nan
  else Ok (S754_infinity (existsb (fun x => SFeqb x (S754_infinity true)) l)).

Definition fmean (l : list float) : result bench_error float :=
  t ← fsum l; mret (fdiv t (float_of_Z (Z.of_nat (length l)))).

Fixpoint mean_all (g : list (pair_key * list float)) : result bench_error means :=
  match g with
  | [] => Ok []
  | (k, l) :: g' => x ← fmean l; rest ← mean_all g'; Ok ((k, x) :: rest)
  end.

Definition aggregate (samples : list Sample) : result bench_error means := mean_all (group samples).

(** The backends measured for a metric, each with its ratio. *)
Definition per_backend (aggregated : means) (metric : string) (base : float) : list (string * float) :=
  omap (fun '((b, m), x) => if decide (m = metric) then Some (b, fdiv x base) else None) aggregated.

Definition metric_ratio (aggregated : means) (metric : string) : option (list (string * float)) :=
  match Dict.get (RATIO_BASELINE_BACKEND, metric) aggregated with
  | Some base => if is_zero base then None else Some (per_backend aggregated metric base)
  | None => None
  end.

Definition compute_ratios (aggregated : means) : ratios_map :=
  omap (fun metric => r ← metric_ratio aggregated metric; Some (metric, r))
    (set_order (remove_dups (map (fun kv => (fst kv).2) aggregated))).

(** ** Regressions *)

Definition regressions_of (limit : float) (metric : string) (before_all now_all : list (string * float))
  : list Regression :=
  omap (fun '(backend, now) =>
    match Dict.get backend before_all with
    | Some before =>
        if is_zero before then None
        else let growth := fdiv now before in
             if fgt growth limit then Some (mkRegression backend metric now before growth) else None
    | None => None
    end) now_all.

(** [sorted(..., key=factor, reverse=True)]: stable. *)
Fixpoint insert_desc (r : Regression) (l : list Regression) : list Regression :=
  match l with
  | [] => [r]
  | x :: l' => if fgt (factor x) (factor r) then x :: insert_desc r l' else r :: x :: l'
  end.

Definition detect_regressions (current baseline : ratios_map) (limit : float) : list Regression :=
  fold_right insert_desc []
    (concat (map (fun '(metric, now_all) =>
       match Dict.get metric baseline with
       | Some before_all => regressions_of limit metric before_all now_all
       | None => []
       end) current)).

(** ** The report *)

Definition _ordered (values : list string) (preferred : list string) : list string :=
  filter (fun v => v ∈ values) preferred ++
  merge_sort string_le (filter (fun v => v ∉ preferred) (remove_dups values)).

Definition _fmt_seconds (v : option float) : string := match v with Some x => fixed 1 x | None => "-" end.
Definition _fmt_ratio (v : option float) : string := match v with Some x => fixed 2 x +:+ "x" | None => "-" end.

Definition table_row (cells : list string) : string := "| " +:+ join " | " cells +:+ " |".

Definition regression_row (r : Regression) : string :=
  table_row [r_backend r; r_metric r; fixed 2 (r_baseline r) +:+ "x"; fixed 2 (r_current r) +:+ "x";
             fixed 2 (factor r) +:+ "x"].

Definition report_lines (aggregated : means) (ratios : ratios_map) (regressions : list Regression) : list string :=
  let backends := _ordered (map (fun kv => (fst kv).1) aggregated) KNOWN_BACKENDS in
  let metrics := _ordered (map (fun kv => (fst kv).2) aggregated) KNOWN_METRICS in
  let head := [table_row ("metric" :: backends); table_row ("---" :: map (fun _ => "---") backends)] in
  ["## Host-vs-VM benchmark"; ""; "### Wall-time (seconds)"; ""] ++ head ++
  map (fun metric => table_row (metric :: map (fun b => _fmt_seconds (Dict.get (b, metric) aggregated)) backends))
    metrics ++
  [""; "### Ratio vs `" +:+ RATIO_BASELINE_BACKEND +:+ "`"; ""] ++ head ++
  map (fun metric => table_row (metric ::
         map (fun b => _fmt_ratio (Dict.get b (default [] (Dict.get metric ratios)))) backends)) metrics ++
  [""] ++
  (if decide (regressions = []) then ["No regressions over the baseline. :white_check_mark:"]
   else ["### :warning: " +:+ str_of_Z (Z.of_nat (length regressions)) +:+ " regression(s)"; "";
         "| backend | metric | baseline ratio | current ratio | factor |"; "| --- | --- | --- | --- | --- |"] ++
        map regression_row regressions) ++ [""].

Definition render_markdown (aggregated : means) (ratios : ratios_map) (regressions : list Regression) : string :=
  join (of_chars [newline]) (report_lines aggregated ratios regressions).

(** ** The subcommands *)

Definition say (t : string) : BM unit :=
  modify (fun s => mkBench (b_files s) (b_texts s) (b_results s) (b_out s ++ [t]) (b_err s)).
Definition say_err (t : string) : BM unit :=
  modify (fun s => mkBench (b_files s) (b_texts s) (b_results s) (b_out s) (b_err s ++ [t])).

Definition _append_sample (samples_file backend metric : string) (x : float) (runner : option string) : BM unit :=
  existing ← load_samples samples_file;
  save_samples samples_file (existing ++ [mkSample backend metric x]) runner ;;
  say ("bench: recorded " +:+ backend +:+ "/" +:+ metric +:+ " = " +:+ fixed 1 x +:+ "s -> " +:+ samples_file).

Record measure_args := mkMeasure {
  m_backend : string; m_metric : string; m_samples_file : string; m_runner : option string;
  m_command : list string }.

Definition spawn (argv : list string) : BM Z := fun s =>
  match run_command argv s with
  | (Some code, s') => (Ok code, s')
  | (None, s') => (Err CannotSpawn, s')
  end.

Definition measure (args : measure_args) : BM Z :=
  let '(start, stop) := clock (m_command args) in
  code ← spawn (m_command args);
  if negb (code =? 0) then
    say_err ("bench: command failed (exit " +:+ str_of_Z code +:+ "); not recording a sample") ;; mret code
  else
    _append_sample (m_samples_file args) (m_backend args) (m_metric args) (fsub stop start) (m_runner args) ;;
    mret 0.

Record record_args := mkRecord {
  c_backend : string; c_metric : string; c_seconds : float; c_samples_file : string; c_runner : option string }.

Definition record (args : record_args) : BM Z :=
  _append_sample (c_samples_file args) (c_backend args) (c_metric args) (c_seconds args) (c_runner args) ;;
  mret 0.

Record report_args := mkReport {
  a_samples_file : string; a_baseline : option string; a_results_out : option string;
  a_summary : option string; a_factor : float }.

(** [if args.baseline]: an empty string counts as none. *)
Definition given (o : option string) : option string :=
  match o with Some s => if String.eqb s "" then None else Some s | None => None end.

Definition pair_le (a b : pair_key * float) : Prop :=
  (fst a).1 <> (fst b).1 /\ string_le (fst a).1 (fst b).1 \/
  (fst a).1 = (fst b).1 /\ string_le (fst a).2 (fst b).2.
#[export] Instance pair_le_dec a b : Decision (pair_le a b).
Proof. unfold pair_le. apply _. Defined.

(** The order of [sort_keys]. *)
Definition key_le {A} (a b : string * A) : Prop := string_le (fst a) (fst b).
#[export] Instance key_le_dec {A} (a b : string * A) : Decision (key_le a b).
Proof. unfold key_le. apply _. Defined.

Definition results_json (aggregated : means) (ratios : ratios_map) (regressions : list Regression) : bjson :=
  BObj [("aggregated", BList (map (fun '((b, m), x) =>
           BObj [("backend", BStr b); ("metric", BStr m); ("seconds", BFloat x)]) (merge_sort pair_le aggregated)));
        ("generated_at", BStr now_iso);
        ("ratios", BObj (map (fun '(m, per) => (m, BObj (map (fun '(b, x) => (b, BFloat x)) (merge_sort key_le per))))
                          (merge_sort key_le ratios)));
        ("regressions", BList (map (fun r =>
           BObj [("backend", BStr (r_backend r)); ("baseline", BFloat (r_baseline r));
                 ("current", BFloat (r_current r)); ("factor", BFloat (factor r)); ("metric", BStr (r_metric r))])
           regressions))].

Definition warning_line (r : Regression) : string :=
  "::warning title=Benchmark regression::" +:+ r_backend r +:+ "/" +:+ r_metric r +:+
  " host-normalized ratio grew " +:+ fixed 2 (factor r) +:+ "x over baseline (" +:+
  fixed 2 (r_current r) +:+ "x vs " +:+ fixed 2 (r_baseline r) +:+ "x)".

Fixpoint say_all (l : list string) : BM unit :=
  match l with [] => mret tt | t :: l' => say t ;; say_all l' end.

Definition check_baseline (ratios : ratios_map) (args : report_args) : BM (list Regression) :=
  match given (a_baseline args) with
  | None => mret []
  | Some p =>
      here ← gets (fun s => match b_files s !! p with Some _ => true | None => false end);
      if here : bool then
        samples ← load_samples p;
        means ← lift (aggregate samples);
        mret (detect_regressions ratios (compute_ratios means) (a_factor args))
      else say ("bench: baseline " +:+ p +:+ " not found; skipping regression check") ;; mret []
  end.

Definition report (args : report_args) : BM Z :=
  samples ← load_samples (a_samples_file args);
  aggregated ← lift (aggregate samples);
  let ratios := compute_ratios aggregated in
  regressions ← check_baseline ratios args;
  match given (a_results_out args) with
  | Some p => modify (fun s => mkBench (b_files s) (b_texts s)
                (<[p := results_json aggregated ratios regressions]> (b_results s)) (b_out s) (b_err s))
  | None => mret tt
  end ;;
  let markdown := render_markdown aggregated ratios regressions in
  match given (match given (a_summary args) with
               | Some p => Some p | None => Dict.get "GITHUB_STEP_SUMMARY" environ end) with
  | Some p => modify (fun s => mkBench (b_files s)
                (<[p := default "" (b_texts s !! p) +:+ markdown]> (b_texts s)) (b_results s) (b_out s) (b_err s))
  | None => say markdown
  end ;;
  say_all (map warning_line regressions) ;;
  mret 0.

(** What [build_parser] makes of an argument vector. *)
Inductive subcommand : Type :=
| Measure (args : measure_args) | Record_ (args : record_args) | Report (args : report_args).

(** [main] drops the [--] before the command to time. *)
Definition main (c : subcommand) : BM Z :=
  match c with
  | Measure a =>
      measure (mkMeasure (m_backend a) (m_metric a) (m_samples_file a) (m_runner a)
        match m_command a with "--" :: rest => rest | l => l end)
  | Record_ a => record a
  | Report a => report a
  end.

End bench.
