(* ===== verification/BenchOps.v ===== *)
(** * What the benchmark harness guarantees

    The samples file, the means and the ratios, the regressions found, and the report
    that never fails a job for being slow. *)
From stdpp Require Import base list strings sorting gmap.
From Stdlib Require Import ZArith Lia Ascii SpecFloat.
From S2P Require Import Prelude PyStr Config HostFs Bench.
Local Open Scope stdpp_scope.
Local Open Scope Z_scope.

(** ** Numbers *)

Lemma fgt_asym a b : fgt a b = true -> fgt b a = false.
Proof.
  unfold fgt, SFltb. destruct a as [[]|[]| |[] m e], b as [[]|[]| |[] m' e']; try done; simpl;
    rewrite (Z.compare_antisym e e'); destruct (e ?= e')%Z eqn:E; simpl; try done;
    change (Pos.compare_cont Eq ?a ?b) with (Pos.compare a b);
    rewrite (Pos.compare_antisym m m'); by destruct (Pos.compare m m').
Qed.

Lemma shiftl_div_exact m : Z.div_eucl (Z.shiftl (Z.pos m) 53) (Z.pos m) = (2 ^ 53, 0).
Proof.
  rewrite Z.shiftl_mul_pow2 by lia.
  pose proof (Z.div_mod (Z.pos m * 2 ^ 53) (Z.pos m) ltac:(lia)) as Hd.
  rewrite (Z.mul_comm (Z.pos m)) in *.
  pose proof (Z.div_mul (2 ^ 53) (Z.pos m) ltac:(lia)) as Hq.
  pose proof (Z.mod_mul (2 ^ 53) (Z.pos m) ltac:(lia)) as Hr.
  unfold Z.div, Z.modulo in *. destruct (Z.div_eucl _ _). by subst.
Qed.

(** A finite number other than zero divided by itself is one. *)
Lemma fdiv_self s m e : fdiv (S754_finite s m e) (S754_finite s m e) = one.
Proof.
  unfold fdiv, SFdiv, SFdiv_core_binary. simpl Zdigits2.
  rewrite !Z.sub_diag.
  change (Z.min (fexp 53 1024 0) 0) with (-53). change (0 - -53) with 53.
  cbv beta iota. change (IntDef.Z.div_eucl) with Z.div_eucl. change (IntDef.Z.shiftl) with Z.shiftl. rewrite shiftl_div_exact, xorb_nilpotent.
  assert (new_location (Z.pos m) 0 = loc_Exact) as ->; [|vm_compute; reflexivity].
  unfold new_location, new_location_even, new_location_odd. simpl. by case_match.
Qed.

Section ops.
Context `{H : BenchHost}.

(** ** Samples *)

Lemma load_rows_saved samples : load_rows (_samples_to_jsonable samples) = Ok samples.
Proof.
  unfold _samples_to_jsonable. induction samples as [|[b m x] l IH]; [done|].
  cbn [map load_rows]. by rewrite IH.
Qed.

(** A samples file the harness wrote reads back as the samples, in their order. *)
Theorem samples_roundtrip path samples runner s :
  exists s', save_samples path samples runner s = (Ok tt, s') /\
    load_samples path s' = (Ok samples, s') /\
    (forall p, p <> path -> b_files s' !! p = b_files s !! p).
Proof.
  eexists. split; [reflexivity|]. split.
  - unfold load_samples, mbind, M_bind, gets. simpl. rewrite lookup_insert_eq. unfold lift.
    change (parse_samples _) with (load_rows (_samples_to_jsonable samples)). by rewrite load_rows_saved.
  - intros p Hp. simpl. by rewrite lookup_insert_ne.
Qed.

Lemma append_run path backend metric x runner s existing :
  load_samples path s = (Ok existing, s) ->
  _append_sample path backend metric x runner s =
    (Ok tt, mkBench (<[path := Some (payload (existing ++ [mkSample backend metric x]) runner)]> (b_files s))
              (b_texts s) (b_results s)
              (b_out s ++ ["bench: recorded " +:+ backend +:+ "/" +:+ metric +:+ " = " +:+ fixed 1 x +:+
                           "s -> " +:+ path]) (b_err s)).
Proof. intros Hl. unfold _append_sample, mbind, M_bind. by rewrite Hl. Qed.

Lemma load_state path s r s' : load_samples path s = (r, s') -> s' = s.
Proof.
  unfold load_samples, mbind, M_bind, gets. destruct (b_files s !! path) as [[raw|]|]; by intros [= _ <-].
Qed.

(** A command that fails is not measured: its exit code is the result, what it left on
    disk is all that changed, and the reason is on the error stream.  A command that
    succeeds adds exactly one sample, after those of the file as the command left it. *)
Theorem measure_spec args s code s1 :
  run_command (m_command args) s = (Some code, s1) ->
  if code =? 0
  then forall existing, load_samples (m_samples_file args) s1 = (Ok existing, s1) ->
    exists s2, measure args s = (Ok 0, s2) /\
      load_samples (m_samples_file args) s2 =
        (Ok (existing ++ [mkSample (m_backend args) (m_metric args)
               (let '(start, stop) := clock (m_command args) in fsub stop start)]), s2)
  else exists s2, measure args s = (Ok code, s2) /\ b_files s2 = b_files s1 /\ b_err s2 <> b_err s1.
Proof.
  intros Hrun. unfold measure. destruct (clock (m_command args)) as [start stop].
  rewrite (M_bind_ok _ _ s code s1) by (unfold spawn; by rewrite Hrun). cbv beta.
  destruct (Z.eqb_spec code 0) as [->|Hc]; simpl negb; cbn iota.
  - intros existing Hl. cbn [negb]. erewrite M_bind_ok by by apply append_run.
    eexists. split; [reflexivity|].
    unfold load_samples, mbind, M_bind, gets. simpl. rewrite lookup_insert_eq. unfold lift.
    change (parse_samples _) with (load_rows (_samples_to_jsonable
      (existing ++ [mkSample (m_backend args) (m_metric args) (fsub stop start)]))).
    by rewrite load_rows_saved.
  - eexists. split; [reflexivity|]. split; [done|]. simpl. intros E.
    apply (f_equal length) in E. rewrite length_app in E. simpl in E. lia.
Qed.

(** ** Means *)

Definition seconds_of (k : string * string) (samples : list Sample) : list float :=
  omap (fun s => if decide ((s_backend s, s_metric s) = k) then Some (seconds s) else None) samples.

Lemma group_snoc samples s : group (samples ++ [s]) =
  let k := (s_backend s, s_metric s) in
  Dict.set k (default [] (Dict.get k (group samples)) ++ [seconds s]) (group samples).
Proof. unfold group. by rewrite fold_left_app. Qed.

Lemma group_get samples k :
  Dict.get k (group samples) = if decide (seconds_of k samples = []) then None else Some (seconds_of k samples).
Proof.
  induction samples as [|s samples IH] using rev_ind; [done|].
  rewrite group_snoc. unfold seconds_of in *. rewrite omap_app. simpl.
  destruct (decide ((s_backend s, s_metric s) = k)) as [<-|Hk].
  - rewrite Dict.get_set_eq, IH. generalize (omap (fun s0 : Sample =>
      if decide ((s_backend s0, s_metric s0) = (s_backend s, s_metric s)) then Some (seconds s0) else None) samples).
    intros l. destruct l as [|x l]; simpl; repeat case_decide; done.
  - rewrite Dict.get_set_ne by done. by rewrite IH, app_nil_r.
Qed.

Lemma group_wf samples : Dict.wf (group samples).
Proof.
  induction samples as [|s samples IH] using rev_ind; [apply NoDup_nil_2|].
  rewrite group_snoc. by apply Dict.wf_set.
Qed.

Lemma mean_all_get g a k : mean_all g = Ok a ->
  Dict.get k a = (match Dict.get k g with
                  | Some l => match fmean l with Ok x => Some x | Err _ => None end
                  | None => None end) /\ Dict.keys a = Dict.keys g.
Proof.
  revert a. induction g as [|[k' l] g IH]; intros a Ha; simpl in *; [by simplify_eq|].
  inv_result. simpl. edestruct IH as [Hg Hk]; [done|]. rewrite Hg, Hk. split; [|done].
  case_decide; [|done]. by match goal with E : fmean l = _ |- _ => rewrite E end.
Qed.

(** Every pair measured, and no other, has a mean: that of its own samples in their order. *)
Theorem aggregate_spec samples a k : aggregate samples = Ok a ->
  Dict.wf a /\
  match Dict.get k a with
  | Some x => seconds_of k samples <> [] /\ fmean (seconds_of k samples) = Ok x
  | None => seconds_of k samples = []
  end.
Proof.
  intros Ha. destruct (mean_all_get _ _ k Ha) as [Hg Hk]. split.
  { unfold Dict.wf. rewrite Hk. apply group_wf. }
  rewrite Hg, group_get. case_decide as E; [done|].
  destruct (fmean (seconds_of k samples)) eqn:Hf; [done|].
  exfalso. clear Hg Hk. unfold aggregate in Ha.
  pose proof (group_get samples k) as Hget. rewrite decide_False in Hget by done.
  revert a Ha Hget. generalize (group samples). intros g. induction g as [|[k' l] g IH]; [done|].
  intros a Ha. simpl in *. inv_result. case_decide; [|by eapply IH]. intros [= ->]. congruence.
Qed.

(** ** Ratios *)

Lemma per_backend_get a metric base b : Dict.wf a ->
  Dict.get b (per_backend a metric base) = (fun x => fdiv x base) <$> Dict.get (b, metric) a.
Proof.
  unfold per_backend. induction a as [|[[b' m'] x] a IH]; [done|]. intros Hwf.
  apply NoDup_cons in Hwf as [Hn Hwf]. simpl. destruct (decide (m' = metric)) as [->|Hm].
  - simpl. destruct (decide (b = b')) as [->|Hb].
    + by rewrite decide_True.
    + rewrite decide_False by congruence. by apply IH.
  - rewrite decide_False by congruence. by apply IH.
Qed.

Lemma ratios_lookup (a : means) metric (l : list string) : NoDup l ->
  Dict.get metric (omap (fun m => r ← metric_ratio a m; Some (m, r)) l) =
    if decide (metric ∈ l) then metric_ratio a metric else None.
Proof.
  set (F := fun m => r ← metric_ratio a m; Some (m, r)).
  induction l as [|m l IH]; [done|]. intros [Hm Hl]%NoDup_cons. specialize (IH Hl).
  assert (omap F (m :: l) = match F m with Some y => y :: omap F l | None => omap F l end) as -> by done.
  destruct (decide (metric = m)) as [->|Hne].
  - rewrite (decide_True (P := m ∈ m :: l)) by left. rewrite decide_False in IH by done.
    unfold F at 1. destruct (metric_ratio a m); simpl; [by rewrite decide_True|exact IH].
  - assert (Dict.get metric match F m with Some y => y :: omap F l | None => omap F l end =
            Dict.get metric (omap F l)) as ->.
    { unfold F at 1. destruct (metric_ratio a m); simpl; by rewrite ?decide_False. }
    rewrite IH. apply decide_ext. set_solver.
Qed.

(** The ratio of a backend is its mean over the host's mean of the same metric; there is
    one exactly when both were measured and the host's is not zero.  The order in which
    Python goes through the set of metrics does not matter. *)
Theorem compute_ratios_spec a metric b : set_order_ok -> Dict.wf a ->
  (r ← Dict.get metric (compute_ratios a); Dict.get b r) =
  match Dict.get (RATIO_BASELINE_BACKEND, metric) a with
  | Some base => if is_zero base then None else (fun x => fdiv x base) <$> Dict.get (b, metric) a
  | None => None
  end.
Proof.
  intros Ho Hwf. unfold compute_ratios. set (ms := remove_dups _).
  assert (NoDup ms) as Hms by apply NoDup_remove_dups.
  pose proof (Ho ms Hms) as Hp. rewrite ratios_lookup by by rewrite Hp.
  unfold metric_ratio. destruct (Dict.get (RATIO_BASELINE_BACKEND, metric) a) as [base|] eqn:Hb;
    [|by case_decide].
  assert (metric ∈ set_order ms) as Hin.
  { rewrite Hp. unfold ms. rewrite elem_of_remove_dups. apply list_elem_of_fmap.
    exists ((RATIO_BASELINE_BACKEND, metric), base). split; [done|]. by apply Dict.get_Some_elem. }
  rewrite decide_True by done. destruct (is_zero base); [done|]. simpl. by apply per_backend_get.
Qed.

(** The host is its own reference: whenever its mean is an ordinary number, its ratio is
    one. *)
Theorem host_ratio_is_one (a : means) metric s m e : set_order_ok -> Dict.wf a ->
  Dict.get (RATIO_BASELINE_BACKEND, metric) a = Some (S754_finite s m e) ->
  (r ← Dict.get metric (compute_ratios a); Dict.get RATIO_BASELINE_BACKEND r) = Some one.
Proof.
  intros Ho Hwf Hb. rewrite compute_ratios_spec by done. rewrite Hb.
  assert (is_zero (S754_finite s m e) = false) as -> by by destruct s.
  change (Some (fdiv (S754_finite s m e) (S754_finite s m e)) = Some one). by rewrite fdiv_self.
Qed.

(** ** Regressions *)

Lemma string_le_total a b : string_le a b \/ string_le b a.
Proof.
  unfold string_le, String.leb. rewrite (String.compare_antisym b a).
  destruct (String.compare a b); simpl; auto.
Qed.

Lemma insert_desc_perm r l : insert_desc r l ≡ₚ r :: l.
Proof.
  induction l as [|x l IH]; simpl; [done|]. destruct (fgt _ _); [|done]. rewrite IH. constructor.
Qed.

Lemma sorted_perm l : fold_right insert_desc [] l ≡ₚ l.
Proof. induction l as [|x l IH]; simpl; [done|]. by rewrite insert_desc_perm, IH. Qed.

(** Next to each other, the first is not exceeded by the second. *)
Definition not_exceeded (x y : Regression) : Prop := fgt (factor y) (factor x) = false.

Lemma insert_desc_sorted r l : Sorted not_exceeded l -> Sorted not_exceeded (insert_desc r l).
Proof.
  induction l as [|x l IH]; intros Hs; simpl; [by repeat constructor|].
  destruct (fgt (factor x) (factor r)) eqn:E.
  - inversion Hs as [|? ? Hs' Hh]; subst. constructor; [by apply IH|].
    destruct l as [|y l]; simpl; [constructor; by apply fgt_asym|].
    destruct (fgt (factor y) (factor r)); [by inversion Hh; constructor|].
    constructor. by apply fgt_asym.
  - constructor; [done|]. constructor. done.
Qed.

(** [detect_regressions] finds exactly the pairs of a metric and a backend that both maps
    have, whose baseline ratio is not zero and whose ratio grew by more than the factor,
    each with its growth, the largest growth first. *)
Theorem detect_regressions_spec current baseline limit r :
  Dict.wf current -> (forall m l, (m, l) ∈ current -> Dict.wf l) ->
  (r ∈ detect_regressions current baseline limit <->
   (l ← Dict.get (r_metric r) current; Dict.get (r_backend r) l) = Some (r_current r) /\
   (l ← Dict.get (r_metric r) baseline; Dict.get (r_backend r) l) = Some (r_baseline r) /\
   is_zero (r_baseline r) = false /\ factor r = fdiv (r_current r) (r_baseline r) /\
   fgt (factor r) limit = true) /\
  Sorted not_exceeded (detect_regressions current baseline limit).
Proof.
  intros Hc Hl. unfold detect_regressions. split.
  - rewrite sorted_perm. rewrite list_elem_of_In, in_concat. split.
    + intros (found & Hf & Hr). apply list_elem_of_In, list_elem_of_fmap in Hf as ([m now] & -> & Hin).
      destruct (Dict.get m baseline) as [before|] eqn:Hb; [|done].
      apply list_elem_of_In, list_elem_of_omap in Hr as ([b x] & Hbx & Hr).
      destruct (Dict.get b before) as [y|] eqn:Hy; [|done].
      destruct (is_zero y) eqn:Hz; [done|]. cbv zeta in Hr. destruct (fgt _ limit) eqn:Hg; [|done].
      injection Hr as <-. simpl. rewrite (Dict.elem_get _ _ _ Hc Hin), Hb. simpl.
      split_and!; [|done..]. by apply Dict.elem_get; [eapply Hl|].
    + intros (H1 & H2 & Hz & Hf & Hg).
      destruct (Dict.get (r_metric r) current) as [now|] eqn:Hn; [|done].
      destruct (Dict.get (r_metric r) baseline) as [before|] eqn:Hb; [|done]. simpl in *.
      exists (regressions_of limit (r_metric r) before now). split.
      * apply list_elem_of_In, list_elem_of_fmap. exists (r_metric r, now). rewrite Hb.
        split; [done|]. by apply Dict.get_Some_elem.
      * apply list_elem_of_In, list_elem_of_omap. exists (r_backend r, r_current r).
        split; [by apply Dict.get_Some_elem|]. rewrite H2, Hz. cbv zeta. rewrite <- Hf, Hg. by destruct r.
  - induction (concat _) as [|x l IH]; simpl; [constructor|]. by apply insert_desc_sorted.
Qed.

(** ** The report *)

(** Labels in the order of the table: the known ones as listed, the others sorted, none
    lost and none twice. *)
Theorem ordered_spec values preferred : NoDup preferred ->
  exists known extra, _ordered values preferred = known ++ extra /\
    sublist known preferred /\ Sorted string_le extra /\
    NoDup (_ordered values preferred) /\
    forall v, v ∈ _ordered values preferred <-> v ∈ values.
Proof.
  intros Hp. unfold _ordered. eexists _, _. split; [done|].
  assert (NoDup (merge_sort string_le (filter (fun v => v ∉ preferred) (remove_dups values)))) as Hx.
  { rewrite merge_sort_Permutation. apply NoDup_filter, NoDup_remove_dups. }
  split_and!.
  - apply sublist_filter.
  - apply Sorted_merge_sort. intros a b. apply string_le_total.
  - apply NoDup_app. split_and!; [by apply NoDup_filter| |done].
    intros v [_ Hv]%list_elem_of_filter. rewrite merge_sort_Permutation, list_elem_of_filter. tauto.
  - intros v. rewrite elem_of_app, merge_sort_Permutation, !list_elem_of_filter, elem_of_remove_dups.
    destruct (decide (v ∈ preferred)); tauto.
Qed.

Lemma print_all_run l s : say_all l s =
  (Ok tt, mkBench (b_files s) (b_texts s) (b_results s) (b_out s ++ l) (b_err s)).
Proof.
  revert s. induction l as [|t l IH]; intros s; simpl; [by rewrite app_nil_r; destruct s|].
  unfold say, modify, mbind, M_bind. rewrite IH. simpl. by rewrite <- app_assoc.
Qed.

(** A report that could read its samples succeeds, however slow they are: the exit code
    is 0, the samples files are as they were, and the warnings are the last lines
    printed, one for each regression. *)
Theorem report_never_gates args samples a regressions s s1 :
  load_samples (a_samples_file args) s = (Ok samples, s) -> aggregate samples = Ok a ->
  check_baseline (compute_ratios a) args s = (Ok regressions, s1) ->
  exists s2 printed, report args s = (Ok 0, s2) /\ b_files s2 = b_files s /\
    b_out s2 = b_out s1 ++ printed ++ map warning_line regressions.
Proof.
  intros Hl Ha Hb. assert (b_files s1 = b_files s) as Hf.
  { revert Hb. unfold check_baseline, mbind, M_bind, gets, lift, say, modify.
    destruct (given (a_baseline args)) as [p|]; [|by intros [= _ <-]].
    destruct (b_files s !! p); [|by intros [= _ <-]].
    destruct (load_samples p s) as [[l|e] s'] eqn:E; [|done]. apply load_state in E as ->.
    destruct (aggregate l); [|done]. by intros [= _ <-]. }
  unfold report. rewrite (M_bind_ok _ _ _ _ _ Hl), (M_bind_ok _ _ s a s) by (unfold lift; by rewrite Ha).
  cbv zeta. rewrite (M_bind_ok _ _ _ _ _ Hb). clear Hb.
  generalize (render_markdown a (compute_ratios a) regressions) as markdown.
  generalize (results_json a (compute_ratios a) regressions) as results.
  generalize (map warning_line regressions) as warnings. intros warnings results markdown.
  unfold mbind, M_bind, modify, say.
  destruct (given (a_results_out args)) as [p|];
    destruct (given match given (a_summary args) with Some p => Some p | None => _ end) as [q|];
    simpl; rewrite print_all_run; simpl.
  - eexists _, []. split; [reflexivity|]. split; [done|reflexivity].
  - eexists _, [markdown]. split; [reflexivity|]. split; [done|]. simpl. by rewrite <- app_assoc.
  - eexists _, []. split; [reflexivity|]. split; [done|reflexivity].
  - eexists _, [markdown]. split; [reflexivity|]. split; [done|]. simpl. by rewrite <- app_assoc.
Qed.

End ops.

(** ** A nightly run *)
Module Nightly.

#[export] Instance runner : BenchHost := {|
  str_of_value := fun _ => "?"; float_of_str := fun _ => None; set_order := fun l => rev l;
  run_command := fun argv s => (Some (if decide (argv = ["false"]) then 1 else 0), s);
  clock := fun _ => (float_of_Z 10, float_of_Z 40);
  now_iso := "2026-01-01T00:00:00+00:00"; environ := [] |}.

Lemma runner_order : set_order_ok.
Proof. intros l _. simpl. symmetry. apply Permutation_rev. Qed.

Definition rec (b : string) (x : Z) : BM Z := main (Record_ (mkRecord b "boot_seconds" (float_of_Z x) "now.json" (Some "r"))).
Definition base (b : string) (x : Z) : BM Z := main (Record_ (mkRecord b "boot_seconds" (float_of_Z x) "base.json" None)).
Definition empty_bench : bench := mkBench ∅ ∅ ∅ [] [].

(** Three backends; the emulated one grew from twice to five times the host. *)
Definition nightly : BM Z :=
  base "host" 10 ;; base "vm-tcg" 20 ;; rec "host" 20 ;; rec "host" 40 ;; rec "vm-tcg" 150 ;;
  main (Measure (mkMeasure "vm-kvm" "boot_seconds" "now.json" None ["--"; "boot"; "vm"])) ;;
  main (Measure (mkMeasure "vm-kvm" "boot_seconds" "now.json" None ["--"; "false"])) ;;
  main (Report (mkReport "now.json" (Some "base.json") (Some "results.json") (Some "summary.md")
                  DEFAULT_REGRESSION_FACTOR)).

Example nightly_run :
  let '(r, s) := nightly empty_bench in
  r = Ok 0 /\
  last (b_out s) = Some ("::warning title=Benchmark regression::vm-tcg/boot_seconds " +:+
    "host-normalized ratio grew 2.50x over baseline (5.00x vs 2.00x)") /\
  b_err s = ["bench: command failed (exit 1); not recording a sample"] /\
  (length <$> fst (load_samples "now.json" s)) = Ok 4%nat.
Proof. vm_compute. done. Qed.

Example nightly_table :
  let '(_, s) := nightly empty_bench in
  b_texts s !! "summary.md" = Some (join (of_chars [newline])
    ["## Host-vs-VM benchmark"; ""; "### Wall-time (seconds)"; "";
     "| metric | host | vm-kvm | vm-tcg |"; "| --- | --- | --- | --- |";
     "| boot_seconds | 30.0 | 30.0 | 150.0 |"; ""; "### Ratio vs `host`"; "";
     "| metric | host | vm-kvm | vm-tcg |"; "| --- | --- | --- | --- |";
     "| boot_seconds | 1.00x | 1.00x | 5.00x |"; "";
     "### :warning: 1 regression(s)"; "";
     "| backend | metric | baseline ratio | current ratio | factor |";
     "| --- | --- | --- | --- | --- |";
     "| vm-tcg | boot_seconds | 2.00x | 5.00x | 2.50x |"; ""]).
Proof. vm_compute. done. Qed.

End Nightly.
