(* ===== verification/AdbSample.v ===== *)
(** * Devices and micro-VMs on a concrete machine

    Answers of adb, a micro-VM row on the machine of [ApiSample], and the theorems of
    [AdbOps], [Health] and [VmOps] at work on them. *)
From stdpp Require Import base list strings gmap sorting relations.
From Stdlib Require Import ZArith QArith Lia.
From S2P Require Import Prelude PyStr Config Ports Registry RegistryOps Qemu Render HostFs Paths Compose Download ModulesDownload FridaDownload Snapshot SnapshotOps SnapshotForce Api ApiInv ApiOps ApiPeers ApiSpecs ApiVerbs ApiSample Shell Adb AdbOps Health VmOps.
Local Open Scope stdpp_scope.
Local Open Scope Z_scope.

Module AdbSample.
Import Sample DlSample FridaSample ApiSample ShellSample.

Lemma install_reaches_magisk_witness :
  su_words (DeviceShell := posix) [install_cmd 3] = ["magisk"; "--install-module"; "/data/local/tmp/beetroot-module-3.zip"].
Proof. exact (proj1 (proj2 (install_reaches_magisk (S := posix) 3))). Defined.

Lemma bare_query_is_split_witness :
  sent_query (S := posix) "localhost:5555" zygisk_sql false =
    ["magisk"; "--sqlite"; "SELECT"; "value"; "FROM"; "settings"; "WHERE"; "key=zygisk"].
Proof. exact (proj2 (bare_query_is_split (S := posix) "localhost:5555")). Defined.

(** Every call of this adb gives one answer. *)
Definition answering (e : run_end) : Adb := {|
  adb_found := true; frida_found := true; adb_run _ _ := e; terminal_run _ _ := Some 0 |}.
Definition deaf : Sockets := {| connects _ _ := false |}.
Definition phone : AdbDevice := mkAdb "phone" "emulator-5554" 27045.

Lemma adb_doctor_is_total_witness : exists rows h',
  adb_health (A := answering (Expired "" "")) (N := deaf) phone [] = (Ok rows, h') /\
  map fst rows = adb_row_names.
Proof. apply (adb_doctor_is_total (A := answering (Expired "" "")) (N := deaf) phone []). done. Defined.

Lemma undecodable_answer_escapes_witness :
  fst (adb_health (A := answering NotText) (N := deaf) phone []) = Err UndecodableOutput.
Proof. apply (undecodable_answer_escapes (A := answering NotText) (N := deaf) phone []); reflexivity. Defined.

(** ** A micro-VM whose configuration says [binder: auto] again *)

Definition gamma_row : InstanceMeta := mkInstanceMeta (VmBackendConfig "/home/gamma") 0 (stamp "t0").
Definition gamma_rows : list (string * InstanceMeta) := [("gamma", gamma_row)].
Definition gamma : VmDevice := mkVm "gamma" ["home"; "gamma"] InstanceConfig_default 0.
Definition gamma_world : world :=
  mkApi (mkHost (<[["home"; "gamma"] := DirN]> (<[["home"; "gamma"; "beetroot.yaml"] := FileN "api_version: 8"]> files0))
           (world_of (Some (Doc (_registry_to_json gamma_rows))))) None None [] 0 [] [].
Definition vm_facts : vm_host_facts := mkFacts "/k/bzImage" "/k/rootfs.img" id "x86_64" false "qemu-system-x86_64" true.

Lemma gamma_inv : data_inv gamma_rows.
Proof.
  change gamma_rows with ([] ++ [("gamma", gamma_row)]).
  apply data_inv_add; [apply data_inv_nil|reflexivity|..].
  - apply vm_ok.
  - by_decision.
  - split; vm_compute; congruence.
Qed.

Lemma gamma_holds : holds gamma_rows (w_reg gamma_world).
Proof. right. reflexivity. Qed.

Lemma vm_collision_agrees_witness :
  vm_check_port_collisions "delta" [mkResolvedPort None 80 5555] gamma_world =
  _check_port_collisions "delta" [mkResolvedPort None 80 5555] gamma_world.
Proof.
  apply (vm_collision_agrees gamma_rows gamma_world "delta" [mkResolvedPort None 80 5555] eq_refl (di_wf _ gamma_inv)).
Defined.

(** The row is a redroid row afterwards. *)
Lemma vm_apply_spec_witness : exists s' data' m',
  vm_apply vm_facts (mkVdev gamma gamma_world sample_host []) = (Ok tt, s') /\
  holds data' (w_reg (v_env s')) /\ Dict.get "gamma" data' = Some m' /\ row_follows binder_auto gamma_row m'.
Proof.
  pose proof (vm_apply_spec vm_facts gamma_rows gamma_row gamma gamma_world sample_host [] gamma_holds
    (di_wf _ gamma_inv) eq_refl eq_refl eq_refl ltac:(by_decision)) as H.
  assert (fst (vm_apply vm_facts (mkVdev gamma gamma_world sample_host [])) = Ok tt) as Hr by (vm_compute; reflexivity).
  assert (binder (v_cfg (v_self (snd (vm_apply vm_facts (mkVdev gamma gamma_world sample_host []))))) = binder_auto) as Hb
    by (vm_compute; reflexivity).
  destruct (vm_apply vm_facts (mkVdev gamma gamma_world sample_host [])) as [[[]|e] s']; [|discriminate].
  destruct H as (_ & data' & m' & H1 & H2 & H3 & _). exists s', data', m'. simpl in Hb. rewrite Hb in H3.
  split_and!; [reflexivity|exact H1|exact H2|exact H3].
Defined.

Lemma vm_destroy_spec_witness : exists s',
  vm_destroy (os := sample_os 1000) true (mkVdev gamma gamma_world running_host []) = (Ok tt, s') /\
  holds [] (w_reg (v_env s')) /\ w_fs (v_env s') !! ["home"; "gamma"; "beetroot.yaml"] = None.
Proof.
  pose proof (vm_destroy_spec (os := sample_os 1000) (OL := Qemu.sample_laws 1000) gamma_rows gamma gamma_world
    running_host [] gamma_holds (di_wf _ gamma_inv) ltac:(left; vm_compute; reflexivity)) as H.
  assert (fst (vm_destroy (os := sample_os 1000) true (mkVdev gamma gamma_world running_host [])) = Ok tt) as Hr
    by (vm_compute; reflexivity).
  destruct (vm_destroy (os := sample_os 1000) true (mkVdev gamma gamma_world running_host [])) as [[[]|e] s'];
    [|discriminate].
  destruct H as (H1 & _ & H3). exists s'. split_and!; [reflexivity|exact H1|]. rewrite H3. reflexivity.
Defined.
End AdbSample.
