(* ===== verification/CliSample.v ===== *)
(** * The command line on a concrete machine

    A registry with two containers, a phone and a micro-VM whose directory is gone, and the
    theorems of [Backends], [CliOps] and [CliVerbs] at work on it. *)
From stdpp Require Import base list strings gmap sorting relations.
From Stdlib Require Import ZArith QArith Lia Ascii.
From S2P Require Import Prelude PyStr Config Ports Registry RegistryOps Qemu BootCache VmBackend Survey Render HostFs Paths Compose Download ModulesDownload FridaDownload RootfsDownload Snapshot SnapshotOps SnapshotForce Api ApiInv ApiOps ApiPeers ApiSpecs ApiVerbs ApiSample Shell Adb Health VmOps AdbSample Backends CliBase Cli CliOps CliVerbs.
Local Open Scope stdpp_scope.
Local Open Scope Z_scope.

Module CliSample.
Import Sample DlSample FridaSample ApiSample AdbSample.

(** ** Interfaces *)

#[export] Instance no_plugins : Plugins := {| entry_points := []; plugin_accepts _ _ _ := false |}.
#[export] Instance no_operations : PluginOps := {|
  plugin_can _ _ := false; plugin_op _ verb := raise (FromPlugin verb); plugin_health _ := mret [];
  plugin_adb_address _ := ""; plugin_frida_address _ := ""; plugin_available _ := false |}.
#[export] Instance cli_os : OS := sample_os 1000.
#[export] Instance cli_os_laws : OSLaws cli_os := Qemu.sample_laws 1000.
#[export] Instance cli_tools : Tools := sample_tools None.
#[export] Instance cli_guest : Guest := {|
  adb_connect _ := None; getprop _ := None; adb_on_path := true; VmBackend.machine := "x86_64";
  dev_kvm_usable := false; affinity := None; cpu_count := None; cpuinfo := None; expanduser_resolve := id |}.
(** A device that is not listed: every call of adb fails. *)
#[export] Instance offline : Adb := answering (Finished 1 "" "error: device offline").
#[export] Instance cli_sockets : Sockets := deaf.

Definition here : surroundings :=
  mkSurroundings (mkVmSettings "qemu-system-x86_64" "" "" 60) id true (mkBinderStatus ready "" "")
    (mkProbes true (Some 0) true true "x86_64" false true None None None) 100 "1.0" "2026-01-01T00:00:00Z".
Definition now : datetime := stamp "t1".

(** ** The machine *)

Definition rows : list (string * InstanceMeta) :=
  [row "alpha" 0; row "beta" 1;
   ("phone", mkInstanceMeta (AdbBackendConfig "emulator-5554") 2 (stamp "t0"));
   ("gamma", mkInstanceMeta (VmBackendConfig "/home/gamma") 3 (stamp "t0"))].

Lemma rows_inv : data_inv rows.
Proof.
  change rows with (((([] ++ [row "alpha" 0]) ++ [row "beta" 1]) ++
    [("phone", mkInstanceMeta (AdbBackendConfig "emulator-5554") 2 (stamp "t0"))]) ++
    [("gamma", mkInstanceMeta (VmBackendConfig "/home/gamma") 3 (stamp "t0"))]).
  repeat apply data_inv_add; try apply data_inv_nil; try apply row_ok; try apply adb_ok; try apply vm_ok;
    try reflexivity; try (split; vm_compute; congruence); by_decision.
Qed.

Definition files : HostFs.fs :=
  <[["home"; "m.zip"] := FileN "zip"]> (<[["home"; "beta"; "data"; "seed"] := DirN]> (<[["home"; "beta"; "data"] := DirN]> (w_fs w2))).
Definition machine_env : Api.world :=
  mkApi (mkHost files (world_of (Some (Doc (_registry_to_json rows))))) None None [] 0 [] [].

(** The entry points have been loaded. *)
Definition loaded : backends := snd (get_backend "redroid" imported).
Definition state (answers : list bool) : cli :=
  mkCli (mkFleet machine_env loaded) [] [] (fun _ => sample_vmw) [] answers.

Lemma settled_state answers : settled rows (state answers).
Proof. split; [reflexivity|apply (di_wf _ rows_inv)|vm_compute; reflexivity]. Qed.

(** ** The registry of backends *)

Lemma builtin_kinds_stay_witness : Dict.get "vm" (_BACKEND_REGISTRY loaded) = Some VmDeviceClass.
Proof.
  apply (builtin_kinds_stay loaded). apply rtc_once. constructor.
Defined.

(** Plug-in 1 claims the kind of the package. *)
Definition greedy : Plugins := {| entry_points := [("adb", Some (PluginClass 1 true))]; plugin_accepts _ _ _ := true |}.

Lemma collision_hides_first_row_witness : exists b1 l,
  manager_resolve (G := greedy) "alpha" (mkFleet machine_env imported) =
    (Err (FBackend (KindTaken "adb")), mkFleet machine_env b1) /\
  manager_all (G := greedy) (mkFleet machine_env imported) = (Ok l, mkFleet machine_env b1) /\
  map device_name l = ["beta"; "phone"].
Proof.
  destruct (collision_hides_first_row (G := greedy) rows machine_env eq_refl (di_wf _ rows_inv) "alpha"
    (row "alpha" 0).2 ["beta"; "gamma"; "phone"] (KindTaken "adb") (set_loaded true imported) eq_refl eq_refl
    ltac:(intros k raw; discriminate) ltac:(vm_compute; reflexivity)) as (Hr & _ & Ha).
  eexists _, _. split; [exact Hr|]. split; [exact Ha|]. vm_compute. reflexivity.
Defined.

(** ** Gates *)

Lemma phone_resolves answers : backend_now (state answers) "phone" = Ok (AdbKind (mkAdb "phone" "emulator-5554" 27062)).
Proof. vm_compute. reflexivity. Qed.

(** A phone has no lifecycle. *)
Lemma unsupported_verb_refused_witness : refused (cli_destroy "phone" true) (state []).
Proof.
  destruct (unsupported_verb_refused here rows (state []) "phone" _ (settled_state []) (phone_resolves [])) as [H _].
  specialize (H eq_refl). rewrite Forall_forall in H. apply H. by do 5 right; left.
Defined.

Lemma declined_changes_nothing_witness : same_host (state [false]) (snd (cli_destroy "alpha" false (state [false]))).
Proof.
  exact (proj1 (declined_changes_nothing rows (state [false]) "alpha" (settled_state [false])
    (or_intror (ex_intro _ [] eq_refl)))).
Defined.

Lemma all_selects_capable_witness : exists s', _resolve_lifecycle_names [] true "down" (state []) = (Ok ["alpha"; "beta"], s').
Proof.
  pose proof (all_selects_capable rows (state []) "down" (settled_state [])) as H. cbv zeta in H.
  destruct (_resolve_lifecycle_names [] true "down" (state [])) as [r s'] eqn:Hr.
  assert (fst (_resolve_lifecycle_names [] true "down" (state [])) = Ok ["alpha"; "beta"]) as Hv by (vm_compute; reflexivity).
  rewrite Hr in Hv. simpl in Hv. subst r. exists s'. destruct H as (_ & _ & _ & _). reflexivity.
Defined.

(** A configuration that asks for the micro-VM engine. *)
Definition vm_externals : Externals := {|
  parse_config s := Some (mkInstanceConfig SUPPORTED_API_VERSION durable Android_default Display_default Resources_default
    None [] Magisk_default _default_port_mappings binder_vm Vm_default);
  manifest_of_json := @manifest_of_json machine_externals; read_archive := @read_archive machine_externals;
  write_archive := @write_archive machine_externals; header_bytes := @header_bytes machine_externals;
  eof_bytes := @eof_bytes machine_externals; Snapshot.float_repr := @Snapshot.float_repr machine_externals;
  render_node := false; cwd := ["home"]; remains _ _ := [] |}.

Lemma restart_skips_up_guard_witness : exists s',
  main (cli_up (X := vm_externals) here ["alpha"] false false) (state []) = (ExitCode 1, s') /\ only_output (state []) s'.
Proof.
  assert (exists i, backend_now (X := vm_externals) (state []) "alpha" = Ok (Redroid i) /\ binder (i_cfg i) = binder_vm)
    as (i & Hi & Hb) by (eexists; split; [vm_compute; reflexivity|reflexivity]).
  exact (proj1 (restart_skips_up_guard (X := vm_externals) here rows (state []) "alpha" i (settled_state []) Hi Hb)).
Defined.

(** ** Exit codes *)

Lemma shell_exit_code_witness : exists s1,
  main (cli_shell "phone" ["true"]) (state []) = (ExitCode 0, s1).
Proof.
  destruct (device_shell (AdbKind (mkAdb "phone" "emulator-5554" 27062)) ["true"] (state [])) as [r s1] eqn:Hs.
  assert (r = Ok 0) as ->.
  { change r with (fst (r, s1)). rewrite <- Hs. vm_compute. reflexivity. }
  exists s1. exact (proj1 (shell_exit_code rows (state []) "phone" _ ["true"] 0 s1 (settled_state []) (phone_resolves []) Hs)).
Defined.

Lemma doctor_exit_code_witness : exists s' code, main (doctor here "phone") (state []) = (ExitCode code, s') /\ code <> 0.
Proof.
  destruct (device_health here (AdbKind (mkAdb "phone" "emulator-5554" 27062)) (state [])) as [r s1] eqn:Hh.
  assert (match r with Ok l => existsb (fun r => is_failed r.2) l | Err _ => false end = true) as Hl.
  { change r with (fst (r, s1)). rewrite <- Hh. vm_compute. reflexivity. }
  destruct r as [l|e]; [|discriminate].
  destruct (doctor_exit_code here rows (state []) "phone" _ l s1 (settled_state []) (phone_resolves []) eq_refl Hh)
    as (s' & code & Hm & _ & _ & Hz).
  exists s', code. split; [exact Hm|]. intros Hc. apply Hz in Hc.
  apply existsb_exists in Hl as (r & Hin & Hr). rewrite Forall_forall in Hc.
  rewrite (Hc r) in Hr by (by apply list_elem_of_In). discriminate.
Defined.

(** ** Creating and destroying *)

Lemma files_wf : fs_wf files.
Proof. apply fs_wfb_ok. vm_compute. reflexivity. Qed.

(** [create delta --path beta --from-data beta/data/seed], were beta's row not there. *)
Definition forgotten : cli :=
  mkCli (mkFleet (mkApi (mkHost (delete ["home"; "beta"; "beetroot.yaml"] files) (world_of (Some (Doc (_registry_to_json rows)))))
    None None [] 0 [] []) loaded) [] [] (fun _ => sample_vmw) [] [].

Lemma create_deletes_its_source_witness : exists s',
  main (cli_create here now "delta" (Some "beta") (Some "beta/data/seed") None None) forgotten = (ExitCode 1, s') /\
  cli_fs s' !! ["home"; "beta"; "data"; "seed"] = None.
Proof.
  destruct (create_deletes_its_source here now rows forgotten "delta" (Some "beta") "beta/data/seed") as (s' & Hm & _ & Hfs).
  - split; [reflexivity|apply (di_wf _ rows_inv)|vm_compute; reflexivity].
  - apply fs_wfb_ok. vm_compute. reflexivity.
  - reflexivity.
  - reflexivity.
  - vm_compute. reflexivity.
  - vm_compute. reflexivity.
  - by_decision.
  - reflexivity.
  - exists s'. split; [exact Hm|]. rewrite Hfs. vm_compute. reflexivity.
Defined.

Lemma destroy_ends_clean_witness : exists s',
  main (cli_destroy "gamma" true) (state []) = (ExitCode 0, s') /\ holds (take 3 rows) (w_reg (c_env s')).
Proof.
  pose proof (destroy_ends_clean rows (state []) "gamma" (mkInstanceMeta (VmBackendConfig "/home/gamma") 3 (stamp "t0"))
    "/home/gamma" (settled_state []) files_wf eq_refl eq_refl
    ltac:(intros id n k; vm_compute; discriminate) ltac:(intros c; vm_compute; discriminate)) as H.
  assert (fst (main (cli_destroy "gamma" true) (state [])) = ExitCode 0) as He by (vm_compute; reflexivity).
  destruct (main (cli_destroy "gamma" true) (state [])) as [e s']. simpl in He. subst e.
  exists s'. split; [reflexivity|]. destruct H as [[_ [Hh _]]|[[He _]|[He _]]]; [exact Hh|by destruct He..].
Defined.

(** Some of the directory cannot be removed: the command fails, the row is gone, and the
    rest of the directory is still there. *)
Definition stubborn_externals : Externals := {|
  parse_config := @parse_config machine_externals;
  manifest_of_json := @manifest_of_json machine_externals; read_archive := @read_archive machine_externals;
  write_archive := @write_archive machine_externals; header_bytes := @header_bytes machine_externals;
  eof_bytes := @eof_bytes machine_externals; Snapshot.float_repr := @Snapshot.float_repr machine_externals;
  render_node := false; cwd := ["home"]; remains _ p := [p ++ ["beetroot.yaml"]] |}.

Example destroy_half_done :
  let '(e, s') := main (cli_destroy (X := stubborn_externals) "alpha" true) (state []) in
  e <> ExitCode 0 /\ reg (w_reg (c_env s')) = Some (Doc (_registry_to_json (drop 1 rows))) /\
  node_at (cli_fs s') ["home"; "alpha"] = Some DirN /\
  cli_fs s' !! ["home"; "alpha"; "beetroot.yaml"] = Some (FileN _MINIMAL_BEETROOT_YAML) /\
  cli_fs s' !! ["home"; "alpha"; ".env"] = None.
Proof. vm_compute. split_and!; done. Qed.

Lemma vm_orphan_not_listed_witness : exists l o, _ls_rows (state []) = (Ok l, state []) /\
  on_api list_orphans (state []) = (Ok o, state []) /\ "gamma" ∉ map (fun r => r.1.1) l /\ "gamma" ∉ o.
Proof.
  apply (vm_orphan_not_listed rows (state []) "gamma" (mkInstanceMeta (VmBackendConfig "/home/gamma") 3 (stamp "t0"))
    "/home/gamma" (settled_state []) eq_refl eq_refl); vm_compute; reflexivity.
Defined.

Lemma failed_push_escapes_witness : exists argv s',
  main (cli_module "phone" ["m.zip"] [] false) (state []) =
    (Traceback (OfAdb (CommandFailed argv 1 "error: device offline")), s').
Proof.
  destruct (failed_push_escapes (A := offline) here rows (state []) "phone" _ 1 "" "error: device offline" (settled_state [])
    (phone_resolves []) eq_refl ltac:(discriminate) ltac:(reflexivity)) as [_ H].
  destruct (H "m.zip") as (argv & s' & Hm); [vm_compute; reflexivity..|]. exists argv, s'. exact Hm.
Defined.
End CliSample.
